(* ===== verification/_CoqProject ===== *)
-Q . S2P
Prelude.v
Endian.v
ByteArray.v
Codec.v
Timer.v
FdManager.v
Fiber.v
Scheduler.v
IOManager.v
Text.v
Address.v
Socket.v
Stream.v
SocketStream.v
Http.v
Servlet.v
Grammar.v
Http11Parser.v
HttpParser.v
RequestGrammar.v
HttpRoundtrip.v
HttpClientParser.v
ResponseParser.v
ResponseRoundtrip.v
ResponseGrammar.v
HttpSession.v
HttpServe.v
TcpServer.v
EchoServer.v
Hook.v
HookWake.v
LexicalCast.v
Config.v
Settings.v
LogFormatter.v
Log.v
LogConfig.v
Thread.v
Util.v
