(* ===== verification/Prelude.v ===== *)
(** * cool: a verification of the C++ server library

    cool (src/src/) is a server framework: a scheduler runs fibers on a pool of
    threads, an I/O manager suspends a fiber until a descriptor is ready or a
    timer expires, and on top of these are sockets, byte streams, a TCP server
    and an HTTP server.  This library models the program as executable Rocq
    functions and proves what its parts promise.

    ** The parts and the files

    - [Prelude] (this file): the command monads [cmd S A] of a method with state
      [S] (a value, an exception with the state reached, or a failure: an
      [ASSERT] of src/src/macro.h, undefined behaviour, exhausted fuel), machine
      integers ([u32], [u64], [s32], [s64], [swrap]), the tactics and hint
      databases, and lemmas on lists and integers.
    - [Endian] (src/src/endian.h): the byte swaps and the byte images of integers.
    - [ByteArray] (src/src/bytearray.cpp): the chain of memory nodes, every
      operation on it, files and iovecs.  [Codec] (same file): fixed integers,
      zigzag, varints, floats, strings.
    - [Timer] (src/src/timer.cpp): timers in a store and the set ordered by
      deadline; each critical section is one step (the expiry scan has two).
    - [FdManager] (src/src/fd_manager.cpp): descriptor contexts.
    - [Fiber] (src/src/fiber.cpp): the fiber state machine and context switches;
      [Scheduler] (src/src/scheduler.cpp): the queue and the worker loop, cut at
      the points where control leaves it, with a step relation for all
      interleavings of workers; [IOManager] (src/src/iomanager.cpp): the table of
      contexts, the registration and withdrawal of events and the body of the
      event loop, over the states of [Scheduler] and [Timer]; the growth of the
      table and the registration are steps of their own.
    - [Text]: what the printed texts share.  [Address] (src/src/address.cpp): the
      address classes as memory images, comparison, printing, masks, look-up.
    - [Socket] (src/src/socket.cpp): socket objects over a history of system
      calls, and pools of them with an account of their descriptors.  [Stream] (src/src/stream.cpp): the stream interface as a class and
      the fixed-size loops over it; [SocketStream] (src/src/socket_stream.cpp):
      its instance on a socket.
    - [TcpServer] (src/src/tcp_server.cpp): the server over a store of shared
      sockets, as a step relation.
    - [Http] (src/src/http/http.cpp): methods, statuses, maps with
      case-insensitive keys, requests, responses and their texts.  [Servlet]
      (src/src/http/servlet.cpp): the dispatcher.
    - [Http11Parser] and [HttpClientParser] (the .rl.cpp files): the two automata
      that Ragel generated, state by state; [HttpParser] and [ResponseParser]:
      the actions, the callbacks and the parser objects around them
      (src/src/http/http_parser.cpp); [HttpRoundtrip] and [ResponseRoundtrip]: the
      automata on printed messages, and the first on any request a client may
      write ([message]).  [Grammar]: regular expressions as Ragel has
      them, their languages and derivatives, and the check that an automaton
      recognises one; [RequestGrammar] and [ResponseGrammar] (the .rl files): the
      productions of the two grammars and the automata against them.
    - [HttpSession] (src/src/http/http_session.cpp, http_server.cpp): a session
      and the loop of the HTTP server, over any stream; [HttpServe]: the same over
      [SocketStream] and [Socket], down to the system calls.
    - [EchoServer] (src/samples/echo_server.cpp): the sample, a client of
      [TcpServer], [Socket] and [ByteArray].
    - [Hook] (src/src/hook.cpp): every hooked call over the states of [IOManager],
      [Timer], [Fiber] and [FdManager], cut where the fiber is suspended; [HookWake]:
      all interleavings of hooked calls, events and timers as a step relation, the
      calls cut again between the setting of the timer and the registration of the
      event (and the parts proved to be [Hook]'s functions).
    - [LexicalCast] and [Config] (src/src/config.h, config.cpp): the conversions of
      configuration values, over yaml-cpp as a class with laws; variables with
      their listeners in a store, the registry, and the loading of a document.
      [Settings]: the static variables of src/src/http/http_parser.cpp and
      src/src/hook.cpp that follow configuration variables.
    - [LogFormatter], [Log] and [LogConfig] (src/src/log.cpp): the parser of patterns
      and the text of an event; appenders, loggers and their manager, with the
      spin locks they take; the definitions of loggers in a configuration and the
      listener that applies them.
    - [Thread] (src/src/thread.h, thread.cpp): the locks and the scoped locks over a
      class of locks, and the start of a thread, both as step relations.  [Util]
      (src/src/util.cpp): the clocks and the backtraces.

    A record is a class, its fields the members under their names, and a function
    a method under its name (an underscore where the name is taken, as in [bind_],
    [done_]).  Objects that are shared by pointer (timers, fibers, descriptor
    contexts, sockets, configuration variables, loggers) are kept in stores and named by address.  Each mapping of a
    definition to source lines is in PROJECT.json.

    ** What the theorems show

    - Composition: a well-formed request, its header lines in any order, that arrives
      over a stream in one piece is parsed, dispatched and answered
      ([handle_client_outcome]); what is refused ends the session
      ([recvRequest_null]); on a socket this is one recv, sends that transfer the
      text of the response and one close ([serve_outcome]); the sample prints what
      its client sends ([echo_outcome]).
    - Parsing: printing and parsing are inverse for requests and responses of the
      grammar ([request_roundtrip], [response_roundtrip]); on arbitrary bytes in
      arbitrary pieces the request parser hands its callbacks only ranges inside the
      data, stays within its block and fails no assertion ([execute_safe]); the generated automata recognise exactly the
      grammars they were generated from, a call stops at the end of the first word
      or in front of the first byte that cannot belong to one ([request_grammar],
      [response_grammar]).
    - Resources: the server's open descriptors are those of the sockets it still
      points to and those that its sockets refused ([server_owns]); every descriptor
      of any number of socket objects is accounted for ([socket_balance]); binding is all or nothing ([bind_outcome]).
    - Scheduling: the counters are the numbers they stand for in every
      interleaving ([sched_counters], [iomanager_inv], [fiber_identity]), a task
      goes through its cycle ([task_cycle], [fiber_switch], [pick_outcome]), an
      idle fiber ends only when nothing is left at that moment ([idle_outcome],
      [stopping_outcome]), and the event operations do on every branch what they
      promise ([addEvent_outcome], [withdraw_outcome], [handle_event_outcome]).
    - Timers: the set stays ordered and no method erases [end()], and the one section
      that may be undefined is named ([timer_safe]); expiry and rescheduling behave as specified.
    - Buffers: the representation invariant of [ByteArray] ([reachable_wf]), its
      reads and writes on every branch, and the round trip of sequences of
      typed values ([serialize_roundtrip]); the fixed-size loops of streams end
      and lose nothing.
    - Addresses, headers, dispatching and descriptor contexts, each against its
      functional specification.
    - Hooks: a call that would block registers for the event and for its timeout,
      and gives up the thread ([blocking_outcome]); it goes on with the result when
      the event comes ([ready_outcome]) or fails with ETIMEDOUT ([timeout_outcome]);
      in every interleaving a suspended fiber is registered in exactly one place
      that can wake it ([wake_once]; its timeout may be lost, [timeout_lost]); the flags a user sets come back
      ([flags_roundtrip]).
    - Configuration: names keep their variables and variables their types
      ([registry_outcome]), a change calls the listeners before it happens
      ([set_value_outcome]), loading a document ends and sets exactly what the
      document says ([load_outcome]), and values survive printing and reading
      ([cast_roundtrip]); the settings keep the values of their variables
      ([settings_follow]).
    - Logging: patterns mean what they are written as ([pattern_outcome]); the
      operations on loggers neither deadlock nor follow a null pointer
      ([loggers_safe]), and an event reaches exactly its appenders ([log_outcome]); a new configuration text is applied
      ([logs_applied]) and definitions survive printing and reading
      ([defines_roundtrip]).
    - Threads: guards exclude each other, can always be released, and then let others
      in ([lock_exclusion]); a thread object is complete once its constructor has
      returned, and used by the thread later only through its callback
      ([start_outcome]).

    Where the code does not do what it means to, the theorem states what it does,
    and the finding is listed in PROJECT.json.

    ** Bounds and fuel

    Loops whose recursion is not structural take fuel, and a theorem that a result
    is produced gives the fuel: the copy loops of [ByteArray] get the size plus
    one (each round but the last copies at least a byte); [CountBytes] gets 33
    (each round clears a bit of a 32-bit number); the fixed-size loops of [Stream]
    need more than the length (each round but the last makes progress); the loops
    of [HttpSession] take one unit per round.  Machine integers wrap where the
    code's do.  The round trips of messages ask for texts shorter than 2^31 bytes
    (the parser asserts that lengths fit an [int]) and for a block with 11 bytes
    behind the data, since the callbacks compare method and version names beyond
    the end of the token.  The pattern parser gets the length of the pattern plus
    one (each round moves on by a character), [Logger::log] gets 3 (the third call
    takes a lock that is held), loading a document gets more than its height, and
    a hooked call one unit for every try that a signal interrupts.  The check of an
    automaton against a grammar gets 9000 moves, which the pairs of a state and its
    expressions do not use up (running out would fail the check); the handler of
    [EchoServer] takes one unit per piece, and one for the end.

    ** What is a parameter

    The kernel (system calls, epoll, fstat, the resolver), [boost::lexical_cast],
    yaml-cpp, the order of unordered containers, [strftime], [vasprintf], [fnmatch], the clock, the contents of fresh memory, the sizes a parser is given.
    Theorems hold for every value of them, or under documented behaviour named as
    a hypothesis.

    ** Not modelled

    [hook_init], which looks up the addresses of the system calls;
    the wording of the messages that the code logs about itself; the weak memory
    model (each critical section or atomic access is one step); the destructors
    that only free memory; servlets that throw, and listeners of configuration
    variables that set other variables; a growth of the table of contexts that comes
    so late that it shrinks it, in the step relations (what it does is in
    [resize_shrinks]); the positions of actions within the productions of the
    .rl files (the actions are those of the generated code); [main] of the sample,
    which schedules [run] on an I/O manager; the tests. *)

From stdpp Require Import prelude.
From Stdlib Require Import ZArith Lia.

(** ** Effects

    C++ code of the library reads and writes an object, returns a value, throws
    exceptions, fails an [ASSERT] (src/src/macro.h), or runs into behaviour the
    language leaves undefined (null dereference, out-of-bounds copy, signed
    overflow).  [cmd S A] is the computation of a method with state [S]: an
    exception keeps the state reached when it was thrown. *)
Inductive exn :=
  | out_of_range
  | logic_error
  | invalid_argument
  | length_error
  | bad_function_call
  | conversion_error.

Inductive failure :=
  | AssertFail
  | Undef
  | OutOfFuel.

Inductive res (S A : Type) :=
  | Ok (a : A) (s : S)
  | Throw (e : exn) (s : S)
  | Fail_ (f : failure).
Arguments Ok {S A} _ _.
Arguments Throw {S A} _ _.
Arguments Fail_ {S A} _.

#[export] Instance exn_eq_dec : EqDecision exn.
Proof. solve_decision. Defined.
#[export] Instance failure_eq_dec : EqDecision failure.
Proof. solve_decision. Defined.

Definition cmd (S A : Type) : Type := S -> res S A.

Definition ret {S A} (a : A) : cmd S A := fun s => Ok a s.
Definition throw {S A} (e : exn) : cmd S A := fun s => Throw e s.
Definition fail {S A} (f : failure) : cmd S A := fun _ => Fail_ f.
Definition gets {S A} (f : S -> A) : cmd S A := fun s => Ok (f s) s.
Definition modify {S} (f : S -> S) : cmd S unit := fun s => Ok tt (f s).
Definition bind {S A B} (m : cmd S A) (k : A -> cmd S B) : cmd S B :=
  fun s => match m s with
           | Ok a s' => k a s'
           | Throw e s' => Throw e s'
           | Fail_ f => Fail_ f
           end.
Definition assert_ {S} (b : bool) : cmd S unit :=
  if b then ret tt else fail AssertFail.
Definition require {S} (b : bool) : cmd S unit :=
  if b then ret tt else fail Undef.

Declare Scope cmd_scope.
Delimit Scope cmd_scope with cmd.
Notation "'let*' x := m 'in' k" := (bind m (fun x => k))
  (at level 10, x binder, m at level 100, k at level 200) : cmd_scope.
Notation "m ;;; k" := (bind m (fun _ => k))
  (at level 199, right associativity) : cmd_scope.
Open Scope cmd_scope.

Lemma bind_assoc {S A B C} (m : cmd S A) (f : A -> cmd S B) (g : B -> cmd S C) s :
  bind (bind m f) g s = bind m (fun x => bind (f x) g) s.
Proof. unfold bind. by destruct (m s). Qed.

Lemma bind_Ok {S A B} (m : cmd S A) (k : A -> cmd S B) s x s' :
  bind m k s = Ok x s' -> exists y s1, m s = Ok y s1 /\ k y s1 = Ok x s'.
Proof. unfold bind. destruct (m s); [eauto|done|done]. Qed.
Lemma require_Ok {S} b (s : S) u s' : require b s = Ok u s' -> b = true /\ s' = s.
Proof. destruct b; [|done]. by intros [= _ <-]. Qed.
Lemma assert_Ok {S} b (s : S) u s' : assert_ b s = Ok u s' -> b = true /\ s' = s.
Proof. destruct b; [|done]. by intros [= _ <-]. Qed.

(** Decomposes a hypothesis that a sequence of commands succeeds. *)
Ltac inv_bind H :=
  match type of H with
  | bind _ _ _ = Ok _ _ =>
    let y := fresh "y" in let s1 := fresh "s" in let H1 := fresh "H" in
    apply bind_Ok in H as (y & s1 & H1 & H)
  end.

(** [keeps I m]: [m] preserves the invariant [I], also when it throws. *)
Definition keeps {S A} (I : S -> Prop) (m : cmd S A) : Prop :=
  forall s, I s -> match m s with Ok _ s' | Throw _ s' => I s' | Fail_ _ => True end.

Section keeps.
Context {S : Type} (I : S -> Prop).

Lemma keeps_ret {A} (a : A) : keeps I (ret a).
Proof. by intros s Hs. Qed.
Lemma keeps_gets {A} (f : S -> A) : keeps I (gets f).
Proof. by intros s Hs. Qed.
Lemma keeps_throw {A} e : keeps I (throw e : cmd S A).
Proof. by intros s Hs. Qed.
Lemma keeps_fail {A} f : keeps I (fail f : cmd S A).
Proof. by intros s Hs. Qed.
Lemma keeps_require b : keeps I (require b).
Proof. by destruct b; intros s Hs. Qed.
Lemma keeps_assert b : keeps I (assert_ b).
Proof. by destruct b; intros s Hs. Qed.
Lemma keeps_bind {A B} (m : cmd S A) (k : A -> cmd S B) :
  keeps I m -> (forall a, keeps I (k a)) -> keeps I (bind m k).
Proof.
  intros Hm Hk s Hs. unfold bind. specialize (Hm s Hs). destruct (m s); try done. by apply Hk.
Qed.
Lemma keeps_if {A} (P : Prop) (d : Decision P) (m1 m2 : cmd S A) :
  keeps I m1 -> keeps I m2 -> keeps I (if d then m1 else m2).
Proof. by destruct d. Qed.
End keeps.

Create HintDb keeps.
#[export] Hint Resolve keeps_ret keeps_gets keeps_throw keeps_fail keeps_require keeps_assert : keeps.
#[export] Hint Extern 2 (keeps _ (bind _ _)) => apply keeps_bind; [|intros ?] : keeps.
#[export] Hint Extern 2 (keeps _ (if _ then _ else _)) => apply keeps_if : keeps.

(** ** Machine integers: a w-bit value is a [Z], the wrap-around is written out. *)
Definition wrap (w : Z) (z : Z) : Z := (z mod 2 ^ w)%Z.
Definition swrap (w : Z) (z : Z) : Z :=
  let u := wrap w z in
  if decide (u < 2 ^ (w - 1))%Z then u else (u - 2 ^ w)%Z.

Abbreviation u8 := (wrap 8).
Abbreviation u16 := (wrap 16).
Abbreviation u32 := (wrap 32).
Abbreviation u64 := (wrap 64).
Abbreviation s32 := (swrap 32).
Abbreviation s64 := (swrap 64).

Definition in_u (w z : Z) : Prop := (0 <= z < 2 ^ w)%Z.
Definition in_s (w z : Z) : Prop := (- 2 ^ (w - 1) <= z < 2 ^ (w - 1))%Z.
Definition in_sb (w z : Z) : bool := bool_decide (in_s w z).

Lemma wrap_id w z : in_u w z -> wrap w z = z.
Proof. intros H. unfold wrap. by apply Z.mod_small. Qed.

Lemma wrap_in_u w z : (0 <= w)%Z -> in_u w (wrap w z).
Proof. intros Hw. unfold in_u, wrap. apply Z.mod_pos_bound. lia. Qed.

Lemma swrap_id w z : (1 <= w)%Z -> in_s w z -> swrap w z = z.
Proof.
  intros Hw [H1 H2]. unfold swrap, wrap.
  assert (2 ^ w = 2 * 2 ^ (w - 1))%Z as E.
  { rewrite <- Z.pow_succ_r by lia. f_equal. lia. }
  destruct (decide (0 <= z)%Z) as [Hp|Hn].
  - rewrite Z.mod_small by lia. by rewrite decide_True by lia.
  - assert (z mod 2 ^ w = z + 2 ^ w)%Z as ->.
    { symmetry. apply Z.mod_unique with (-1)%Z; lia. }
    rewrite decide_False by lia. lia.
Qed.

Lemma swrap_in_s w z : (1 <= w)%Z -> in_s w (swrap w z).
Proof.
  intros Hw. unfold in_s, swrap.
  assert (2 ^ w = 2 * 2 ^ (w - 1))%Z as E.
  { rewrite <- Z.pow_succ_r by lia. f_equal. lia. }
  pose proof (wrap_in_u w z ltac:(lia)) as [? ?].
  case_decide; lia.
Qed.

Lemma swrap_wrap w z : (0 <= w)%Z -> swrap w (wrap w z) = swrap w z.
Proof.
  intros Hw. unfold swrap, wrap. by rewrite Z.mod_mod by (apply Z.pow_nonzero; lia).
Qed.

Lemma wrap_swrap w z : (1 <= w)%Z -> wrap w (swrap w z) = wrap w z.
Proof.
  intros Hw. unfold swrap. case_decide.
  - unfold wrap. rewrite Z.mod_mod; [done|apply Z.pow_nonzero; lia].
  - unfold wrap. rewrite <- (Z.mod_add _ 1) by (apply Z.pow_nonzero; lia).
    rewrite Z.mul_1_l, Z.sub_add, Z.mod_mod; [done|apply Z.pow_nonzero; lia].
Qed.

Lemma wrap_add_l w a b : wrap w (wrap w a + b) = wrap w (a + b).
Proof. unfold wrap. by rewrite Zplus_mod_idemp_l. Qed.

(** ** Bytes *)
Definition is_byte (b : Z) : Prop := (0 <= b < 256)%Z.
#[export] Instance is_byte_dec b : Decision (is_byte b).
Proof. unfold is_byte. apply _. Defined.

(** ** Lists: overwriting a segment *)
Definition splice {A} (i : nat) (d l : list A) : list A :=
  take i l ++ d ++ drop (i + length d) l.

Definition slice {A} (i n : nat) (l : list A) : list A := take n (drop i l).

Section lists.
Context {A : Type}.
Implicit Types l d : list A.

Lemma length_splice i d l :
  i + length d <= length l -> length (splice i d l) = length l.
Proof.
  intros H. unfold splice. rewrite !length_app, length_take, length_drop. lia.
Qed.

Lemma splice_nil i l : splice i [] l = l.
Proof. unfold splice. simpl. rewrite Nat.add_0_r. apply take_drop. Qed.

Lemma slice_splice i d l :
  i <= length l -> slice i (length d) (splice i d l) = d.
Proof.
  intros H. unfold slice, splice.
  rewrite drop_app_ge by (rewrite length_take; lia).
  rewrite length_take, Nat.min_l by lia. rewrite Nat.sub_diag, drop_0.
  by rewrite take_app_length.
Qed.

(** What lies before the segment is kept. *)
Lemma take_splice i d l j :
  i <= length l -> j <= i -> take j (splice i d l) = take j l.
Proof.
  intros H Hj. unfold splice.
  rewrite take_app_le by (rewrite length_take; lia).
  rewrite take_take. f_equal. lia.
Qed.

Lemma drop_splice i d l j :
  i <= length l -> i + length d <= j -> drop j (splice i d l) = drop j l.
Proof.
  intros H Hj. unfold splice.
  rewrite drop_app_ge by (rewrite length_take; lia).
  rewrite drop_app_ge by (rewrite length_take; lia).
  rewrite drop_drop. f_equal. rewrite length_take. lia.
Qed.

(** Two adjacent overwrites are one. *)
Lemma splice_splice i d1 d2 l :
  i <= length l ->
  splice (i + length d1) d2 (splice i d1 l) = splice i (d1 ++ d2) l.
Proof.
  intros H. unfold splice at 1.
  rewrite drop_splice by lia.
  replace (take (i + length d1) (splice i d1 l)) with (take i l ++ d1).
  - unfold splice. rewrite length_app, <- !(assoc (++)).
    do 3 f_equal. f_equal. lia.
  - unfold splice.
    rewrite take_app_ge by (rewrite length_take; lia).
    f_equal. rewrite length_take, Nat.min_l by lia.
    replace (i + length d1 - i) with (length d1) by lia.
    by rewrite take_app_length.
Qed.

Lemma slice_slice_app i n m l :
  slice i n l ++ slice (i + n) m l = slice i (n + m) l.
Proof.
  unfold slice. rewrite <- (take_drop n (take (n + m) (drop i l))).
  rewrite take_take, Nat.min_l by lia. f_equal.
  by rewrite <- take_drop_commute, drop_drop.
Qed.

Lemma take_splice_max i d l sz :
  i <= sz -> sz <= length l -> i + length d <= length l ->
  take (sz `max` (i + length d)) (splice i d l) = splice i d (take sz l).
Proof.
  intros Hi Hsz Hd. unfold splice.
  rewrite take_app_ge by (rewrite length_take; lia).
  rewrite take_app_ge by (rewrite length_take; lia).
  rewrite take_take, length_take, !Nat.min_l by lia. do 2 f_equal.
  destruct (decide (sz <= i + length d)) as [Hle|Hgt].
  - rewrite (drop_ge (take sz l)) by (rewrite length_take; lia).
    replace (sz `max` (i + length d) - i - length d) with 0 by lia. done.
  - rewrite take_drop_commute. do 2 f_equal. lia.
Qed.

Lemma splice_middle (a d c x : list A) off :
  off + length x <= length d ->
  splice (length a + off) x (a ++ d ++ c) = a ++ splice off x d ++ c.
Proof.
  intros H. unfold splice.
  rewrite take_app_add', <- Nat.add_assoc, drop_app_add' by done.
  rewrite take_app_le, drop_app_le by lia. by rewrite <- !(assoc (++)).
Qed.

Lemma slice_middle (a d c : list A) off n :
  off + n <= length d -> slice (length a + off) n (a ++ d ++ c) = slice off n d.
Proof.
  intros H. unfold slice. rewrite drop_app_add' by done.
  rewrite drop_app_le by lia. rewrite take_app_le by (rewrite length_drop; lia). done.
Qed.

Lemma slice_0_all n l : n = length l -> slice 0 n l = l.
Proof. intros ->. unfold slice. by rewrite drop_0, firstn_all. Qed.

Lemma slice_nil_0 i l : slice i 0 l = [].
Proof. done. Qed.

Lemma length_slice i n l : i + n <= length l -> length (slice i n l) = n.
Proof. intros H. unfold slice. rewrite length_take, length_drop. lia. Qed.
End lists.

Lemma filter_none {A} (P : A -> Prop) `{forall x, Decision (P x)} (l : list A) :
  (forall x, x ∈ l -> ~ P x) -> filter P l = [].
Proof.
  induction l as [|x l IH]; intros Hl; [done|].
  rewrite filter_cons_False by (apply Hl; set_solver). apply IH. set_solver.
Qed.

Lemma filter_all {A} (P : A -> Prop) `{forall x, Decision (P x)} (l : list A) :
  (forall x, x ∈ l -> P x) -> filter P l = l.
Proof.
  induction l as [|x l IH]; intros Hl; [done|].
  rewrite filter_cons_True by (apply Hl; set_solver). f_equal. apply IH. set_solver.
Qed.

Lemma filter_ext_in {A} (P Q : A -> Prop) `{forall x, Decision (P x)} `{forall x, Decision (Q x)}
    (l : list A) :
  (forall x, x ∈ l -> P x <-> Q x) -> filter P l = filter Q l.
Proof.
  induction l as [|x l IH]; intros Hl; [done|].
  rewrite !filter_cons, IH by set_solver.
  pose proof (Hl x ltac:(set_solver)). repeat case_decide; tauto.
Qed.

Lemma snoc_split {A} (l l1 l2 : list A) x y :
  l ++ [y] = l1 ++ x :: l2 ->
  (l2 = [] /\ l = l1 /\ x = y) \/ exists l2', l2 = l2' ++ [y] /\ l = l1 ++ x :: l2'.
Proof.
  destruct l2 as [|z l2 _] using rev_ind; intros E.
  - apply app_inj_tail in E as [-> ->]. by left.
  - right. exists l2. rewrite app_comm_cons, (assoc (++)) in E.
    apply app_inj_tail in E as [-> ->]. done.
Qed.

(** ** Chains of equal blocks *)
Section blocks.
Context {A : Type} (base : nat).
Implicit Types ns : list (list A).

Definition blocks ns : Prop := Forall (fun d => length d = base) ns.

Lemma length_concat_blocks ns : blocks ns -> length (concat ns) = length ns * base.
Proof. induction 1 as [|d ns Hd Hns IH]; simpl; [done|]. rewrite length_app. lia. Qed.

Lemma concat_split ns i d :
  blocks ns -> ns !! i = Some d ->
  concat ns = concat (take i ns) ++ d ++ concat (drop (S i) ns) /\
  length (concat (take i ns)) = i * base.
Proof.
  intros Hb Hi. split.
  - rewrite <- (take_drop_middle ns i d Hi) at 1. by rewrite concat_app.
  - rewrite length_concat_blocks by by apply Forall_take.
    rewrite length_take. apply lookup_lt_Some in Hi. f_equal. lia.
Qed.

Lemma blocks_lookup ns i d : blocks ns -> ns !! i = Some d -> length d = base.
Proof. intros Hb Hi. by eapply (proj1 (Forall_lookup _ _) Hb). Qed.

Lemma slice_blocks ns i d off n :
  blocks ns -> ns !! i = Some d -> off + n <= base ->
  slice off n d = slice (i * base + off) n (concat ns).
Proof.
  intros Hb Hi Ho. destruct (concat_split ns i d Hb Hi) as [-> <-].
  rewrite slice_middle; [done|]. by rewrite (blocks_lookup _ _ _ Hb Hi).
Qed.

Lemma splice_blocks ns i d off x :
  blocks ns -> ns !! i = Some d -> off + length x <= base ->
  concat (<[i := splice off x d]> ns) = splice (i * base + off) x (concat ns) /\
  blocks (<[i := splice off x d]> ns).
Proof.
  intros Hb Hi Ho. pose proof (blocks_lookup _ _ _ Hb Hi) as Hd.
  destruct (concat_split ns i d Hb Hi) as [E L]. split.
  - rewrite E, <- L, splice_middle by lia.
    rewrite insert_take_drop by by eapply lookup_lt_Some.
    by rewrite concat_app.
  - apply Forall_insert; [done|]. rewrite length_splice; lia.
Qed.
End blocks.
