(* ===== verification/Endian.v ===== *)
(** * Byte order: src/src/endian.h

    [byteswap] for 16-, 32- and 64-bit values, the byte images of integers in
    memory, and the compile-time choice of [COOL_BYTE_ORDER]. *)

From stdpp Require Import prelude.
From Stdlib Require Import ZArith Lia.
From S2P Require Import Prelude.
Local Open Scope Z_scope.

Module Endian.

Definition COOL_LITTLE_ENDIAN : Z := 1.
Definition COOL_BIG_ENDIAN : Z := 2.

(** [#if COOL_ORDER == BIG_ENDIAN]: an identifier the preprocessor does not know
    is 0. *)
Definition COOL_BYTE_ORDER (COOL_ORDER BIG_ENDIAN : Z) : Z :=
  if COOL_ORDER =? BIG_ENDIAN then COOL_BIG_ENDIAN else COOL_LITTLE_ENDIAN.

(** The [n] bytes of a value, least significant first, and back. *)
Fixpoint to_le (n : nat) (z : Z) : list Z :=
  match n with
  | O => []
  | S n => z mod 256 :: to_le n (z / 256)
  end.

Fixpoint of_le (l : list Z) : Z :=
  match l with
  | [] => 0
  | b :: l => b + 256 * of_le l
  end.

(** [bswap_16], [bswap_32], [bswap_64] of byteswap.h on an [n]-byte value. *)
Definition bswap (n : nat) (u : Z) : Z := of_le (reverse (to_le n u)).

(** [(T)bswap_N((uintN_t)value)] for an unsigned and for a signed [T] of [n] bytes. *)
Definition byteswap_u (n : nat) (value : Z) : Z :=
  bswap n (wrap (8 * Z.of_nat n) value).
Definition byteswap_s (n : nat) (value : Z) : Z :=
  swrap (8 * Z.of_nat n) (bswap n (wrap (8 * Z.of_nat n) value)).

Section order.
Variable byte_order : Z.   (* COOL_BYTE_ORDER of the build *)

Definition byteswapOnLittleEndian (n : nat) (t : Z) : Z :=
  if byte_order =? COOL_BIG_ENDIAN then t else byteswap_u n t.
Definition byteswapOnBigEndian (n : nat) (t : Z) : Z :=
  if byte_order =? COOL_BIG_ENDIAN then byteswap_u n t else t.
End order.

(** The memory image of an [n]-byte object on the host. *)
Definition host_bytes (host_little : bool) (n : nat) (v : Z) : list Z :=
  if host_little then to_le n v else reverse (to_le n v).
Definition host_value (host_little : bool) (l : list Z) : Z :=
  if host_little then of_le l else of_le (reverse l).

(** ** Lemmas *)

Lemma length_to_le n z : length (to_le n z) = n.
Proof. revert z; induction n as [|n IH]; intros z; simpl; [done|]. by rewrite IH. Qed.

Lemma to_le_bytes n z : Forall is_byte (to_le n z).
Proof.
  revert z; induction n as [|n IH]; intros z; simpl; constructor; [|done].
  unfold is_byte. apply Z.mod_pos_bound. lia.
Qed.

Lemma pow_bytes_S n : 2 ^ (8 * Z.of_nat (S n)) = 256 * 2 ^ (8 * Z.of_nat n).
Proof.
  replace (8 * Z.of_nat (S n)) with (8 + 8 * Z.of_nat n) by lia.
  rewrite Z.pow_add_r by lia. done.
Qed.

Lemma of_to_le n z : of_le (to_le n z) = wrap (8 * Z.of_nat n) z.
Proof.
  unfold wrap. revert z; induction n as [|n IH]; intros z; cbn [to_le of_le].
  - rewrite Z.mod_1_r. done.
  - rewrite IH, pow_bytes_S, Z.rem_mul_r by lia. lia.
Qed.

Lemma to_of_le l : Forall is_byte l -> to_le (length l) (of_le l) = l.
Proof.
  induction 1 as [|b l Hb Hl IH]; simpl; [done|]. unfold is_byte in Hb.
  rewrite Z.mul_comm, Z.mod_add, Z.div_add by lia.
  rewrite Z.mod_small, Z.div_small, Z.add_0_l by lia. by rewrite IH.
Qed.

Lemma of_le_bound l : Forall is_byte l -> in_u (8 * Z.of_nat (length l)) (of_le l).
Proof.
  unfold in_u. induction 1 as [|b l Hb Hl IH]; cbn [of_le length]; [done|].
  rewrite pow_bytes_S. unfold is_byte in Hb. lia.
Qed.

Lemma to_le_wrap n z : to_le n (wrap (8 * Z.of_nat n) z) = to_le n z.
Proof.
  rewrite <- of_to_le. rewrite <- (length_to_le n z) at 1. apply to_of_le, to_le_bytes.
Qed.

Lemma to_le_bswap n u : to_le n (bswap n u) = reverse (to_le n u).
Proof.
  unfold bswap. rewrite <- (to_of_le (reverse (to_le n u))) at 2.
  - by rewrite length_reverse, length_to_le.
  - apply Forall_reverse, to_le_bytes.
Qed.

Lemma bswap_bound n u : in_u (8 * Z.of_nat n) (bswap n u).
Proof.
  unfold bswap. rewrite <- (length_to_le n u) at 1. rewrite <- length_reverse.
  apply of_le_bound, Forall_reverse, to_le_bytes.
Qed.

(** Swapping twice is the identity on unsigned values of the width. *)
Lemma bswap_involutive n u : in_u (8 * Z.of_nat n) u -> bswap n (bswap n u) = u.
Proof.
  intros Hu. unfold bswap at 1. rewrite to_le_bswap, reverse_involutive, of_to_le.
  by apply wrap_id.
Qed.

Lemma byteswap_u_involutive n u :
  in_u (8 * Z.of_nat n) u -> byteswap_u n (byteswap_u n u) = u.
Proof.
  intros Hu. unfold byteswap_u.
  rewrite (wrap_id _ (bswap n _)) by apply bswap_bound.
  rewrite wrap_id by done. by apply bswap_involutive.
Qed.

Lemma byteswap_s_involutive n v :
  (0 < n)%nat -> in_s (8 * Z.of_nat n) v -> byteswap_s n (byteswap_s n v) = v.
Proof.
  intros Hn Hv. unfold byteswap_s.
  rewrite wrap_swrap, (wrap_id _ (bswap n _)) by (lia || apply bswap_bound).
  rewrite bswap_involutive by (apply wrap_in_u; lia).
  rewrite swrap_wrap, swrap_id by (try lia; done). done.
Qed.

Lemma length_host_bytes h n v : length (host_bytes h n v) = n.
Proof. destruct h; simpl; rewrite ?length_reverse; apply length_to_le. Qed.

Lemma host_bytes_bytes h n v : Forall is_byte (host_bytes h n v).
Proof. destruct h; simpl; [|apply Forall_reverse]; apply to_le_bytes. Qed.

Lemma host_value_bytes h n v :
  host_value h (host_bytes h n v) = wrap (8 * Z.of_nat n) v.
Proof. destruct h; simpl; rewrite ?reverse_involutive; apply of_to_le. Qed.

Lemma host_bytes_wrap h n v :
  host_bytes h n (wrap (8 * Z.of_nat n) v) = host_bytes h n v.
Proof. destruct h; simpl; by rewrite to_le_wrap. Qed.

(** The image of a swapped value is the reversed image. *)
Lemma host_bytes_byteswap_u h n v :
  host_bytes h n (byteswap_u n v) = reverse (host_bytes h n v).
Proof.
  unfold byteswap_u. destruct h; simpl; rewrite to_le_bswap, to_le_wrap; done.
Qed.

Lemma host_bytes_byteswap_s h n v :
  (0 < n)%nat -> host_bytes h n (byteswap_s n v) = reverse (host_bytes h n v).
Proof.
  intros Hn. unfold byteswap_s.
  rewrite <- (host_bytes_wrap _ n (swrap _ _)), wrap_swrap, host_bytes_wrap by lia.
  apply host_bytes_byteswap_u.
Qed.

(** ** Bits of a swapped value *)

Lemma byte_add_testbit b r i : is_byte b -> 0 <= i ->
  Z.testbit (b + 256 * r) i = if i <? 8 then Z.testbit b i else Z.testbit r (i - 8).
Proof.
  intros Hb Hi. unfold is_byte in Hb.
  replace (b + 256 * r) with (b + r * 2 ^ 8) by lia.
  destruct (Z.ltb_spec i 8) as [H|H].
  - rewrite <- (Z.mod_pow2_bits_low _ 8) by lia. rewrite Z.mod_add by lia.
    by rewrite Z.mod_pow2_bits_low by lia.
  - replace i with (i - 8 + 8) at 1 by lia. rewrite <- Z.div_pow2_bits by lia.
    rewrite Z.div_add, (Z.div_small b) by lia. done.
Qed.

Lemma of_le_testbit l i : Forall is_byte l -> 0 <= i ->
  Z.testbit (of_le l) i = Z.testbit (default 0 (l !! Z.to_nat (i / 8))) (i mod 8).
Proof.
  intros Hl. revert i. induction Hl as [|b l Hb Hl IH]; intros i Hi; cbn [of_le].
  - by rewrite !Z.testbit_0_l.
  - rewrite byte_add_testbit by done. destruct (Z.ltb_spec i 8) as [H|H].
    + rewrite Z.div_small, Z.mod_small by lia. done.
    + rewrite IH by lia. replace i with (i - 8 + 1 * 8) at 3 4 by lia.
      rewrite Z.div_add, Z.mod_add by lia.
      pose proof (Z.div_pos (i - 8) 8 ltac:(lia) ltac:(lia)).
      by replace (Z.to_nat ((i - 8) / 8 + 1)) with (S (Z.to_nat ((i - 8) / 8))) by lia.
Qed.

Lemma to_le_lookup n z k : (k < n)%nat -> to_le n z !! k = Some ((z / 2 ^ (8 * Z.of_nat k)) mod 256).
Proof.
  revert z k. induction n as [|n IH]; intros z k Hk; [lia|]. destruct k as [|k].
  - cbn. by rewrite Z.div_1_r.
  - change (to_le (S n) z !! S k) with (to_le n (z / 256) !! k).
    rewrite IH by lia. rewrite Z.div_div by lia. by rewrite pow_bytes_S.
Qed.

(** Bit [i] of a swapped value is the bit of the same place in the mirrored byte. *)
Lemma bswap_testbit n u i : 0 <= i < 8 * Z.of_nat n ->
  Z.testbit (bswap n u) i = Z.testbit u (8 * (Z.of_nat n - 1 - i / 8) + i mod 8).
Proof.
  intros Hi. unfold bswap. rewrite of_le_testbit by (try lia; apply Forall_reverse, to_le_bytes).
  pose proof (Z.mod_pos_bound i 8 ltac:(lia)). pose proof (Z.div_mod i 8 ltac:(lia)).
  assert (0 <= i / 8 < Z.of_nat n) by (split; [apply Z.div_pos; lia|apply Z.div_lt_upper_bound; lia]).
  rewrite reverse_lookup by (rewrite length_to_le; lia).
  rewrite to_le_lookup by (rewrite length_to_le; lia). simpl (default _ _).
  rewrite length_to_le. change 256 with (2 ^ 8). rewrite Z.mod_pow2_bits_low by lia.
  rewrite Z.div_pow2_bits by lia. f_equal. lia.
Qed.

Section bitwise.
Context (f : Z -> Z -> Z) (g : bool -> bool -> bool).
Context (f_spec : forall a b i, Z.testbit (f a b) i = g (Z.testbit a i) (Z.testbit b i)).
Context (f_bound : forall w a b, 0 <= w -> in_u w a -> in_u w b -> in_u w (f a b)).

Lemma bswap_bitwise n a b : bswap n (f a b) = f (bswap n a) (bswap n b).
Proof.
  assert (forall x, in_u (8 * Z.of_nat n) x -> forall i, 8 * Z.of_nat n <= i -> Z.testbit x i = false) as Hhigh.
  { intros x Hx i Hi. unfold in_u in Hx. rewrite <- (Z.mod_small x (2 ^ (8 * Z.of_nat n))) by lia.
    apply Z.mod_pow2_bits_high. lia. }
  apply Z.bits_inj'. intros i Hi. destruct (Z.lt_ge_cases i (8 * Z.of_nat n)) as [H|H].
  - rewrite f_spec, !bswap_testbit by lia. apply f_spec.
  - rewrite !Hhigh; [done|..|done]; try apply f_bound; try lia; apply bswap_bound.
Qed.
End bitwise.

Lemma lor_bound w a b : 0 <= w -> in_u w a -> in_u w b -> in_u w (Z.lor a b).
Proof.
  intros Hw [Ha Ha'] [Hb Hb']. split; [by apply Z.lor_nonneg|].
  destruct (Z.eq_dec (Z.lor a b) 0) as [->|]; [lia|].
  apply Z.log2_lt_cancel. rewrite Z.log2_lor, Z.log2_pow2 by lia.
  destruct (Z.eq_dec a 0) as [->|], (Z.eq_dec b 0) as [->|]; try done.
  - rewrite Z.max_r by (simpl; apply Z.log2_nonneg). apply Z.log2_lt_pow2; lia.
  - rewrite Z.max_l by (simpl; apply Z.log2_nonneg). apply Z.log2_lt_pow2; lia.
  - apply Z.max_lub_lt; apply Z.log2_lt_pow2; lia.
Qed.

Lemma land_bound w a b : 0 <= w -> in_u w a -> in_u w b -> in_u w (Z.land a b).
Proof.
  intros Hw _ Hb. unfold in_u in *.
  assert (Z.land a b = Z.land a b mod 2 ^ w) as ->.
  { rewrite <- Z.land_ones, <- Z.land_assoc, Z.land_ones by lia. by rewrite (Z.mod_small b). }
  apply Z.mod_pos_bound. lia.
Qed.

Lemma bswap_lor n a b : bswap n (Z.lor a b) = Z.lor (bswap n a) (bswap n b).
Proof. apply (bswap_bitwise Z.lor orb); [apply Z.lor_spec|apply lor_bound]. Qed.

Lemma bswap_land n a b : bswap n (Z.land a b) = Z.land (bswap n a) (bswap n b).
Proof. apply (bswap_bitwise Z.land andb); [apply Z.land_spec|apply land_bound]. Qed.

End Endian.
