(* ===== verification/ByteArray.v ===== *)
(** * The serialization buffer: src/src/bytearray.h, src/src/bytearray.cpp

    [ByteArray] keeps its bytes in a chain of equal nodes.  The chain is
    [m_nodes] (the node [m_root] first), a [Node *] is an index into it and
    [nullptr] is [None]; the [next] of the last node is null.  Sizes are
    [size_t] values kept as [nat]: the invariant [wf] below bounds every
    subtraction the code makes, so none of them wraps. *)

From stdpp Require Import prelude.
From Stdlib Require Import ZArith Lia.
From S2P Require Import Prelude Endian.
Import Endian.

Module ByteArray.

Record t := mk {
  m_base_size : nat;
  m_pos : nat;
  m_capacity : nat;
  m_size : nat;
  m_endian : Z;
  m_nodes : list (list Z);
  m_cur : option nat
}.

(** A scatter/gather buffer: node, offset in the node, length. *)
Record iovec := IoVec { iov_node : nat; iov_base : nat; iov_len : nat }.

Definition set_pos (v : nat) (b : t) : t :=
  mk (m_base_size b) v (m_capacity b) (m_size b) (m_endian b) (m_nodes b) (m_cur b).
Definition set_capacity (v : nat) (b : t) : t :=
  mk (m_base_size b) (m_pos b) v (m_size b) (m_endian b) (m_nodes b) (m_cur b).
Definition set_size (v : nat) (b : t) : t :=
  mk (m_base_size b) (m_pos b) (m_capacity b) v (m_endian b) (m_nodes b) (m_cur b).
Definition set_endian (v : Z) (b : t) : t :=
  mk (m_base_size b) (m_pos b) (m_capacity b) (m_size b) v (m_nodes b) (m_cur b).
Definition set_nodes (v : list (list Z)) (b : t) : t :=
  mk (m_base_size b) (m_pos b) (m_capacity b) (m_size b) (m_endian b) v (m_cur b).
Definition set_cur (v : option nat) (b : t) : t :=
  mk (m_base_size b) (m_pos b) (m_capacity b) (m_size b) (m_endian b) (m_nodes b) v.

Section operations.

(** [new char[s]] leaves the bytes indeterminate: [fresh k s] are the bytes of
    the [k]-th node of a chain when it is allocated with [s] bytes. *)
Variable fresh : nat -> nat -> list Z.

Definition Node (k s : nat) : list Z := fresh k s.

Definition ByteArray (base_size : nat) : t :=
  mk base_size 0 base_size 0 COOL_BIG_ENDIAN [Node 0 base_size] (Some 0).

Definition isLittleEndian (b : t) : bool := (m_endian b =? COOL_LITTLE_ENDIAN)%Z.

Definition setIsLittleEndian (val : bool) (b : t) : t :=
  if val then set_endian COOL_LITTLE_ENDIAN b else set_endian COOL_BIG_ENDIAN b.

Definition getReadSize (b : t) : nat := m_size b - m_pos b.
Definition getCapacity (b : t) : nat := m_capacity b - m_pos b.

(** Pointer operations on the chain. *)
Definition node_next (b : t) (p : option nat) : option (option nat) :=
  match p with
  | None => None
  | Some i => Some (if decide (S i < length (m_nodes b)) then Some (S i) else None)
  end.
Definition node_size (b : t) (p : option nat) : option nat :=
  match p with
  | None => None
  | Some i => length <$> m_nodes b !! i
  end.
(** [memcpy] out of a node, undefined past its end. *)
Definition node_load (b : t) (p : option nat) (off n : nat) : option (list Z) :=
  match p with
  | None => None
  | Some i => match m_nodes b !! i with
              | Some d => if decide (off + n <= length d) then Some (slice off n d) else None
              | None => None
              end
  end.
Definition deref {A} (f : t -> option A) : cmd t A :=
  fun b => match f b with Some a => Ok a b | None => Fail_ Undef end.

(** [temp = temp->next] and [temp->size] through [m_cur]. *)
Definition cur_size : cmd t nat := deref (fun b => node_size b (m_cur b)).
Definition cur_advance : cmd t unit :=
  let* n := deref (fun b => node_next b (m_cur b)) in modify (set_cur n).
(** [memcpy(m_cur->ptr + off, data, ...)]. *)
Definition cur_store (off : nat) (data : list Z) : cmd t unit :=
  fun b => match m_cur b with
           | None => Fail_ Undef
           | Some i => match m_nodes b !! i with
                       | Some d => if decide (off + length data <= length d)
                                   then Ok tt (set_nodes (<[i := splice off data d]> (m_nodes b)) b)
                                   else Fail_ Undef
                       | None => Fail_ Undef
                       end
           end.
Definition cur_load (off n : nat) : cmd t (list Z) :=
  deref (fun b => node_load b (m_cur b) off n).

(** [x % m_base_size], [x / m_base_size]: division by zero is undefined. *)
Definition base_mod (x : nat) : cmd t nat :=
  deref (fun b => if decide (m_base_size b = 0) then None else Some (x mod m_base_size b)).
Definition base_div (x : nat) : cmd t nat :=
  deref (fun b => if decide (m_base_size b = 0) then None else Some (x / m_base_size b)).

Definition clear (b : t) : t :=
  let b := set_size 0 (set_pos 0 b) in
  let b := set_capacity (m_base_size b) b in
  let b := set_cur (Some 0) b in
  set_nodes (take 1 (m_nodes b)) b.

(** The nodes the loop of [addCapacity] appends to the chain. *)
Fixpoint new_nodes (count k s : nat) : list (list Z) :=
  match count with
  | O => []
  | S count => Node k s :: new_nodes count (S k) s
  end.

Definition addCapacity (size : nat) : cmd t unit :=
  if decide (size = 0) then ret tt else
  let* old_cap := gets getCapacity in
  if decide (size <= old_cap) then ret tt else
  let size := size - old_cap in
  let* q := base_div size in
  let* r := base_mod size in
  let count := q + (if decide (old_cap < r) then 1 else 0) in
  let* first := gets (fun b => length (m_nodes b)) in
  modify (fun b => set_nodes (m_nodes b ++ new_nodes count first (m_base_size b)) b) ;;;
  modify (fun b => set_capacity (m_capacity b + count * m_base_size b) b) ;;;
  if decide (old_cap = 0)
  then modify (set_cur (if decide (count = 0) then None else Some first))
  else ret tt.

(** The copy loop of [write]; [fuel] bounds the iterations (each one but the
    last fills a node). *)
Fixpoint write_loop (fuel : nat) (buf : list Z) (size npos ncap bpos : nat) : cmd t unit :=
  if decide (size = 0) then ret tt else
  match fuel with
  | O => fail OutOfFuel
  | S fuel =>
    if decide (size <= ncap) then
      cur_store npos (slice bpos size buf) ;;;
      let* s := cur_size in
      (if decide (s = npos + size) then cur_advance else ret tt) ;;;
      modify (fun b => set_pos (m_pos b + size) b) ;;;
      write_loop fuel buf 0 npos ncap (bpos + size)
    else
      cur_store npos (slice bpos ncap buf) ;;;
      modify (fun b => set_pos (m_pos b + ncap) b) ;;;
      cur_advance ;;;
      let* ncap' := cur_size in
      write_loop fuel buf (size - ncap) 0 ncap' (bpos + ncap)
  end.

Definition write (buf : list Z) : cmd t unit :=
  let size := length buf in
  if decide (size = 0) then ret tt else
  addCapacity size ;;;
  let* pos := gets m_pos in
  let* npos := base_mod pos in
  let* s := cur_size in
  write_loop (S size) buf size npos (s - npos) 0 ;;;
  modify (fun b => if decide (m_size b < m_pos b) then set_size (m_pos b) b else b).

(** The copy loop of [read(buf, size)]. *)
Fixpoint read_loop (fuel : nat) (acc : list Z) (size npos ncap : nat) : cmd t (list Z) :=
  if decide (size = 0) then ret acc else
  match fuel with
  | O => fail OutOfFuel
  | S fuel =>
    if decide (size <= ncap) then
      let* d := cur_load npos size in
      let* s := cur_size in
      (if decide (s = npos + size) then cur_advance else ret tt) ;;;
      modify (fun b => set_pos (m_pos b + size) b) ;;;
      read_loop fuel (acc ++ d) 0 npos ncap
    else
      let* d := cur_load npos ncap in
      modify (fun b => set_pos (m_pos b + ncap) b) ;;;
      cur_advance ;;;
      let* ncap' := cur_size in
      read_loop fuel (acc ++ d) (size - ncap) 0 ncap'
  end.

Definition read (size : nat) : cmd t (list Z) :=
  let* avail := gets getReadSize in
  if decide (avail < size) then throw out_of_range else
  let* pos := gets m_pos in
  let* npos := base_mod pos in
  let* s := cur_size in
  read_loop (S size) [] size npos (s - npos).

(** [read] with the [size_t] a length prefix was read into: the range check comes
    first, on the 64-bit value. *)
Definition read_sz (size : Z) : cmd t (list Z) :=
  let* avail := gets getReadSize in
  if decide (Z.of_nat avail < size)%Z then throw out_of_range else read (Z.to_nat size).

(** [read(buf, size, pos) const]: the same loop through a local [cur]. *)
Fixpoint read_at_loop (fuel : nat) (cur : option nat) (acc : list Z) (size npos ncap : nat)
    : cmd t (list Z) :=
  if decide (size = 0) then ret acc else
  match fuel with
  | O => fail OutOfFuel
  | S fuel =>
    if decide (size <= ncap) then
      let* d := deref (fun b => node_load b cur npos size) in
      let* s := deref (fun b => node_size b cur) in
      let* cur' := (if decide (s = npos + size) then deref (fun b => node_next b cur) else ret cur) in
      read_at_loop fuel cur' (acc ++ d) 0 npos ncap
    else
      let* d := deref (fun b => node_load b cur npos ncap) in
      let* cur' := deref (fun b => node_next b cur) in
      let* ncap' := deref (fun b => node_size b cur') in
      read_at_loop fuel cur' (acc ++ d) (size - ncap) 0 ncap'
  end.

Definition read_at (size pos : nat) : cmd t (list Z) :=
  let* avail := gets getReadSize in
  if decide (avail < size) then throw out_of_range else
  let* npos := base_mod pos in
  let* s := cur_size in
  let* cur := gets m_cur in
  read_at_loop (S size) cur [] size npos (s - npos).

(** The walk of [position]: [while (val > m_cur->size)]. *)
Fixpoint position_loop (fuel val : nat) : cmd t nat :=
  let* s := cur_size in
  if decide (val <= s) then ret val else
  match fuel with
  | O => fail OutOfFuel
  | S fuel => cur_advance ;;; position_loop fuel (val - s)
  end.

Definition position (val : nat) : cmd t unit :=
  let* cap := gets m_capacity in
  if decide (cap < val) then throw out_of_range else
  modify (set_pos val) ;;;
  modify (fun b => if decide (m_size b < m_pos b) then set_size (m_pos b) b else b) ;;;
  modify (set_cur (Some 0)) ;;;
  let* n := gets (fun b => length (m_nodes b)) in
  let* val' := position_loop n val in
  let* s := cur_size in
  if decide (val' = s) then cur_advance else ret tt.

Definition to_string : cmd t (list Z) :=
  let* n := gets getReadSize in
  if decide (n = 0) then ret [] else
  let* pos := gets m_pos in
  read_at n pos.

(** [std::hex << std::setw(2) << std::setfill('0')] of a byte, a blank after it,
    a line feed before every byte whose index is a positive multiple of 32. *)
Definition hex_digit (d : Z) : Z := if decide (d < 10)%Z then (48 + d)%Z else (87 + d)%Z.
Fixpoint hex_dump (i : nat) (str : list Z) : list Z :=
  match str with
  | [] => []
  | c :: str =>
    (if decide (0 < i /\ i mod 32 = 0) then [10%Z] else []) ++
    [hex_digit (c / 16)%Z; hex_digit (c mod 16)%Z; 32%Z] ++ hex_dump (S i) str
  end.
Definition to_hex_string : cmd t (list Z) :=
  let* str := to_string in ret (hex_dump 0 str).

(** [writeToFile]: [opened] tells whether the stream opened, the bytes are what
    reaches the file.  The arithmetic is on [int64_t]. *)
Fixpoint writeToFile_loop (fuel : nat) (cur : option nat) (read_size pos : Z) (out : list Z)
    : cmd t (list Z) :=
  if decide (read_size <= 0)%Z then ret out else
  match fuel with
  | O => fail OutOfFuel
  | S fuel =>
    let* diff := base_mod (Z.to_nat pos) in
    let* base := gets m_base_size in
    let len := ((if decide (Z.of_nat base < read_size)%Z then Z.of_nat base else read_size)
                - Z.of_nat diff)%Z in
    require (bool_decide (0 <= len)%Z) ;;;
    let* d := deref (fun b => node_load b cur diff (Z.to_nat len)) in
    let* cur' := deref (fun b => node_next b cur) in
    writeToFile_loop fuel cur' (read_size - len) (pos + len) (out ++ d)
  end.

Definition writeToFile (opened : bool) : cmd t (bool * list Z) :=
  if negb opened then ret (false, []) else
  let* read_size := gets getReadSize in
  let* pos := gets m_pos in
  let* cur := gets m_cur in
  let* n := gets (fun b => length (m_nodes b)) in
  let* out := writeToFile_loop (S n) cur (Z.of_nat read_size) (Z.of_nat pos) [] in
  ret (true, out).

(** [readFromFile]: a [read] of the stream that gets fewer bytes than it asked
    for sets [eof]. *)
Fixpoint readFromFile_loop (fuel : nat) (file : list Z) : cmd t unit :=
  match fuel with
  | O => fail OutOfFuel
  | S fuel =>
    let* base := gets m_base_size in
    let chunk := take base file in
    write chunk ;;;
    if decide (length chunk < base) then ret tt
    else readFromFile_loop fuel (drop base file)
  end.

Definition readFromFile (file : option (list Z)) : cmd t bool :=
  match file with
  | None => ret false
  | Some bytes => readFromFile_loop (S (length bytes)) bytes ;;; ret true
  end.

(** The loop the three buffer functions share: cut [len] bytes from [cur] on into
    node segments. *)
Fixpoint iov_loop (fuel : nat) (cur : option nat) (buffers : list iovec) (len npos ncap : nat)
    : cmd t (list iovec) :=
  if decide (len = 0) then ret buffers else
  match fuel with
  | O => fail OutOfFuel
  | S fuel =>
    let* i := deref (fun _ => cur) in
    if decide (len <= ncap) then
      iov_loop fuel cur (buffers ++ [IoVec i npos len]) 0 npos ncap
    else
      let* cur' := deref (fun b => node_next b cur) in
      let* ncap' := deref (fun b => node_size b cur') in
      iov_loop fuel cur' (buffers ++ [IoVec i npos ncap]) (len - ncap) 0 ncap'
  end.

Definition getReadBuffers (len : nat) : cmd t (nat * list iovec) :=
  let* avail := gets getReadSize in
  let len := if decide (avail < len) then avail else len in
  if decide (len = 0) then ret (0, []) else
  let* pos := gets m_pos in
  let* npos := base_mod pos in
  let* s := cur_size in
  let* cur := gets m_cur in
  let* iovs := iov_loop (S len) cur [] len npos (s - npos) in
  ret (len, iovs).

Fixpoint walk (count : nat) (cur : option nat) : cmd t (option nat) :=
  match count with
  | O => ret cur
  | S count => let* cur' := deref (fun b => node_next b cur) in walk count cur'
  end.

Definition getReadBuffers_at (len pos : nat) : cmd t (nat * list iovec) :=
  let* avail := gets getReadSize in
  let len := if decide (avail < len) then avail else len in
  if decide (len = 0) then ret (0, []) else
  let* npos := base_mod pos in
  let* count := base_div pos in
  let* cur := walk count (Some 0) in
  let* s := deref (fun b => node_size b cur) in
  let* iovs := iov_loop (S len) cur [] len npos (s - npos) in
  ret (len, iovs).

Definition getWriteBuffers (len : nat) : cmd t (nat * list iovec) :=
  if decide (len = 0) then ret (0, []) else
  addCapacity len ;;;
  let* pos := gets m_pos in
  let* npos := base_mod pos in
  let* s := cur_size in
  let* cur := gets m_cur in
  let* iovs := iov_loop (S len) cur [] len npos (s - npos) in
  ret (len, iovs).

End operations.

(** ** Representation invariant *)

(** Where [m_cur] has to point: the node that holds [m_pos], null past the end. *)
Definition cur_of (base n pos : nat) : option nat :=
  if decide (pos < n * base) then Some (pos / base) else None.

Record wf (b : t) : Prop := Wf {
  wf_base : 0 < m_base_size b;
  wf_root : m_nodes b <> [];
  wf_blocks : blocks (m_base_size b) (m_nodes b);
  wf_capacity : m_capacity b = length (m_nodes b) * m_base_size b;
  wf_pos : m_pos b <= m_size b;
  wf_size : m_size b <= m_capacity b;
  wf_cur : m_cur b = cur_of (m_base_size b) (length (m_nodes b)) (m_pos b)
}.

(** The bytes of the array, node boundaries forgotten. *)
Definition mem (b : t) : list Z := concat (m_nodes b).
Definition contents (b : t) : list Z := take (m_size b) (mem b).

Lemma length_mem b : wf b -> length (mem b) = m_capacity b.
Proof. intros H. unfold mem. rewrite (length_concat_blocks _ _ (wf_blocks b H)). by rewrite (wf_capacity b H). Qed.

(** Pointer facts: the node of a position inside the chain. *)
Section chain.
Context (b : t) (i : nat) (d : list Z).
Hypothesis (Hc : m_cur b = Some i) (Hi : m_nodes b !! i = Some d).

Lemma cur_size_ok : cur_size b = Ok (length d) b.
Proof. unfold cur_size, deref, node_size. by rewrite Hc, Hi. Qed.

Lemma cur_store_ok off x :
  off + length x <= length d ->
  cur_store off x b = Ok tt (set_nodes (<[i := splice off x d]> (m_nodes b)) b).
Proof. intros H. unfold cur_store. by rewrite Hc, Hi, decide_True by done. Qed.

Lemma cur_load_ok off n :
  off + n <= length d -> cur_load off n b = Ok (slice off n d) b.
Proof. intros H. unfold cur_load, deref, node_load. by rewrite Hc, Hi, decide_True by done. Qed.

Lemma cur_advance_ok :
  cur_advance b = Ok tt (set_cur (if decide (S i < length (m_nodes b)) then Some (S i) else None) b).
Proof. unfold cur_advance, bind, deref, node_next. by rewrite Hc. Qed.
End chain.

Lemma base_mod_ok b x : 0 < m_base_size b -> base_mod x b = Ok (x mod m_base_size b) b.
Proof. intros H. unfold base_mod, deref. by rewrite decide_False by lia. Qed.
Lemma base_div_ok b x : 0 < m_base_size b -> base_div x b = Ok (x / m_base_size b) b.
Proof. intros H. unfold base_div, deref. by rewrite decide_False by lia. Qed.

Lemma cur_of_next base n i :
  0 < base -> (if decide (S i < n) then Some (S i) else None) = cur_of base n (S i * base).
Proof.
  intros Hb. unfold cur_of. rewrite Nat.div_mul by lia.
  repeat case_decide; try done; nia.
Qed.

Lemma cur_of_inside base n i r :
  r < base -> i < n -> cur_of base n (i * base + r) = Some i.
Proof.
  intros Hr Hi. unfold cur_of. rewrite decide_True by nia. f_equal.
  rewrite Nat.div_add_l, Nat.div_small by lia. lia.
Qed.

Lemma cur_of_start base n i : 0 < base -> i < n -> cur_of base n (i * base) = Some i.
Proof. intros Hb Hi. rewrite <- (Nat.add_0_r (i * base)). by apply cur_of_inside. Qed.

(** The part of the invariant the copy loops run on. *)
Record chain_ok (b : t) : Prop := ChainOk {
  ch_base : 0 < m_base_size b;
  ch_blocks : blocks (m_base_size b) (m_nodes b);
  ch_cur : m_cur b = cur_of (m_base_size b) (length (m_nodes b)) (m_pos b)
}.

Lemma wf_chain b : wf b -> chain_ok b.
Proof. intros []. by constructor. Qed.

Definition limit (b : t) : nat := length (m_nodes b) * m_base_size b.
Definition npos (b : t) : nat := m_pos b mod m_base_size b.

(** The state after the position moved by [n], on the chain [ns]. *)
Definition moved (b : t) (n : nat) (ns : list (list Z)) : t :=
  mk (m_base_size b) (m_pos b + n) (m_capacity b) (m_size b) (m_endian b) ns
     (cur_of (m_base_size b) (length ns) (m_pos b + n)).

Lemma moved_0 b : chain_ok b -> moved b 0 (m_nodes b) = b.
Proof. intros [? ? H]. unfold moved. rewrite Nat.add_0_r, <- H. by destruct b. Qed.

Lemma moved_chain b n ns :
  0 < m_base_size b -> blocks (m_base_size b) ns -> chain_ok (moved b n ns).
Proof. by constructor. Qed.

Lemma moved_moved b n m ns ns' :
  length ns = length ns' -> moved (moved b n ns) m ns' = moved b (n + m) ns'.
Proof. intros H. unfold moved; cbn. by rewrite Nat.add_assoc. Qed.

Section steps.
Context (b : t) (Hok : chain_ok b) (Hp : m_pos b < limit b).

(** A position below the capacity splits into node and offset. *)
Lemma locate :
  exists i d, m_nodes b !! i = Some d /\ length d = m_base_size b /\
    m_pos b = i * m_base_size b + npos b /\ npos b < m_base_size b /\ m_cur b = Some i.
Proof.
  destruct Hok as [Hb Hbl Hc]. unfold limit, npos in *. set (base := m_base_size b) in *.
  pose proof (Nat.div_mod_eq (m_pos b) base) as E.
  pose proof (Nat.mod_upper_bound (m_pos b) base ltac:(lia)) as Hm.
  assert (m_pos b / base < length (m_nodes b)) as Hi by nia.
  destruct (lookup_lt_is_Some_2 _ _ Hi) as [d Hd].
  exists (m_pos b / base), d. split_and!; [done|by eapply blocks_lookup|lia|done|].
  rewrite Hc, E at 1. rewrite (Nat.mul_comm base). by apply cur_of_inside.
Qed.

Lemma cur_size_at : cur_size b = Ok (m_base_size b) b.
Proof.
  destruct locate as (i & d & Hi & <- & _ & _ & Hc). by apply (cur_size_ok b i).
Qed.

Lemma load_at n :
  npos b + n <= m_base_size b -> cur_load (npos b) n b = Ok (slice (m_pos b) n (mem b)) b.
Proof.
  destruct locate as (i & d & Hi & Hd & E & _ & Hc). intros Hn.
  rewrite (cur_load_ok b i d Hc Hi) by lia.
  rewrite (slice_blocks (m_base_size b) (m_nodes b) i d) by (done || apply Hok).
  by rewrite <- E.
Qed.

Lemma store_at x :
  npos b + length x <= m_base_size b ->
  exists ns, cur_store (npos b) x b = Ok tt (set_nodes ns b) /\
    blocks (m_base_size b) ns /\ length ns = length (m_nodes b) /\
    concat ns = splice (m_pos b) x (mem b).
Proof.
  destruct locate as (i & d & Hi & Hd & E & _ & Hc). intros Hn.
  eexists. rewrite (cur_store_ok b i d Hc Hi) by lia. split; [done|].
  destruct (splice_blocks (m_base_size b) (m_nodes b) i d (npos b) x (ch_blocks b Hok) Hi Hn)
    as [-> ?]. rewrite length_insert. by rewrite <- E.
Qed.

(** The end of a copy: step to the next node when the current one is full. *)
Lemma finish_at {A} n (k : cmd t A) :
  npos b + n <= m_base_size b ->
  bind (if decide (m_base_size b = npos b + n) then cur_advance else ret tt)
    (fun _ => bind (modify (fun b => set_pos (m_pos b + n) b)) (fun _ => k)) b
  = k (moved b n (m_nodes b)).
Proof.
  destruct locate as (i & d & Hi & Hd & E & _ & Hc). intros Hn.
  apply lookup_lt_Some in Hi. unfold bind, modify, ret, moved.
  case_decide as He.
  - rewrite (cur_advance_ok b i Hc), (cur_of_next (m_base_size b)) by apply Hok.
    replace (S i * m_base_size b) with (m_pos b + n) by lia. done.
  - unfold set_pos. rewrite Hc.
    replace (m_pos b + n) with (i * m_base_size b + (npos b + n)) by lia.
    by rewrite cur_of_inside by lia.
Qed.

(** A full copy: the rest of the node, then the next node. *)
Lemma fill_at {A} n (k : cmd t A) :
  npos b + n = m_base_size b ->
  bind (modify (fun b => set_pos (m_pos b + n) b)) (fun _ => bind cur_advance (fun _ => k)) b
  = k (moved b n (m_nodes b)).
Proof.
  destruct locate as (i & d & Hi & Hd & E & _ & Hc). intros Hn.
  unfold bind, modify. rewrite (cur_advance_ok (set_pos _ b) i Hc).
  cbn [m_nodes set_pos]. rewrite (cur_of_next (m_base_size b)) by apply Hok.
  replace (S i * m_base_size b) with (m_pos b + n) by lia. done.
Qed.

Lemma moved_npos n ns : npos b + n = m_base_size b -> npos (moved b n ns) = 0.
Proof.
  destruct locate as (i & d & Hi & Hd & E & _ & Hc). intros Hn. unfold npos at 1; cbn.
  replace (m_pos b + n) with (S i * m_base_size b) by lia. apply Nat.Div0.mod_mul.
Qed.
End steps.

Lemma npos_lt b : 0 < m_base_size b -> npos b < m_base_size b.
Proof. intros H. apply Nat.mod_upper_bound. lia. Qed.

Lemma length_mem_limit b : blocks (m_base_size b) (m_nodes b) -> length (mem b) = limit b.
Proof. apply length_concat_blocks. Qed.

(** *** The copy loops *)

(** A part of a node is overwritten: the chain keeps its shape. *)
Lemma store_chain ns b : chain_ok b -> m_pos b < limit b ->
  blocks (m_base_size b) ns -> length ns = length (m_nodes b) ->
  chain_ok (set_nodes ns b) /\ m_pos (set_nodes ns b) < limit (set_nodes ns b) /\
  npos (set_nodes ns b) = npos b.
Proof.
  intros Hok Hp Hbl Hlen. split_and!; [|unfold limit; cbn; by rewrite Hlen|done].
  constructor; cbn; [apply Hok|done|]. rewrite Hlen. apply Hok.
Qed.

Lemma write_loop_spec fuel buf size np nc bpos b :
  chain_ok b -> m_pos b + size <= limit b ->
  (0 < size -> np = npos b /\ nc = m_base_size b - npos b) ->
  size < fuel -> bpos + size = length buf ->
  exists ns, write_loop fuel buf size np nc bpos b = Ok tt (moved b size ns) /\
    blocks (m_base_size b) ns /\ length ns = length (m_nodes b) /\
    concat ns = splice (m_pos b) (slice bpos size buf) (mem b).
Proof.
  revert size np nc bpos b.
  induction fuel as [|fuel IH]; intros size np nc bpos b Hok Hcap Hn Hf Hl; [lia|].
  cbn [write_loop]. case_decide as Hs.
  { subst size. exists (m_nodes b). rewrite moved_0 by done.
    rewrite slice_nil_0, splice_nil. split_and!; try done. apply Hok. }
  destruct (Hn ltac:(lia)) as [-> ->]. assert (m_pos b < limit b) as Hp by lia.
  pose proof (npos_lt b (ch_base b Hok)) as Hm.
  case_decide as Hin.
  - pose proof (length_slice bpos size buf ltac:(lia)) as Hx.
    destruct (store_at b Hok Hp (slice bpos size buf)) as (ns & E & Hbl & Hlen & Hc); [lia|].
    unfold bind at 1. rewrite E.
    destruct (store_chain ns b Hok Hp Hbl Hlen) as (Hok' & Hp' & Hnp').
    unfold bind at 1. rewrite cur_size_at by done. rewrite <- Hnp'.
    rewrite (finish_at (set_nodes ns b) Hok' Hp') by (cbn; lia).
    exists ns. split_and!; [|done..].
    destruct fuel; cbn [write_loop]; by rewrite decide_True.
  - set (n := m_base_size b - npos b) in *.
    pose proof (length_slice bpos n buf ltac:(lia)) as Hx.
    destruct (store_at b Hok Hp (slice bpos n buf)) as (ns & E & Hbl & Hlen & Hc); [lia|].
    unfold bind at 1. rewrite E.
    destruct (store_chain ns b Hok Hp Hbl Hlen) as (Hok' & Hp' & Hnp').
    rewrite (fill_at (set_nodes ns b) Hok' Hp') by (cbn; lia).
    set (b1 := moved (set_nodes ns b) n _).
    assert (chain_ok b1) as Hok1 by (apply moved_chain; [apply Hok|done]).
    assert (limit b1 = limit b) as Hlim by (unfold limit, b1; cbn; by rewrite Hlen).
    assert (npos b1 = 0) as Hnp.
    { apply (moved_npos (set_nodes ns b) Hok' Hp'). cbn; lia. }
    unfold bind at 1. rewrite cur_size_at by (done || (rewrite Hlim; cbn; lia)).
    destruct (IH (size - n) 0 (m_base_size b1) (bpos + n) b1) as (ns' & E' & Hbl' & Hl' & Hc');
      [done|rewrite Hlim; cbn; lia|lia|lia|lia|].
    rewrite E'. exists ns'. split_and!; [|done|cbn in Hl'; lia|].
    + unfold b1, moved; cbn. rewrite <- Nat.add_assoc. do 3 f_equal; lia.
    + pose proof (splice_splice (m_pos b) (slice bpos n buf) (slice (bpos + n) (size - n) buf) (mem b)) as Q.
      rewrite Hx, slice_slice_app, length_mem_limit in Q by apply Hok.
      rewrite Hc'. change (mem b1) with (concat ns). change (m_pos b1) with (m_pos b + n).
      rewrite Hc, Q by lia. do 2 f_equal. lia.
Qed.

Lemma read_loop_spec fuel acc size np nc b :
  chain_ok b -> m_pos b + size <= limit b ->
  (0 < size -> np = npos b /\ nc = m_base_size b - npos b) ->
  size < fuel ->
  read_loop fuel acc size np nc b =
    Ok (acc ++ slice (m_pos b) size (mem b)) (moved b size (m_nodes b)).
Proof.
  revert acc size np nc b.
  induction fuel as [|fuel IH]; intros acc size np nc b Hok Hcap Hn Hf; [lia|].
  cbn [read_loop]. case_decide as Hs.
  { subst size. rewrite moved_0, slice_nil_0, app_nil_r by done. done. }
  destruct (Hn ltac:(lia)) as [-> ->]. assert (m_pos b < limit b) as Hp by lia.
  pose proof (npos_lt b (ch_base b Hok)) as Hm.
  case_decide as Hin.
  - unfold bind at 1. rewrite (load_at b Hok Hp) by lia.
    unfold bind at 1. rewrite cur_size_at by done.
    rewrite (finish_at b Hok Hp) by lia.
    destruct fuel; cbn [read_loop]; by rewrite decide_True.
  - set (n := m_base_size b - npos b) in *.
    unfold bind at 1. rewrite (load_at b Hok Hp) by lia.
    rewrite (fill_at b Hok Hp) by lia.
    set (b1 := moved b n _).
    assert (chain_ok b1) as Hok1 by (apply moved_chain; apply Hok).
    assert (npos b1 = 0) as Hnp by (apply (moved_npos b Hok Hp); lia).
    unfold bind at 1. rewrite cur_size_at by (done || (change (limit b1) with (limit b); cbn; lia)).
    rewrite IH by (done || lia || (change (limit b1) with (limit b); cbn; lia)).
    rewrite <- (assoc (++)). unfold b1, moved; cbn. fold (mem b).
    rewrite <- Nat.add_assoc, slice_slice_app. by replace (n + (size - n)) with size by lia.
Qed.

(** When the chain is too short the loop runs off its end. *)
Lemma write_loop_overrun fuel buf size np nc bpos b :
  chain_ok b -> m_pos b < limit b -> limit b < m_pos b + size ->
  np = npos b -> nc = m_base_size b - npos b ->
  size < fuel -> bpos + size = length buf ->
  write_loop fuel buf size np nc bpos b = Fail_ Undef.
Proof.
  revert size np nc bpos b.
  induction fuel as [|fuel IH]; intros size np nc bpos b Hok Hp Hover -> -> Hf Hl; [lia|].
  pose proof (npos_lt b (ch_base b Hok)) as Hm.
  destruct (locate b Hok Hp) as (i & d & Hi & _ & Epos & _ & _). apply lookup_lt_Some in Hi.
  cbn [write_loop]. rewrite decide_False by lia.
  rewrite decide_False by (unfold limit in *; nia).
  set (n := m_base_size b - npos b) in *.
  assert (n <= size) as Hns by (unfold limit in *; nia).
  destruct (store_at b Hok Hp (slice bpos n buf)) as (ns & E & Hbl & Hlen & Hc).
  { rewrite length_slice; lia. }
  unfold bind at 1. rewrite E.
  assert (chain_ok (set_nodes ns b)) as Hok'.
  { constructor; cbn; [apply Hok|done|]. rewrite Hlen. apply Hok. }
  assert (m_pos (set_nodes ns b) < limit (set_nodes ns b)) as Hp'
    by (unfold limit; cbn; by rewrite Hlen).
  assert (npos (set_nodes ns b) = npos b) as Hnp' by done.
  rewrite (fill_at (set_nodes ns b) Hok' Hp') by (cbn; lia).
  set (b1 := moved (set_nodes ns b) n _).
  assert (chain_ok b1) as Hok1 by (apply moved_chain; [apply Hok|done]).
  assert (limit b1 = limit b) as Hlim by (unfold limit, b1; cbn; by rewrite Hlen).
  assert (npos b1 = 0) as Hnp by (apply (moved_npos (set_nodes ns b) Hok' Hp'); cbn; lia).
  destruct (decide (m_pos b1 < limit b1)) as [Hlt|Hge].
  - unfold bind at 1. rewrite cur_size_at by done.
    apply IH; try done; [change (m_pos b1) with (m_pos b + n); lia|lia..].
  - unfold bind, cur_size, deref. rewrite (ch_cur b1 Hok1).
    unfold cur_of. by rewrite decide_False.
Qed.

(** *** The local cursor of [read(buf, size, pos)] *)

(** [read_at_loop] is [read_loop] with the cursor and position in locals. *)
Definition forget {A} (b : t) (r : res t A) : res t A :=
  match r with Ok a _ => Ok a b | Throw e _ => Throw e b | Fail_ f => Fail_ f end.

Lemma read_at_loop_equiv fuel cur acc size np nc p b :
  read_at_loop fuel cur acc size np nc b =
  forget b (read_loop fuel acc size np nc (set_cur cur (set_pos p b))).
Proof.
  revert cur acc size np nc p.
  induction fuel as [|fuel IH]; intros cur acc size np nc p;
    cbn [read_at_loop read_loop]; case_decide; try done.
  unfold cur_load, cur_size, cur_advance, bind, deref, modify, ret.
  case_decide.
  - change (node_load (set_cur cur (set_pos p b))) with (node_load b). cbn [m_cur set_cur].
    destruct (node_load b cur np size); [|done].
    change (node_size (set_cur cur (set_pos p b))) with (node_size b). cbn [m_cur set_cur].
    destruct (node_size b cur) as [s|]; [|done]. case_decide.
    + change (node_next (set_cur cur (set_pos p b))) with (node_next b). cbn [m_cur set_cur].
      destruct (node_next b cur) as [c|]; [|done]. apply (IH c _ _ _ _ (p + size)).
    + apply (IH cur _ _ _ _ (p + size)).
  - change (node_load (set_cur cur (set_pos p b))) with (node_load b). cbn [m_cur set_cur].
    destruct (node_load b cur np nc); [|done]. cbn [m_cur set_pos set_cur].
    change (node_next (set_pos _ (set_cur cur _))) with (node_next b).
    destruct (node_next b cur) as [c|]; [|done]. cbn [m_cur set_pos set_cur].
    change (node_size (set_cur c _)) with (node_size b).
    destruct (node_size b c) as [s|]; [|done]. apply (IH c _ _ _ _ (p + nc)).
Qed.

(** *** [position] *)

Lemma position_loop_spec fuel val j b :
  0 < m_base_size b -> blocks (m_base_size b) (m_nodes b) ->
  m_cur b = Some j -> j < length (m_nodes b) ->
  j * m_base_size b + val <= limit b -> length (m_nodes b) <= j + fuel ->
  exists j' val', position_loop fuel val b = Ok val' (set_cur (Some j') b) /\
    j' < length (m_nodes b) /\ j' * m_base_size b + val' = j * m_base_size b + val /\
    val' <= m_base_size b.
Proof.
  intros Hb Hbl. revert val j b Hb Hbl.
  induction fuel as [|fuel IH]; intros val j b Hb Hbl Hc Hj Hv Hf; [lia|].
  destruct (lookup_lt_is_Some_2 _ _ Hj) as [d Hd].
  cbn [position_loop]. unfold bind at 1. rewrite (cur_size_ok b j d Hc Hd).
  rewrite (blocks_lookup _ _ _ _ Hbl Hd). case_decide as Hle.
  - exists j, val. split_and!; try done; try lia. unfold ret. rewrite <- Hc. by destruct b.
  - unfold bind at 1. rewrite (cur_advance_ok b j Hc).
    rewrite decide_True by (unfold limit in *; nia).
    destruct (IH (val - m_base_size b) (S j) (set_cur (Some (S j)) b)) as (j' & v' & E & ? & ? & ?);
      try done; unfold limit in *; cbn in *; try nia.
    exists j', v'. rewrite E. split_and!; try done; try nia.
Qed.

(** ** The operations on the represented bytes *)

(** [addCapacity] rounds the missing bytes up to whole nodes only when this
    holds: it compares the remainder with the free bytes, not with 0. *)
Definition grows_enough (b : t) (size : nat) : Prop :=
  size <= getCapacity b \/
  (size - getCapacity b) mod m_base_size b = 0 \/
  getCapacity b < (size - getCapacity b) mod m_base_size b.
#[export] Instance grows_enough_dec b size : Decision (grows_enough b size).
Proof. unfold grows_enough. apply _. Defined.

(** What [write] is meant to do to the bytes and the position. *)
Definition written (b b' : t) (buf : list Z) : Prop :=
  wf b' /\ contents b' = splice (m_pos b) buf (contents b) /\
  m_pos b' = m_pos b + length buf /\ m_size b' = m_size b `max` (m_pos b + length buf) /\
  m_base_size b' = m_base_size b /\ m_endian b' = m_endian b /\ m_capacity b <= m_capacity b'.

Lemma wf_npos_cap b : wf b -> m_pos b <= m_capacity b.
Proof. intros []. lia. Qed.

Lemma wf_limit b : wf b -> limit b = m_capacity b.
Proof. intros []. done. Qed.

Lemma slice_contents b n :
  m_pos b + n <= m_size b -> slice (m_pos b) n (contents b) = slice (m_pos b) n (mem b).
Proof.
  intros H. unfold slice, contents.
  by rewrite take_drop_commute, take_take, Nat.min_l, <- take_drop_commute by lia.
Qed.

Lemma wf_moved b n :
  wf b -> m_pos b + n <= m_size b -> wf (moved b n (m_nodes b)).
Proof. intros []. by constructor. Qed.

Lemma clear_wf b : wf b -> wf (clear b).
Proof.
  intros [Hb Hr Hbl _ _ _ _]. unfold clear.
  destruct (m_nodes b) as [|d ns] eqn:E; [done|]. apply Forall_cons in Hbl as [Hd _].
  constructor; cbn; rewrite ?E; simpl; try done; try lia.
  - by repeat constructor.
  - unfold cur_of. rewrite decide_True by lia. by rewrite Nat.Div0.div_0_l.
Qed.

Section with_alloc.
Context (fresh : nat -> nat -> list Z).
Hypothesis fresh_length : forall k s, length (fresh k s) = s.

Lemma ByteArray_wf base : 0 < base -> wf (ByteArray fresh base).
Proof.
  intros H. constructor; cbn; try done; try lia.
  - repeat constructor. apply fresh_length.
  - unfold cur_of. rewrite decide_True by lia. by rewrite Nat.Div0.div_0_l.
Qed.

Lemma new_nodes_blocks count k s : blocks s (new_nodes fresh count k s).
Proof.
  revert k; induction count as [|count IH]; intros k; constructor; [apply fresh_length|apply IH].
Qed.

Lemma length_new_nodes count k s : length (new_nodes fresh count k s) = count.
Proof. revert k; induction count as [|count IH]; intros k; simpl; by rewrite ?IH. Qed.

(** [addCapacity]: appends whole nodes and keeps everything else. *)
Lemma addCapacity_spec size b :
  wf b -> 0 < size ->
  exists count, let ns := m_nodes b ++ new_nodes fresh count (length (m_nodes b)) (m_base_size b) in
    let b' := mk (m_base_size b) (m_pos b) (m_capacity b + count * m_base_size b) (m_size b)
                 (m_endian b) ns (cur_of (m_base_size b) (length ns) (m_pos b)) in
    addCapacity fresh size b = Ok tt b' /\ wf b' /\
    (grows_enough b size <-> m_pos b + size <= m_capacity b').
Proof.
  intros Hwf Hs. pose proof (wf_chain b Hwf) as Hok. destruct Hwf as [Hb Hr Hbl Hcap Hp Hsz Hcur].
  unfold addCapacity. rewrite decide_False by lia.
  unfold bind at 1, gets at 1. unfold grows_enough. set (old := getCapacity b).
  assert (old = m_capacity b - m_pos b) as Eold by done.
  case_decide as Hfit.
  - exists 0. cbn. rewrite app_nil_r, Nat.add_0_r. split_and!.
    + unfold ret. rewrite <- Hcur. by destruct b.
    + by constructor.
    + lia.
  - set (need := size - old). assert (need = size - old) as Eneed by done. unfold bind at 1. rewrite base_div_ok by done.
    unfold bind at 1. rewrite base_mod_ok by done.
    set (count := need / m_base_size b + _). exists count. cbv zeta.
    pose proof (Nat.div_mod_eq need (m_base_size b)) as Ediv.
    pose proof (Nat.mod_upper_bound need (m_base_size b) ltac:(lia)) as Hmod.
    set (ns := m_nodes b ++ new_nodes fresh count (length (m_nodes b)) (m_base_size b)).
    assert (length ns = length (m_nodes b) + count) as Hlen
      by (unfold ns; by rewrite length_app, length_new_nodes).
    assert (cur_of (m_base_size b) (length ns) (m_pos b) =
            if decide (old = 0) then (if decide (count = 0) then None else Some (length (m_nodes b)))
            else m_cur b) as Ecur.
    { rewrite Hcur. unfold cur_of. rewrite Hlen. destruct (decide (old = 0)) as [Hz|Hz].
      - assert (m_pos b = length (m_nodes b) * m_base_size b) as -> by lia.
        rewrite Nat.div_mul by lia. repeat case_decide; try done; nia.
      - rewrite !decide_True by nia. done. }
    split_and!.
    + unfold bind, gets, modify, ret. fold ns.
      unfold set_nodes, set_capacity, set_cur; cbn. fold ns. rewrite Ecur.
      by case_decide.
    + constructor; cbn; try done; try nia.
      * unfold ns. by destruct (m_nodes b).
      * unfold ns. apply Forall_app; split; [done|apply new_nodes_blocks].
    + cbn [m_capacity]. assert (m_pos b + size = m_capacity b + need) as -> by lia.
      unfold count. rewrite Nat.mul_add_distr_r, (Nat.mul_comm (need / m_base_size b)).
      destruct (decide (old < need mod m_base_size b)); lia.
Qed.

(** The last statement of [write]. *)
Definition commit (b : t) : t :=
  if decide (m_size b < m_pos b) then set_size (m_pos b) b else b.

Lemma commit_eq b : commit b = set_size (m_size b `max` m_pos b) b.
Proof.
  unfold commit. case_decide.
  - by rewrite Nat.max_r by lia.
  - rewrite Nat.max_l by lia. by destruct b.
Qed.

Lemma write_run buf b b1 :
  buf <> [] -> addCapacity fresh (length buf) b = Ok tt b1 -> chain_ok b1 -> m_pos b1 < limit b1 ->
  write fresh buf b =
    bind (write_loop (S (length buf)) buf (length buf) (npos b1) (m_base_size b1 - npos b1) 0)
      (fun _ => modify commit) b1.
Proof.
  intros Hne E Hok Hp. unfold write.
  rewrite decide_False by (by destruct buf).
  unfold bind at 1. rewrite E. unfold bind at 1, gets.
  unfold bind at 1. rewrite base_mod_ok by apply Hok.
  unfold bind at 1. by rewrite cur_size_at.
Qed.

Lemma written_moved buf b b1 ns junk :
  wf b -> wf b1 -> m_nodes b1 = m_nodes b ++ junk ->
  m_pos b1 = m_pos b -> m_size b1 = m_size b ->
  m_base_size b1 = m_base_size b -> m_endian b1 = m_endian b ->
  m_capacity b <= m_capacity b1 -> m_pos b + length buf <= m_capacity b1 ->
  blocks (m_base_size b1) ns -> length ns = length (m_nodes b1) ->
  concat ns = splice (m_pos b1) buf (mem b1) ->
  written b (commit (moved b1 (length buf) ns)) buf.
Proof.
  intros Hwf Hwf1 En Ep Es Eb Ee Hcap0 Hcap Hbl Hlen Hc. rewrite commit_eq.
  pose proof (length_mem b Hwf) as Lm. pose proof (length_mem b1 Hwf1) as Lm1.
  pose proof (wf_pos b Hwf) as Hps. pose proof (wf_size b Hwf) as Hsc.
  pose proof (wf_size b1 Hwf1) as Hsc1.
  unfold written. cbn [moved set_size m_size m_pos m_base_size m_endian].
  rewrite Ep, Es. split_and!; try done.
  - constructor; cbn; rewrite ?Ep, ?Es; try done; try lia.
    + apply Hwf1.
    + intros ->. pose proof (wf_root b1 Hwf1). by destruct (m_nodes b1).
    + rewrite Hlen. apply Hwf1.
  - unfold contents, mem at 1; cbn [moved set_size m_size m_nodes].
    rewrite Hc, Ep, take_splice_max by lia. f_equal.
    unfold mem. rewrite En, concat_app, take_app_le; [done|]. fold (mem b). lia.
Qed.

(** [write] on every branch. *)
Lemma write_spec buf b :
  wf b -> buf <> [] ->
  (grows_enough b (length buf) -> exists b', write fresh buf b = Ok tt b' /\ written b b' buf) /\
  (~ grows_enough b (length buf) -> write fresh buf b = Fail_ Undef).
Proof.
  intros Hwf Hne. assert (0 < length buf) as Hl by (destruct buf; simpl; [done|lia]).
  assert (~ grows_enough b (length buf) -> 0 < getCapacity b) as Hfree
    by (unfold grows_enough; lia).
  destruct (addCapacity_spec (length buf) b Hwf Hl) as (count & E & Hwf' & Hen). cbv zeta in *.
  match type of Hwf' with wf ?x => set (b1 := x) in * end.
  pose proof (wf_chain b1 Hwf') as Hok. pose proof (wf_limit b1 Hwf') as Hlim.
  assert (m_pos b1 = m_pos b) as Ep by done.
  split; intros Hgo.
  - apply Hen in Hgo. rewrite (write_run buf b b1) by (done || lia). unfold bind.
    destruct (write_loop_spec (S (length buf)) buf (length buf) (npos b1)
      (m_base_size b1 - npos b1) 0 b1) as (ns & -> & Hbl & Hlen & Hc); [done|lia|done|lia|lia|].
    rewrite slice_0_all in Hc by done.
    eexists. split; [done|]. eapply written_moved; try done. cbn. lia.
  - specialize (Hfree Hgo). rewrite Hen in Hgo. unfold getCapacity in Hfree.
    assert (m_pos b1 < limit b1) as Hp by (rewrite Hlim; cbn in *; lia).
    rewrite (write_run buf b b1) by done. unfold bind.
    by rewrite write_loop_overrun by (done || lia).
Qed.
End with_alloc.

(** *** Reading *)

Lemma read_spec n b :
  wf b ->
  (getReadSize b < n -> read n b = Throw out_of_range b) /\
  (n <= getReadSize b -> 0 < n \/ m_pos b < m_capacity b ->
     read n b = Ok (slice (m_pos b) n (contents b)) (moved b n (m_nodes b)) /\
     wf (moved b n (m_nodes b))) /\
  (n = 0 -> m_pos b = m_capacity b -> read n b = Fail_ Undef).
Proof.
  intros Hwf. pose proof (wf_chain b Hwf) as Hok. pose proof (wf_limit b Hwf) as Hlim.
  pose proof (wf_size b Hwf) as Hsz. pose proof (wf_pos b Hwf) as Hpos.
  unfold getReadSize in *.
  split_and!.
  - intros H. unfold read, bind, gets, getReadSize. by rewrite decide_True.
  - intros H Hin. unfold read, bind at 1, gets, getReadSize.
    rewrite decide_False by lia. unfold bind at 1.
    unfold bind at 1. rewrite base_mod_ok by apply Hok.
    unfold bind at 1. rewrite cur_size_at by (done || lia).
    rewrite read_loop_spec by (done || lia). rewrite slice_contents by lia.
    split; [done|]. apply wf_moved; [done|lia].
  - intros -> Hend. unfold read, bind at 1, gets, getReadSize.
    rewrite decide_False by lia. unfold bind at 1.
    unfold bind at 1. rewrite base_mod_ok by apply Hok.
    unfold bind, cur_size, deref. rewrite (ch_cur b Hok). unfold cur_of.
    by rewrite decide_False by (unfold limit in *; lia).
Qed.

Lemma to_string_spec b : wf b -> to_string b = Ok (drop (m_pos b) (contents b)) b.
Proof.
  intros Hwf. pose proof (wf_chain b Hwf) as Hok. pose proof (wf_limit b Hwf) as Hlim.
  pose proof (wf_size b Hwf) as Hsz. pose proof (wf_pos b Hwf) as Hpos.
  pose proof (length_mem b Hwf) as Lm.
  assert (drop (m_pos b) (contents b) = slice (m_pos b) (getReadSize b) (mem b)) as ->.
  { unfold slice, contents, getReadSize. rewrite take_drop_commute. do 2 f_equal. lia. }
  unfold to_string, bind at 1, gets. unfold getReadSize. case_decide as Hz.
  { by rewrite Hz. }
  unfold bind at 1. unfold read_at, bind at 1, gets, getReadSize.
  rewrite decide_False by lia. unfold bind at 1. rewrite base_mod_ok by apply Hok.
  unfold bind at 1. rewrite cur_size_at by (done || lia).
  unfold bind at 1. rewrite (read_at_loop_equiv _ _ _ _ _ _ (m_pos b)).
  replace (set_cur (m_cur b) (set_pos (m_pos b) b)) with b by (by destruct b).
  by rewrite read_loop_spec by (done || lia).
Qed.

(** *** Seeking *)

Lemma position_spec val b :
  wf b ->
  (m_capacity b < val -> position val b = Throw out_of_range b) /\
  (val <= m_capacity b ->
     let b' := mk (m_base_size b) val (m_capacity b) (m_size b `max` val) (m_endian b) (m_nodes b)
                  (cur_of (m_base_size b) (length (m_nodes b)) val) in
     position val b = Ok tt b' /\ wf b').
Proof.
  intros Hwf. pose proof (wf_size b Hwf) as Hsz. split; intros Hv.
  { unfold position, bind, gets. by rewrite decide_True. }
  cbv zeta. split.
  2:{ destruct Hwf. constructor; cbn; try done; lia. }
  unfold position, bind at 1, gets at 1.
  rewrite decide_False by lia. unfold bind at 1, modify. unfold bind at 1.
  fold (commit (set_pos val b)). rewrite commit_eq. unfold bind at 1. unfold bind at 1, gets. unfold bind at 1.
  match goal with |- context [position_loop _ _ ?x] => set (b1 := x) end.
  destruct (position_loop_spec (length (m_nodes b1)) val 0 b1) as (j & v & E & Hj & Ev & Hvb);
    unfold limit in *; cbn in *; try apply Hwf; try done; try lia.
  { pose proof (wf_root b Hwf). destruct (m_nodes b); [done|simpl; lia]. }
  { pose proof (wf_capacity b Hwf). lia. }
  rewrite E. destruct (lookup_lt_is_Some_2 _ _ Hj) as [d Hd].
  set (b2 := set_cur (Some j) b1).
  unfold bind at 1. rewrite (cur_size_ok b2 j d eq_refl Hd).
  rewrite (blocks_lookup _ _ _ _ (wf_blocks b Hwf) Hd).
  pose proof (wf_base b Hwf) as Hb. case_decide as Hfull.
  - rewrite (cur_advance_ok b2 j eq_refl), (cur_of_next (m_base_size b)) by done.
    replace (S j * m_base_size b) with val by lia. done.
  - unfold ret, b2, b1, set_cur, set_size, set_pos; cbn.
    rewrite <- Ev, cur_of_inside by lia. done.
Qed.

(** *** Scatter/gather buffers *)

(** The bytes a buffer list names, and the sum of its lengths. *)
Definition iov_bytes (b : t) (v : iovec) : list Z :=
  from_option (slice (iov_base v) (iov_len v)) [] (m_nodes b !! iov_node v).
Definition gather (b : t) (vs : list iovec) : list Z := concat (iov_bytes b <$> vs).
Definition iov_total (vs : list iovec) : nat := sum_list (iov_len <$> vs).
(** A buffer lies inside one node. *)
Definition iov_ok (b : t) (v : iovec) : Prop :=
  exists d, m_nodes b !! iov_node v = Some d /\ 0 < iov_len v /\ iov_base v + iov_len v <= length d.

(** The buffers follow one another from position [p] on. *)
Fixpoint contiguous (base p : nat) (vs : list iovec) : Prop :=
  match vs with
  | [] => True
  | v :: vs => iov_node v * base + iov_base v = p /\ contiguous base (p + iov_len v) vs
  end.

Lemma gather_cons b v vs : gather b (v :: vs) = iov_bytes b v ++ gather b vs.
Proof. done. Qed.

(** The cursor and position [getReadBuffers] starts from, put in the state. *)
Definition seek (b : t) (p : nat) : t :=
  mk (m_base_size b) p (m_capacity b) (m_size b) (m_endian b) (m_nodes b)
     (cur_of (m_base_size b) (length (m_nodes b)) p).

Lemma seek_chain b p : chain_ok b -> chain_ok (seek b p).
Proof. intros []. by constructor. Qed.

Lemma iov_loop_contiguous fuel acc len np nc p b :
  chain_ok b -> p + len <= limit b ->
  (0 < len -> np = p mod m_base_size b /\ nc = m_base_size b - np) -> len < fuel ->
  exists vs,
    iov_loop fuel (cur_of (m_base_size b) (length (m_nodes b)) p) acc len np nc b = Ok (acc ++ vs) b /\
    gather b vs = slice p len (mem b) /\ iov_total vs = len /\ Forall (iov_ok b) vs /\
    contiguous (m_base_size b) p vs.
Proof.
  intros Hok. revert acc len np nc p.
  induction fuel as [|fuel IH]; intros acc len np nc p Hcap Hn Hf; [lia|].
  cbn [iov_loop]. case_decide as Hs.
  { subst len. exists []. by rewrite app_nil_r. }
  destruct (Hn ltac:(lia)) as [-> ->].
  destruct (locate (seek b p) (seek_chain b p Hok)) as (i & d & Hi & Hd & Ep & Hm & Hc);
    [unfold limit in *; cbn in *; lia|]. cbn in Hi, Hd, Ep, Hm, Hc. unfold npos in *; cbn in *.
  rewrite Hc. set (base := m_base_size b) in *. set (np := p mod base) in *.
  assert (forall n, n <= base - np ->
    iov_bytes b (IoVec i np n) = slice p n (mem b)) as Hby.
  { intros n Hn'. unfold iov_bytes; cbn. rewrite Hi; cbn.
    rewrite (slice_blocks base (m_nodes b) i d) by (apply Hok || done || lia). by rewrite <- Ep. }
  pose proof (lookup_lt_Some _ _ _ Hi) as Hlt.
  unfold bind at 1, deref at 1. case_decide as Hin.
  - exists [IoVec i np len]. destruct fuel; cbn [iov_loop]; rewrite decide_True by done;
      (split_and!; [done| |unfold iov_total; cbn; lia| |cbn; split; [lia|done]]);
      try (rewrite gather_cons, Hby by lia; apply app_nil_r);
      (constructor; [|done]; exists d; cbn; split_and!; [done|lia|lia]).
  - unfold bind at 1, deref at 1. cbn [node_next].
    rewrite (cur_of_next base) by apply Hok.
    assert (S i < length (m_nodes b)) as HSi by (unfold limit in *; nia).
    destruct (lookup_lt_is_Some_2 _ _ HSi) as [d' Hd'].
    assert (cur_of base (length (m_nodes b)) (S i * base) = Some (S i)) as HcS
      by (apply cur_of_start; [apply Hok|done]).
    assert (node_size b (cur_of base (length (m_nodes b)) (S i * base)) = Some base) as Hsz.
    { rewrite HcS. cbn. rewrite Hd'. cbn. by rewrite (blocks_lookup base _ _ _ (ch_blocks b Hok) Hd'). }
    unfold bind at 1, deref at 1. rewrite Hsz.
    destruct (IH (acc ++ [IoVec i np (base - np)]) (len - (base - np)) 0 base (S i * base))
      as (vs & E & Hg & Ht & Hv & Hct); [unfold limit in *; nia| |lia|].
    { rewrite Nat.Div0.mod_mul. lia. }
    rewrite E. exists (IoVec i np (base - np) :: vs). split_and!.
    + by rewrite <- (assoc (++)).
    + rewrite gather_cons, Hby, Hg by lia. replace (S i * base) with (p + (base - np)) by lia.
      rewrite slice_slice_app. f_equal. lia.
    + unfold iov_total in *. cbn in *. lia.
    + constructor; [|done]. exists d; cbn. split_and!; [done|lia|lia].
    + cbn. split; [lia|]. fold base in Hct. by replace (p + (base - np)) with (S i * base) by lia.
Qed.

(** Too few bytes behind the position: the loop follows the null pointer at the end of the chain. *)
Lemma iov_loop_overrun fuel acc len p b :
  chain_ok b -> p < limit b -> limit b < p + len -> len < fuel ->
  iov_loop fuel (cur_of (m_base_size b) (length (m_nodes b)) p) acc len (p mod m_base_size b)
    (m_base_size b - p mod m_base_size b) b = Fail_ Undef.
Proof.
  intros Hok. revert acc len p. induction fuel as [|fuel IH]; intros acc len p Hp Hover Hf; [lia|].
  destruct (locate (seek b p) (seek_chain b p Hok)) as (i & d & Hi & Hd & Ep & Hm & Hc);
    [unfold limit in *; cbn in *; lia|]. cbn in Hi, Hd, Ep, Hm, Hc. unfold npos in *; cbn in *.
  rewrite Hc. set (base := m_base_size b) in *. set (np := p mod base) in *.
  pose proof (lookup_lt_Some _ _ _ Hi) as Hlt. cbn [iov_loop]. rewrite decide_False by lia.
  unfold bind at 1, deref at 1. rewrite decide_False by (unfold limit in *; nia).
  unfold bind at 1, deref at 1. cbn [node_next]. rewrite (cur_of_next base) by apply Hok.
  unfold bind at 1, deref at 1. destruct (decide (S i < length (m_nodes b))) as [HSi|HSi].
  - destruct (lookup_lt_is_Some_2 _ _ HSi) as [d' Hd'].
    assert (node_size b (cur_of base (length (m_nodes b)) (S i * base)) = Some base) as ->.
    { rewrite (cur_of_start base) by (apply Hok || done). cbn. rewrite Hd'. cbn.
      by rewrite (blocks_lookup base _ _ _ (ch_blocks b Hok) Hd'). }
    specialize (IH (acc ++ [IoVec i np (base - np)]) (len - (base - np)) (S i * base)).
    fold base in IH. rewrite Nat.Div0.mod_mul, Nat.sub_0_r in IH.
    apply IH; unfold limit in *; nia.
  - rewrite <- (cur_of_next base) by apply Hok. by rewrite decide_False.
Qed.

Lemma iov_loop_spec fuel acc len np nc p b :
  chain_ok b -> p + len <= limit b ->
  (0 < len -> np = p mod m_base_size b /\ nc = m_base_size b - np) -> len < fuel ->
  exists vs,
    iov_loop fuel (cur_of (m_base_size b) (length (m_nodes b)) p) acc len np nc b = Ok (acc ++ vs) b /\
    gather b vs = slice p len (mem b) /\ iov_total vs = len /\ Forall (iov_ok b) vs.
Proof.
  intros H1 H2 H3 H4. destruct (iov_loop_contiguous fuel acc len np nc p b H1 H2 H3 H4) as (vs & ? & ? & ? & ? & _).
  by exists vs.
Qed.

Lemma getReadBuffers_spec len b :
  wf b ->
  exists vs, getReadBuffers len b = Ok (len `min` getReadSize b, vs) b /\
    gather b vs = slice (m_pos b) (len `min` getReadSize b) (contents b) /\
    iov_total vs = len `min` getReadSize b /\ Forall (iov_ok b) vs.
Proof.
  intros Hwf. pose proof (wf_chain b Hwf) as Hok. pose proof (wf_limit b Hwf) as Hlim.
  pose proof (wf_size b Hwf) as Hsz. pose proof (wf_pos b Hwf) as Hpos.
  unfold getReadBuffers, bind at 1, gets at 1. cbv zeta.
  replace (if decide (getReadSize b < len) then getReadSize b else len)
    with (len `min` getReadSize b) by (case_decide; lia).
  set (n := len `min` getReadSize b). unfold getReadSize in *.
  rewrite slice_contents by lia. case_decide as Hz.
  { exists []. rewrite Hz. split_and!; try done. }
  unfold bind at 1, gets at 1. unfold bind at 1. rewrite base_mod_ok by apply Hok.
  unfold bind at 1. rewrite cur_size_at by (done || lia).
  unfold bind at 1, gets at 1. unfold bind at 1. rewrite (ch_cur b Hok).
  destruct (iov_loop_spec (S n) [] n (m_pos b mod m_base_size b)
    (m_base_size b - m_pos b mod m_base_size b) (m_pos b) b) as (vs & -> & Hg & Ht & Hv);
    [done|lia|done|lia|].
  by exists vs.
Qed.

(** *** Files *)

(** From a node boundary on, [writeToFile] writes the unread bytes. *)
Lemma writeToFile_loop_aligned fuel i rs out b :
  chain_ok b -> i * m_base_size b + rs <= limit b -> (0 < rs -> length (m_nodes b) < fuel + i) ->
  0 < fuel ->
  writeToFile_loop fuel (cur_of (m_base_size b) (length (m_nodes b)) (i * m_base_size b))
    (Z.of_nat rs) (Z.of_nat (i * m_base_size b)) out b
  = Ok (out ++ slice (i * m_base_size b) rs (mem b)) b.
Proof.
  intros Hok. pose proof (ch_base b Hok) as Hb. set (base := m_base_size b) in *.
  revert i rs out. induction fuel as [|fuel IH]; intros i rs out Hcap Hf Hf0; [lia|].
  cbn [writeToFile_loop]. case_decide as Hz.
  { replace rs with 0 by lia. by rewrite slice_nil_0, app_nil_r. }
  assert (i < length (m_nodes b)) as Hi by (unfold limit in *; nia).
  destruct (lookup_lt_is_Some_2 _ _ Hi) as [d Hd].
  pose proof (blocks_lookup base _ _ _ (ch_blocks b Hok) Hd) as Ld.
  rewrite Nat2Z.id. unfold bind at 1. rewrite base_mod_ok by done. fold base.
  rewrite Nat.Div0.mod_mul. unfold bind at 1, gets. fold base.
  set (n := rs `min` base).
  replace (_ - Z.of_nat 0)%Z with (Z.of_nat n) by (case_decide; lia).
  unfold bind at 1, require. rewrite bool_decide_true by lia. unfold ret at 1.
  rewrite Nat2Z.id.
  rewrite (cur_of_start base) by done.
  unfold bind at 1, deref at 1. cbn [node_load]. rewrite Hd, decide_True by lia.
  rewrite (slice_blocks base (m_nodes b) i d) by (apply Hok || done || lia).
  rewrite Nat.add_0_r. fold (mem b).
  unfold bind at 1, deref at 1. cbn [node_next]. rewrite (cur_of_next base) by done.
  replace (Z.of_nat rs - Z.of_nat n)%Z with (Z.of_nat (rs - n)) by lia.
  destruct (decide (rs <= base)) as [Hle|Hgt].
  - replace (rs - n) with 0 by lia. replace n with rs by lia.
    destruct fuel; cbn [writeToFile_loop]; by rewrite decide_True.
  - replace (Z.of_nat (i * base) + Z.of_nat n)%Z with (Z.of_nat (S i * base)) by lia.
    rewrite IH by nia. rewrite <- (assoc (++)).
    replace (S i * base) with (i * base + n) by lia. rewrite slice_slice_app.
    by replace (n + (rs - n)) with rs by lia.
Qed.

Lemma length_contents b : wf b -> length (contents b) = m_size b.
Proof.
  intros Hwf. unfold contents. rewrite length_take, (length_mem b Hwf).
  pose proof (wf_size b Hwf). lia.
Qed.

(** Two writes in a row are one write of both buffers. *)
Lemma written_app b b1 b2 x y :
  wf b -> written b b1 x -> written b1 b2 y -> written b b2 (x ++ y).
Proof.
  intros Hwf (Hwf1 & Ec1 & Ep1 & Es1 & Eb1 & Ee1 & Ek1) (Hwf2 & Ec2 & Ep2 & Es2 & Eb2 & Ee2 & Ek2).
  pose proof (wf_pos b Hwf). unfold written. rewrite length_app.
  split_and!; try done; try lia; try congruence.
  rewrite Ec2, Ec1, Ep1, splice_splice by (rewrite length_contents by done; lia). done.
Qed.

Lemma written_nil b : wf b -> written b b [].
Proof.
  intros Hwf. pose proof (wf_pos b Hwf). unfold written. rewrite splice_nil. cbn.
  split_and!; try done; lia.
Qed.

Lemma grows_enough_room b n : n <= getCapacity b -> grows_enough b n.
Proof. by left. Qed.

Lemma grows_enough_base1 b n : m_base_size b = 1 -> grows_enough b n.
Proof. intros H. right; left. rewrite H. apply Nat.mod_1_r. Qed.

(** At a node boundary a buffer of at most one node always finds room. *)
Lemma grows_enough_aligned b n :
  wf b -> m_pos b mod m_base_size b = 0 -> n <= m_base_size b -> grows_enough b n.
Proof.
  intros [Hb _ _ Hc Hp Hs _] Ha Hn. apply Nat.Div0.div_exact in Ha.
  unfold grows_enough, getCapacity. rewrite Hc.
  set (q := m_pos b / m_base_size b) in *.
  destruct (decide (q = length (m_nodes b))) as [->|Hne].
  - right. rewrite Ha. replace (length _ * _ - _) with 0 by lia. rewrite Nat.sub_0_r.
    destruct (decide (n mod m_base_size b = 0)); [by left|right; lia].
  - left. nia.
Qed.

Section files.
Context (fresh : nat -> nat -> list Z).
Hypothesis fresh_length : forall k s, length (fresh k s) = s.

Lemma write_nil b : write fresh [] b = Ok tt b.
Proof. done. Qed.

Lemma write_ok buf b :
  wf b -> grows_enough b (length buf) -> exists b', write fresh buf b = Ok tt b' /\ written b b' buf.
Proof.
  intros Hwf Hg. destruct (decide (buf = [])) as [->|Hne].
  - exists b. split; [done|]. by apply written_nil.
  - by apply (write_spec fresh fresh_length buf b Hwf Hne).
Qed.

Lemma readFromFile_loop_spec fuel file b :
  wf b -> m_pos b mod m_base_size b = 0 -> length file < fuel ->
  exists b', readFromFile_loop fresh fuel file b = Ok tt b' /\ written b b' file.
Proof.
  revert file b. induction fuel as [|fuel IH]; intros file b Hwf Ha Hf; [lia|].
  cbn [readFromFile_loop]. unfold bind at 1, gets. set (base := m_base_size b).
  pose proof (wf_base b Hwf) as Hb. fold base in Hb.
  destruct (write_ok (take base file) b Hwf) as (b1 & E & Hw).
  { apply grows_enough_aligned; [done..|]. rewrite length_take. fold base. lia. }
  unfold bind at 1. rewrite E. rewrite length_take. case_decide as Hend.
  - exists b1. split; [done|]. by rewrite take_ge in Hw by lia.
  - destruct Hw as (Hwf1 & Hw'). pose proof Hw' as (_ & Ep & _ & Eb & _).
    rewrite length_take in Ep.
    destruct (IH (drop base file) b1) as (b2 & E2 & Hw2); [done| |rewrite length_drop; lia|].
    { rewrite Ep, Eb. replace (base `min` length file) with base by lia.
      rewrite <- (Nat.mul_1_l base) at 1. by rewrite Nat.Div0.mod_add. }
    rewrite E2. exists b2. split; [done|]. rewrite <- (take_drop base file).
    by apply (written_app b b1).
Qed.
End files.

(** [read_sz] is [read]. *)
Lemma read_sz_eq size b : (0 <= size)%Z -> read_sz size b = read (Z.to_nat size) b.
Proof.
  intros H. unfold read_sz, read, bind at 1, gets. case_decide as Hd; [|done].
  unfold bind, gets, throw. by rewrite decide_True by lia.
Qed.

(** ** A byte string at the current position *)
Definition at_pos (b : t) (l : list Z) : Prop :=
  wf b /\ m_pos b + length l <= m_size b /\ slice (m_pos b) (length l) (contents b) = l.

Lemma at_pos_app b x y :
  at_pos b (x ++ y) -> at_pos b x /\ at_pos (moved b (length x) (m_nodes b)) y.
Proof.
  intros (Hwf & Hs & E). rewrite length_app in *.
  rewrite <- slice_slice_app in E. pose proof (length_contents b Hwf) as Lc.
  apply app_inj_1 in E as [Ex Ey]; [|rewrite length_slice; lia].
  split; [split_and!; [done|lia|done]|].
  split_and!; [apply wf_moved; [done|lia]|cbn; lia|done].
Qed.

Lemma read_at_pos b x :
  at_pos b x -> x <> [] -> read (length x) b = Ok x (moved b (length x) (m_nodes b)).
Proof.
  intros (Hwf & Hs & E) Hne. destruct (read_spec (length x) b Hwf) as (_ & H & _).
  destruct H as [H _]; [unfold getReadSize; lia|left; by destruct x; simpl; [|lia]|].
  by rewrite H, E.
Qed.

(** [position] back to where a write started, with the bytes written there. *)
Lemma rewind b b1 l :
  wf b -> written b b1 l ->
  exists b2, position (m_pos b) b1 = Ok tt b2 /\ at_pos b2 l /\
    m_pos b2 = m_pos b /\ m_endian b2 = m_endian b /\ contents b2 = contents b1.
Proof.
  intros Hwf (Hwf1 & Ec & Ep & Es & Eb & Ee & Ek).
  pose proof (wf_pos b Hwf) as Hp. pose proof (wf_size b1 Hwf1) as Hs1.
  destruct (position_spec (m_pos b) b1 Hwf1) as [_ H]. destruct H as [H Hwf2]; [lia|].
  eexists. split; [exact H|].
  assert (m_size b1 `max` m_pos b = m_size b1) as Em by lia.
  split_and!; try done.
  - split_and!; [done|cbn; lia|]. unfold contents; cbn. rewrite Em. fold (mem b1). fold (contents b1).
    rewrite Ec. apply slice_splice. rewrite length_contents by done. lia.
  - unfold contents, mem; cbn. by rewrite Em.
Qed.

(** Room for [n] more bytes, whatever their split into writes. *)
Definition room (b : t) (n : nat) : Prop := m_base_size b = 1 \/ n <= getCapacity b.

Lemma room_grows b n m : room b (n + m) -> grows_enough b n.
Proof.
  intros [H|H]; [by apply grows_enough_base1|apply grows_enough_room; lia].
Qed.

Lemma room_written b b1 x m : room b (length x + m) -> written b b1 x -> room b1 m.
Proof.
  intros [H|H] (Hwf1 & _ & Ep & _ & Eb & _ & Ek); [left; congruence|right].
  unfold getCapacity in *. lia.
Qed.

Section sequences.
Context (fresh : nat -> nat -> list Z).
Hypothesis fresh_length : forall k s, length (fresh k s) = s.

Fixpoint writes (chunks : list (list Z)) : cmd t unit :=
  match chunks with
  | [] => ret tt
  | c :: chunks => write fresh c ;;; writes chunks
  end.

Lemma writes_ok chunks b :
  wf b -> room b (length (concat chunks)) ->
  exists b', writes chunks b = Ok tt b' /\ written b b' (concat chunks).
Proof.
  revert b. induction chunks as [|c chunks IH]; intros b Hwf Hr; cbn [writes concat] in *.
  - exists b. split; [done|]. by apply written_nil.
  - rewrite length_app in Hr.
    destruct (write_ok fresh fresh_length c b Hwf) as (b1 & E & Hw); [by eapply room_grows|].
    destruct (IH b1) as (b2 & E2 & Hw2); [apply Hw|by eapply room_written|].
    unfold bind. rewrite E, E2. exists b2. split; [done|]. by apply (written_app b b1).
Qed.

Lemma writes_app c1 c2 b :
  writes (c1 ++ c2) b = bind (writes c1) (fun _ => writes c2) b.
Proof.
  revert b. induction c1 as [|c c1 IH]; intros b; cbn [writes app]; [done|].
  unfold bind in *. destruct (write fresh c b); [apply IH|done..].
Qed.
End sequences.

(** *** [writeToFile] away from a node boundary *)

Section unaligned.
Context (b : t) (Hok : chain_ok b).
Abbreviation base := (m_base_size b).

Lemma writeToFile_loop_step fuel i rs pos out d :
  m_nodes b !! i = Some d -> 0 < rs -> pos mod base <= rs `min` base ->
  writeToFile_loop (S fuel) (Some i) (Z.of_nat rs) (Z.of_nat pos) out b =
  writeToFile_loop fuel (if decide (S i < length (m_nodes b)) then Some (S i) else None)
    (Z.of_nat (rs - (rs `min` base - pos mod base))) (Z.of_nat (pos + (rs `min` base - pos mod base)))
    (out ++ slice (pos mod base) (rs `min` base - pos mod base) d) b.
Proof.
  intros Hd Hrs Hle. cbn [writeToFile_loop]. rewrite decide_False by lia. rewrite Nat2Z.id.
  unfold bind at 1. rewrite base_mod_ok by apply Hok. unfold bind at 1, gets.
  set (n := rs `min` base - pos mod base).
  replace (_ - Z.of_nat (pos mod base))%Z with (Z.of_nat n) by (case_decide; lia).
  unfold bind at 1, require. rewrite bool_decide_true by lia. unfold ret at 1. rewrite Nat2Z.id.
  unfold bind at 1, deref at 1. cbn [node_load].
  rewrite Hd, decide_True by (rewrite (blocks_lookup base _ _ _ (ch_blocks b Hok) Hd); lia).
  unfold bind at 1, deref at 1. cbn [node_next].
  replace (Z.of_nat rs - Z.of_nat n)%Z with (Z.of_nat (rs - n)) by lia.
  replace (Z.of_nat pos + Z.of_nat n)%Z with (Z.of_nat (pos + n)) by lia. done.
Qed.

(** Fewer bytes left than the offset in the node: a negative length. *)
Lemma writeToFile_loop_negative fuel cur rs pos out :
  0 < rs -> rs < base -> rs < pos mod base ->
  writeToFile_loop (S fuel) cur (Z.of_nat rs) (Z.of_nat pos) out b = Fail_ Undef.
Proof.
  intros Hrs Hlt Hm. cbn [writeToFile_loop]. rewrite decide_False by lia. rewrite Nat2Z.id.
  unfold bind at 1. rewrite base_mod_ok by apply Hok. unfold bind at 1, gets.
  unfold bind at 1, require. rewrite bool_decide_false; [done|]. case_decide; lia.
Qed.

(** As many as the offset: nothing is written and the cursor runs off the chain. *)
Lemma writeToFile_loop_stuck fuel i rs pos out :
  0 < rs -> rs < base -> pos mod base = rs -> i < length (m_nodes b) ->
  length (m_nodes b) < fuel + i ->
  writeToFile_loop fuel (Some i) (Z.of_nat rs) (Z.of_nat pos) out b = Fail_ Undef.
Proof.
  intros Hrs Hlt Hm. revert i out. induction fuel as [|fuel IH]; intros i out Hi Hf; [lia|].
  destruct (lookup_lt_is_Some_2 _ _ Hi) as [d Hd].
  rewrite (writeToFile_loop_step fuel i rs pos out d) by (done || lia).
  replace (rs `min` base - pos mod base) with 0 by lia. rewrite Nat.sub_0_r, Nat.add_0_r.
  case_decide as Hn; [apply IH; lia|]. destruct fuel as [|fuel]; [lia|].
  cbn [writeToFile_loop]. rewrite decide_False by lia. rewrite Nat2Z.id.
  unfold bind at 1. rewrite base_mod_ok by apply Hok. unfold bind at 1, gets.
  unfold bind at 1, require. rewrite bool_decide_true by (case_decide; lia). done.
Qed.
End unaligned.

(** When the file gets exactly the unread bytes. *)
Definition file_aligned (b : t) : Prop :=
  npos b = 0 \/ getReadSize b = 0 \/ m_base_size b <= getReadSize b.
#[export] Instance file_aligned_dec b : Decision (file_aligned b).
Proof. unfold file_aligned. apply _. Defined.

Lemma unread_slice b : wf b -> drop (m_pos b) (contents b) = slice (m_pos b) (getReadSize b) (mem b).
Proof.
  intros Hwf. pose proof (wf_pos b Hwf). unfold slice, contents, getReadSize.
  rewrite take_drop_commute. do 2 f_equal. lia.
Qed.

Lemma writeToFile_loop_ok b :
  wf b -> file_aligned b ->
  writeToFile_loop (S (length (m_nodes b))) (m_cur b) (Z.of_nat (getReadSize b)) (Z.of_nat (m_pos b)) [] b
  = Ok (drop (m_pos b) (contents b)) b.
Proof.
  intros Hwf Hal. pose proof (wf_chain b Hwf) as Hok. rewrite unread_slice by done.
  pose proof (wf_pos b Hwf) as Hp. pose proof (wf_size b Hwf) as Hs. pose proof (wf_limit b Hwf) as Hl.
  destruct (decide (getReadSize b = 0)) as [Hz|Hnz].
  { rewrite Hz. cbn [writeToFile_loop]. by rewrite decide_True. }
  destruct (locate b Hok) as (i & d & Hi & Hd & Ep & Hm & Hc); [unfold getReadSize in *; lia|].
  pose proof (lookup_lt_Some _ _ _ Hi) as Hlt. set (rs := getReadSize b) in *.
  assert (m_pos b + rs <= limit b) as Hfit by (unfold rs, getReadSize; lia).
  destruct (decide (npos b = 0)) as [H0|H0].
  - rewrite H0, Nat.add_0_r in Ep. rewrite (ch_cur b Hok), Ep.
    rewrite (writeToFile_loop_aligned _ i rs [] b) by (done || lia). done.
  - destruct Hal as [?|[?|Hbig]]; [done..|]. fold rs in Hbig.
    rewrite Hc, (writeToFile_loop_step b Hok _ i rs (m_pos b) [] d) by (done || (fold (npos b); lia)).
    fold (npos b). rewrite (Nat.min_r rs) by lia. rewrite (cur_of_next (m_base_size b)) by apply Hok.
    set (n := m_base_size b - npos b). replace (m_pos b + n) with (S i * m_base_size b) by lia.
    rewrite writeToFile_loop_aligned by (done || lia || (cbn in *; lia)). cbn [app].
    rewrite (slice_blocks (m_base_size b) (m_nodes b) i d) by (apply Hok || done || lia).
    rewrite <- Ep. replace (S i * m_base_size b) with (m_pos b + n) by lia. fold (mem b).
    rewrite slice_slice_app. by replace (n + (rs - n)) with rs by lia.
Qed.

Lemma writeToFile_loop_bad b :
  wf b -> ~ file_aligned b ->
  writeToFile_loop (S (length (m_nodes b))) (m_cur b) (Z.of_nat (getReadSize b)) (Z.of_nat (m_pos b)) [] b
  = Fail_ Undef.
Proof.
  intros Hwf Hal. unfold file_aligned in Hal. pose proof (wf_chain b Hwf) as Hok.
  pose proof (wf_size b Hwf) as Hs. pose proof (wf_limit b Hwf) as Hl. pose proof (wf_pos b Hwf) as Hp.
  destruct (locate b Hok) as (i & d & Hi & Hd & Ep & Hm & Hc); [unfold getReadSize in *; lia|].
  pose proof (lookup_lt_Some _ _ _ Hi) as Hlt. set (rs := getReadSize b) in *.
  destruct (decide (rs < npos b)) as [Hneg|Hge].
  { apply writeToFile_loop_negative; [done|lia|lia|fold (npos b); lia]. }
  rewrite Hc, (writeToFile_loop_step b Hok _ i rs (m_pos b) [] d) by (done || (fold (npos b); lia)).
  fold (npos b). rewrite (Nat.min_l rs) by lia.
  replace (rs - (rs - npos b)) with (npos b) by lia.
  assert ((m_pos b + (rs - npos b)) mod m_base_size b = rs) as Hm'.
  { replace (m_pos b + (rs - npos b)) with (rs + i * m_base_size b) by lia.
    rewrite Nat.Div0.mod_add. apply Nat.mod_small. lia. }
  destruct (length (m_nodes b)) as [|len] eqn:El; [lia|].
  destruct (decide (npos b < rs)) as [Hgt|Heq].
  { apply writeToFile_loop_negative; [done|lia..]. }
  case_decide as Hn.
  - apply writeToFile_loop_stuck; rewrite ?El; (done || lia).
  - cbn [writeToFile_loop]. rewrite decide_False by lia. rewrite Nat2Z.id.
    unfold bind at 1. rewrite base_mod_ok by apply Hok. unfold bind at 1, gets.
    unfold bind at 1, require. rewrite bool_decide_true by (case_decide; lia). done.
Qed.

(** ** Every reachable array satisfies the invariant *)

Inductive op :=
  | OpWrite (buf : list Z) | OpRead (n : nat) | OpReadAt (n pos : nat)
  | OpPosition (val : nat) | OpClear | OpEndian (little : bool)
  | OpToString | OpToHexString
  | OpReadBuffers (len : nat) | OpReadBuffersAt (len pos : nat) | OpWriteBuffers (len : nat)
  | OpWriteToFile (opened : bool) | OpReadFromFile (file : option (list Z)).

Section reach.
Context (fresh : nat -> nat -> list Z).
Hypothesis fresh_length : forall k s, length (fresh k s) = s.

Definition discard {A} (m : cmd t A) : cmd t unit := m ;;; ret tt.

Definition run_op (o : op) : cmd t unit :=
  match o with
  | OpWrite buf => write fresh buf
  | OpRead n => discard (read n)
  | OpReadAt n pos => discard (read_at n pos)
  | OpPosition val => position val
  | OpClear => modify clear
  | OpEndian little => modify (setIsLittleEndian little)
  | OpToString => discard to_string
  | OpToHexString => discard to_hex_string
  | OpReadBuffers len => discard (getReadBuffers len)
  | OpReadBuffersAt len pos => discard (getReadBuffers_at len pos)
  | OpWriteBuffers len => discard (getWriteBuffers fresh len)
  | OpWriteToFile opened => discard (writeToFile opened)
  | OpReadFromFile file => discard (readFromFile fresh file)
  end.

(** An operation may return or throw; the array is used on in both cases. *)
Inductive reachable : t -> Prop :=
  | reach_new base : 0 < base -> reachable (ByteArray fresh base)
  | reach_ok b o b' : reachable b -> run_op o b = Ok tt b' -> reachable b'
  | reach_throw b o e b' : reachable b -> run_op o b = Throw e b' -> reachable b'.

Lemma keeps_deref {A} (f : t -> option A) : keeps wf (deref f).
Proof. intros b Hb. unfold deref. by destruct (f b). Qed.
Lemma keeps_base_mod x : keeps wf (base_mod x).
Proof. apply keeps_deref. Qed.
Lemma keeps_base_div x : keeps wf (base_div x).
Proof. apply keeps_deref. Qed.
Lemma keeps_cur_size : keeps wf cur_size.
Proof. apply keeps_deref. Qed.
Lemma keeps_write buf : keeps wf (write fresh buf).
Proof.
  intros b Hwf. destruct (decide (buf = [])) as [->|Hne]; [done|].
  destruct (write_spec fresh fresh_length buf b Hwf Hne) as [H1 H2].
  destruct (decide (grows_enough b (length buf))) as [Hg|Hg].
  - destruct (H1 Hg) as (b' & -> & Hw). apply Hw.
  - by rewrite H2.
Qed.
Lemma keeps_read n : keeps wf (read n).
Proof.
  intros b Hwf. destruct (read_spec n b Hwf) as (H1 & H2 & H3).
  destruct (decide (getReadSize b < n)); [by rewrite H1|].
  pose proof (wf_npos_cap b Hwf) as Hc.
  destruct (decide (0 < n \/ m_pos b < m_capacity b)) as [Hin|Hout].
  - destruct (H2 ltac:(lia) Hin) as [-> ?]. done.
  - by rewrite H3 by lia.
Qed.
Lemma keeps_position val : keeps wf (position val).
Proof.
  intros b Hwf. destruct (position_spec val b Hwf) as [H1 H2].
  destruct (decide (m_capacity b < val)); [by rewrite H1|].
  destruct H2 as [-> ?]; [lia|done].
Qed.
Lemma keeps_addCapacity size : keeps wf (addCapacity fresh size).
Proof.
  intros b Hwf. destruct (decide (size = 0)) as [->|Hne]; [done|].
  destruct (addCapacity_spec fresh fresh_length size b Hwf) as (count & E & Hw & _); [lia|].
  cbv zeta in *. by rewrite E.
Qed.
Lemma keeps_read_at_loop fuel cur acc size np nc : keeps wf (read_at_loop fuel cur acc size np nc).
Proof.
  intros b Hwf. rewrite (read_at_loop_equiv _ _ _ _ _ _ 0). by destruct (read_loop _ _ _ _ _ _).
Qed.
Lemma keeps_modify (f : t -> t) : (forall b, wf b -> wf (f b)) -> keeps wf (modify f).
Proof. intros H b Hb. by apply H. Qed.

#[local] Hint Resolve keeps_deref keeps_base_mod keeps_base_div keeps_cur_size keeps_write keeps_read keeps_position keeps_addCapacity
  keeps_read_at_loop : keeps.
#[local] Hint Unfold discard read_at to_string to_hex_string getReadBuffers getReadBuffers_at
  getWriteBuffers writeToFile : keeps.

Lemma keeps_iov_loop fuel cur acc len np nc : keeps wf (iov_loop fuel cur acc len np nc).
Proof.
  revert cur acc len np nc. induction fuel; intros; cbn [iov_loop]; auto 10 with keeps.
Qed.
Lemma keeps_walk count cur : keeps wf (walk count cur).
Proof. revert cur. induction count; intros; cbn [walk]; auto with keeps. Qed.
Lemma keeps_writeToFile_loop fuel cur rs pos out : keeps wf (writeToFile_loop fuel cur rs pos out).
Proof.
  revert cur rs pos out. induction fuel; intros; cbn [writeToFile_loop]; auto 20 with keeps.
Qed.
Lemma keeps_readFromFile_loop fuel file : keeps wf (readFromFile_loop fresh fuel file).
Proof. revert file. induction fuel; intros; cbn [readFromFile_loop]; auto 10 with keeps. Qed.
#[local] Hint Resolve keeps_iov_loop keeps_walk keeps_writeToFile_loop keeps_readFromFile_loop : keeps.

Lemma setIsLittleEndian_wf v b : wf b -> wf (setIsLittleEndian v b).
Proof. intros []. by destruct v; constructor. Qed.

Lemma keeps_run_op o : keeps wf (run_op o).
Proof.
  destruct o; cbn [run_op]; autounfold with keeps; auto 20 with keeps.
  - apply keeps_modify, clear_wf.
  - apply keeps_modify, setIsLittleEndian_wf.
  - apply keeps_bind; [|auto with keeps]. by destruct opened; cbn; auto 20 with keeps.
  - apply keeps_bind; [|auto with keeps]. by destruct file; cbn; auto 20 with keeps.
Qed.
End reach.

(** ** Properties *)

Definition zero_fresh (k s : nat) : list Z := replicate s 0%Z.
Lemma zero_fresh_length k s : length (zero_fresh k s) = s.
Proof. apply length_replicate. Qed.

(** C14: every array reachable from the constructor, called with a node size that is
    not 0, by the public operations,
    those that throw included, satisfies the representation invariant: equal
    nodes, [m_pos <= m_size <= m_capacity], and [m_cur] at the node that holds
    [m_pos] (null at the end). *)
Theorem reachable_wf fresh (Hf : forall k s, length (fresh k s) = s) b :
  reachable fresh b -> wf b.
Proof.
  induction 1 as [base Hb|b o b' _ IH E|b o e b' _ IH E].
  - by apply ByteArray_wf.
  - pose proof (keeps_run_op fresh Hf o b IH) as H. by rewrite E in H.
  - pose proof (keeps_run_op fresh Hf o b IH) as H. by rewrite E in H.
Qed.

Lemma reachable_wf_witness :
  wf (set_endian COOL_LITTLE_ENDIAN (ByteArray zero_fresh 4)).
Proof.
  apply (reachable_wf zero_fresh zero_fresh_length).
  apply (reach_ok zero_fresh (ByteArray zero_fresh 4) (OpEndian true)); [|done].
  apply reach_new. lia.
Defined.

(** [write] of a non-empty buffer, on every branch: when [addCapacity]
    reserves enough it replaces the bytes from the position on, moves the
    position behind them and grows the size; otherwise the copy loop
    dereferences the null pointer at the end of the chain. *)
Theorem write_outcome fresh (Hf : forall k s, length (fresh k s) = s) buf b :
  wf b -> buf <> [] ->
  if decide (grows_enough b (length buf))
  then exists b', write fresh buf b = Ok tt b' /\ written b b' buf
  else write fresh buf b = Fail_ Undef.
Proof.
  intros Hwf Hne. destruct (write_spec fresh Hf buf b Hwf Hne) as [H1 H2]. case_decide; auto.
Qed.

Lemma write_outcome_witness :
  exists b', write zero_fresh [1; 2; 3; 4; 5; 6; 7; 8]%Z (ByteArray zero_fresh 4) = Ok tt b' /\
    written (ByteArray zero_fresh 4) b' [1; 2; 3; 4; 5; 6; 7; 8]%Z.
Proof.
  pose proof (write_outcome zero_fresh zero_fresh_length [1; 2; 3; 4; 5; 6; 7; 8]%Z
    (ByteArray zero_fresh 4) (ByteArray_wf zero_fresh zero_fresh_length 4 ltac:(lia)) ltac:(done)) as H.
  rewrite decide_True in H by (unfold grows_enough; vm_compute; lia). exact H.
Defined.

(** One byte more than the first node holds: no node is added. *)
Example write_one_past_node :
  write zero_fresh [1; 2; 3; 4; 5]%Z (ByteArray zero_fresh 4) = Fail_ Undef.
Proof. reflexivity. Qed.

(** C29: [read] of [n] bytes, on every branch: more than is left throws and changes
    nothing; a read of no bytes at the very end of the chain dereferences null;
    otherwise the bytes at the position are returned, the position moves behind
    them and the contents stay. *)
Theorem read_outcome n b :
  wf b ->
  if decide (getReadSize b < n) then read n b = Throw out_of_range b
  else if decide (n = 0 /\ m_pos b = m_capacity b) then read n b = Fail_ Undef
  else exists b', read n b = Ok (slice (m_pos b) n (contents b)) b' /\ wf b' /\
         m_pos b' = m_pos b + n /\ m_size b' = m_size b /\ contents b' = contents b.
Proof.
  intros Hwf. destruct (read_spec n b Hwf) as (H1 & H2 & H3).
  pose proof (wf_npos_cap b Hwf) as Hc. repeat case_decide; [by auto|by apply H3; tauto|].
  destruct H2 as [E Hw]; [lia..|]. eexists. split; [exact E|]. done.
Qed.

Definition sample : t :=
  mk 4 1 8 6 COOL_BIG_ENDIAN [[10; 11; 12; 13]; [14; 15; 0; 0]]%Z (Some 0).
Lemma sample_wf : wf sample.
Proof. constructor; cbn; try lia; try done. repeat constructor. Qed.

Lemma read_outcome_witness :
  exists b', read 4 sample = Ok [11; 12; 13; 14]%Z b' /\ wf b' /\ m_pos b' = 5 /\
    m_size b' = 6 /\ contents b' = contents sample.
Proof. exact (read_outcome 4 sample sample_wf). Defined.

(** [position]: beyond the capacity it throws and changes nothing; otherwise
    it moves to [val], grows the size to [val] when that is larger, keeps the
    bytes, and leaves [m_cur] at the node of the new position. *)
Theorem position_outcome val b :
  wf b ->
  if decide (m_capacity b < val) then position val b = Throw out_of_range b
  else exists b', position val b = Ok tt b' /\ wf b' /\ m_pos b' = val /\
         m_size b' = m_size b `max` val /\ mem b' = mem b /\ m_capacity b' = m_capacity b.
Proof.
  intros Hwf. destruct (position_spec val b Hwf) as [H1 H2]. case_decide; [auto|].
  destruct H2 as [E Hw]; [lia|]. eexists. split; [exact E|]. done.
Qed.

Lemma position_outcome_witness :
  exists b', position 8 sample = Ok tt b' /\ wf b' /\ m_pos b' = 8 /\
    m_size b' = m_size sample `max` 8 /\ mem b' = mem sample /\ m_capacity b' = m_capacity sample.
Proof. exact (position_outcome 8 sample sample_wf). Defined.

(** [to_string] returns the unread bytes and [to_hex_string] their dump; the
    array is unchanged. *)
Theorem to_string_unread b :
  wf b ->
  to_string b = Ok (drop (m_pos b) (contents b)) b /\
  to_hex_string b = Ok (hex_dump 0 (drop (m_pos b) (contents b))) b.
Proof.
  intros Hwf. pose proof (to_string_spec b Hwf) as E. split; [done|].
  unfold to_hex_string, bind. by rewrite E.
Qed.

Lemma to_string_unread_witness :
  to_string sample = Ok [11; 12; 13; 14; 15]%Z sample /\
  to_hex_string sample =
    Ok [48; 98; 32; 48; 99; 32; 48; 100; 32; 48; 101; 32; 48; 102; 32]%Z sample.
Proof. exact (to_string_unread sample sample_wf). Defined.

(** [getReadBuffers] returns [min len getReadSize] and buffers that lie inside
    single nodes, add up to that number, and name exactly the next bytes. *)
Theorem getReadBuffers_gather len b :
  wf b ->
  exists vs, getReadBuffers len b = Ok (len `min` getReadSize b, vs) b /\
    gather b vs = slice (m_pos b) (len `min` getReadSize b) (contents b) /\
    iov_total vs = len `min` getReadSize b /\ Forall (iov_ok b) vs.
Proof. apply getReadBuffers_spec. Qed.

Lemma getReadBuffers_gather_witness :
  exists vs, getReadBuffers 9 sample = Ok (5, vs) sample /\
    gather sample vs = [11; 12; 13; 14; 15]%Z /\ iov_total vs = 5 /\ Forall (iov_ok sample) vs.
Proof. exact (getReadBuffers_gather 9 sample sample_wf). Defined.

(** [writeToFile] of an open stream: from a node boundary, with nothing left,
    or with at least a node's worth left, the file gets exactly the unread
    bytes; in every other case it passes a negative length to [ofstream::write]
    or runs off the chain. *)
Theorem writeToFile_outcome b :
  wf b ->
  writeToFile true b =
    if decide (file_aligned b) then Ok (true, drop (m_pos b) (contents b)) b else Fail_ Undef.
Proof.
  intros Hwf. unfold writeToFile, bind at 1 2 3 4, gets. cbn [negb]. unfold bind. case_decide as Ha.
  - by rewrite writeToFile_loop_ok.
  - by rewrite writeToFile_loop_bad.
Qed.

Lemma writeToFile_outcome_witness :
  writeToFile true sample = Ok (true, [11; 12; 13; 14; 15]%Z) sample.
Proof. exact (writeToFile_outcome sample sample_wf). Defined.

(** Half-way into a single node, the file is not written correctly. *)
Example writeToFile_middle_of_node :
  writeToFile true (set_pos 2 (set_size 3 sample)) = Fail_ Undef.
Proof. reflexivity. Qed.

(** [readFromFile] at a node boundary always terminates and appends the whole
    file at the position. *)
Theorem readFromFile_appends fresh (Hf : forall k s, length (fresh k s) = s) file b :
  wf b -> m_pos b mod m_base_size b = 0 ->
  exists b', readFromFile fresh (Some file) b = Ok true b' /\ written b b' file.
Proof.
  intros Hwf Ha. destruct (readFromFile_loop_spec fresh Hf (S (length file)) file b) as (b' & E & Hw);
    [done|done|lia|].
  exists b'. split; [|done]. unfold readFromFile, bind. by rewrite E.
Qed.

Lemma readFromFile_appends_witness :
  exists b', readFromFile zero_fresh (Some [7; 8; 9]%Z) (ByteArray zero_fresh 2) = Ok true b' /\
    written (ByteArray zero_fresh 2) b' [7; 8; 9]%Z.
Proof.
  apply (readFromFile_appends zero_fresh zero_fresh_length); [|reflexivity].
  apply ByteArray_wf; [apply zero_fresh_length|lia].
Defined.

End ByteArray.
