(* ===== verification/Codec.v ===== *)
(** * Typed reads and writes of [ByteArray]: src/src/bytearray.cpp

    Fixed-width integers with the array's byte order, zigzag and varint
    encodings, floats as their bit patterns, and length-prefixed strings. *)

From stdpp Require Import prelude.
From Stdlib Require Import ZArith Lia.
From S2P Require Import Prelude Endian ByteArray.
Import Endian ByteArray.

Module Codec.
Local Open Scope Z_scope.

Section operations.
Variable fresh : nat -> nat -> list Z.   (* bytes of new nodes *)
Variable byte_order : Z.                 (* COOL_BYTE_ORDER *)
Variable host_little : bool.             (* byte order of the machine *)

Abbreviation cmd := (Prelude.cmd ByteArray.t).

(** [if (m_endian != COOL_BYTE_ORDER) val = byteswap(val); write(&val, sizeof(val));] *)
Definition write_swapped (n : nat) (swap : Z -> Z) (val : Z) : cmd unit :=
  let* e := gets m_endian in
  let val := if e =? byte_order then val else swap val in
  write fresh (host_bytes host_little n val).

Definition write_fint8 (val : Z) : cmd unit := write fresh (host_bytes host_little 1 val).
Definition write_fuint8 (val : Z) : cmd unit := write fresh (host_bytes host_little 1 val).
Definition write_fint16 (val : Z) : cmd unit := write_swapped 2 (byteswap_s 2) val.
Definition write_fuint16 (val : Z) : cmd unit := write_swapped 2 (byteswap_u 2) val.
Definition write_fint32 (val : Z) : cmd unit := write_swapped 4 (byteswap_s 4) val.
Definition write_fuint32 (val : Z) : cmd unit := write_swapped 4 (byteswap_u 4) val.
Definition write_fint64 (val : Z) : cmd unit := write_swapped 8 (byteswap_s 8) val.
Definition write_fuint64 (val : Z) : cmd unit := write_swapped 8 (byteswap_u 8) val.

(** Zigzag.  [-val] and [val * 2] are signed operations: undefined on overflow. *)
Definition EncodeZigzap (w : Z) (val : Z) : option Z :=
  if decide (val < 0) then
    if in_sb w (- val) then Some (wrap w (wrap w (- val) * 2 - 1)) else None
  else
    if in_sb w (val * 2) then Some (wrap w (val * 2)) else None.
Definition DecodeZigzap (w : Z) (val : Z) : Z :=
  swrap w (Z.lxor (Z.shiftr val 1) (wrap w (- Z.land val 1))).

Definition EncodeZigzap32 : Z -> option Z := EncodeZigzap 32.
Definition DecodeZigzap32 : Z -> Z := DecodeZigzap 32.
Definition EncodeZigzap64 : Z -> option Z := EncodeZigzap 64.
Definition DecodeZigzap64 : Z -> Z := DecodeZigzap 64.

(** The loop that fills [temp]; [room] is what is left of the array, writing
    past it is undefined. *)
Fixpoint varint (room : nat) (val : Z) : option (list Z) :=
  match room with
  | O => None
  | S room =>
    if decide (0x80 <= val) then
      cons (Z.lor (Z.land val 0x7f) 0x80) <$> varint room (Z.shiftr val 7)
    else Some [u8 val]
  end.
Definition write_varint (room : nat) (val : Z) : cmd unit :=
  match varint room val with
  | Some temp => write fresh temp
  | None => fail Undef
  end.

Definition write_uint32 (val : Z) : cmd unit := write_varint 5 val.
Definition write_uint64 (val : Z) : cmd unit := write_varint 10 val.
Definition write_int32 (val : Z) : cmd unit :=
  match EncodeZigzap32 val with Some v => write_uint32 v | None => fail Undef end.
Definition write_int64 (val : Z) : cmd unit :=
  match EncodeZigzap64 val with Some v => write_uint64 v | None => fail Undef end.

(** A [float] ([double]) is given by its 32 (64) bits. *)
Definition write_float (val : Z) : cmd unit := write_fuint32 val.
Definition write_double (val : Z) : cmd unit := write_fuint64 val.

(** [write_fintN(val.size())] converts the [size_t] to the signed type. *)
Definition write_string_f16 (val : list Z) : cmd unit :=
  write_fint16 (swrap 16 (Z.of_nat (length val))) ;;; write fresh val.
Definition write_string_f32 (val : list Z) : cmd unit :=
  write_fint32 (swrap 32 (Z.of_nat (length val))) ;;; write fresh val.
Definition write_string_f64 (val : list Z) : cmd unit :=
  write_fint64 (swrap 64 (Z.of_nat (length val))) ;;; write fresh val.
Definition write_string_vint (val : list Z) : cmd unit :=
  write_uint64 (Z.of_nat (length val)) ;;; write fresh val.
Definition write_string_withoutlen (val : list Z) : cmd unit := write fresh val.

(** The macro [XX(type)] of the fixed-width reads. *)
Definition read_swapped (n : nat) (of_bits swap : Z -> Z) : cmd Z :=
  let* d := read n in
  let val := of_bits (host_value host_little d) in
  let* e := gets m_endian in
  ret (if e =? byte_order then val else swap val).

Definition read_fint8 : cmd Z :=
  let* d := read 1 in ret (swrap 8 (host_value host_little d)).
Definition read_fuint8 : cmd Z :=
  let* d := read 1 in ret (host_value host_little d).
Definition read_fint16 : cmd Z := read_swapped 2 (swrap 16) (byteswap_s 2).
Definition read_fuint16 : cmd Z := read_swapped 2 id (byteswap_u 2).
Definition read_fint32 : cmd Z := read_swapped 4 (swrap 32) (byteswap_s 4).
Definition read_fuint32 : cmd Z := read_swapped 4 id (byteswap_u 4).
Definition read_fint64 : cmd Z := read_swapped 8 (swrap 64) (byteswap_s 8).
Definition read_fuint64 : cmd Z := read_swapped 8 id (byteswap_u 8).

(** [for (int i = 0; i < w; i += 7)]: [rounds] is the number of iterations. *)
Fixpoint read_varint (rounds : nat) (w i res : Z) : cmd Z :=
  match rounds with
  | O => ret res
  | S rounds =>
    let* b := read_fuint8 in
    if decide (b < 0x80) then ret (Z.lor res (wrap w (Z.shiftl b i)))
    else read_varint rounds w (i + 7) (Z.lor res (wrap w (Z.shiftl (Z.land b 0x7f) i)))
  end.
Definition read_uint32 : cmd Z := read_varint 5 32 0 0.
Definition read_uint64 : cmd Z := read_varint 10 64 0 0.
Definition read_int32 : cmd Z := let* v := read_uint32 in ret (DecodeZigzap32 v).
Definition read_int64 : cmd Z := let* v := read_uint64 in ret (DecodeZigzap64 v).

Definition read_float : cmd Z := read_fuint32.
Definition read_double : cmd Z := read_fuint64.

(** [buf.resize(len)] throws past [max_size()]. *)
Definition str_max_size : Z := 2 ^ 63 - 1.
Definition resize_read (len : Z) : cmd (list Z) :=
  if decide (str_max_size < len) then throw length_error else read_sz len.

Definition read_string_f16 : cmd (list Z) := let* len := read_fuint16 in resize_read len.
Definition read_string_f32 : cmd (list Z) := let* len := read_fuint32 in resize_read len.
Definition read_string_f64 : cmd (list Z) := let* len := read_fuint64 in resize_read len.
Definition read_string_vint : cmd (list Z) := let* len := read_fuint64 in resize_read len.

End operations.
(** ** Bit arithmetic *)

Lemma lor_disjoint res x i :
  0 <= i -> 0 <= x -> 0 <= res < 2 ^ i -> Z.lor res (Z.shiftl x i) = res + x * 2 ^ i.
Proof.
  intros Hi Hx Hr. rewrite Z.shiftl_mul_pow2 by done.
  rewrite <- Z.lxor_lor, <- Z.add_nocarry_lxor; [done|..].
  all: rewrite <- Z.shiftl_mul_pow2 by lia; apply Z.bits_inj'; intros n Hn;
    rewrite Z.land_spec, Z.bits_0; destruct (Z.lt_ge_cases n i) as [Hlt|Hge];
    [by rewrite (Z.shiftl_spec_low x i n), andb_false_r by lia|];
    rewrite <- (Z.mod_small res (2 ^ i)) by lia; by rewrite Z.mod_pow2_bits_high by lia.
Qed.

Lemma lxor_ones x w :
  0 <= w -> 0 <= x < 2 ^ w -> Z.lxor x (2 ^ w - 1) = 2 ^ w - 1 - x.
Proof.
  intros Hw Hx. replace (2 ^ w - 1) with (Z.ones w) by (rewrite Z.ones_equiv; lia).
  assert (forall n, w <= n -> Z.testbit x n = false) as Hhi.
  { intros n Hn. rewrite <- (Z.mod_small x (2 ^ w)) by lia. by apply Z.mod_pow2_bits_high; lia. }
  rewrite Z.sub_nocarry_ldiff; apply Z.bits_inj'; intros n Hn;
    rewrite ?Z.ldiff_spec, ?Z.lxor_spec, ?Z.bits_0;
    destruct (Z.lt_ge_cases n w) as [Hlt|Hge];
    rewrite ?(Z.ones_spec_low w n), ?(Z.ones_spec_high w n) by lia;
    rewrite ?(Hhi n) by lia; try done; by destruct (Z.testbit x n).
Qed.

Lemma land_7f val : Z.land val 0x7f = val mod 128.
Proof. change 0x7f with (Z.ones 7). by rewrite Z.land_ones by lia. Qed.

Lemma lor_80 x : 0 <= x < 128 -> Z.lor x 0x80 = x + 128.
Proof. intros Hx. change 0x80 with (Z.shiftl 1 7). by rewrite lor_disjoint by lia. Qed.

(** ** Zigzag *)

Lemma zigzag_roundtrip w val v :
  2 <= w -> EncodeZigzap w val = Some v -> in_u w v /\ DecodeZigzap w v = val.
Proof.
  intros Hw. assert (2 ^ w = 2 * 2 ^ (w - 1)) as E.
  { rewrite <- Z.pow_succ_r by lia. f_equal. lia. }
  assert (0 < 2 ^ (w - 1)) as Hpos by (apply Z.pow_pos_nonneg; lia).
  unfold EncodeZigzap, DecodeZigzap, in_sb, in_u. case_decide as Hn.
  - case_bool_decide as Hr; [|done]. unfold in_s in Hr. intros [= <-].
    rewrite (wrap_id w (- val)) by (unfold in_u; lia).
    rewrite (wrap_id w) by (unfold in_u; lia). split; [lia|].
    replace (Z.land (- val * 2 - 1) 1) with 1.
    2:{ change 1 with (Z.ones 1) at 3. rewrite Z.land_ones by lia. change (2 ^ 1) with 2.
        replace (- val * 2 - 1) with (1 + (- val - 1) * 2) by lia. by rewrite Z.mod_add by lia. }
    replace (Z.shiftr (- val * 2 - 1) 1) with (- val - 1).
    2:{ rewrite Z.shiftr_div_pow2 by lia. change (2 ^ 1) with 2.
        replace (- val * 2 - 1) with (1 + (- val - 1) * 2) by lia. by rewrite Z.div_add by lia. }
    replace (wrap w (- (1))) with (2 ^ w - 1)
      by (unfold wrap; apply Z.mod_unique with (-1); lia).
    rewrite lxor_ones by lia. unfold swrap, wrap.
    rewrite Z.mod_small by lia. rewrite decide_False by lia. lia.
  - case_bool_decide as Hr; [|done]. unfold in_s in Hr. intros [= <-].
    rewrite (wrap_id w) by (unfold in_u; lia). split; [lia|].
    replace (Z.land (val * 2) 1) with 0.
    2:{ change 1 with (Z.ones 1). rewrite Z.land_ones by lia. change (2 ^ 1) with 2.
        by rewrite Z.mod_mul by lia. }
    rewrite Z.shiftr_div_pow2 by lia. change (2 ^ 1) with 2. rewrite Z.div_mul by lia.
    change (- 0) with 0. unfold wrap at 1. rewrite Z.mod_0_l by lia. rewrite Z.lxor_0_r.
    apply swrap_id; [lia|]. unfold in_s. lia.
Qed.

(** ** Varints *)

Lemma varint_step val :
  0x80 <= val ->
  let c := Z.lor (Z.land val 0x7f) 0x80 in
  c = val mod 128 + 128 /\ is_byte c /\ ~ c < 0x80 /\ Z.land c 0x7f = val mod 128 /\
  Z.shiftr val 7 = val / 128.
Proof.
  intros Hv c. pose proof (Z.mod_pos_bound val 128 ltac:(lia)) as Hm.
  assert (c = val mod 128 + 128) as Hc by (unfold c; by rewrite land_7f, lor_80).
  rewrite Hc. unfold is_byte. split_and!; try lia.
  - rewrite land_7f. rewrite <- Z.add_mod_idemp_r by lia.
    change (128 mod 128) with 0. rewrite Z.add_0_r. apply Z.mod_mod. lia.
  - by rewrite Z.shiftr_div_pow2 by lia.
Qed.

(** Every value of at most [7 * room] bits fits in [room] bytes: the array
    [temp] is never overrun. *)
Lemma varint_total room val :
  0 <= val < 2 ^ (7 * Z.of_nat room) -> (0 < room)%nat ->
  exists l, varint room val = Some l /\ (0 < length l <= room)%nat /\ Forall is_byte l.
Proof.
  revert val. induction room as [|room IH]; intros val Hv Hr; [lia|]. cbn [varint].
  case_decide as Hd.
  - destruct (varint_step val Hd) as (_ & Hb & _ & _ & ->).
    assert (2 ^ (7 * Z.of_nat (S room)) = 128 * 2 ^ (7 * Z.of_nat room)) as E.
    { replace (7 * Z.of_nat (S room)) with (7 + 7 * Z.of_nat room) by lia.
      by rewrite Z.pow_add_r by lia. }
    destruct room as [|room]; [lia|].
    destruct (IH (val / 128)) as (l & -> & Hl & Hbs); [|lia|].
    { split; [apply Z.div_pos; lia|apply Z.div_lt_upper_bound; lia]. }
    eexists. split; [done|]. split; [simpl; lia|by constructor].
  - eexists. split; [done|]. split; [simpl; lia|]. constructor; [|done].
    rewrite wrap_id by (unfold in_u; lia). unfold is_byte. lia.
Qed.

(** ** Reading back what was written *)
Section roundtrip.
Context (fresh : nat -> nat -> list Z).
Hypothesis fresh_length : forall k s, length (fresh k s) = s.
Context (byte_order : Z) (host_little : bool).

Abbreviation adv b n := (moved b n (m_nodes b)).

Lemma adv_adv b n m : adv (adv b n) m = adv b (n + m).
Proof. by apply moved_moved. Qed.

Lemma read_fuint8_at b c :
  at_pos b [c] -> read_fuint8 host_little b = Ok c (adv b 1).
Proof.
  intros H. unfold read_fuint8, bind. pose proof (read_at_pos b [c] H ltac:(done)) as E.
  cbn [length] in E. rewrite E. unfold ret. destruct host_little; cbn; by rewrite Z.add_0_r.
Qed.

Lemma read_varint_at room rounds w i res val l b :
  varint room val = Some l -> at_pos b l -> (length l <= rounds)%nat ->
  0 <= i -> 0 <= val -> 0 <= res < 2 ^ i -> val * 2 ^ i < 2 ^ w ->
  read_varint host_little rounds w i res b = Ok (res + val * 2 ^ i) (adv b (length l)).
Proof.
  revert rounds i res val l b.
  induction room as [|room IH]; intros rounds i res val l b; [done|].
  cbn [varint]. assert (forall x, 0 <= x <= val -> val * 2 ^ i < 2 ^ w ->
    0 <= i -> wrap w (Z.shiftl x i) = Z.shiftl x i) as Hw.
  { intros x Hx Hlt Hi. apply wrap_id. rewrite Z.shiftl_mul_pow2 by done. unfold in_u. nia. }
  case_decide as Hd.
  - destruct (varint_step val Hd) as (_ & _ & Hge & Hland & ->).
    set (c := Z.lor _ 0x80) in *.
    destruct (varint room (val / 128)) as [l'|] eqn:El; [|done]. intros [= <-].
    intros Hat Hr Hi Hv Hres Hlt. destruct rounds as [|rounds]; [simpl in Hr; lia|].
    apply (at_pos_app b [c] l') in Hat as [Hc Hl]. cbn [read_varint].
    unfold bind at 1. rewrite (read_fuint8_at b c) by done. rewrite decide_False by done.
    pose proof (Z.mod_pos_bound val 128 ltac:(lia)) as Hm.
    pose proof (Z.div_mod val 128 ltac:(lia)) as Edm.
    rewrite Hland, Hw, lor_disjoint by (done || lia).
    assert (2 ^ (i + 7) = 128 * 2 ^ i) as E7 by (rewrite Z.pow_add_r by lia; lia).
    rewrite (IH rounds (i + 7) _ (val / 128) l' (adv b 1));
      [|done|done|simpl in Hr; lia|lia|apply Z.div_pos; lia|rewrite E7; nia|rewrite E7; nia].
    rewrite adv_adv. f_equal. rewrite E7. nia.
  - intros [= <-] Hat Hr Hi Hv Hres Hlt. destruct rounds as [|rounds]; [simpl in Hr; lia|].
    rewrite wrap_id in Hat by (unfold in_u; lia). cbn [read_varint].
    unfold bind at 1. rewrite (read_fuint8_at b val) by done. rewrite decide_True by lia.
    unfold ret. by rewrite Hw, lor_disjoint by (done || lia).
Qed.

(** The bytes of a fixed-width value on the wire. *)
Definition wire (e : Z) (n : nat) (val : Z) : list Z :=
  if e =? byte_order then host_bytes host_little n val else reverse (host_bytes host_little n val).

Lemma length_wire e n val : length (wire e n val) = n.
Proof. unfold wire. case_match; rewrite ?length_reverse; apply length_host_bytes. Qed.

Lemma write_swapped_wire n swap val b :
  host_bytes host_little n (swap val) = reverse (host_bytes host_little n val) ->
  write_swapped fresh byte_order host_little n swap val b = write fresh (wire (m_endian b) n val) b.
Proof.
  intros H. unfold write_swapped, bind, gets, wire. case_match; [done|]. by rewrite H.
Qed.

Lemma read_swapped_wire n of_bits swap val b :
  (0 < n)%nat -> at_pos b (wire (m_endian b) n val) ->
  host_bytes host_little n (swap val) = reverse (host_bytes host_little n val) ->
  of_bits (wrap (8 * Z.of_nat n) val) = val ->
  swap (of_bits (wrap (8 * Z.of_nat n) (swap val))) = val ->
  read_swapped byte_order host_little n of_bits swap b = Ok val (adv b n).
Proof.
  intros Hn Hat Hrev Hid Hsw. unfold read_swapped, bind at 1.
  pose proof (length_wire (m_endian b) n val) as Hl.
  pose proof (read_at_pos b _ Hat) as Hrd. rewrite Hl in Hrd.
  rewrite Hrd by (intros E; rewrite E in Hl; simpl in Hl; lia).
  unfold bind, gets, ret. change (m_endian (adv b n)) with (m_endian b). unfold wire.
  case_match.
  - by rewrite host_value_bytes, Hid.
  - by rewrite <- Hrev, host_value_bytes, Hsw.
Qed.

Lemma read_fixed_u n val b :
  (0 < n)%nat -> in_u (8 * Z.of_nat n) val -> at_pos b (wire (m_endian b) n val) ->
  read_swapped byte_order host_little n id (byteswap_u n) b = Ok val (adv b n).
Proof.
  intros Hn Hv Hat. apply read_swapped_wire; try done; unfold id.
  - apply host_bytes_byteswap_u.
  - by apply wrap_id.
  - unfold byteswap_u at 2. rewrite (wrap_id _ (bswap _ _)) by apply bswap_bound.
    by apply byteswap_u_involutive.
Qed.

Lemma read_fixed_s n val b :
  (0 < n)%nat -> in_s (8 * Z.of_nat n) val -> at_pos b (wire (m_endian b) n val) ->
  read_swapped byte_order host_little n (swrap (8 * Z.of_nat n)) (byteswap_s n) b = Ok val (adv b n).
Proof.
  intros Hn Hv Hat. apply read_swapped_wire; try done.
  - by apply host_bytes_byteswap_s.
  - by rewrite swrap_wrap, swrap_id by (done || lia).
  - rewrite swrap_wrap by lia. unfold byteswap_s at 2.
    rewrite (swrap_id _ (swrap _ _)) by (lia || (apply swrap_in_s; lia)).
    by apply byteswap_s_involutive.
Qed.

(** A value with the pair of methods that carries it. *)
Inductive item :=
  | IFint8 (v : Z) | IFuint8 (v : Z) | IFint16 (v : Z) | IFuint16 (v : Z)
  | IFint32 (v : Z) | IFuint32 (v : Z) | IFint64 (v : Z) | IFuint64 (v : Z)
  | IInt32 (v : Z) | IUint32 (v : Z) | IInt64 (v : Z) | IUint64 (v : Z)
  | IFloat (bits : Z) | IDouble (bits : Z)
  | IString16 (s : list Z) | IString32 (s : list Z) | IString64 (s : list Z).

Definition write_item (it : item) : cmd t unit :=
  match it with
  | IFint8 v => write_fint8 fresh host_little v
  | IFuint8 v => write_fuint8 fresh host_little v
  | IFint16 v => write_fint16 fresh byte_order host_little v
  | IFuint16 v => write_fuint16 fresh byte_order host_little v
  | IFint32 v => write_fint32 fresh byte_order host_little v
  | IFuint32 v => write_fuint32 fresh byte_order host_little v
  | IFint64 v => write_fint64 fresh byte_order host_little v
  | IFuint64 v => write_fuint64 fresh byte_order host_little v
  | IInt32 v => write_int32 fresh v
  | IUint32 v => write_uint32 fresh v
  | IInt64 v => write_int64 fresh v
  | IUint64 v => write_uint64 fresh v
  | IFloat v => write_float fresh byte_order host_little v
  | IDouble v => write_double fresh byte_order host_little v
  | IString16 s => write_string_f16 fresh byte_order host_little s
  | IString32 s => write_string_f32 fresh byte_order host_little s
  | IString64 s => write_string_f64 fresh byte_order host_little s
  end.

Definition as_item {A} (f : A -> item) (m : cmd t A) : cmd t item := let* v := m in ret (f v).

(** Reads an item of the kind of [it]. *)
Definition read_like (it : item) : cmd t item :=
  match it with
  | IFint8 _ => as_item IFint8 (read_fint8 host_little)
  | IFuint8 _ => as_item IFuint8 (read_fuint8 host_little)
  | IFint16 _ => as_item IFint16 (read_fint16 byte_order host_little)
  | IFuint16 _ => as_item IFuint16 (read_fuint16 byte_order host_little)
  | IFint32 _ => as_item IFint32 (read_fint32 byte_order host_little)
  | IFuint32 _ => as_item IFuint32 (read_fuint32 byte_order host_little)
  | IFint64 _ => as_item IFint64 (read_fint64 byte_order host_little)
  | IFuint64 _ => as_item IFuint64 (read_fuint64 byte_order host_little)
  | IInt32 _ => as_item IInt32 (read_int32 host_little)
  | IUint32 _ => as_item IUint32 (read_uint32 host_little)
  | IInt64 _ => as_item IInt64 (read_int64 host_little)
  | IUint64 _ => as_item IUint64 (read_uint64 host_little)
  | IFloat _ => as_item IFloat (read_float byte_order host_little)
  | IDouble _ => as_item IDouble (read_double byte_order host_little)
  | IString16 _ => as_item IString16 (read_string_f16 byte_order host_little)
  | IString32 _ => as_item IString32 (read_string_f32 byte_order host_little)
  | IString64 _ => as_item IString64 (read_string_f64 byte_order host_little)
  end.

(** The arguments the round trip is for: in range of the C++ type, zigzag values
    whose doubling does not overflow, non-empty strings whose length the prefix
    can hold. *)
Definition valid (it : item) : Prop :=
  match it with
  | IFint8 v => in_s 8 v | IFuint8 v => in_u 8 v
  | IFint16 v => in_s 16 v | IFuint16 v => in_u 16 v
  | IFint32 v => in_s 32 v | IFuint32 v => in_u 32 v
  | IFint64 v => in_s 64 v | IFuint64 v => in_u 64 v
  | IInt32 v => - 2 ^ 31 < v < 2 ^ 30 | IUint32 v => in_u 32 v
  | IInt64 v => - 2 ^ 63 < v < 2 ^ 62 | IUint64 v => in_u 64 v
  | IFloat v => in_u 32 v | IDouble v => in_u 64 v
  | IString16 s => (0 < length s)%nat /\ Z.of_nat (length s) < 2 ^ 16
  | IString32 s => (0 < length s)%nat /\ Z.of_nat (length s) < 2 ^ 32
  | IString64 s => (0 < length s)%nat /\ Z.of_nat (length s) <= str_max_size
  end.

(** The buffers an item hands to [write], in order. *)
Definition chunks (e : Z) (it : item) : list (list Z) :=
  match it with
  | IFint8 v | IFuint8 v => [host_bytes host_little 1 v]
  | IFint16 v | IFuint16 v => [wire e 2 v]
  | IFint32 v | IFuint32 v | IFloat v => [wire e 4 v]
  | IFint64 v | IFuint64 v | IDouble v => [wire e 8 v]
  | IUint32 v => [default [] (varint 5 v)]
  | IUint64 v => [default [] (varint 10 v)]
  | IInt32 v => [default [] (EncodeZigzap32 v ≫= varint 5)]
  | IInt64 v => [default [] (EncodeZigzap64 v ≫= varint 10)]
  | IString16 s => [wire e 2 (swrap 16 (Z.of_nat (length s))); s]
  | IString32 s => [wire e 4 (swrap 32 (Z.of_nat (length s))); s]
  | IString64 s => [wire e 8 (swrap 64 (Z.of_nat (length s))); s]
  end.
Definition encode (e : Z) (it : item) : list Z := concat (chunks e it).

Lemma varint_valid w rm v :
  in_u w v -> w <= 7 * Z.of_nat rm -> (0 < rm)%nat -> exists l, varint rm v = Some l /\ (0 < length l <= rm)%nat.
Proof.
  intros Hv Hw Hr. destruct (varint_total rm v) as (l & E & Hl & _); [|done|by exists l].
  destruct Hv as [H0 H1]. split; [done|]. eapply Z.lt_le_trans; [done|]. apply Z.pow_le_mono_r; lia.
Qed.

Lemma zigzag_valid w v :
  2 <= w -> - 2 ^ (w - 1) < v < 2 ^ (w - 2) -> exists z, EncodeZigzap w v = Some z.
Proof.
  intros Hw Hv. unfold EncodeZigzap, in_sb, in_s.
  assert (2 ^ (w - 1) = 2 * 2 ^ (w - 2)) as E by (rewrite <- Z.pow_succ_r by lia; f_equal; lia).
  case_decide; rewrite bool_decide_true; try (by eexists); lia.
Qed.

Lemma write_item_chunks it b :
  valid it -> write_item it b = writes fresh (chunks (m_endian b) it) b.
Proof.
  intros Hv.
  assert (forall c, writes fresh [c] b = write fresh c b) as H1.
  { intros c. cbn. unfold bind, ret. by destruct (write fresh c b) as [[] ?| |]. }
  assert (forall n swap v s, (0 < n)%nat ->
    host_bytes host_little n (swap v) = reverse (host_bytes host_little n v) ->
    (write_swapped fresh byte_order host_little n swap v ;;; write fresh s) b =
    writes fresh [wire (m_endian b) n v; s] b) as H2.
  { intros n swap v s Hn Hs. cbn. unfold bind at 1 2. rewrite write_swapped_wire by done.
    destruct (write fresh (wire (m_endian b) n v) b) as [[] b1| |]; try done.
    unfold bind, ret. by destruct (write fresh s b1) as [[] ?| |]. }
  destruct it; cbn [write_item chunks]; rewrite ?H1; try done;
    try (apply write_swapped_wire; (apply host_bytes_byteswap_u || (apply host_bytes_byteswap_s; lia)));
    try (apply H2; [lia|apply host_bytes_byteswap_s; lia]).
  - cbn in Hv. unfold write_int32, EncodeZigzap32.
    destruct (zigzag_valid 32 v ltac:(lia) Hv) as [z Ez]. rewrite Ez. cbn [mbind option_bind].
    destruct (zigzag_roundtrip 32 v z ltac:(lia) Ez) as [Hz _].
    destruct (varint_valid 32 5 z Hz) as (l & El & _); [lia..|].
    unfold write_uint32, write_varint. by rewrite El.
  - destruct (varint_valid 32 5 v Hv) as (l & El & _); [lia..|].
    unfold write_uint32, write_varint. by rewrite El.
  - cbn in Hv. unfold write_int64, EncodeZigzap64.
    destruct (zigzag_valid 64 v ltac:(lia) Hv) as [z Ez]. rewrite Ez. cbn [mbind option_bind].
    destruct (zigzag_roundtrip 64 v z ltac:(lia) Ez) as [Hz _].
    destruct (varint_valid 64 10 z Hz) as (l & El & _); [lia..|].
    unfold write_uint64, write_varint. by rewrite El.
  - destruct (varint_valid 64 10 v Hv) as (l & El & _); [lia..|].
    unfold write_uint64, write_varint. by rewrite El.
Qed.

Lemma read_string_at n val s b (rd : cmd t Z) :
  (0 < length s)%nat -> Z.of_nat (length s) <= str_max_size ->
  at_pos b (wire (m_endian b) n val ++ s) ->
  (at_pos b (wire (m_endian b) n val) -> rd b = Ok (Z.of_nat (length s)) (adv b n)) ->
  (let* len := rd in resize_read len) b = Ok s (adv b (length (wire (m_endian b) n val ++ s))).
Proof.
  intros Hs Hmax Hat Hrd. apply at_pos_app in Hat as [H1 H2]. rewrite length_wire in H2.
  unfold bind. rewrite Hrd by done. unfold resize_read. rewrite decide_False by lia.
  rewrite read_sz_eq, Nat2Z.id by lia. rewrite read_at_pos by (done || (intros ->; simpl in *; lia)).
  rewrite adv_adv. by rewrite length_app, length_wire.
Qed.

(** Lengths pass through the signed prefix unchanged modulo the width. *)
Lemma wire_swrap e n v :
  (0 < n)%nat -> wire e n (swrap (8 * Z.of_nat n) v) = wire e n v.
Proof.
  intros Hn. unfold wire.
  by rewrite <- (host_bytes_wrap _ n (swrap _ _)), wrap_swrap, host_bytes_wrap by lia.
Qed.

Lemma as_item_ok {A} (f : A -> item) (m : cmd t A) a b b' : m b = Ok a b' -> as_item f m b = Ok (f a) b'.
Proof. intros E. unfold as_item, bind. by rewrite E. Qed.
Lemma read_varint_item rm w v b :
  in_u w v -> w <= 7 * Z.of_nat rm -> (0 < rm)%nat -> at_pos b (default [] (varint rm v)) ->
  read_varint host_little rm w 0 0 b = Ok v (adv b (length (default [] (varint rm v)))).
Proof.
  intros Hu Hw Hr Hp. destruct (varint_valid w rm v Hu Hw Hr) as (l & El & Hl).
  rewrite El in *. cbn [default from_option id] in *. unfold in_u in Hu.
  rewrite (read_varint_at rm rm w 0 0 v l) by (done || (simpl; lia)).
  by rewrite Z.mul_1_r.
Qed.

Lemma read_item_at it b :
  valid it -> at_pos b (encode (m_endian b) it) ->
  read_like it b = Ok it (adv b (length (encode (m_endian b) it))).
Proof.
  unfold encode. intros Hv Hat.
  destruct it; cbn [read_like chunks concat] in *; rewrite ?app_nil_r, ?length_wire, ?length_host_bytes in *;
    apply as_item_ok.
  - unfold read_fint8, bind. pose proof (read_at_pos b _ Hat) as E.
    rewrite length_host_bytes in E. rewrite E by (by destruct host_little).
    unfold ret. by rewrite host_value_bytes, swrap_wrap, swrap_id by (done || lia).
  - unfold read_fuint8, bind. pose proof (read_at_pos b _ Hat) as E.
    rewrite length_host_bytes in E. rewrite E by (by destruct host_little).
    unfold ret. by rewrite host_value_bytes, wrap_id.
  - by apply (read_fixed_s 2); [lia|..].
  - by apply (read_fixed_u 2); [lia|..].
  - by apply (read_fixed_s 4); [lia|..].
  - by apply (read_fixed_u 4); [lia|..].
  - by apply (read_fixed_s 8); [lia|..].
  - by apply (read_fixed_u 8); [lia|..].
  - destruct (zigzag_valid 32 v ltac:(lia) Hv) as [z Ez]. unfold EncodeZigzap32 in *. rewrite Ez in *.
    destruct (zigzag_roundtrip 32 v z ltac:(lia) Ez) as [Hz Hd].
    unfold read_int32, read_uint32, bind. cbn [mbind option_bind] in *.
    rewrite (read_varint_item 5 32 z) by (done || lia). unfold ret, DecodeZigzap32. by rewrite Hd.
  - by apply read_varint_item; [|lia..|].
  - destruct (zigzag_valid 64 v ltac:(lia) Hv) as [z Ez]. unfold EncodeZigzap64 in *. rewrite Ez in *.
    destruct (zigzag_roundtrip 64 v z ltac:(lia) Ez) as [Hz Hd].
    unfold read_int64, read_uint64, bind. cbn [mbind option_bind] in *.
    rewrite (read_varint_item 10 64 z) by (done || lia). unfold ret, DecodeZigzap64. by rewrite Hd.
  - by apply read_varint_item; [|lia..|].
  - by apply (read_fixed_u 4); [lia|..].
  - by apply (read_fixed_u 8); [lia|..].
  - rewrite (wire_swrap _ 2) in * by lia. destruct Hv as [H0 H1]. apply read_string_at; try done.
    { unfold str_max_size. lia. }
    intros H. apply (read_fixed_u 2); [lia|unfold in_u; lia|done].
  - rewrite (wire_swrap _ 4) in * by lia. destruct Hv as [H0 H1]. apply read_string_at; try done.
    { unfold str_max_size. lia. }
    intros H. apply (read_fixed_u 4); [lia|unfold in_u; lia|done].
  - rewrite (wire_swrap _ 8) in * by lia. destruct Hv as [H0 H1]. apply read_string_at; try done.
    intros H. apply (read_fixed_u 8); [lia|unfold in_u, str_max_size in *; lia|done].
Qed.

Fixpoint write_items (its : list item) : cmd t unit :=
  match its with [] => ret tt | it :: its => write_item it ;;; write_items its end.
Fixpoint read_items (its : list item) : cmd t (list item) :=
  match its with
  | [] => ret []
  | it :: its => let* v := read_like it in let* vs := read_items its in ret (v :: vs)
  end.
Definition encoding (e : Z) (its : list item) : list Z := concat (encode e <$> its).

Lemma write_items_ok its b :
  wf b -> Forall valid its -> room b (length (encoding (m_endian b) its)) ->
  exists b', write_items its b = Ok tt b' /\ written b b' (encoding (m_endian b) its).
Proof.
  intros Hwf Hv. revert b Hwf. induction Hv as [|it its Hit Hits IH]; intros b Hwf Hr.
  - exists b. split; [done|]. by apply written_nil.
  - unfold encoding in *. cbn [fmap list_fmap concat write_items] in *. rewrite length_app in Hr.
    rewrite <- (Nat.add_0_r (_ + _)) in Hr.
    destruct (writes_ok fresh fresh_length (chunks (m_endian b) it) b Hwf) as (b1 & E & Hw).
    { destruct Hr as [?|?]; [by left|right]. unfold encode in *. lia. }
    rewrite Nat.add_0_r in Hr. pose proof (room_written b b1 _ _ Hr Hw) as Hr1.
    pose proof Hw as (Hwf1 & _ & _ & _ & _ & Ee & _).
    rewrite <- Ee in Hr1. destruct (IH b1 Hwf1 Hr1) as (b2 & E2 & Hw2). rewrite Ee in Hw2.
    unfold bind. rewrite write_item_chunks, E, E2 by done. exists b2. split; [done|].
    by apply (written_app b b1).
Qed.

Lemma read_items_at its b :
  Forall valid its -> at_pos b (encoding (m_endian b) its) ->
  read_items its b = Ok its (adv b (length (encoding (m_endian b) its))).
Proof.
  intros Hv. revert b. induction Hv as [|it its Hit Hits IH]; intros b Hat.
  - cbn. unfold ret. rewrite moved_0; [done|]. apply wf_chain, Hat.
  - unfold encoding in *. cbn [fmap list_fmap concat read_items] in *.
    apply at_pos_app in Hat as [H1 H2]. unfold bind. rewrite read_item_at by done.
    rewrite (IH (adv b _)) by done. unfold ret. rewrite adv_adv. by rewrite length_app.
Qed.
End roundtrip.

(** ** Properties *)

(** C15: let a sequence of values be written to an array with room: fixed-width
    integers, unsigned varints, floats and doubles of the whole range of their
    type, zigzag varints for which the encoder is defined (above - 2^31 and below
    2^30, above - 2^63 and below 2^62; outside it overflows, [write_int32_overflows]),
    and non-empty strings with a 16-, 32- or 64-bit length that holds their length
    (an empty one may not be readable, [empty_string_at_end]; strings with a varint
    length are no values here, their two methods do not match,
    [string_vint_mismatch]).  Then seeking back to where the writes started and
    reading the same kinds returns the same values and ends where the writes ended;
    the byte order of array, build and host do not matter. *)
Theorem serialize_roundtrip fresh (Hf : forall k s, length (fresh k s) = s)
    byte_order host_little its b :
  wf b -> Forall valid its ->
  room b (length (encoding byte_order host_little (m_endian b) its)) ->
  exists b1 b2 b3,
    write_items fresh byte_order host_little its b = Ok tt b1 /\
    position (m_pos b) b1 = Ok tt b2 /\
    read_items byte_order host_little its b2 = Ok its b3 /\
    m_pos b3 = m_pos b1 /\ contents b3 = contents b1.
Proof.
  intros Hwf Hv Hr.
  destruct (write_items_ok fresh Hf byte_order host_little its b Hwf Hv Hr) as (b1 & E1 & Hw).
  destruct (rewind b b1 _ Hwf Hw) as (b2 & E2 & Hat & Ep & Ee & Ec). rewrite <- Ee in Hat.
  pose proof (read_items_at byte_order host_little its b2 Hv Hat) as E3.
  eexists b1, b2, _. split_and!; [done..| |done].
  cbn. destruct Hw as (_ & _ & Ep1 & _). by rewrite Ep, Ee, Ep1.
Qed.

Definition sample_items : list item :=
  [IFint16 (-2); IInt32 (-300); IUint64 1000000; IString16 [104; 105]; IFuint32 7].
Definition sample_array : t := ByteArray zero_fresh 64.
Lemma sample_array_wf : wf sample_array.
Proof. apply ByteArray_wf; [apply zero_fresh_length|lia]. Qed.

Lemma serialize_roundtrip_witness :
  exists b1 b2 b3,
    write_items zero_fresh COOL_LITTLE_ENDIAN true sample_items sample_array = Ok tt b1 /\
    position (m_pos sample_array) b1 = Ok tt b2 /\
    read_items COOL_LITTLE_ENDIAN true sample_items b2 = Ok sample_items b3 /\
    m_pos b3 = m_pos b1 /\ contents b3 = contents b1.
Proof.
  apply (serialize_roundtrip zero_fresh zero_fresh_length).
  - exact sample_array_wf.
  - repeat constructor; vm_compute; congruence.
  - right. vm_compute. lia.
Defined.

(** The varint writers never overrun [temp]: [write_uint32] and
    [write_uint64] emit between one byte and the array's 5 (10). *)
Theorem varint_fits rm w v :
  rm = 5%nat /\ w = 32 \/ rm = 10%nat /\ w = 64 -> in_u w v ->
  exists l, varint rm v = Some l /\ (0 < length l <= rm)%nat /\ Forall is_byte l.
Proof.
  intros Hrm [H0 H1]. apply varint_total; [|lia].
  split; [done|]. eapply Z.lt_le_trans; [done|]. apply Z.pow_le_mono_r; lia.
Qed.

Lemma varint_fits_witness :
  exists l, varint 5 (2 ^ 32 - 1) = Some l /\ (0 < length l <= 5)%nat /\ Forall is_byte l.
Proof. apply (varint_fits 5 32); [left; split; reflexivity|unfold in_u; lia]. Defined.

(** The zigzag encoders are defined exactly on the values whose negation or
    doubling does not overflow the signed type, stay in the unsigned type, and
    the decoders invert them. *)
Theorem zigzag_domain w val :
  w = 32 \/ w = 64 -> in_s w val ->
  (is_Some (EncodeZigzap w val) <-> - 2 ^ (w - 1) < val < 2 ^ (w - 2)) /\
  (forall v, EncodeZigzap w val = Some v -> in_u w v /\ DecodeZigzap w v = val).
Proof.
  intros Hw Hv. assert (2 <= w) as H2 by lia. split; [|intros v; by apply zigzag_roundtrip].
  assert (2 ^ (w - 1) = 2 * 2 ^ (w - 2)) as E by (rewrite <- Z.pow_succ_r by lia; f_equal; lia).
  split.
  - intros [z Hz]. revert Hz. unfold in_s in Hv. unfold EncodeZigzap, in_sb, in_s.
    case_decide; case_bool_decide; intros; simplify_eq; lia.
  - intros H. destruct (zigzag_valid w val H2 H) as [z ->]. by eexists.
Qed.

Lemma zigzag_domain_witness :
  (is_Some (EncodeZigzap 32 (2 ^ 30)) <-> - 2 ^ (32 - 1) < 2 ^ 30 < 2 ^ (32 - 2)) /\
  (forall v, EncodeZigzap 32 (2 ^ 30) = Some v -> in_u 32 v /\ DecodeZigzap 32 v = 2 ^ 30).
Proof. apply (zigzag_domain 32); [left; reflexivity|unfold in_s; lia]. Defined.

(** [write_int32] of a value from [2 ^ 30] on doubles it in [int]. *)
Example write_int32_overflows :
  write_int32 zero_fresh (2 ^ 30) (ByteArray zero_fresh 16) = Fail_ Undef.
Proof. vm_compute. reflexivity. Qed.

(** The prefix of [write_string_vint] is a varint, [read_string_vint] reads eight
    bytes. *)
Example string_vint_mismatch :
  exists b',
    (write_string_vint zero_fresh [97; 98; 99; 100; 101; 102; 103; 104] ;;; position 0 ;;;
     read_string_vint COOL_LITTLE_ENDIAN true) (ByteArray zero_fresh 16)
    = Throw out_of_range b'.
Proof. vm_compute. eexists. reflexivity. Qed.

(** An empty string that ends the chain cannot be read back. *)
Example empty_string_at_end :
  (write_string_f16 zero_fresh COOL_LITTLE_ENDIAN true [] ;;; position 0 ;;;
   read_string_f16 COOL_LITTLE_ENDIAN true) (ByteArray zero_fresh 1) = Fail_ Undef.
Proof. vm_compute. reflexivity. Qed.

End Codec.
