(* ===== verification/Timer.v ===== *)
(** * Timers: src/src/timer.h, src/src/timer.cpp

    [Timer] objects live in a store indexed by their address, because the set
    [m_timers] holds pointers to them and orders them by the [m_next] they have
    in the store.  Every method runs under the manager's lock, so it is one step
    on the store; [listExpiredCb] takes the lock twice and is given by its two
    critical sections.  The clock, [cool::GetCurrentMS()], is an argument. *)

From stdpp Require Import prelude gmap sorting.
From Stdlib Require Import ZArith Lia.
From S2P Require Import Prelude.

Module Timer.
Local Open Scope Z_scope.

Section timers.
Context {K W : Type}.   (* client callbacks; the objects condition timers watch *)

(** A [std::function] stored in a timer: a client callback, or
    [std::bind(&OnTimer, weak_cond, cb)]. *)
Inductive callback :=
  | Plain (cb : K)
  | Bound_OnTimer (weak_cond : W) (cb : K).

(** What calling it does, given which watched objects are alive. *)
Definition OnTimer (alive : W -> bool) (weak_cond : W) (cb : K) : option K :=
  if alive weak_cond then Some cb else None.
Definition call (alive : W -> bool) (f : callback) : option K :=
  match f with
  | Plain cb => Some cb
  | Bound_OnTimer weak_cond cb => OnTimer alive weak_cond cb
  end.

Record timer := Timer_ {
  m_recurring : bool;
  m_ms : Z;
  m_next : Z;
  m_cb : option callback
}.

Record manager := Manager {
  heap : gmap nat timer;      (* the Timer objects by address *)
  m_timers : list nat;        (* the ordered set of pointers *)
  m_tickled : bool;
  m_previous_time : Z
}.

Definition set_heap (v : gmap nat timer) (s : manager) : manager :=
  Manager v (m_timers s) (m_tickled s) (m_previous_time s).
Definition set_timers (v : list nat) (s : manager) : manager :=
  Manager (heap s) v (m_tickled s) (m_previous_time s).
Definition set_tickled (v : bool) (s : manager) : manager :=
  Manager (heap s) (m_timers s) v (m_previous_time s).
Definition set_previous (v : Z) (s : manager) : manager :=
  Manager (heap s) (m_timers s) (m_tickled s) v.

Abbreviation cmd := (Prelude.cmd manager).

Definition next_of (h : gmap nat timer) (a : nat) : Z :=
  match h !! a with Some t => m_next t | None => 0 end.

(** [Timer::Comparator] on pointers; null is [None]. *)
Definition Comparator (h : gmap nat timer) (lhs rhs : option nat) : bool :=
  match lhs, rhs with
  | None, None => false
  | None, Some _ => true
  | Some _, None => false
  | Some a, Some b =>
    if next_of h a <? next_of h b then true
    else if next_of h b <? next_of h a then false
    else (a <? b)%nat
  end.
Definition before (h : gmap nat timer) (a b : nat) : bool := Comparator h (Some a) (Some b).

(** [std::set] operations with that comparator. *)
Fixpoint set_insert (h : gmap nat timer) (x : nat) (l : list nat) : list nat :=
  match l with
  | [] => [x]
  | y :: l' => if before h x y then x :: l
               else if before h y x then y :: set_insert h x l' else l
  end.
Fixpoint set_find (h : gmap nat timer) (x : nat) (l : list nat) : option nat :=
  match l with
  | [] => None
  | y :: l' => if before h y x then set_find h x l'
               else if before h x y then None else Some y
  end.
Definition set_erase (x : nat) (l : list nat) : list nat := filter (fun y => y <> x) l.

Definition get_timer (a : nat) : cmd timer :=
  fun s => match heap s !! a with Some t => Ok t s | None => Fail_ Undef end.
Definition put_timer (a : nat) (t : timer) : cmd unit :=
  modify (fun s => set_heap (<[a := t]> (heap s)) s).

Definition with_next (v : Z) (t : timer) : timer := Timer_ (m_recurring t) (m_ms t) v (m_cb t).
Definition with_cb (v : option callback) (t : timer) : timer :=
  Timer_ (m_recurring t) (m_ms t) (m_next t) v.
Definition with_ms (v : Z) (t : timer) : timer := Timer_ (m_recurring t) v (m_next t) (m_cb t).

(** [Timer::Timer(ms, cb, recurring, manager)]. *)
Definition Timer (now ms : Z) (cb : option callback) (recurring : bool) : timer :=
  Timer_ recurring ms (u64 (now + ms)) cb.

Definition TimerManager (now : Z) : manager := Manager ∅ [] false now.

(** [m_manager->m_timers.erase(find(shared_from_this()))]; erasing [end()] is
    undefined. *)
Definition cancel (a : nat) : cmd bool :=
  let* t := get_timer a in
  match m_cb t with
  | Some _ =>
    put_timer a (with_cb None t) ;;;
    let* it := gets (fun s => set_find (heap s) a (m_timers s)) in
    match it with
    | Some x => modify (fun s => set_timers (set_erase x (m_timers s)) s) ;;; ret true
    | None => fail Undef
    end
  | None => ret false
  end.

Definition refresh (now : Z) (a : nat) : cmd bool :=
  let* t := get_timer a in
  match m_cb t with
  | None => ret false
  | Some _ =>
    let* it := gets (fun s => set_find (heap s) a (m_timers s)) in
    match it with
    | None => ret false
    | Some x =>
      modify (fun s => set_timers (set_erase x (m_timers s)) s) ;;;
      put_timer a (with_next (u64 (now + m_ms t)) t) ;;;
      modify (fun s => set_timers (set_insert (heap s) a (m_timers s)) s) ;;;
      ret true
    end
  end.

(** [addTimer(val, lock)]; the result tells whether [onTimerInsertAtFront] is
    called. *)
Definition addTimer_locked (a : nat) : cmd bool :=
  modify (fun s => set_timers (set_insert (heap s) a (m_timers s)) s) ;;;
  let* at_front := gets (fun s => bool_decide (head (m_timers s) = Some a) && negb (m_tickled s)) in
  (if at_front then modify (set_tickled true) else ret tt) ;;;
  ret at_front.

(** [Timer::reset]: returns its result and the notification of [addTimer]. *)
Definition reset (now : Z) (a : nat) (ms : Z) (from_now : bool) : cmd (bool * bool) :=
  let* t := get_timer a in
  if (ms =? m_ms t) && negb from_now then ret (true, false) else
  match m_cb t with
  | None => ret (false, false)
  | Some _ =>
    let* it := gets (fun s => set_find (heap s) a (m_timers s)) in
    match it with
    | None => ret (false, false)
    | Some x =>
      modify (fun s => set_timers (set_erase x (m_timers s)) s) ;;;
      let start := if from_now then now else u64 (m_next t - m_ms t) in
      put_timer a (with_next (u64 (start + ms)) (with_ms ms t)) ;;;
      let* front := addTimer_locked a in
      ret (true, front)
    end
  end.

(** [addTimer(ms, cb, recurring)]: [a] is the address [new] returns. *)
Definition addTimer (now : Z) (a : nat) (ms : Z) (cb : option callback) (recurring : bool) : cmd bool :=
  put_timer a (Timer now ms cb recurring) ;;; addTimer_locked a.

Definition addConditionTimer (now : Z) (a : nat) (ms : Z) (cb : K) (weak_cond : W)
    (recurring : bool) : cmd bool :=
  addTimer now a ms (Some (Bound_OnTimer weak_cond cb)) recurring.

Definition hasTimer (s : manager) : bool := negb (bool_decide (m_timers s = [])).

Definition getNextTimer (now : Z) : cmd Z :=
  modify (set_tickled false) ;;;
  gets (fun s => match m_timers s with
                 | [] => 2 ^ 64 - 1
                 | a :: _ => if next_of (heap s) a <=? now then 0
                             else u64 (next_of (heap s) a - now)
                 end).

Definition detectClockRollover (now : Z) : cmd bool :=
  let* prev := gets m_previous_time in
  let rollover := (now <? prev) && (now <? u64 (prev - 60 * 60 * 1000)) in
  modify (set_previous now) ;;; ret rollover.

(** [lower_bound(now_timer)], where [now_timer] has address [n] and expires at
    [now]: the prefix of timers that come before it, and the rest. *)
Definition before_now (h : gmap nat timer) (now : Z) (n x : nat) : bool :=
  if next_of h x <? now then true
  else if now <? next_of h x then false else (x <? n)%nat.
Fixpoint split_at (p : nat -> bool) (l : list nat) : list nat * list nat :=
  match l with
  | [] => ([], [])
  | x :: l' => if p x then let '(a, b) := split_at p l' in (x :: a, b) else ([], l)
  end.

(** The loop over [expireds]. *)
Fixpoint fire (now : Z) (expireds : list nat) (cbs : list (option callback))
    : cmd (list (option callback)) :=
  match expireds with
  | [] => ret cbs
  | a :: expireds =>
    let* t := get_timer a in
    (if m_recurring t then
       put_timer a (with_next (u64 (now + m_ms t)) t) ;;;
       modify (fun s => set_timers (set_insert (heap s) a (m_timers s)) s)
     else put_timer a (with_cb None t)) ;;;
    fire now expireds (cbs ++ [m_cb t])
  end.

(** The second critical section of [listExpiredCb]: [*m_timers.begin()] of an
    empty set is undefined. *)
Definition listExpired_locked (now : Z) (n : nat) : cmd (list (option callback)) :=
  let* rollover := detectClockRollover now in
  let* s := gets id in
  let* late := (if rollover then ret false else
                match m_timers s with
                | [] => fail Undef
                | a :: _ => ret (now <? next_of (heap s) a)
                end) in
  if late then ret [] else
  let '(lo, hi) := if rollover then (m_timers s, []) else split_at (before_now (heap s) now n) (m_timers s) in
  let '(eq, rest) := split_at (fun x => next_of (heap s) x =? now) hi in
  let expireds := lo ++ eq in
  modify (set_timers rest) ;;;
  fire now expireds [].

(** The whole method when no other thread runs between the sections. *)
Definition listExpiredCb (now : Z) (n : nat) : cmd (list (option callback)) :=
  let* empty := gets (fun s => bool_decide (m_timers s = [])) in
  if empty then ret [] else listExpired_locked now n.

(** ** The order *)

Lemma before_irrefl h a : before h a a = false.
Proof. unfold before, Comparator. by rewrite Z.ltb_irrefl, Nat.ltb_irrefl. Qed.

Lemma before_iff h a b :
  before h a b = true <->
  next_of h a < next_of h b \/ (next_of h a = next_of h b /\ (a < b)%nat).
Proof.
  unfold before, Comparator.
  destruct (Z.ltb_spec (next_of h a) (next_of h b)); [intuition lia|].
  destruct (Z.ltb_spec (next_of h b) (next_of h a)); [intuition lia|].
  rewrite Nat.ltb_lt. intuition lia.
Qed.

Lemma before_trans h a b c : before h a b = true -> before h b c = true -> before h a c = true.
Proof. rewrite !before_iff. lia. Qed.

Lemma before_total h a b : before h a b = false -> before h b a = false -> a = b.
Proof.
  intros Ha%not_true_iff_false Hb%not_true_iff_false.
  rewrite before_iff in Ha, Hb. lia.
Qed.

Lemma before_asym h a b : before h a b = true -> before h b a = false.
Proof. rewrite <- not_true_iff_false, !before_iff. lia. Qed.

Definition sorted (h : gmap nat timer) : list nat -> Prop :=
  StronglySorted (fun a b => before h a b = true).

(** The order depends only on the deadlines of the elements. *)
Lemma before_ext h h' a b :
  next_of h a = next_of h' a -> next_of h b = next_of h' b -> before h a b = before h' a b.
Proof. unfold before, Comparator. by intros -> ->. Qed.

Lemma sorted_ext h h' l :
  (forall x, x ∈ l -> next_of h x = next_of h' x) -> sorted h l -> sorted h' l.
Proof.
  intros Hx Hs. induction Hs as [|a l Hl IH Ha]; [constructor|].
  constructor; [apply IH; set_solver|].
  rewrite Forall_forall in Ha |- *. intros b Hb.
  rewrite <- (before_ext h h'); [by apply Ha|apply Hx; set_solver|apply Hx; set_solver].
Qed.

Lemma sorted_head_notin h a l : sorted h (a :: l) -> a ∉ l.
Proof.
  intros [_ Ha]%StronglySorted_inv Hin. rewrite Forall_forall in Ha.
  specialize (Ha a Hin). simpl in Ha. by rewrite before_irrefl in Ha.
Qed.

Lemma sorted_nodup h l : sorted h l -> NoDup l.
Proof.
  induction 1 as [|a l Hl IH Ha]; constructor; [|done].
  by apply (sorted_head_notin h); constructor.
Qed.

Lemma sorted_sublist h l k : l `sublist_of` k -> sorted h k -> sorted h l.
Proof.
  induction 1 as [|x l k Hlk IH|x l k Hlk IH]; intros Hs; [done| |].
  - apply StronglySorted_inv in Hs as [Hs Hx]. constructor; [by apply IH|].
    rewrite Forall_forall in Hx |- *. intros y Hy. apply Hx. by eapply elem_of_sublist.
  - apply StronglySorted_inv in Hs as [Hs Hx]. by apply IH.
Qed.

(** ** The set operations *)

Lemma elem_of_set_insert h x l y : y ∈ set_insert h x l <-> (y = x \/ y ∈ l).
Proof.
  induction l as [|z l IH]; simpl; [set_solver|].
  destruct (before h x z) eqn:E1; [set_solver|].
  destruct (before h z x) eqn:E2; [set_solver|].
  rewrite (before_total h x z E1 E2). set_solver.
Qed.

Lemma set_insert_sorted h x l : sorted h l -> sorted h (set_insert h x l).
Proof.
  induction 1 as [|z l Hl IH Hz]; simpl; [by repeat constructor|].
  destruct (before h x z) eqn:E1.
  - constructor; [by constructor|]. constructor; [done|].
    eapply Forall_impl; [exact Hz|]. intros y. by apply before_trans.
  - destruct (before h z x) eqn:E2; [|by constructor].
    constructor; [done|]. rewrite Forall_forall in Hz |- *.
    intros y [->|Hy]%elem_of_set_insert; [done|by apply Hz].
Qed.

(** The new element is the first one exactly when it comes before all others. *)
Lemma head_set_insert h x l :
  sorted h l -> x ∉ l ->
  (head (set_insert h x l) = Some x <-> forall y, y ∈ l -> before h x y = true).
Proof.
  intros Hs Hx. destruct l as [|z l]; simpl; [set_solver|].
  apply StronglySorted_inv in Hs as [_ Hz]. rewrite Forall_forall in Hz.
  destruct (before h x z) eqn:E1.
  - split; [|done]. intros _ y [->|Hy]%elem_of_cons; [done|].
    eapply before_trans; [done|by apply Hz].
  - assert (z <> x) by set_solver.
    destruct (before h z x); simpl; (split; [intros [= ->]; done|]);
      intros H2; rewrite (H2 z) in E1; set_solver.
Qed.

Lemma head_set_insert_other h x l :
  head (set_insert h x l) <> Some x -> head (set_insert h x l) = head l.
Proof.
  destruct l as [|z l]; simpl; [done|].
  destruct (before h x z); simpl; [done|]. by destruct (before h z x).
Qed.

Lemma set_find_spec h x l :
  sorted h l -> set_find h x l = if decide (x ∈ l) then Some x else None.
Proof.
  induction 1 as [|z l Hl IH Hz]; [done|]. cbn [set_find].
  destruct (before h z x) eqn:E1.
  - rewrite IH. assert (x <> z) by (intros ->; by rewrite before_irrefl in E1).
    repeat case_decide; set_solver.
  - destruct (before h x z) eqn:E2.
    + rewrite decide_False; [done|]. intros [->|Hx]%elem_of_cons.
      * by rewrite before_irrefl in E2.
      * rewrite Forall_forall in Hz. specialize (Hz x Hx). simpl in Hz. congruence.
    + rewrite (before_total h x z E2 E1). by rewrite decide_True by set_solver.
Qed.

Lemma elem_of_set_erase x y l : y ∈ set_erase x l <-> (y <> x /\ y ∈ l).
Proof. unfold set_erase. by rewrite list_elem_of_filter. Qed.

Lemma set_erase_sorted h x l : sorted h l -> sorted h (set_erase x l).
Proof. apply sorted_sublist, sublist_filter. Qed.

(** [split_at] cuts a list at the first element that fails the test. *)
Lemma split_at_app p l : (split_at p l).1 ++ (split_at p l).2 = l.
Proof.
  induction l as [|x l IH]; simpl; [done|].
  destruct (p x); [|done]. destruct (split_at p l). simpl in *. by rewrite IH.
Qed.

Lemma split_at_filter (p : nat -> bool) l :
  (forall i j x y, l !! i = Some x -> l !! j = Some y -> (i < j)%nat -> p y = true -> p x = true) ->
  split_at p l = (filter (fun x => p x = true) l, filter (fun x => p x <> true) l).
Proof.
  intros Hm. induction l as [|x l IH]; simpl; [done|].
  destruct (p x) eqn:E.
  - rewrite IH; [|intros i j ???? Hij; apply (Hm (S i) (S j)); [done|done|lia]].
    by rewrite filter_cons_True, (filter_cons_False _ x) by congruence.
  - assert (forall y, y ∈ l -> p y <> true) as Hl.
    { intros y [i Hi]%list_elem_of_lookup Hy.
      assert (p x = true); [|congruence].
      by apply (Hm 0%nat (S i) x y); [done|done|lia|]. }
    rewrite filter_cons_False by congruence.
    rewrite (filter_cons_True _ x) by congruence.
    by rewrite (filter_none _ l), (filter_all _ l) by done.
Qed.

Lemma sorted_lookup h l i j x y :
  sorted h l -> l !! i = Some x -> l !! j = Some y -> (i < j)%nat -> before h x y = true.
Proof.
  intros Hs. revert i j. induction Hs as [|z l Hl IH Hz]; intros i j Hi Hj Hij; [done|].
  destruct j as [|j]; [lia|]. simpl in Hj. destruct i as [|i]; simpl in Hi.
  - injection Hi as ->. rewrite Forall_forall in Hz. apply Hz.
    by apply list_elem_of_lookup_2 with j.
  - apply (IH i j); [done|done|lia].
Qed.

(** ** The invariant

    [inv_but P s]: the set is ordered, its timers exist, and a timer that still
    has a callback is in the set or among the timers [P] that the running
    method has taken out. *)

Record inv_but (P : list nat) (s : manager) : Prop := {
  inv_sorted : sorted (heap s) (m_timers s);
  inv_live : forall a, a ∈ m_timers s \/ a ∈ P -> is_Some (heap s !! a);
  inv_cb : forall a t, heap s !! a = Some t -> m_cb t <> None -> a ∈ m_timers s \/ a ∈ P;
  inv_next : forall a t, heap s !! a = Some t -> in_u 64 (m_next t);
  inv_out : forall a, a ∈ P -> a ∉ m_timers s;
  inv_nodup : NoDup P
}.
Definition inv : manager -> Prop := inv_but [].

Lemma next_of_insert h a t b :
  next_of (<[a := t]> h) b = if decide (a = b) then m_next t else next_of h b.
Proof. unfold next_of. rewrite lookup_insert. by case_decide. Qed.

Lemma next_of_lookup h a t : h !! a = Some t -> next_of h a = m_next t.
Proof. unfold next_of. by intros ->. Qed.

Lemma sorted_insert_out h a t l : a ∉ l -> sorted h l -> sorted (<[a := t]> h) l.
Proof.
  intros Ha. apply sorted_ext. intros x Hx. rewrite next_of_insert, decide_False; set_solver.
Qed.

Lemma inv_TimerManager now : inv (TimerManager now).
Proof. split; simpl; try set_solver; constructor. Qed.

Lemma inv_flags P s b v : inv_but P s -> inv_but P (set_tickled b s) /\ inv_but P (set_previous v s).
Proof. intros []. split; split; done. Qed.

(** Allocating a timer, taking one out of the set, putting one back with a new
    deadline, and dropping one whose callback is cleared. *)
Lemma inv_alloc P s a t :
  inv_but P s -> heap s !! a = None -> in_u 64 (m_next t) ->
  inv_but (a :: P) (set_heap (<[a := t]> (heap s)) s).
Proof.
  intros [Hs Hl Hc Hn Ho Hd] Ha Ht.
  assert (~ (a ∈ m_timers s \/ a ∈ P)) as Hout.
  { intros [? ?]%Hl. congruence. }
  split; simpl.
  - apply sorted_insert_out; tauto.
  - intros b Hb. rewrite lookup_insert. case_decide; [by eexists|]. apply Hl. set_solver.
  - intros b t'. rewrite lookup_insert. case_decide; [set_solver|].
    intros Hb Ht'. destruct (Hc b t' Hb Ht'); set_solver.
  - intros b t'. rewrite lookup_insert. case_decide; [by intros [= <-]|apply Hn].
  - intros b [->|Hb]%elem_of_cons; [tauto|by apply Ho].
  - constructor; [tauto|done].
Qed.

Lemma inv_takeout P s a :
  inv_but P s -> a ∈ m_timers s ->
  inv_but (a :: P) (set_timers (set_erase a (m_timers s)) s).
Proof.
  intros [Hs Hl Hc Hn Ho Hd] Ha. split; simpl.
  - by apply set_erase_sorted.
  - intros b. rewrite elem_of_set_erase. intros [[_ Hb]|[->|Hb]%elem_of_cons]; apply Hl; tauto.
  - intros b t Hb Ht. rewrite elem_of_set_erase.
    destruct (decide (b = a)); [set_solver|]. destruct (Hc b t Hb Ht); set_solver.
  - done.
  - intros b. rewrite elem_of_set_erase. set_solver.
  - constructor; [|done]. intros Hp. by apply (Ho a).
Qed.

Lemma inv_putback P s a t :
  inv_but (a :: P) s -> in_u 64 (m_next t) ->
  let h := <[a := t]> (heap s) in
  inv_but P (set_timers (set_insert h a (m_timers s)) (set_heap h s)).
Proof.
  intros [Hs Hl Hc Hn Ho Hd] Ht h. apply NoDup_cons in Hd as [Hd1 Hd2]. split; simpl.
  - apply set_insert_sorted, sorted_insert_out; [apply Ho; set_solver|done].
  - intros b. rewrite elem_of_set_insert. unfold h. rewrite lookup_insert.
    case_decide; [by eexists|]. intros Hb. apply Hl. set_solver.
  - intros b t'. unfold h. rewrite lookup_insert, elem_of_set_insert. case_decide; [set_solver|].
    intros Hb Hcb. destruct (Hc b t' Hb Hcb); set_solver.
  - intros b t'. unfold h. rewrite lookup_insert. case_decide; [by intros [= <-]|apply Hn].
  - intros b Hb. rewrite elem_of_set_insert. assert (b <> a) by set_solver.
    specialize (Ho b). set_solver.
  - done.
Qed.

Lemma inv_retire P s a t :
  inv_but (a :: P) s -> m_cb t = None -> in_u 64 (m_next t) ->
  inv_but P (set_heap (<[a := t]> (heap s)) s).
Proof.
  intros [Hs Hl Hc Hn Ho Hd] Hcb Ht. apply NoDup_cons in Hd as [Hd1 Hd2]. split; simpl.
  - apply sorted_insert_out; [apply Ho; set_solver|done].
  - intros b Hb. rewrite lookup_insert. case_decide; [by eexists|]. apply Hl. set_solver.
  - intros b t'. rewrite lookup_insert. case_decide; [by intros [= <-]|].
    intros Hb Hcb'. destruct (Hc b t' Hb Hcb'); set_solver.
  - intros b t'. rewrite lookup_insert. case_decide; [by intros [= <-]|apply Hn].
  - intros b Hb. apply Ho. set_solver.
  - done.
Qed.

Lemma u64_in_u z : in_u 64 (u64 z).
Proof. by apply wrap_in_u. Qed.

(** ** The operations on a state with the invariant *)

Lemma cancel_eq s a t :
  inv s -> heap s !! a = Some t ->
  cancel a s =
    match m_cb t with
    | Some _ => Ok true (set_timers (set_erase a (m_timers s))
                          (set_heap (<[a := with_cb None t]> (heap s)) s))
    | None => Ok false s
    end.
Proof.
  intros Hi Ha. unfold cancel, get_timer, bind. rewrite Ha.
  destruct (m_cb t) eqn:Hcb; [|done]. simpl.
  assert (a ∈ m_timers s) as Hin.
  { destruct (inv_cb _ _ Hi a t Ha); [congruence|done|set_solver]. }
  rewrite set_find_spec, decide_True; [done|done|].
  apply (sorted_ext (heap s)); [|apply (inv_sorted _ _ Hi)].
  intros x _. rewrite next_of_insert. case_decide as E; [|done]. rewrite <- E. apply (next_of_lookup _ _ _ Ha).
Qed.

Lemma inv_find s a t :
  inv s -> heap s !! a = Some t -> m_cb t <> None -> set_find (heap s) a (m_timers s) = Some a.
Proof.
  intros Hi Ha Hcb. rewrite set_find_spec by apply (inv_sorted _ _ Hi).
  apply decide_True. destruct (inv_cb _ _ Hi a t Ha); [congruence|done|set_solver].
Qed.

(** Adding a timer and taking it back. *)
Lemma set_erase_insert h a l : a ∉ l -> set_erase a (set_insert h a l) = l.
Proof.
  intros Ha. assert (set_erase a l = l) as E.
  { apply filter_all. intros x Hx ->. done. }
  induction l as [|y l IH]; simpl.
  - unfold set_erase. rewrite filter_cons_False by tauto. done.
  - unfold set_erase in *. rewrite not_elem_of_cons in Ha. destruct Ha as [Hy Ha].
    rewrite filter_cons_True in E by congruence. injection E as E.
    destruct (before h a y); [|destruct (before h y a)].
    + rewrite filter_cons_False by tauto. rewrite filter_cons_True by congruence. by rewrite E.
    + rewrite filter_cons_True by congruence. by rewrite IH.
    + rewrite filter_cons_True by congruence. by rewrite E.
Qed.

Lemma refresh_eq now s a t :
  inv s -> heap s !! a = Some t ->
  refresh now a s =
    match m_cb t with
    | None => Ok false s
    | Some _ =>
      let h := <[a := with_next (u64 (now + m_ms t)) t]> (heap s) in
      Ok true (set_timers (set_insert h a (set_erase a (m_timers s))) (set_heap h s))
    end.
Proof.
  intros Hi Ha. unfold refresh, get_timer, bind. rewrite Ha.
  destruct (m_cb t) eqn:Hcb; [|done]. simpl.
  by rewrite (inv_find s a t) by congruence.
Qed.

Lemma reset_eq now s a ms from_now t :
  inv s -> heap s !! a = Some t ->
  reset now a ms from_now s =
    if (ms =? m_ms t) && negb from_now then Ok (true, false) s else
    match m_cb t with
    | None => Ok (false, false) s
    | Some _ =>
      let next := u64 ((if from_now then now else u64 (m_next t - m_ms t)) + ms) in
      let h := <[a := with_next next (with_ms ms t)]> (heap s) in
      let ts := set_insert h a (set_erase a (m_timers s)) in
      let front := bool_decide (head ts = Some a) && negb (m_tickled s) in
      Ok (true, front) (Manager h ts (m_tickled s || front) (m_previous_time s))
    end.
Proof.
  intros Hi Ha. unfold reset, get_timer, bind. rewrite Ha.
  destruct ((ms =? m_ms t) && negb from_now); [done|].
  destruct (m_cb t) eqn:Hcb; [|done]. simpl.
  rewrite (inv_find s a t) by congruence. simpl.
  unfold addTimer_locked, bind, gets, modify, ret. simpl.
  destruct (bool_decide _); destruct (m_tickled s) eqn:E; unfold set_tickled, set_timers; simpl; try rewrite E; done.
Qed.

Lemma addTimer_eq now a ms cb recurring s :
  addTimer now a ms cb recurring s =
    let h := <[a := Timer now ms cb recurring]> (heap s) in
    let ts := set_insert h a (m_timers s) in
    let front := bool_decide (head ts = Some a) && negb (m_tickled s) in
    Ok front (Manager h ts (m_tickled s || front) (m_previous_time s)).
Proof.
  unfold addTimer, addTimer_locked, put_timer, bind, gets, modify, ret. simpl.
  destruct (bool_decide _); destruct (m_tickled s) eqn:E; unfold set_tickled, set_timers; simpl; try rewrite E; done.
Qed.

(** ** Expiry *)

(** What [listExpiredCb] does to a timer that is due. *)
Definition fired (now : Z) (t : timer) : timer :=
  if m_recurring t then with_next (u64 (now + m_ms t)) t else with_cb None t.
Definition cb_of (h : gmap nat timer) (a : nat) : option callback := h !! a ≫= m_cb.
Definition recurs (h : gmap nat timer) (a : nat) : Prop := m_recurring <$> h !! a = Some true.

Lemma fire_cons now a P cbs s t :
  heap s !! a = Some t ->
  fire now (a :: P) cbs s =
    let h := <[a := fired now t]> (heap s) in
    fire now P (cbs ++ [m_cb t])
      (if m_recurring t then set_timers (set_insert h a (m_timers s)) (set_heap h s)
       else set_heap h s).
Proof.
  intros Ha. cbn [fire]. unfold bind at 1, get_timer. rewrite Ha.
  unfold bind, fired. by destruct (m_recurring t).
Qed.

Lemma fired_in_u now t : in_u 64 (m_next t) -> in_u 64 (m_next (fired now t)).
Proof. unfold fired. destruct (m_recurring t); [intros _; apply u64_in_u|done]. Qed.

Lemma fire_spec now P : forall cbs s,
  inv_but P s ->
  exists s', fire now P cbs s = Ok (cbs ++ (cb_of (heap s) <$> P)) s' /\
    inv s' /\
    (forall a, heap s' !! a = if decide (a ∈ P) then fired now <$> heap s !! a else heap s !! a) /\
    (forall a, a ∈ m_timers s' <-> a ∈ m_timers s \/ (a ∈ P /\ recurs (heap s) a)) /\
    m_tickled s' = m_tickled s /\ m_previous_time s' = m_previous_time s.
Proof.
  induction P as [|a P IH]; intros cbs s Hi.
  { exists s. rewrite app_nil_r. split_and!; try done; set_solver. }
  pose proof (inv_nodup _ _ Hi) as [HaP _]%NoDup_cons.
  destruct (inv_live _ _ Hi a ltac:(set_solver)) as [t Ha].
  pose proof (inv_next _ _ Hi a t Ha) as Hn.
  rewrite (fire_cons _ _ _ _ _ _ Ha). cbn zeta. set (s1 := if m_recurring t then _ else _).
  assert (inv_but P s1 /\ heap s1 = <[a := fired now t]> (heap s) /\
    (forall b, b ∈ m_timers s1 <-> b ∈ m_timers s \/ (b = a /\ m_recurring t = true)) /\
    m_tickled s1 = m_tickled s /\ m_previous_time s1 = m_previous_time s) as (H1 & Hh & Hm & Hk & Hp).
  { unfold s1. pose proof (fired_in_u now t Hn) as Hf. destruct (m_recurring t) eqn:Er; split_and!; try done.
    - by apply inv_putback.
    - intros b. simpl. rewrite elem_of_set_insert. naive_solver.
    - apply inv_retire; [done| |done]. unfold fired. by rewrite Er.
    - simpl. naive_solver. }
  destruct (IH (cbs ++ [m_cb t]) s1 H1) as (s' & Hrun & Hs' & Hheap & Hts & Hk' & Hp').
  exists s'. rewrite Hrun, <- (assoc (++)). split_and!; try congruence.
  - f_equal. f_equal. cbn. f_equal; [unfold cb_of; by rewrite Ha|].
    apply list_fmap_ext. intros i b Hb. unfold cb_of. rewrite Hh, lookup_insert_ne; [done|].
    intros ->. apply HaP. by eapply list_elem_of_lookup_2.
  - intros b. rewrite Hheap, Hh, lookup_insert.
    destruct (decide (a = b)) as [<-|Hab].
    + rewrite decide_False, decide_True by (done || left). by rewrite Ha.
    + destruct (decide (b ∈ P)) as [Hb|Hb].
      * by rewrite decide_True by by right.
      * rewrite decide_False; [done|]. intros [?|?]%elem_of_cons; [congruence|done].
  - intros b. rewrite Hts, Hm. unfold recurs. rewrite Hh, lookup_insert.
    destruct (decide (a = b)) as [<-|Hab].
    + rewrite Ha, elem_of_cons. simpl. intuition congruence.
    + rewrite elem_of_cons. intuition congruence.
Qed.

(** The timers that are due at [now]: all of them after a clock rollover. *)
Definition due (now : Z) (rollover : bool) (s : manager) : list nat :=
  filter (fun a => rollover = true \/ next_of (heap s) a <= now) (m_timers s).

Lemma due_rollover now s : due now true s = m_timers s.
Proof. apply filter_all. tauto. Qed.

(** The two scans of the code, [lower_bound] and the loop over equal deadlines,
    together cut the ordered set right after the last due timer. *)
Lemma scan_due now n s :
  sorted (heap s) (m_timers s) ->
  let '(lo, hi) := split_at (before_now (heap s) now n) (m_timers s) in
  let '(eq, rest) := split_at (fun x => next_of (heap s) x =? now) hi in
  lo ++ eq = due now false s /\
  rest = filter (fun a => now < next_of (heap s) a) (m_timers s).
Proof.
  intros Hs.
  assert (forall x, before_now (heap s) now n x = true <->
            next_of (heap s) x < now \/ (next_of (heap s) x = now /\ (x < n)%nat)) as Hb.
  { intros x. unfold before_now. destruct (Z.ltb_spec (next_of (heap s) x) now); [intuition lia|].
    destruct (Z.ltb_spec now (next_of (heap s) x)); [intuition lia|]. rewrite Nat.ltb_lt. lia. }
  rewrite split_at_filter; cycle 1.
  { intros i j x y Hx Hy Hij. pose proof (sorted_lookup _ _ _ _ _ _ Hs Hx Hy Hij) as Hxy.
    rewrite before_iff in Hxy. rewrite !Hb. lia. }
  set (lo := filter (fun x => _ = true) _). set (hi := filter (fun x => _ <> true) _).
  assert (sorted (heap s) hi) as Hhi by (eapply sorted_sublist; [apply sublist_filter|done]).
  assert (forall x, x ∈ hi -> now <= next_of (heap s) x) as Hge.
  { intros x [Hx _]%list_elem_of_filter. rewrite Hb in Hx. lia. }
  rewrite split_at_filter; cycle 1.
  { intros i j x y Hx Hy Hij. pose proof (sorted_lookup _ _ _ _ _ _ Hhi Hx Hy Hij) as Hxy.
    rewrite before_iff in Hxy. apply list_elem_of_lookup_2, Hge in Hx. rewrite !Z.eqb_eq.
    intros Hy'. lia. }
  split.
  - assert (m_timers s = lo ++ hi) as E.
    { pose proof (split_at_app (before_now (heap s) now n) (m_timers s)) as E.
      rewrite split_at_filter in E; [done|]. intros i j x y Hx Hy Hij.
      pose proof (sorted_lookup _ _ _ _ _ _ Hs Hx Hy Hij) as Hxy.
      rewrite before_iff in Hxy. rewrite !Hb. lia. }
    unfold due. rewrite E, filter_app. f_equal.
    + symmetry. apply filter_all. intros x [Hx _]%list_elem_of_filter. rewrite Hb in Hx. lia.
    + apply filter_ext_in. intros x Hx%Hge. rewrite Z.eqb_eq. intuition (congruence || lia).
  - unfold hi. rewrite list_filter_filter. apply filter_ext_in.
    intros x Hx. rewrite Z.eqb_eq, Hb. lia.
Qed.

Definition rollover (now : Z) (s : manager) : bool :=
  (now <? m_previous_time s) && (now <? u64 (m_previous_time s - 60 * 60 * 1000)).

Lemma inv_expire now r s :
  inv s ->
  inv_but (due now r s) (set_timers (filter (fun a => ~ (r = true \/ next_of (heap s) a <= now)) (m_timers s)) s).
Proof.
  intros [Hs Hl Hc Hn Ho Hd]. unfold due.
  split; simpl.
  - by eapply sorted_sublist; [apply sublist_filter|].
  - intros a. rewrite !list_elem_of_filter. intros Ha. apply Hl. tauto.
  - intros a t Ha Ht. destruct (Hc a t Ha Ht) as [Hin|]; [|set_solver].
    rewrite !list_elem_of_filter.
    destruct (decide (r = true \/ next_of (heap s) a <= now)); tauto.
  - done.
  - intros a. rewrite !list_elem_of_filter. tauto.
  - apply NoDup_filter. by eapply sorted_nodup.
Qed.

Lemma due_nothing now a l s :
  inv s -> m_timers s = a :: l -> now < next_of (heap s) a -> due now false s = [].
Proof.
  intros Hi Hm Ha. apply filter_none. intros x Hx [?|Hle]; [done|].
  pose proof (inv_sorted _ _ Hi) as Hs. rewrite Hm in Hs, Hx.
  apply StronglySorted_inv in Hs as [_ Hs]. rewrite Forall_forall in Hs.
  apply elem_of_cons in Hx as [->|Hx]; [lia|]. specialize (Hs x Hx). simpl in Hs.
  rewrite before_iff in Hs. lia.
Qed.

(** The second critical section hands out the due timers and fires them. *)
Lemma listExpired_eq now n s :
  inv s -> m_timers s <> [] \/ rollover now s = true ->
  let r := rollover now s in
  listExpired_locked now n s =
    fire now (due now r s) []
      (set_timers (filter (fun a => ~ (r = true \/ next_of (heap s) a <= now)) (m_timers s))
         (set_previous now s)).
Proof.
  intros Hi Hne r. unfold listExpired_locked, detectClockRollover, bind, gets, modify, ret. simpl.
  change ((now <? m_previous_time s) && _) with r.
  destruct r eqn:Er.
  - simpl. rewrite app_nil_r, due_rollover. by rewrite (filter_none _ (m_timers s)) by tauto.
  - destruct Hne as [Hne|Hne]; [|unfold r in Er; congruence].
    destruct (m_timers s) as [|a l] eqn:Hm; [done|]. rewrite <- Hm.
    destruct (Z.ltb_spec now (next_of (heap s) a)) as [Hlt|Hge].
    + rewrite (due_nothing _ _ _ _ Hi Hm Hlt). cbn [fire]. unfold ret. f_equal.
      rewrite filter_all; [destruct s; simpl in *; by subst|].
      intros x Hx [?|Hle]; [done|].
      assert (x ∈ due now false s) as Hd by (apply list_elem_of_filter; tauto).
      rewrite (due_nothing _ _ _ _ Hi Hm Hlt) in Hd. set_solver.
    + pose proof (scan_due now n s (inv_sorted _ _ Hi)) as Hscan.
      change (heap (set_previous now s)) with (heap s).
      destruct (split_at _ (m_timers s)) as [lo hi].
      destruct (split_at _ hi) as [eq rest]. destruct Hscan as [-> ->].
      f_equal. f_equal. apply filter_ext_in. intros x _. assert (false <> true) by done. lia.
Qed.

Lemma listExpired_spec now n s :
  inv s -> m_timers s <> [] \/ rollover now s = true ->
  let d := due now (rollover now s) s in
  exists s', listExpired_locked now n s = Ok (cb_of (heap s) <$> d) s' /\
    inv s' /\
    (forall a, heap s' !! a = if decide (a ∈ d) then fired now <$> heap s !! a else heap s !! a) /\
    (forall a, a ∈ m_timers s' <-> a ∈ m_timers s /\ (a ∈ d -> recurs (heap s) a)) /\
    m_tickled s' = m_tickled s /\ m_previous_time s' = now.
Proof.
  intros Hi Hne d. rewrite listExpired_eq by done.
  pose proof (inv_expire now (rollover now s) s Hi) as He.
  destruct (fire_spec now d [] (set_timers (filter (fun a => ~ (rollover now s = true \/
    next_of (heap s) a <= now)) (m_timers s)) (set_previous now s))) as (s' & Hrun & Hs' & Hh & Ht & Hk & Hp).
  { destruct He. by split. }
  exists s'. split_and!; try done. intros a. rewrite Ht. simpl.
  rewrite list_elem_of_filter. unfold d, due. rewrite list_elem_of_filter.
  destruct (decide (rollover now s = true \/ next_of (heap s) a <= now)); tauto.
Qed.

(** ** Interleavings

    One step is one critical section of some thread.  The second section of
    [listExpiredCb] may run at any time: what the first one saw need not hold any
    more. *)

Inductive op :=
  | Cancel (a : nat)
  | Refresh (now : Z) (a : nat)
  | Reset (now : Z) (a : nat) (ms : Z) (from_now : bool)
  | AddTimer (now : Z) (a : nat) (ms : Z) (cb : option callback) (recurring : bool)
  | AddConditionTimer (now : Z) (a : nat) (ms : Z) (cb : K) (weak_cond : W) (recurring : bool)
  | GetNextTimer (now : Z)
  | ListExpired (now : Z) (n : nat).

Definition run_op (o : op) : cmd unit :=
  match o with
  | Cancel a => cancel a ;;; ret tt
  | Refresh now a => refresh now a ;;; ret tt
  | Reset now a ms from_now => reset now a ms from_now ;;; ret tt
  | AddTimer now a ms cb recurring => addTimer now a ms cb recurring ;;; ret tt
  | AddConditionTimer now a ms cb weak_cond recurring =>
    addConditionTimer now a ms cb weak_cond recurring ;;; ret tt
  | GetNextTimer now => getNextTimer now ;;; ret tt
  | ListExpired now n => listExpired_locked now n ;;; ret tt
  end.

(** A method is called on a timer that exists, and [new] returns a fresh address. *)
Definition enabled (o : op) (s : manager) : Prop :=
  match o with
  | Cancel a | Refresh _ a | Reset _ a _ _ => is_Some (heap s !! a)
  | AddTimer _ a _ _ _ | AddConditionTimer _ a _ _ _ _ => heap s !! a = None
  | GetNextTimer _ | ListExpired _ _ => True
  end.
(** The expiry scan meets an empty set: another thread has taken the last timer out between its two
    sections. *)
Definition scans_nothing (o : op) (s : manager) : bool :=
  match o with ListExpired now _ => bool_decide (m_timers s = []) && negb (rollover now s) | _ => false end.

Inductive reachable : manager -> Prop :=
  | reach_init now : reachable (TimerManager now)
  | reach_step o s s' : reachable s -> enabled o s -> run_op o s = Ok tt s' -> reachable s'.

Lemma inv_reinsert s a t :
  inv s -> heap s !! a = Some t -> m_cb t <> None -> forall t', in_u 64 (m_next t') ->
  let h := <[a := t']> (heap s) in
  inv (set_timers (set_insert h a (set_erase a (m_timers s))) (set_heap h s)).
Proof.
  intros Hi Ha Hcb t' Ht' h.
  apply (inv_putback [] (set_timers (set_erase a (m_timers s)) s) a t'); [|done].
  apply inv_takeout; [done|]. destruct (inv_cb _ _ Hi a t Ha Hcb); [done|set_solver].
Qed.

Lemma inv_cancelled s a t :
  inv s -> heap s !! a = Some t -> m_cb t <> None ->
  inv (set_timers (set_erase a (m_timers s)) (set_heap (<[a := with_cb None t]> (heap s)) s)).
Proof.
  intros Hi Ha Hcb.
  apply (inv_retire [] (set_timers (set_erase a (m_timers s)) s) a); [|done|apply (inv_next _ _ Hi a t Ha)].
  apply inv_takeout; [done|]. destruct (inv_cb _ _ Hi a t Ha Hcb); [done|set_solver].
Qed.

Lemma inv_added now a ms cb recurring s :
  inv s -> heap s !! a = None ->
  let h := <[a := Timer now ms cb recurring]> (heap s) in
  inv (set_timers (set_insert h a (m_timers s)) (set_heap h s)).
Proof.
  intros Hi Ha h.
  assert (in_u 64 (m_next (Timer now ms cb recurring))) as Hn by apply u64_in_u.
  pose proof (inv_putback [] _ a _ (inv_alloc [] s a _ Hi Ha Hn) Hn) as H.
  simpl in H. by rewrite insert_insert, decide_True in H.
Qed.

Lemma timers_step o s : inv s -> enabled o s -> scans_nothing o s = false -> exists s', run_op o s = Ok tt s' /\ inv s'.
Proof.
  intros Hi He Hsc. destruct o; cbn [run_op enabled scans_nothing] in *; unfold bind.
  - destruct He as [t Ha]. rewrite (cancel_eq s a t) by done.
    destruct (m_cb t) eqn:Hcb; (eexists; split; [done|]); [|done]. apply inv_cancelled; congruence.
  - destruct He as [t Ha]. rewrite (refresh_eq now s a t) by done.
    destruct (m_cb t) eqn:Hcb; (eexists; split; [done|]); [|done].
    apply (inv_reinsert s a t); [done|done|congruence|apply u64_in_u].
  - destruct He as [t Ha]. rewrite (reset_eq now s a ms from_now t) by done.
    destruct (_ && _); [by eexists|].
    destruct (m_cb t) eqn:Hcb; (eexists; split; [done|]); [|done].
    eapply (inv_flags [] (set_timers _ (set_heap _ s)) _ 0), (inv_reinsert s a t);
      [done|done|congruence|apply u64_in_u].
  - rewrite addTimer_eq. eexists; split; [done|].
    by eapply (inv_flags [] (set_timers _ (set_heap _ s)) _ 0), inv_added.
  - unfold addConditionTimer. rewrite addTimer_eq. eexists; split; [done|].
    by eapply (inv_flags [] (set_timers _ (set_heap _ s)) _ 0), inv_added.
  - eexists; split; [done|]. by apply (inv_flags [] s false 0).
  - destruct (listExpired_spec now n s Hi) as (s' & -> & Hs' & _); [|by eexists].
    destruct (rollover now s); [by right|left]. rewrite andb_true_r in Hsc. by apply bool_decide_eq_false in Hsc.
Qed.
Lemma scans_nothing_undef o s : scans_nothing o s = true -> run_op o s = Fail_ Undef.
Proof.
  destruct o; try done. simpl. intros [Hm%bool_decide_eq_true Hr]%andb_true_iff.
  unfold listExpired_locked, detectClockRollover, bind, gets, modify, ret. simpl.
  change ((now <? m_previous_time s) && _) with (rollover now s). apply negb_true_iff in Hr. by rewrite Hr, Hm.
Qed.

Lemma timers_reachable s : reachable s -> inv s.
Proof.
  induction 1 as [now|o s s' Hr IH He Hrun]; [apply inv_TimerManager|].
  destruct (scans_nothing o s) eqn:Hsc; [by rewrite scans_nothing_undef in Hrun|].
  destruct (timers_step o s IH He Hsc) as (s1 & E & H1). rewrite E in Hrun. by injection Hrun as <-.
Qed.

Lemma head_earliest s a l :
  inv s -> m_timers s = a :: l -> forall b, b ∈ m_timers s -> next_of (heap s) a <= next_of (heap s) b.
Proof.
  intros Hi Hm b Hb. pose proof (inv_sorted _ _ Hi) as Hs. rewrite Hm in Hs, Hb.
  apply StronglySorted_inv in Hs as [_ Hs]. rewrite Forall_forall in Hs.
  apply elem_of_cons in Hb as [->|Hb]; [lia|]. specialize (Hs b Hb). simpl in Hs.
  rewrite before_iff in Hs. lia.
Qed.

(** ** Properties *)

(** C31: from the construction of the manager on, whatever critical sections of
    [addTimer], [cancel], [refresh], [reset], [getNextTimer] and the expiry scan
    the threads run in whatever order, the set of timers stays ordered by
    deadline, contains only live timers and every timer that still has a
    callback, and every further section runs to its end ([cancel] never erases
    [end()]), with exactly one exception: the second section of the expiry scan,
    on a set that has become empty since the first, is undefined unless the clock
    has gone back by more than an hour. *)
Theorem timer_safe s :
  reachable s -> inv s /\
  forall o, enabled o s ->
    if scans_nothing o s then run_op o s = Fail_ Undef else exists s', run_op o s = Ok tt s'.
Proof.
  intros Hr%timers_reachable. split; [done|]. intros o He.
  destruct (scans_nothing o s) eqn:Hsc; [by apply scans_nothing_undef|].
  destruct (timers_step o s Hr He Hsc) as (s' & Hrun & _). by exists s'.
Qed.

(** C32: [listExpiredCb] returns exactly the callbacks of the timers whose
    deadline has passed (of all timers when the clock has gone back by more than
    an hour), in order of deadline; one-shot timers among them leave the set and
    lose their callback, recurring ones stay with the deadline [now + m_ms], and
    no other timer changes. *)
Theorem listExpiredCb_outcome now n s :
  reachable s ->
  let d := if decide (m_timers s = []) then [] else due now (rollover now s) s in
  exists s', listExpiredCb now n s = Ok (cb_of (heap s) <$> d) s' /\
    (forall a, heap s' !! a = if decide (a ∈ d) then fired now <$> heap s !! a else heap s !! a) /\
    (forall a, a ∈ m_timers s' <-> a ∈ m_timers s /\ (a ∈ d -> recurs (heap s) a)) /\
    reachable s'.
Proof.
  intros Hr d. unfold listExpiredCb, bind, gets.
  destruct (decide (m_timers s = [])) as [Hm|Hm]; subst d.
  - rewrite bool_decide_true by done. exists s. split_and!; try done; intros a; set_solver.
  - rewrite bool_decide_false by done.
    destruct (listExpired_spec now n s (timers_reachable s Hr) (or_introl Hm)) as (s' & Hrun & _ & Hh & Ht & _).
    exists s'. split_and!; try done. apply (reach_step (ListExpired now n) s); [done|done|].
    cbn [run_op]. unfold bind. by rewrite Hrun.
Qed.

(** C40: [getNextTimer] returns the time to sleep: [~0ull] when there is no timer,
    0 when some timer is due, and otherwise a time after which the earliest
    timer, and no timer before it, is due; and it re-arms the notification. *)
Theorem getNextTimer_outcome now s :
  reachable s -> in_u 64 now ->
  exists r, getNextTimer now s = Ok r (set_tickled false s) /\ in_u 64 r /\
    (m_timers s = [] -> r = 2 ^ 64 - 1) /\
    (m_timers s <> [] -> (r = 0 <-> exists a, a ∈ m_timers s /\ next_of (heap s) a <= now)) /\
    (m_timers s <> [] -> 0 < r ->
      (exists a, a ∈ m_timers s /\ next_of (heap s) a = now + r) /\
      forall a, a ∈ m_timers s -> now + r <= next_of (heap s) a).
Proof.
  intros Hi%timers_reachable [Hn1 Hn2]. unfold getNextTimer, bind, modify, gets. simpl.
  eexists; split; [done|]. destruct (m_timers s) as [|a l] eqn:Hm.
  { split_and!; try done; by vm_compute. }
  pose proof (head_earliest s a l Hi Hm) as Hmin. rewrite Hm in Hmin.
  destruct (inv_live _ _ Hi a) as [t Ha]; [left; rewrite Hm; set_solver|].
  pose proof (inv_next _ _ Hi a t Ha) as [Ht1 Ht2]. rewrite <- (next_of_lookup _ _ _ Ha) in Ht1, Ht2.
  assert (a ∈ a :: l) as Hin by set_solver.
  destruct (Z.leb_spec (next_of (heap s) a) now) as [Hle|Hgt].
  - split_and!; try done. intros _. split; [|done]. intros _. by exists a.
  - rewrite wrap_id by (unfold in_u; lia). split_and!; try done; [unfold in_u; lia| |].
    + intros _. split; [lia|]. intros (b & Hb & Hle). specialize (Hmin b Hb). lia.
    + intros _ _. split; [exists a; split; [done|lia]|]. intros b Hb. specialize (Hmin b Hb). lia.
Qed.

(** [addTimer] puts the new timer into the set with deadline [now + ms] and
    keeps the others, and calls [onTimerInsertAtFront] exactly when the new timer
    is the earliest one and no notification is pending, so that a waiter is
    never left sleeping past the earliest deadline: without a call, either a
    notification is already pending or the earliest timer is the same as before. *)
Theorem addTimer_notify now a ms cb recurring s :
  reachable s -> heap s !! a = None ->
  exists front s', addTimer now a ms cb recurring s = Ok front s' /\
    heap s' = <[a := Timer now ms cb recurring]> (heap s) /\
    (forall b, b ∈ m_timers s' <-> b = a \/ b ∈ m_timers s) /\
    (front = true <-> m_tickled s = false /\ forall b, b ∈ m_timers s -> before (heap s') a b = true) /\
    (front = false -> m_tickled s = true \/ head (m_timers s') = head (m_timers s)) /\
    m_tickled s' = m_tickled s || front.
Proof.
  intros Hi%timers_reachable Ha. rewrite addTimer_eq. cbn zeta.
  set (h := <[a := _]> (heap s)). eexists _, _. split; [done|]. simpl.
  assert (a ∉ m_timers s) as Hout.
  { intros Hin. destruct (inv_live _ _ Hi a); [by left|congruence]. }
  assert (sorted h (m_timers s)) as Hs by (apply sorted_insert_out; [done|apply (inv_sorted _ _ Hi)]).
  split_and!; [done| | | |done].
  - intros b. apply elem_of_set_insert.
  - rewrite andb_true_iff, bool_decide_eq_true, negb_true_iff, head_set_insert by done. tauto.
  - rewrite andb_false_iff, bool_decide_eq_false, negb_false_iff.
    intros [Hh|Hk]; [right; by apply head_set_insert_other|by left].
Qed.

(** [cancel], [refresh] and [reset] return true exactly when they act: after
    [cancel] the timer is out of the set and without callback for good; after
    [refresh] it is in the set with deadline [now + m_ms], after [reset] with the
    new period counted from now or from its last start; other timers are kept. *)
Theorem reschedule_outcome now a ms from_now s t :
  reachable s -> heap s !! a = Some t ->
  (exists s', cancel a s = Ok (bool_decide (m_cb t <> None)) s' /\
     heap s' = <[a := with_cb None t]> (heap s) /\
     forall b, b ∈ m_timers s' <-> b ∈ m_timers s /\ (m_cb t <> None -> b <> a)) /\
  (exists s', refresh now a s = Ok (bool_decide (m_cb t <> None)) s' /\
     heap s' = (if decide (m_cb t <> None) then <[a := with_next (u64 (now + m_ms t)) t]> (heap s)
                else heap s) /\
     forall b, b ∈ m_timers s' <-> b ∈ m_timers s) /\
  (exists front s', reset now a ms from_now s =
       Ok (bool_decide ((ms = m_ms t /\ from_now = false) \/ m_cb t <> None), front) s' /\
     heap s' = (if decide (m_cb t <> None /\ ~ (ms = m_ms t /\ from_now = false)) then
                  <[a := with_next (u64 ((if from_now then now else u64 (m_next t - m_ms t)) + ms))
                           (with_ms ms t)]> (heap s)
                else heap s) /\
     forall b, b ∈ m_timers s' <-> b ∈ m_timers s).
Proof.
  intros Hi%timers_reachable Ha.
  assert (m_cb t <> None -> a ∈ m_timers s) as Hin.
  { intros Hcb. destruct (inv_cb _ _ Hi a t Ha Hcb); [done|set_solver]. }
  assert (forall h b, a ∈ m_timers s ->
    b ∈ set_insert h a (set_erase a (m_timers s)) <-> b ∈ m_timers s) as Hre.
  { intros h b Hi'. rewrite elem_of_set_insert, elem_of_set_erase.
    destruct (decide (b = a)); naive_solver. }
  rewrite (cancel_eq s a t), (refresh_eq now s a t), (reset_eq now s a ms from_now t) by done.
  destruct (m_cb t) as [f|] eqn:Hcb.
  - rewrite !bool_decide_true, !decide_True by auto. split_and!.
    + eexists; split_and!; [done|done|]. intros b. simpl. rewrite elem_of_set_erase. naive_solver.
    + eexists; split_and!; [done|done|]. intros b. apply Hre, Hin. done.
    + destruct (Z.eqb_spec ms (m_ms t)), from_now; simpl.
      all: try (rewrite decide_False by tauto); try (rewrite decide_True by intuition congruence).
      all: eexists _, _; split_and!; [done|done|]; intros b; first [done|apply Hre, Hin; done].
  - rewrite !(bool_decide_false (None <> None)), !(decide_False (P := None <> None)) by tauto.
    rewrite decide_False by tauto. split_and!.
    + exists s. split_and!; [done| |naive_solver].
      rewrite insert_id; [done|]. rewrite Ha. f_equal. destruct t; simpl in *; by subst.
    + by exists s.
    + destruct (Z.eqb_spec ms (m_ms t)), from_now; simpl; eexists _, _; (split; [|done]).
      all: f_equal; f_equal; symmetry; (apply bool_decide_true || apply bool_decide_false); intuition congruence.
Qed.

End timers.
Arguments callback : clear implicits.
Arguments timer : clear implicits.
Arguments manager : clear implicits.

(** ** Witnesses *)

(** A manager with a one-shot timer due at 1010 and a recurring one due at 1005. *)
Definition two_timers : manager nat nat :=
  Manager (<[2%nat := Timer_ true 5 1005 (Some (Bound_OnTimer 0%nat 8%nat))]>
             (<[1%nat := Timer_ false 10 1010 (Some (Plain 7%nat))]> ∅)) [2%nat; 1%nat] true 1000.

Lemma reachable_two : reachable two_timers.
Proof.
  apply (reach_step (AddConditionTimer 1000 2 5 8%nat 0%nat true)
    (Manager {[1%nat := Timer_ false 10 1010 (Some (Plain 7%nat))]} [1%nat] true 1000)); [|done|done].
  apply (reach_step (AddTimer 1000 1 10 (Some (Plain 7%nat)) false) (TimerManager 1000)); [|done|done].
  constructor.
Qed.

Lemma timer_safe_witness :
  reachable two_timers /\ inv two_timers /\ exists s', run_op (Cancel 1) two_timers = Ok tt s'.
Proof.
  destruct (timer_safe two_timers reachable_two) as [Hi Hr].
  split; [apply reachable_two|]. split; [exact Hi|]. apply (Hr (Cancel 1%nat)). by eexists.
Defined.

Lemma listExpiredCb_outcome_witness :
  reachable two_timers /\
  exists s', listExpiredCb 1005 9 two_timers = Ok [Some (Bound_OnTimer 0%nat 8%nat)] s' /\ reachable s'.
Proof.
  split; [apply reachable_two|].
  destruct (listExpiredCb_outcome 1005 9 two_timers reachable_two) as (s' & H & _ & _ & Hr).
  exists s'. split; [exact H|exact Hr].
Defined.

Lemma getNextTimer_outcome_witness :
  reachable two_timers /\ in_u 64 1001 /\
  exists r, getNextTimer 1001 two_timers = Ok r (set_tickled false two_timers) /\ r = 4.
Proof.
  split; [apply reachable_two|]. split; [done|].
  destruct (getNextTimer_outcome 1001 two_timers reachable_two) as (r & H & _); [done|].
  exists r. split; [exact H|]. by vm_compute in H; simplify_eq.
Defined.

Lemma addTimer_notify_witness :
  reachable two_timers /\ heap two_timers !! 3%nat = None /\
  exists front s', addTimer 1000 3 1 None false two_timers = Ok front s' /\
    m_tickled s' = true.
Proof.
  split; [apply reachable_two|]. split; [done|].
  destruct (addTimer_notify 1000 3 1 None false two_timers reachable_two)
    as (front & s' & H & _ & _ & _ & _ & Hk); [done|].
  exists front, s'. split; [exact H|exact Hk].
Defined.

Lemma reschedule_outcome_witness :
  reachable two_timers /\
  exists s', refresh 1001 1 two_timers = Ok true s' /\
    heap s' = <[1%nat := Timer_ false 10 1011 (Some (Plain 7%nat))]> (heap two_timers).
Proof.
  split; [apply reachable_two|].
  destruct (reschedule_outcome 1001 1 0 true two_timers _ reachable_two eq_refl) as (_ & Hre & _).
  destruct Hre as (s' & H & Hh & _). exists s'. split; [exact H|exact Hh].
Defined.

(** Between the two critical sections of [listExpiredCb] another thread can
    cancel the only timer; the second section then reads [*m_timers.begin()] of
    an empty set. *)
Example listExpiredCb_race :
  exists s s' : manager nat nat,
    reachable s /\ m_timers s <> [] /\ run_op (Cancel 1) s = Ok tt s' /\
    listExpired_locked 1000 9 s' = Fail_ Undef.
Proof.
  exists (Manager {[1%nat := Timer_ false 10 1010 (Some (Plain 7%nat))]} [1%nat] true 1000).
  eexists. split_and!; [|done|reflexivity|reflexivity].
  apply (reach_step (AddTimer 1000 1 10 (Some (Plain 7%nat)) false) (TimerManager 1000)); [|done|done].
  constructor.
Qed.

(** In the first hour after the epoch of the clock, [m_previous_time] minus one
    hour wraps around, and a clock that goes back by one millisecond is taken
    for a rollover. *)
Example rollover_wraps :
  detectClockRollover 999 (TimerManager (K := nat) (W := nat) 1000) = Ok true (TimerManager 999).
Proof. reflexivity. Qed.
End Timer.
