(* ===== verification/FdManager.v ===== *)
(** * Descriptor contexts: src/src/fd_manager.h, src/src/fd_manager.cpp

    [FdCtx] objects are shared: the manager keeps a pointer per descriptor and
    the hooks keep pointers of their own, so the objects live in a store indexed
    by address.  [fstat] and the status flags of the kernel are parameters; the
    calls that set flags are recorded in order. *)

From stdpp Require Import prelude gmap.
From Stdlib Require Import ZArith Lia.
From S2P Require Import Prelude.

Module FdManager.
Local Open Scope Z_scope.

(** Constants of the platform (Linux, x86-64). *)
Definition SO_RCVTIMEO : Z := 20.
Definition SO_SNDTIMEO : Z := 21.
Definition O_NONBLOCK : Z := 2048.

Record FdCtx := FdCtx_ {
  m_isInit : bool;
  m_isSocket : bool;
  m_isClosed : bool;
  m_sysNonblock : bool;
  m_userNonblock : bool;
  m_fd : Z;
  m_recvTimeout : Z;
  m_sendTimeout : Z
}.

Record manager := Manager {
  ctxs : gmap nat FdCtx;           (* the FdCtx objects by address *)
  m_datas : list (option nat);     (* the vector of pointers *)
  setfl : list (Z * Z)             (* fcntl_f(fd, F_SETFL, flags) calls, oldest first *)
}.
Abbreviation cmd := (Prelude.cmd manager).

Definition set_ctxs (v : gmap nat FdCtx) (s : manager) : manager := Manager v (m_datas s) (setfl s).
Definition set_datas (v : list (option nat)) (s : manager) : manager := Manager (ctxs s) v (setfl s).
Definition add_setfl (fd flags : Z) (s : manager) : manager :=
  Manager (ctxs s) (m_datas s) (setfl s ++ [(fd, flags)]).

Section kernel.
(** [fstat]: [None] when it fails, otherwise whether the mode is that of a
    socket; [getfl]: the status flags of a descriptor. *)
Variable fstat : Z -> option bool.
Variable getfl : Z -> Z.

(** [FdCtx::init] on the fields of one object. *)
Definition init (c : FdCtx) : cmd (bool * FdCtx) :=
  if m_isInit c then ret (true, c) else
  let '(isInit, isSocket) :=
    match fstat (m_fd c) with
    | None => (false, false)
    | Some sock => (true, sock)
    end in
  (if isSocket : bool then
     let flags := getfl (m_fd c) in
     if Z.land flags O_NONBLOCK =? 0
     then modify (add_setfl (m_fd c) (Z.lor flags O_NONBLOCK)) else ret tt
   else ret tt) ;;;
  ret (isInit, FdCtx_ isInit isSocket false isSocket false (m_fd c) (u64 (-1)) (u64 (-1))).

(** The constructor calls [init]. *)
Definition new_FdCtx (fd : Z) : cmd FdCtx :=
  let* r := init (FdCtx_ false false false false false fd (u64 (-1)) (u64 (-1))) in
  ret (snd r).

Definition setUserNonBlock (v : bool) (c : FdCtx) : FdCtx :=
  FdCtx_ (m_isInit c) (m_isSocket c) (m_isClosed c) (m_sysNonblock c) v (m_fd c)
    (m_recvTimeout c) (m_sendTimeout c).
Definition setSysNonBlock (v : bool) (c : FdCtx) : FdCtx :=
  FdCtx_ (m_isInit c) (m_isSocket c) (m_isClosed c) v (m_userNonblock c) (m_fd c)
    (m_recvTimeout c) (m_sendTimeout c).
Definition setTimeout (type v : Z) (c : FdCtx) : FdCtx :=
  if type =? SO_RCVTIMEO then
    FdCtx_ (m_isInit c) (m_isSocket c) (m_isClosed c) (m_sysNonblock c) (m_userNonblock c) (m_fd c)
      v (m_sendTimeout c)
  else
    FdCtx_ (m_isInit c) (m_isSocket c) (m_isClosed c) (m_sysNonblock c) (m_userNonblock c) (m_fd c)
      (m_recvTimeout c) v.
Definition getTimeout (type : Z) (c : FdCtx) : Z :=
  if type =? SO_RCVTIMEO then m_recvTimeout c else m_sendTimeout c.

(** [m_datas.resize(64)]. *)
Definition FdManager : manager := Manager ∅ (replicate 64 None) [].

(** [m_datas[fd]]: undefined out of the vector's range. *)
Definition at_ (fd : Z) : cmd (option nat) :=
  fun s => if fd <? 0 then Fail_ Undef else
           match m_datas s !! Z.to_nat fd with
           | Some p => Ok p s
           | None => Fail_ Undef
           end.
Definition put_at (fd : Z) (p : option nat) : cmd unit :=
  at_ fd ;;; modify (fun s => set_datas (<[Z.to_nat fd := p]> (m_datas s)) s).

(** [get(fd, auto_create)]: [a] is the address [new FdCtx] returns. *)
Definition get (a : nat) (fd : Z) (auto_create : bool) : cmd (option nat) :=
  let create :=
    let* c := new_FdCtx fd in
    modify (fun s => set_ctxs (<[a := c]> (ctxs s)) s) ;;;
    put_at fd (Some a) ;;; ret (Some a) in
  let* size := gets (fun s => Z.of_nat (length (m_datas s))) in
  if s32 size <=? fd then
    if negb auto_create then ret None else create
  else
    let* p := at_ fd in
    if bool_decide (p <> None) || negb auto_create then ret p else create.

Definition del (fd : Z) : cmd unit :=
  let* size := gets (fun s => Z.of_nat (length (m_datas s))) in
  if s32 size <=? fd then ret tt else put_at fd None.

(** ** Behaviour *)

(** The context a descriptor gets, and the flags it has after the calls made. *)
Definition fresh_ctx (fd : Z) : FdCtx :=
  let sock := bool_decide (fstat fd = Some true) in
  FdCtx_ (bool_decide (fstat fd <> None)) sock false sock false fd (2 ^ 64 - 1) (2 ^ 64 - 1).
Definition flags_after (calls : list (Z * Z)) (fd : Z) : Z :=
  fold_left (fun cur '(fd', flags) => if fd' =? fd then flags else cur) calls (getfl fd).

Definition wf (s : manager) : Prop :=
  length (m_datas s) = 64%nat /\
  (forall i p, m_datas s !! i = Some (Some p) ->
     exists c, ctxs s !! p = Some c /\ m_fd c = Z.of_nat i).

Lemma new_FdCtx_eq fd s :
  exists calls, new_FdCtx fd s = Ok (fresh_ctx fd) (Manager (ctxs s) (m_datas s) (setfl s ++ calls)) /\
    (fstat fd = Some true -> Z.land (flags_after calls fd) O_NONBLOCK <> 0) /\
    (forall fd', fd' <> fd -> flags_after calls fd' = getfl fd').
Proof.
  assert (u64 (-1) = 2 ^ 64 - 1) as E by done.
  unfold new_FdCtx, init, fresh_ctx, bind. simpl. rewrite E.
  destruct (fstat fd) as [[]|]; simpl.
  - destruct (Z.eqb_spec (Z.land (getfl fd) O_NONBLOCK) 0) as [H0|H0]; simpl.
    + exists [(fd, Z.lor (getfl fd) O_NONBLOCK)]. unfold flags_after. simpl. rewrite Z.eqb_refl.
      split_and!; [done| |].
      * intros _. rewrite Z.land_lor_distr_l, H0. by vm_compute.
      * intros fd' Hne. by rewrite (proj2 (Z.eqb_neq fd fd')) by congruence.
    + exists []. rewrite app_nil_r. by destruct s.
  - exists []. rewrite app_nil_r. split_and!; [by destruct s|done|done].
  - exists []. rewrite app_nil_r. split_and!; [by destruct s|done|done].
Qed.

Lemma at_in fd s p :
  0 <= fd -> m_datas s !! Z.to_nat fd = Some p -> at_ fd s = Ok p s.
Proof. intros Hfd Hp. unfold at_. rewrite (proj2 (Z.ltb_ge fd 0)) by done. by rewrite Hp. Qed.

Lemma put_at_in fd p q s :
  0 <= fd -> m_datas s !! Z.to_nat fd = Some q ->
  put_at fd p s = Ok tt (set_datas (<[Z.to_nat fd := p]> (m_datas s)) s).
Proof. intros Hfd Hp. unfold put_at, bind. by rewrite (at_in fd s q). Qed.

Lemma at_out fd s : Z.of_nat (length (m_datas s)) <= fd -> at_ fd s = Fail_ Undef.
Proof.
  intros H. unfold at_. rewrite (proj2 (Z.ltb_ge fd 0)) by lia.
  by rewrite lookup_ge_None_2 by lia.
Qed.

Lemma wf_FdManager : wf FdManager.
Proof.
  split; [apply length_replicate|]. intros i p Hi. cbn [m_datas FdManager] in Hi.
  by apply lookup_replicate in Hi as [? _].
Qed.

Lemma wf_create s fd a c calls :
  wf s -> 0 <= fd < 64 -> ctxs s !! a = None -> m_fd c = fd ->
  wf (Manager (<[a := c]> (ctxs s)) (<[Z.to_nat fd := Some a]> (m_datas s)) (setfl s ++ calls)).
Proof.
  intros [Hl Hp] Hfd Ha Hc. split; simpl; [by rewrite length_insert|].
  intros i p. destruct (decide (i = Z.to_nat fd)) as [->|Hne].
  - rewrite list_lookup_insert_eq by lia. intros [= <-]. exists c.
    rewrite lookup_insert_eq. split; [done|]. lia.
  - rewrite list_lookup_insert_ne by done. intros Hi.
    destruct (Hp i p Hi) as (c' & Hc' & Hf). exists c'. split; [|done].
    rewrite lookup_insert_ne; [done|congruence].
Qed.

Lemma wf_del s fd : wf s -> wf (set_datas (<[Z.to_nat fd := None]> (m_datas s)) s).
Proof.
  intros [Hl Hp]. split; simpl; [by rewrite length_insert|].
  intros i p Hi. destruct (decide (i = Z.to_nat fd)) as [->|Hne].
  - apply list_lookup_insert_Some in Hi as [(_ & [=] & _)|(? & _)]. done.
  - rewrite list_lookup_insert_ne in Hi by done. by apply Hp.
Qed.

(** The client's mutations of a context it holds keep the descriptor it is for. *)
Definition update (p : nat) (f : FdCtx -> FdCtx) : cmd unit :=
  modify (fun s => set_ctxs (alter f p (ctxs s)) s).

Inductive op :=
  | Get (a : nat) (fd : Z) (auto_create : bool)
  | Del (fd : Z)
  | SetUserNonBlock (p : nat) (v : bool)
  | SetSysNonBlock (p : nat) (v : bool)
  | SetTimeout (p : nat) (type v : Z).

Definition run_op (o : op) : cmd unit :=
  match o with
  | Get a fd auto_create => get a fd auto_create ;;; ret tt
  | Del fd => del fd
  | SetUserNonBlock p v => update p (setUserNonBlock v)
  | SetSysNonBlock p v => update p (setSysNonBlock v)
  | SetTimeout p type v => update p (setTimeout type v)
  end.

Inductive reachable : manager -> Prop :=
  | reach_init : reachable FdManager
  | reach_step o s s' :
      reachable s ->
      match o with Get a _ _ => ctxs s !! a = None | _ => True end ->
      run_op o s = Ok tt s' -> reachable s'.

Lemma wf_update p f s : wf s -> (forall c, m_fd (f c) = m_fd c) -> wf (set_ctxs (alter f p (ctxs s)) s).
Proof.
  intros [Hl Hp] Hf. split; [done|]. simpl. intros i q Hi.
  destruct (Hp i q Hi) as (c & Hc & Hm). destruct (decide (p = q)) as [->|Hne].
  - exists (f c). by rewrite lookup_alter_eq, Hc, Hf.
  - exists c. by rewrite lookup_alter_ne.
Qed.

Lemma size_32 s : wf s -> s32 (Z.of_nat (length (m_datas s))) = 64.
Proof. intros [-> _]. reflexivity. Qed.

Lemma get_eq a fd auto_create s :
  wf s -> 0 <= fd < 64 ->
  exists p, m_datas s !! Z.to_nat fd = Some p /\
  (p <> None \/ auto_create = false -> get a fd auto_create s = Ok p s) /\
  (p = None -> auto_create = true -> exists calls,
     get a fd auto_create s =
       Ok (Some a) (Manager (<[a := fresh_ctx fd]> (ctxs s)) (<[Z.to_nat fd := Some a]> (m_datas s))
                      (setfl s ++ calls)) /\
     (fstat fd = Some true -> Z.land (flags_after calls fd) O_NONBLOCK <> 0) /\
     (forall fd', fd' <> fd -> flags_after calls fd' = getfl fd')).
Proof.
  intros Hwf Hfd. pose proof Hwf as [Hl _].
  destruct (lookup_lt_is_Some_2 (m_datas s) (Z.to_nat fd) ltac:(lia)) as [p Hp].
  assert (get a fd auto_create s =
    (if bool_decide (p <> None) || negb auto_create then ret p else
     let* c := new_FdCtx fd in
     modify (fun s => set_ctxs (<[a := c]> (ctxs s)) s) ;;;
     put_at fd (Some a) ;;; ret (Some a)) s) as ->.
  { unfold get, bind at 1, gets. rewrite size_32 by done.
    rewrite (proj2 (Z.leb_gt 64 fd)) by lia. unfold bind at 1.
    by rewrite (at_in fd s p) by (done || lia). }
  exists p. split; [done|]. split.
  - intros [Hne| ->]; [by rewrite bool_decide_true|by rewrite orb_true_r].
  - intros -> ->. simpl. destruct (new_FdCtx_eq fd s) as (calls & E & H1 & H2).
    exists calls. split; [|done]. unfold bind. rewrite E. simpl.
    by rewrite (put_at_in fd _ None) by (done || lia).
Qed.

Lemma get_out a fd auto_create s :
  wf s -> 64 <= fd -> get a fd auto_create s = if auto_create then Fail_ Undef else Ok None s.
Proof.
  intros Hwf Hfd. unfold get, bind at 1, gets. rewrite size_32 by done.
  rewrite (proj2 (Z.leb_le 64 fd)) by lia. destruct auto_create; [|done]. simpl.
  destruct (new_FdCtx_eq fd s) as (calls & E & _). unfold bind, put_at, bind. rewrite E. simpl.
  rewrite at_out; [done|]. simpl. destruct Hwf as [-> _]. lia.
Qed.

Lemma get_negative a fd auto_create s : wf s -> fd < 0 -> get a fd auto_create s = Fail_ Undef.
Proof.
  intros Hwf Hfd. unfold get, bind at 1, gets. rewrite size_32 by done.
  rewrite (proj2 (Z.leb_gt 64 fd)) by lia. unfold bind at 1, at_.
  by rewrite (proj2 (Z.ltb_lt fd 0)).
Qed.

Lemma del_eq fd s :
  wf s -> 0 <= fd ->
  del fd s = Ok tt (if 64 <=? fd then s else set_datas (<[Z.to_nat fd := None]> (m_datas s)) s).
Proof.
  intros Hwf Hfd. unfold del, bind, gets. rewrite size_32 by done.
  destruct (Z.leb_spec 64 fd); [done|]. pose proof Hwf as [Hl _].
  destruct (lookup_lt_is_Some_2 (m_datas s) (Z.to_nat fd) ltac:(lia)) as [p Hp].
  by erewrite put_at_in.
Qed.

Lemma del_negative fd s : wf s -> fd < 0 -> del fd s = Fail_ Undef.
Proof.
  intros Hwf Hfd. unfold del, bind, gets. rewrite size_32 by done.
  rewrite (proj2 (Z.leb_gt 64 fd)) by lia. unfold put_at, bind, at_. by rewrite (proj2 (Z.ltb_lt fd 0)).
Qed.

Lemma step_wf o s s' :
  wf s -> match o with Get a _ _ => ctxs s !! a = None | _ => True end ->
  run_op o s = Ok tt s' -> wf s'.
Proof.
  intros Hwf Ha. destruct o as [a fd auto|fd|p v|p v|p type v]; cbn [run_op].
  - unfold bind. destruct (Z.lt_ge_cases fd 0); [by rewrite get_negative|].
    destruct (Z.lt_ge_cases fd 64); [|rewrite get_out by done; destruct auto; [done|by intros [= <-]]].
    destruct (get_eq a fd auto s Hwf ltac:(lia)) as (p & Hp & H1 & H2).
    destruct p as [p|]; [rewrite H1 by (by left); by intros [= <-]|].
    destruct auto; [|rewrite H1 by (by right); by intros [= <-]].
    destruct (H2 eq_refl eq_refl) as (calls & -> & _). intros [= <-]. by apply wf_create.
  - destruct (Z.lt_ge_cases fd 0); [by rewrite del_negative|].
    rewrite del_eq by done. intros [= <-]. destruct (64 <=? fd); [done|by apply wf_del].
  - intros [= <-]. by apply wf_update.
  - intros [= <-]. by apply wf_update.
  - intros [= <-]. apply wf_update; [done|]. intros c. unfold setTimeout. by destruct (_ =? _).
Qed.

Lemma fds_reachable s : reachable s -> wf s.
Proof. induction 1 as [|o s s' Hr IH Ha Hrun]; [apply wf_FdManager|by eapply step_wf]. Qed.

(** [FdManager::get] on every branch. A descriptor below 64 with a context
    keeps it; without [auto_create] nothing is created; with it a descriptor gets
    one context, initialised from [fstat], a socket is switched to non-blocking
    and the flags of no other descriptor change; contexts of different
    descriptors are never shared, later calls return the same context until
    [del]. Beyond the 64 slots a call with [auto_create] writes outside the
    vector, which never grows. *)
Theorem get_outcome a fd auto_create s :
  reachable s -> ctxs s !! a = None ->
  (0 <= fd < 64 ->
     exists p s', get a fd auto_create s = Ok p s' /\ reachable s' /\
       m_datas s' = <[Z.to_nat fd := p]> (m_datas s) /\
       (forall q, m_datas s !! Z.to_nat fd = Some (Some q) -> p = Some q) /\
       (m_datas s !! Z.to_nat fd = Some None -> p = if auto_create then Some a else None) /\
       (forall q, p = Some q -> exists c, ctxs s' !! q = Some c /\ m_fd c = fd /\
          (q = a -> c = fresh_ctx fd /\ exists calls, setfl s' = setfl s ++ calls /\
            (fstat fd = Some true -> Z.land (flags_after calls fd) O_NONBLOCK <> 0) /\
            (forall fd', fd' <> fd -> flags_after calls fd' = getfl fd'))) /\
       (p <> None -> forall b auto, get b fd auto s' = Ok p s')) /\
  (64 <= fd -> get a fd auto_create s = if auto_create then Fail_ Undef else Ok None s) /\
  (fd < 0 -> get a fd auto_create s = Fail_ Undef).
Proof.
  intros Hr Ha. pose proof (fds_reachable s Hr) as Hwf. split_and!;
    [|by intros; apply get_out|by intros; apply get_negative].
  intros Hfd. destruct (get_eq a fd auto_create s Hwf Hfd) as (p & Hp & Hkeep & Hnew).
  assert (forall p' s', wf s' -> m_datas s' !! Z.to_nat fd = Some p' ->
    p' <> None -> forall b auto, get b fd auto s' = Ok p' s') as Hagain.
  { intros p' s' Hwf' Hp' Hne b auto.
    destruct (get_eq b fd auto s' Hwf' Hfd) as (p'' & Hp'' & Hk & _).
    rewrite Hp' in Hp''. injection Hp'' as <-. apply Hk. by left. }
  destruct (decide (p <> None \/ auto_create = false)) as [Hk|Hk].
  - exists p, s. specialize (Hkeep Hk).
    split_and!; [done|done|by rewrite list_insert_id|congruence| | |by apply Hagain].
    + intros Hn. destruct auto_create; [|congruence]. destruct Hk; congruence.
    + intros q ->. destruct Hwf as [Hl Hptr]. destruct (Hptr _ _ Hp) as (c & Hc & Hm).
      exists c. split_and!; [done|lia|congruence].
  - assert (p = None /\ auto_create = true) as [-> ->].
    { destruct p, auto_create; naive_solver. }
    destruct (Hnew eq_refl eq_refl) as (calls & Hrun & Hs & Ho).
    eexists _, _. split; [exact Hrun|].
    assert (run_op (Get a fd true) s = Ok tt _) as Hop by (cbn [run_op]; unfold bind; by rewrite Hrun).
    pose proof (reach_step (Get a fd true) s _ Hr Ha Hop) as Hr'.
    split_and!; [done|done|congruence|done| |].
    + intros q [= <-]. exists (fresh_ctx fd). simpl. rewrite lookup_insert_eq.
      split_and!; [done|done|]. intros _. split; [done|]. by exists calls.
    + apply Hagain; [by apply fds_reachable|]. simpl. apply list_lookup_insert_eq.
      destruct Hwf as [-> _]. lia.
Qed.

End kernel.

Lemma get_outcome_witness :
  let fstat := fun fd => if fd =? 5 then Some true else None in
  let getfl := fun _ : Z => 2 in
  reachable fstat getfl FdManager /\ ctxs FdManager !! 1%nat = None /\
  exists p s', get fstat getfl 1 5 true FdManager = Ok p s' /\ reachable fstat getfl s' /\
    p = Some 1%nat.
Proof.
  intros fstat getfl. split; [apply reach_init|]. split; [done|].
  destruct (get_outcome fstat getfl 1 5 true FdManager (reach_init _ _) eq_refl) as (H & _ & _).
  destruct H as (p & s' & Hrun & Hr & _ & _ & Hp & _); [done|].
  exists p, s'. split; [exact Hrun|]. split; [exact Hr|]. by apply Hp.
Defined.

(** [get(fd, true)] for a descriptor of 64 or more writes past the vector. *)
Example get_past_the_table :
  get (fun _ => Some true) (fun _ => 0) 1 64 true FdManager = Fail_ Undef.
Proof. reflexivity. Qed.

End FdManager.
