(* ===== verification/Fiber.v ===== *)
(** * Fibers: src/src/fiber.h, src/src/fiber.cpp

    Fibers live in a store indexed by address; each thread has its thread-local
    variables.  A saved [ucontext_t] is modelled by what resuming it does: start
    the entry function, or go on with the code that was suspended in it.
    [swapcontext] saves the code that is really running, which the model tracks
    per thread, whatever fiber the caller names.  [getcontext] and [swapcontext]
    are taken to succeed. *)

From stdpp Require Import prelude gmap.
From Stdlib Require Import ZArith Lia.
From S2P Require Import Prelude.

Module Fiber.
Local Open Scope Z_scope.

Inductive State := INIT | HOLD | EXEC | TERM | READY | ERROR.
#[global] Instance State_eq_dec : EqDecision State.
Proof. solve_decision. Defined.

(** Entry functions of a context. *)
Inductive entry := MainFunc_ | CallMainFunc_.
#[global] Instance entry_eq_dec : EqDecision entry.
Proof. solve_decision. Defined.

(** A context: at the start of an entry function on its own stack, suspended in
    the middle of the code of the fiber [owner], or suspended in the last
    [swapOut]/[back] of the entry function, just before [ASSERT2(false)]. *)
Inductive ctx :=
  | Start (e : entry)
  | Suspended (owner : nat)
  | Ended (owner : nat).
#[global] Instance ctx_eq_dec : EqDecision ctx.
Proof. solve_decision. Defined.

Section fibers.
Context {K : Type}.   (* the callbacks *)

Record fiber := Fiber_ {
  m_id : Z;
  m_stacksize : Z;
  m_state : State;
  m_ctx : ctx;
  m_stack : bool;          (* a stack is allocated *)
  m_cb : option K
}.

(** Thread-local variables: [t_fiber] and [t_thread_fiber] of fiber.cpp,
    [t_fiber] of scheduler.cpp ([t_main]), and the fiber whose code the thread
    runs ([cpu], [None] before the thread has a fiber). *)
Record thread := Thread_ {
  t_fiber : option nat;
  t_thread_fiber : option nat;
  t_main : option nat;
  cpu : option nat
}.

Record world := World {
  fibers : gmap nat fiber;
  s_fiber_id : Z;
  s_fiber_count : Z;
  threads : gmap nat thread
}.
Abbreviation cmd := (Prelude.cmd world).

Definition no_thread : thread := Thread_ None None None None.
Definition tls (me : nat) (w : world) : thread := default no_thread (threads w !! me).
Definition set_fibers (v : gmap nat fiber) (w : world) : world :=
  World v (s_fiber_id w) (s_fiber_count w) (threads w).
Definition set_tls (me : nat) (t : thread) (w : world) : world :=
  World (fibers w) (s_fiber_id w) (s_fiber_count w) (<[me := t]> (threads w)).
Definition set_ids (id count : Z) (w : world) : world :=
  World (fibers w) id count (threads w).

Definition with_state (v : State) (f : fiber) : fiber :=
  Fiber_ (m_id f) (m_stacksize f) v (m_ctx f) (m_stack f) (m_cb f).
Definition with_ctx (v : ctx) (f : fiber) : fiber :=
  Fiber_ (m_id f) (m_stacksize f) (m_state f) v (m_stack f) (m_cb f).
Definition with_cb (v : option K) (f : fiber) : fiber :=
  Fiber_ (m_id f) (m_stacksize f) (m_state f) (m_ctx f) (m_stack f) v.

Definition get_fiber (p : nat) : cmd fiber :=
  fun w => match fibers w !! p with Some f => Ok f w | None => Fail_ Undef end.
Definition put_fiber (p : nat) (f : fiber) : cmd unit :=
  modify (fun w => set_fibers (<[p := f]> (fibers w)) w).
Definition deref (p : option nat) : cmd nat :=
  match p with Some a => ret a | None => fail Undef end.

(** [state()] and [state(s)]. *)
Definition state (p : nat) : cmd State := let* f := get_fiber p in ret (m_state f).
Definition set_state (p : nat) (v : State) : cmd unit :=
  let* f := get_fiber p in put_fiber p (with_state v f).

Definition SetThis (me : nat) (f : option nat) : cmd unit :=
  modify (fun w => let t := tls me w in
                   set_tls me (Thread_ f (t_thread_fiber t) (t_main t) (cpu t)) w).

(** [Fiber::Fiber()]: the fiber of a thread's own stack, at address [a]. *)
Definition new_thread_fiber (me a : nat) : cmd unit :=
  put_fiber a (Fiber_ 0 0 EXEC (Suspended a) false None) ;;;
  SetThis me (Some a) ;;;
  modify (fun w => let t := tls me w in
                   set_ids (s_fiber_id w) (u64 (s_fiber_count w + 1))
                     (set_tls me (Thread_ (t_fiber t) (t_thread_fiber t) (t_main t) (Some a)) w)).

(** [Fiber::Fiber(cb, stacksize, use_caller)] at address [a];
    [g_fiber_stack_size] is the configured default. *)
Definition new_fiber (g_fiber_stack_size : Z) (a : nat) (cb : option K) (stacksize : Z)
    (use_caller : bool) : cmd unit :=
  let* w := gets id in
  let id := u64 (s_fiber_id w + 1) in
  modify (fun w => set_ids id (u64 (s_fiber_count w + 1)) w) ;;;
  put_fiber a (Fiber_ id (u32 (if stacksize =? 0 then g_fiber_stack_size else stacksize)) INIT
                 (Start (if use_caller then CallMainFunc_ else MainFunc_)) true cb).

Definition resettable (s : State) : bool :=
  bool_decide (s = TERM) || bool_decide (s = INIT) || bool_decide (s = ERROR).

(** [Fiber::~Fiber]. *)
Definition destroy (me a : nat) : cmd unit :=
  let* f := get_fiber a in
  modify (fun w => set_ids (s_fiber_id w) (u64 (s_fiber_count w - 1)) w) ;;;
  (if m_stack f then assert_ (resettable (m_state f))
   else assert_ (bool_decide (m_cb f = None)) ;;;
        assert_ (bool_decide (m_state f = EXEC)) ;;;
        let* cur := gets (fun w => t_fiber (tls me w)) in
        if bool_decide (cur = Some a) then SetThis me None else ret tt) ;;;
  modify (fun w => set_fibers (delete a (fibers w)) w).

Definition reset (a : nat) (cb : option K) : cmd unit :=
  let* f := get_fiber a in
  assert_ (m_stack f) ;;;
  assert_ (resettable (m_state f)) ;;;
  put_fiber a (with_state INIT (with_ctx (Start MainFunc_) (with_cb cb f))).

(** [swapcontext(&from->m_ctx, &to->m_ctx)] on thread [me]: what runs is saved
    in [from]; a context past the end of its entry function fails the
    [ASSERT2(false, "never reach here")] there. [last] tells that the call is
    the last one of an entry function. *)
Definition swapcontext (me from to : nat) (last : bool) : cmd unit :=
  let* running := gets (fun w => default from (cpu (tls me w))) in
  let* f := get_fiber from in
  put_fiber from (with_ctx (if last then Ended running else Suspended running) f) ;;;
  let* t := get_fiber to in
  let* next := match m_ctx t with
               | Start _ => ret to
               | Suspended owner => ret owner
               | Ended _ => fail AssertFail
               end in
  modify (fun w => let t := tls me w in
                   set_tls me (Thread_ (t_fiber t) (t_thread_fiber t) (t_main t) (Some next)) w).

Definition call (me a : nat) : cmd unit :=
  SetThis me (Some a) ;;;
  set_state a EXEC ;;;
  let* p := gets (fun w => t_thread_fiber (tls me w)) in
  let* from := deref p in
  swapcontext me from a false.

(** [last]: called at the end of [CallMainFunc]. *)
Definition back (me a : nat) (last : bool) : cmd unit :=
  let* p := gets (fun w => t_thread_fiber (tls me w)) in
  SetThis me p ;;;
  let* to := deref p in
  swapcontext me a to last.

Definition swapIn (me a : nat) : cmd unit :=
  SetThis me (Some a) ;;;
  let* f := get_fiber a in
  assert_ (negb (bool_decide (m_state f = EXEC))) ;;;
  set_state a EXEC ;;;
  let* p := gets (fun w => t_main (tls me w)) in
  let* from := deref p in
  swapcontext me from a false.

Definition swapOut (me a : nat) (last : bool) : cmd unit :=
  let* p := gets (fun w => t_main (tls me w)) in
  SetThis me p ;;;
  let* to := deref p in
  swapcontext me a to last.

(** [Fiber::GetThis]: [a] is the address of the fiber it may have to create. *)
Definition GetThis (me a : nat) : cmd nat :=
  let* cur := gets (fun w => t_fiber (tls me w)) in
  match cur with
  | Some p => get_fiber p ;;; ret p
  | None =>
    new_thread_fiber me a ;;;
    let* cur := gets (fun w => t_fiber (tls me w)) in
    assert_ (bool_decide (cur = Some a)) ;;;
    modify (fun w => let t := tls me w in
                     set_tls me (Thread_ (t_fiber t) (Some a) (t_main t) (cpu t)) w) ;;;
    deref cur
  end.

Definition YieldToReady (me a : nat) : cmd unit :=
  let* cur := GetThis me a in set_state cur READY ;;; swapOut me cur false.
Definition YieldToHold (me a : nat) : cmd unit :=
  let* cur := GetThis me a in set_state cur HOLD ;;; swapOut me cur false.

Definition TotalFibers (w : world) : Z := s_fiber_count w.

(** How the call of [m_cb] inside an entry function ends; calling an empty
    [std::function] throws. *)
Inductive outcome := Returns | Throws.
Definition cb_outcome (cb : option K) (o : outcome) : outcome :=
  match cb with Some _ => o | None => Throws end.

(** The part of [MainFunc]/[CallMainFunc] after the callback ended with [o]. *)
Definition finish (me a : nat) (o : outcome) : cmd nat :=
  let* cur := GetThis me a in
  let* f := get_fiber cur in
  match cb_outcome (m_cb f) o with
  | Returns => put_fiber cur (with_state TERM (with_cb None f))
  | Throws => put_fiber cur (with_state ERROR f)
  end ;;;
  ret cur.
Definition MainFunc (me a : nat) (o : outcome) : cmd unit :=
  let* cur := finish me a o in swapOut me cur true.
Definition CallMainFunc (me a : nat) (o : outcome) : cmd unit :=
  let* cur := finish me a o in back me cur true.

Definition GetFiberId (me : nat) : cmd Z :=
  let* cur := gets (fun w => t_fiber (tls me w)) in
  match cur with
  | Some p => let* f := get_fiber p in ret (m_id f)
  | None => ret 0
  end.

(** ** Switching

    [at_main me m w]: thread [me] runs the code of its main fiber [m];
    [at_fiber me m a w]: it runs the code of [a], which [m] has switched to. *)

Definition at_main (me m : nat) (w : world) : Prop :=
  t_fiber (tls me w) = Some m /\ t_main (tls me w) = Some m /\ cpu (tls me w) = Some m /\
  is_Some (fibers w !! m).
Definition at_fiber (me m a : nat) (w : world) : Prop :=
  t_fiber (tls me w) = Some a /\ t_main (tls me w) = Some m /\ cpu (tls me w) = Some a /\
  (exists g, fibers w !! m = Some g /\ m_ctx g = Suspended m) /\
  (exists f, fibers w !! a = Some f /\ m_state f = EXEC).

(** A context that resumes the fiber's own code. *)
Definition resumable (a : nat) (f : fiber) : Prop :=
  m_ctx f = Suspended a \/ exists e, m_ctx f = Start e.
#[export] Instance resumable_dec a f : Decision (resumable a f).
Proof.
  refine (cast_if (decide (m_ctx f = Suspended a \/ m_ctx f = Start MainFunc_ \/ m_ctx f = Start CallMainFunc_)));
    abstract (unfold resumable; destruct (m_ctx f) as [[]| |]; naive_solver).
Defined.

(** The rest of the world is the same. *)
Definition same_but (me : nat) (ps : list nat) (w w' : world) : Prop :=
  (forall p, p ∉ ps -> fibers w' !! p = fibers w !! p) /\
  (forall t, t <> me -> tls t w' = tls t w) /\
  s_fiber_id w' = s_fiber_id w /\ s_fiber_count w' = s_fiber_count w /\
  t_thread_fiber (tls me w') = t_thread_fiber (tls me w).

Lemma tls_set_tls me t w me' :
  tls me' (set_tls me t w) = if decide (me = me') then t else tls me' w.
Proof. unfold tls. simpl. rewrite lookup_insert. by case_decide. Qed.

Lemma tls_set_fibers me h w : tls me (set_fibers h w) = tls me w.
Proof. done. Qed.

Lemma get_fiber_eq p f w : fibers w !! p = Some f -> get_fiber p w = Ok f w.
Proof. unfold get_fiber. by intros ->. Qed.

Lemma set_state_eq p f v w :
  fibers w !! p = Some f ->
  set_state p v w = Ok tt (set_fibers (<[p := with_state v f]> (fibers w)) w).
Proof. intros H. unfold set_state, bind. by rewrite (get_fiber_eq p f). Qed.

Lemma swapcontext_eq me from to last w f t running next :
  cpu (tls me w) = Some running ->
  fibers w !! from = Some f -> fibers w !! to = Some t -> from <> to ->
  (m_ctx t = Suspended next \/ (exists e, m_ctx t = Start e) /\ next = to) ->
  swapcontext me from to last w =
    Ok tt (set_tls me (let t := tls me w in
                       Thread_ (t_fiber t) (t_thread_fiber t) (t_main t) (Some next))
             (set_fibers (<[from := with_ctx (if last then Ended running else Suspended running) f]>
                (fibers w)) w)).
Proof.
  intros Hc Hf Ht Hne Hn. unfold swapcontext, bind, gets. rewrite Hc.
  rewrite (get_fiber_eq _ _ _ Hf). unfold put_fiber, modify.
  rewrite (get_fiber_eq to t) by (simpl; by rewrite lookup_insert_ne).
  destruct Hn as [->|[[e ->] ->]]; done.
Qed.

Lemma swapcontext_ended me from to last w f t running o :
  cpu (tls me w) = Some running ->
  fibers w !! from = Some f -> fibers w !! to = Some t -> from <> to -> m_ctx t = Ended o ->
  swapcontext me from to last w = Fail_ AssertFail.
Proof.
  intros Hc Hf Ht Hne Hn. unfold swapcontext, bind, gets. rewrite Hc.
  rewrite (get_fiber_eq _ _ _ Hf). unfold put_fiber, modify.
  rewrite (get_fiber_eq to t) by (simpl; by rewrite lookup_insert_ne). by rewrite Hn.
Qed.

(** The body shared by the three assignments before [swapIn]'s switch. *)
Lemma swapIn_step me m a w f :
  at_main me m w -> fibers w !! a = Some f -> m_state f <> EXEC ->
  swapIn me a w =
    swapcontext me m a false
      (set_fibers (<[a := with_state EXEC f]> (fibers w))
         (set_tls me (Thread_ (Some a) (t_thread_fiber (tls me w)) (Some m) (Some m)) w)).
Proof.
  intros (Ht & Hm & Hc & Hg) Ha Hs. unfold swapIn, bind at 1, SetThis, modify.
  rewrite Hm, Hc. unfold bind at 1. rewrite (get_fiber_eq a f) by done.
  rewrite bool_decide_false by done. unfold assert_, bind at 1. simpl.
  unfold bind at 1. rewrite (set_state_eq a f) by done.
  unfold bind, gets. by rewrite tls_set_fibers, tls_set_tls, decide_True by done.
Qed.

Lemma swapIn_ok me m a w f :
  at_main me m w -> a <> m -> fibers w !! a = Some f -> m_state f <> EXEC -> resumable a f ->
  exists w', swapIn me a w = Ok tt w' /\ at_fiber me m a w' /\ same_but me [a; m] w w' /\
    fibers w' !! a = Some (with_state EXEC f) /\
    fibers w' !! m = with_ctx (Suspended m) <$> fibers w !! m.
Proof.
  intros Hmain Hne Ha Hs Hr. rewrite (swapIn_step me m a w f) by done.
  destruct Hmain as (Ht & Hm & Hc & [g Hg]).
  erewrite (swapcontext_eq me m a false _ g (with_state EXEC f) m a); cycle 1.
  { by rewrite tls_set_fibers, tls_set_tls, decide_True. }
  { simpl. by rewrite lookup_insert_ne. }
  { simpl. by rewrite lookup_insert_eq. }
  { done. }
  { destruct Hr as [?|?]; [by left|by right]. }
  eexists; split; [done|]. rewrite tls_set_fibers, tls_set_tls, decide_True by done. simpl.
  assert (forall x, <[m:=with_ctx (Suspended m) g]> (<[a:=with_state EXEC f]> (fibers w)) !! x =
    if decide (x = m) then Some (with_ctx (Suspended m) g)
    else if decide (x = a) then Some (with_state EXEC f) else fibers w !! x) as L.
  { intros x. rewrite !lookup_insert. repeat case_decide; congruence. }
  split_and!.
  - unfold at_fiber. rewrite tls_set_tls, decide_True by done. simpl. rewrite !L.
    rewrite decide_True, decide_False, decide_True by done. split_and!; try done; by eexists.
  - unfold same_but. simpl. split_and!; try done.
    + intros p Hp. rewrite L, !decide_False by set_solver. done.
    + intros t Hne'. rewrite tls_set_tls, decide_False by done. simpl. unfold tls. simpl.
      by rewrite lookup_insert_ne by done.
    + by rewrite tls_set_tls, decide_True.
  - by rewrite L, decide_False, decide_True.
  - by rewrite L, decide_True, Hg.
Qed.

(** Leaving a fiber: the code that gives up control stores a fiber object and
    switches to the main fiber. *)
Lemma leave_ok me m a w f last :
  at_fiber me m a w -> a <> m ->
  exists w', swapOut me a last (set_fibers (<[a := f]> (fibers w)) w) = Ok tt w' /\
    at_main me m w' /\ same_but me [a] w w' /\
    fibers w' !! a = Some (with_ctx (if last then Ended a else Suspended a) f).
Proof.
  intros (Ht & Hm & Hc & (g & Hg & Hctx) & _) Hne.
  unfold swapOut, bind, gets, SetThis, modify, deref, ret. rewrite tls_set_fibers, Hm, Hc.
  erewrite (swapcontext_eq me a m last _ f g a m); cycle 1.
  { by rewrite tls_set_tls, decide_True. }
  { simpl. by rewrite lookup_insert_eq. }
  { simpl. by rewrite lookup_insert_ne. }
  { done. }
  { by left. }
  eexists; split; [done|]. rewrite tls_set_tls, decide_True by done. simpl. rewrite insert_insert_eq.
  split_and!.
  - unfold at_main. rewrite tls_set_tls, decide_True by done. simpl.
    split_and!; try done. rewrite lookup_insert_ne by done. by eexists.
  - unfold same_but. simpl. split_and!; try done.
    + intros p Hp. rewrite lookup_insert_ne; [done|set_solver].
    + intros t Hne'. rewrite tls_set_tls, decide_False by done. unfold tls. simpl.
      by rewrite lookup_insert_ne by done.
    + by rewrite tls_set_tls, decide_True.
  - by rewrite lookup_insert_eq.
Qed.

(** The ways a fiber gives up control to the main fiber of its thread. *)
Inductive handback := ToReady | ToHold | Done_ (o : outcome).
Definition hand_back (me a : nat) (h : handback) : cmd unit :=
  match h with
  | ToReady => YieldToReady me a
  | ToHold => YieldToHold me a
  | Done_ o => MainFunc me a o
  end.
(** How it leaves the fiber. *)
Definition left_as (a : nat) (h : handback) (f : fiber) : fiber :=
  match h with
  | ToReady => with_ctx (Suspended a) (with_state READY f)
  | ToHold => with_ctx (Suspended a) (with_state HOLD f)
  | Done_ o => with_ctx (Ended a)
      (match cb_outcome (m_cb f) o with
       | Returns => with_state TERM (with_cb None f)
       | Throws => with_state ERROR f
       end)
  end.

Lemma GetThis_eq me a p w f :
  t_fiber (tls me w) = Some p -> fibers w !! p = Some f -> GetThis me a w = Ok p w.
Proof. intros Ht Hp. unfold GetThis, bind, gets. rewrite Ht. by rewrite (get_fiber_eq p f). Qed.

Lemma hand_back_ok me m a w f h b :
  at_fiber me m a w -> a <> m -> fibers w !! a = Some f ->
  exists w', hand_back me b h w = Ok tt w' /\ at_main me m w' /\ same_but me [a] w w' /\
    fibers w' !! a = Some (left_as a h f).
Proof.
  intros Hat Hne Hf. pose proof Hat as (Ht & _).
  destruct h as [| |o]; simpl.
  - unfold YieldToReady, bind. rewrite (GetThis_eq me b a w f), (set_state_eq a f) by done.
    apply (leave_ok me m a w (with_state READY f) false); done.
  - unfold YieldToHold, bind. rewrite (GetThis_eq me b a w f), (set_state_eq a f) by done.
    apply (leave_ok me m a w (with_state HOLD f) false); done.
  - unfold MainFunc, finish, bind. rewrite (GetThis_eq me b a w f), (get_fiber_eq a f) by done.
    destruct (cb_outcome (m_cb f) o); unfold put_fiber, modify, ret;
      apply (leave_ok me m a w _ true); done.
Qed.

(** ** What every operation keeps of the fibers *)

Definition shape (w : world) : gmap nat (Z * bool) := (fun f => (m_id f, m_stack f)) <$> fibers w.
Definition stable {A} (m : cmd A) : Prop :=
  forall w, match m w with
            | Ok _ w' | Throw _ w' =>
              shape w' = shape w /\ s_fiber_id w' = s_fiber_id w /\ s_fiber_count w' = s_fiber_count w
            | Fail_ _ => True
            end.

Lemma stable_bind {A B} (m : cmd A) (k : A -> cmd B) :
  stable m -> (forall x, stable (k x)) -> stable (bind m k).
Proof.
  intros Hm Hk w. unfold bind. specialize (Hm w). destruct (m w) as [x w1| |]; try done.
  specialize (Hk x w1). destruct (k x w1); intuition congruence.
Qed.
Lemma stable_ret {A} (x : A) : stable (ret x). Proof. done. Qed.
Lemma stable_gets {A} (f : world -> A) : stable (gets f). Proof. done. Qed.
Lemma stable_assert b : stable (assert_ b). Proof. by destruct b. Qed.
Lemma stable_fail {A} e : stable (fail e : cmd A). Proof. done. Qed.
Lemma stable_deref p : stable (deref p). Proof. by destruct p. Qed.
Lemma stable_tls me (f : world -> thread) : stable (modify (fun w => set_tls me (f w) w)).
Proof. done. Qed.
Lemma stable_SetThis me p : stable (SetThis me p). Proof. done. Qed.

(** A fiber is read and stored with the same identity. *)
Lemma stable_update {A} p (g : fiber -> fiber) (k : cmd A) :
  (forall f, m_id (g f) = m_id f /\ m_stack (g f) = m_stack f) -> stable k ->
  stable (let* f := get_fiber p in put_fiber p (g f) ;;; k).
Proof.
  intros Hg Hk w. unfold bind, get_fiber, put_fiber, modify.
  destruct (fibers w !! p) as [f|] eqn:Hp; [|done].
  specialize (Hk (set_fibers (<[p := g f]> (fibers w)) w)).
  assert (shape (set_fibers (<[p := g f]> (fibers w)) w) = shape w) as E.
  { unfold shape. simpl. rewrite fmap_insert. destruct (Hg f) as [-> ->].
    apply insert_id. by rewrite lookup_fmap, Hp. }
  destruct (k _); intuition congruence.
Qed.

Lemma stable_set_state p v : stable (set_state p v).
Proof.
  assert (set_state p v = (let* f := get_fiber p in put_fiber p (with_state v f))) as -> by done.
  intros w. pose proof (stable_update p (with_state v) (ret tt) ltac:(done) (stable_ret tt) w) as H.
  unfold bind, get_fiber, put_fiber, modify, ret in *. by destruct (fibers w !! p).
Qed.
Lemma stable_get_fiber p : stable (get_fiber p).
Proof. intros w. unfold get_fiber. by destruct (fibers w !! p). Qed.

Lemma stable_swapcontext me from to last : stable (swapcontext me from to last).
Proof.
  unfold swapcontext. apply stable_bind; [apply stable_gets|]. intros running.
  apply (stable_update from (with_ctx (if last then Ended running else Suspended running))); [done|].
  apply stable_bind; [apply stable_get_fiber|]. intros t.
  apply stable_bind; [by destruct (m_ctx t)|]. intros next. apply stable_tls.
Qed.

Create HintDb stable.
Hint Resolve stable_ret stable_gets stable_assert stable_fail stable_deref stable_tls stable_SetThis
  stable_set_state stable_get_fiber stable_swapcontext : stable.
Hint Extern 2 (stable (bind _ _)) => apply stable_bind; [|intros ?] : stable.

Lemma stable_reset a cb : stable (reset a cb).
Proof.
  intros w. unfold reset. unfold bind at 1, get_fiber. destruct (fibers w !! a) as [f|] eqn:Ha; [|done].
  unfold bind, assert_. destruct (m_stack f) eqn:E; [|done]. destruct (resettable _); [|done]. simpl.
  unfold shape. simpl. rewrite fmap_insert. split_and!; try done.
  apply insert_id. by rewrite lookup_fmap, Ha.
Qed.
Lemma stable_call me a : stable (call me a).
Proof. unfold call. eauto 10 with stable. Qed.
Lemma stable_back me a last : stable (back me a last).
Proof. unfold back. eauto 10 with stable. Qed.
Lemma stable_swapIn me a : stable (swapIn me a).
Proof. unfold swapIn. eauto 10 with stable. Qed.
Lemma stable_swapOut me a last : stable (swapOut me a last).
Proof. unfold swapOut. eauto 10 with stable. Qed.

(** ** Identity of fibers *)

Record inv (w : world) : Prop := {
  inv_count : s_fiber_count w = u64 (Z.of_nat (size (shape w)));
  inv_ids : forall p i b, shape w !! p = Some (i, b) -> if b : bool then 1 <= i <= s_fiber_id w else i = 0;
  inv_uniq : forall p q i, shape w !! p = Some (i, true) -> shape w !! q = Some (i, true) -> p = q
}.

Lemma inv_stable w w' :
  shape w' = shape w -> s_fiber_id w' = s_fiber_id w -> s_fiber_count w' = s_fiber_count w ->
  inv w -> inv w'.
Proof. intros Hs Hi Hc []. split; rewrite ?Hs, ?Hi, ?Hc; done. Qed.

Lemma stable_keeps {A} (m : cmd A) : stable m -> keeps inv m.
Proof.
  intros Hm w Hw. specialize (Hm w). destruct (m w); try done;
    destruct Hm as (? & ? & ?); by eapply inv_stable.
Qed.

Lemma shape_None w a : fibers w !! a = None -> shape w !! a = None.
Proof. intros H. unfold shape. by rewrite lookup_fmap, H. Qed.

(** Adding a fiber whose identifier is new, or that is a thread's own. *)
Lemma inv_add w w' a i b :
  inv w -> shape w !! a = None -> shape w' = <[a := (i, b)]> (shape w) ->
  s_fiber_count w' = u64 (s_fiber_count w + 1) ->
  s_fiber_id w <= s_fiber_id w' -> (if b : bool then s_fiber_id w < i <= s_fiber_id w' /\ 1 <= i else i = 0) ->
  inv w'.
Proof.
  intros [Hc Hi Hu] Ha Hs Hn Hle Hnew. split.
  - rewrite Hn, Hs, Hc, map_size_insert_None, wrap_add_l by done. f_equal. lia.
  - intros p i' b'. rewrite Hs, lookup_insert. case_decide.
    + intros [= <- <-]. destruct b; [lia|done].
    + intros Hp. specialize (Hi p i' b' Hp). destruct b'; [lia|done].
  - intros p q i'. rewrite Hs, !lookup_insert. repeat case_decide; subst; try congruence.
    + intros [= -> ->] Hq. specialize (Hi _ _ _ Hq). simpl in Hi, Hnew. lia.
    + intros Hp [= -> ->]. specialize (Hi _ _ _ Hp). simpl in Hi, Hnew. lia.
    + apply Hu.
Qed.

Lemma GetThis_inv me a w :
  inv w -> fibers w !! a = None ->
  match GetThis me a w with Ok _ w' => inv w' | Throw _ _ => False | Fail_ _ => True end.
Proof.
  intros Hw Ha. unfold GetThis, bind at 1, gets. destruct (t_fiber (tls me w)) as [p|].
  - unfold bind, get_fiber. by destruct (fibers w !! p).
  - unfold bind, new_thread_fiber, bind, put_fiber, SetThis, modify, gets, assert_, deref, ret.
    rewrite bool_decide_true by (unfold tls; simpl; by rewrite !lookup_insert_eq).
    simpl. unfold tls. simpl. rewrite !lookup_insert_eq. simpl.
    eapply (inv_add w _ a 0 false); try done; [by apply shape_None|].
    unfold shape. simpl. by rewrite fmap_insert.
Qed.

Lemma bind_GetThis_inv {A} me a (k : nat -> cmd A) w :
  inv w -> fibers w !! a = None -> (forall p, keeps inv (k p)) ->
  match bind (GetThis me a) k w with Ok _ w' | Throw _ w' => inv w' | Fail_ _ => True end.
Proof.
  intros Hw Ha Hk. unfold bind. pose proof (GetThis_inv me a w Hw Ha) as H.
  destruct (GetThis me a w) as [p w1| |]; try done. by apply Hk.
Qed.

Definition finish_at (p : nat) (o : outcome) : cmd nat :=
  let* f := get_fiber p in
  match cb_outcome (m_cb f) o with
  | Returns => put_fiber p (with_state TERM (with_cb None f))
  | Throws => put_fiber p (with_state ERROR f)
  end ;;;
  ret p.
Lemma finish_eq me a o : finish me a o = (let* p := GetThis me a in finish_at p o).
Proof. done. Qed.

Lemma finish_stable p o : stable (finish_at p o).
Proof.
  intros w. unfold finish_at, bind, get_fiber. destruct (fibers w !! p) as [f|] eqn:Hp; [|done].
  assert (forall f', m_id f' = m_id f -> m_stack f' = m_stack f ->
    shape (set_fibers (<[p := f']> (fibers w)) w) = shape w) as E.
  { intros f' Hi Hs. unfold shape. simpl. rewrite fmap_insert, Hi, Hs.
    apply insert_id. by rewrite lookup_fmap, Hp. }
  destruct (cb_outcome (m_cb f) o); simpl; by rewrite E.
Qed.

Inductive op :=
  | NewFiber (g_fiber_stack_size : Z) (a : nat) (cb : option K) (stacksize : Z) (use_caller : bool)
  | Destroy (me a : nat)
  | Reset (a : nat) (cb : option K)
  | Call (me a : nat)
  | Back (me a : nat)
  | SwapIn (me a : nat)
  | SwapOut (me a : nat)
  | GetThis_ (me a : nat)
  | HandBack (me a : nat) (h : handback)
  | EndCall (me a : nat) (o : outcome).

Definition run_op (o : op) : cmd unit :=
  match o with
  | NewFiber g a cb ss uc => new_fiber g a cb ss uc
  | Destroy me a => destroy me a
  | Reset a cb => reset a cb
  | Call me a => call me a
  | Back me a => back me a false
  | SwapIn me a => swapIn me a
  | SwapOut me a => swapOut me a false
  | GetThis_ me a => GetThis me a ;;; ret tt
  | HandBack me a h => hand_back me a h
  | EndCall me a o => CallMainFunc me a o
  end.

(** [new] returns fresh addresses, and fewer than 2^64 fibers are ever made. *)
Definition enabled (o : op) (w : world) : Prop :=
  match o with
  | NewFiber _ a _ _ _ => fibers w !! a = None /\ s_fiber_id w + 1 < 2 ^ 64
  | GetThis_ _ a | HandBack _ a _ | EndCall _ a _ => fibers w !! a = None
  | _ => True
  end.

Inductive reachable : world -> Prop :=
  | reach_init : reachable (World ∅ 0 0 ∅)
  | reach_step o w w' : reachable w -> enabled o w -> run_op o w = Ok tt w' -> reachable w'.

Lemma new_fiber_inv g a cb ss uc w w' :
  inv w -> 0 <= s_fiber_id w -> fibers w !! a = None -> s_fiber_id w + 1 < 2 ^ 64 ->
  new_fiber g a cb ss uc w = Ok tt w' -> inv w'.
Proof.
  intros Hw H0 Ha Hid. unfold new_fiber, bind, gets, put_fiber, modify. simpl. intros [= <-].
  rewrite wrap_id by (unfold in_u; lia).
  eapply (inv_add w _ a (s_fiber_id w + 1) true); try done; simpl; [by apply shape_None| |lia|lia].
  unfold shape. simpl. by rewrite fmap_insert.
Qed.

Lemma destroy_inv me a w w' : inv w -> destroy me a w = Ok tt w' -> inv w'.
Proof.
  intros [Hc Hi Hu]. unfold destroy, bind at 1, get_fiber.
  destruct (fibers w !! a) as [f|] eqn:Ha; [|done].
  assert (forall t, inv (set_fibers (delete a (fibers w))
    (World (fibers w) (s_fiber_id w) (u64 (s_fiber_count w - 1)) t))) as Hd.
  { intros t.
    assert (shape w !! a = Some (m_id f, m_stack f)) as Hsa by (unfold shape; by rewrite lookup_fmap, Ha).
    assert (forall x, shape (set_fibers (delete a (fibers w)) x) = delete a (shape w)) as Es.
    { intros x. unfold shape. simpl. by rewrite fmap_delete. }
    split; rewrite Es; simpl.
    - rewrite Hc, <- Z.add_opp_r, wrap_add_l, (map_size_delete_Some _ _ (mk_is_Some _ _ Hsa)).
      f_equal. assert (size (shape w) <> 0)%nat; [|lia].
      intros E%map_size_empty_inv. by rewrite E in Hsa.
    - intros p i b [_ Hp]%lookup_delete_Some. by apply (Hi p).
    - intros p q i [_ Hp]%lookup_delete_Some [_ Hq]%lookup_delete_Some. by eapply Hu. }
  unfold bind, modify, assert_, gets. destruct (m_stack f).
  - destruct (resettable _); [|done]. intros [= <-]. apply Hd.
  - do 2 (destruct (bool_decide _); [simpl|done]).
    destruct (bool_decide _); intros [= <-]; apply Hd.
Qed.

Lemma fibers_step o w w' :
  inv w -> 0 <= s_fiber_id w -> enabled o w -> run_op o w = Ok tt w' -> inv w'.
Proof.
  intros Hw H0 He Hrun.
  assert (forall m : cmd unit, keeps inv m -> m w = Ok tt w' -> inv w') as Hk.
  { intros m Hm E. specialize (Hm w Hw). by rewrite E in Hm. }
  destruct o as [g a cb ss uc|me a|a cb|me a|me a|me a|me a|me a|me a h|me a o]; cbn [run_op enabled] in *.
  - destruct He. by eapply new_fiber_inv.
  - by eapply destroy_inv.
  - by apply (Hk (reset a cb)), Hrun; apply stable_keeps, stable_reset.
  - by apply (Hk (call me a)), Hrun; apply stable_keeps, stable_call.
  - by apply (Hk (back me a false)), Hrun; apply stable_keeps, stable_back.
  - by apply (Hk (swapIn me a)), Hrun; apply stable_keeps, stable_swapIn.
  - by apply (Hk (swapOut me a false)), Hrun; apply stable_keeps, stable_swapOut.
  - pose proof (bind_GetThis_inv me a (fun _ => ret tt) w Hw He) as H.
    rewrite Hrun in H. apply H. intros p. apply keeps_ret.
  - destruct h as [| |o]; cbn [hand_back] in Hrun.
    + pose proof (bind_GetThis_inv me a (fun p => set_state p READY ;;; swapOut me p false) w Hw He) as H.
      unfold YieldToReady in Hrun. rewrite Hrun in H. apply H. intros p.
      apply stable_keeps, stable_bind; [apply stable_set_state|intros []; apply stable_swapOut].
    + pose proof (bind_GetThis_inv me a (fun p => set_state p HOLD ;;; swapOut me p false) w Hw He) as H.
      unfold YieldToHold in Hrun. rewrite Hrun in H. apply H. intros p.
      apply stable_keeps, stable_bind; [apply stable_set_state|intros []; apply stable_swapOut].
    + pose proof (bind_GetThis_inv me a (fun p => let* cur := finish_at p o in swapOut me cur true) w Hw He) as H.
      unfold MainFunc in Hrun. rewrite finish_eq, bind_assoc in Hrun. rewrite Hrun in H. apply H. intros p.
      apply stable_keeps, stable_bind; [apply finish_stable|intros cur; apply stable_swapOut].
  - pose proof (bind_GetThis_inv me a (fun p => let* cur := finish_at p o in back me cur true) w Hw He) as H.
    unfold CallMainFunc in Hrun. rewrite finish_eq, bind_assoc in Hrun. rewrite Hrun in H. apply H. intros p.
    apply stable_keeps, stable_bind; [apply finish_stable|intros cur; apply stable_back].
Qed.

Lemma op_ids o w w' :
  enabled o w -> 0 <= s_fiber_id w -> run_op o w = Ok tt w' -> 0 <= s_fiber_id w'.
Proof.
  intros He H0 Hrun.
  assert (forall m : cmd unit, keeps (fun w => 0 <= s_fiber_id w) m -> m w = Ok tt w' -> 0 <= s_fiber_id w') as Hk.
  { intros m Hm E. specialize (Hm w H0). by rewrite E in Hm. }
  assert (forall A (m : cmd A), stable m -> keeps (fun w => 0 <= s_fiber_id w) m) as Hst.
  { intros A m Hm x Hx. specialize (Hm x). destruct (m x); try done; destruct Hm as (_ & -> & _); done. }
  assert (forall me a, keeps (fun w : world => 0 <= s_fiber_id w) (GetThis me a)) as Hget.
  { intros me a x Hx. unfold GetThis, bind, gets, new_thread_fiber, bind, put_fiber, SetThis, modify,
      assert_, deref, ret, get_fiber. destruct (t_fiber (tls me x)) as [p|].
    - by destruct (fibers x !! p).
    - rewrite bool_decide_true by (unfold tls; simpl; by rewrite !lookup_insert_eq).
      simpl. unfold tls. simpl. by rewrite !lookup_insert_eq. }
  destruct o as [g a cb ss uc|me a|a cb|me a|me a|me a|me a|me a|me a h|me a o]; cbn [run_op enabled] in *.
  - unfold new_fiber, bind, gets, put_fiber, modify in Hrun. simpl in Hrun. injection Hrun as <-. simpl.
    apply wrap_in_u. lia.
  - unfold destroy, bind, get_fiber, modify, assert_, gets in Hrun.
    destruct (fibers w !! a) as [f|]; [|done]. destruct (m_stack f).
    + destruct (resettable _); [|done]. by injection Hrun as <-.
    + do 2 (destruct (bool_decide _); [simpl in Hrun|done]).
      destruct (bool_decide _); by injection Hrun as <-.
  - by apply (Hk (reset a cb)), Hrun; apply Hst, stable_reset.
  - by apply (Hk (call me a)), Hrun; apply Hst, stable_call.
  - by apply (Hk (back me a false)), Hrun; apply Hst, stable_back.
  - by apply (Hk (swapIn me a)), Hrun; apply Hst, stable_swapIn.
  - by apply (Hk (swapOut me a false)), Hrun; apply Hst, stable_swapOut.
  - apply (Hk (GetThis me a ;;; ret tt)); [|done]. apply keeps_bind; [apply Hget|intros ?; apply keeps_ret].
  - apply (Hk (hand_back me a h)); [|done]. destruct h; cbn [hand_back]; unfold YieldToReady, YieldToHold, MainFunc.
    1, 2: apply keeps_bind; [apply Hget|intros p]; apply Hst, stable_bind;
      [apply stable_set_state|intros ?; apply stable_swapOut].
    rewrite finish_eq. apply keeps_bind; [|intros ?; apply Hst, stable_swapOut].
    apply keeps_bind; [apply Hget|intros ?; apply Hst, finish_stable].
  - apply (Hk (CallMainFunc me a o)); [|done]. unfold CallMainFunc. rewrite finish_eq.
    apply keeps_bind; [|intros ?; apply Hst, stable_back].
    apply keeps_bind; [apply Hget|intros ?; apply Hst, finish_stable].
Qed.

Lemma fibers_reachable w : reachable w -> inv w /\ 0 <= s_fiber_id w.
Proof.
  induction 1 as [|o w w' Hr [IH H0] He Hrun].
  - split; [|done]. split; unfold shape; simpl.
    + by rewrite fmap_empty, map_size_empty.
    + intros p i b. by rewrite fmap_empty, lookup_empty.
    + intros p q i. by rewrite fmap_empty, lookup_empty.
  - split; [by eapply fibers_step|by eapply op_ids].
Qed.

(** ** Properties *)


(** Whatever threads do with fibers (create, destroy, reset, switch, yield,
    finish), as long as fewer than 2^64 are made, [TotalFibers] is the number of
    live fibers modulo 2^64, a thread's own fiber has identifier 0, and every
    other fiber has a positive identifier that no other live fiber has. *)
Theorem fiber_identity w :
  reachable w ->
  TotalFibers w = u64 (Z.of_nat (size (fibers w))) /\
  (forall p f, fibers w !! p = Some f -> m_stack f = false -> m_id f = 0) /\
  (forall p f, fibers w !! p = Some f -> m_stack f = true -> 1 <= m_id f) /\
  (forall p q f g, fibers w !! p = Some f -> fibers w !! q = Some g ->
     m_stack f = true -> m_stack g = true -> m_id f = m_id g -> p = q).
Proof.
  intros [[Hc Hi Hu] _]%fibers_reachable.
  assert (forall p f, fibers w !! p = Some f -> shape w !! p = Some (m_id f, m_stack f)) as L.
  { intros p f Hp. unfold shape. by rewrite lookup_fmap, Hp. }
  split_and!.
  - unfold TotalFibers. rewrite Hc. unfold shape. by rewrite map_size_fmap.
  - intros p f Hp Hs. specialize (Hi _ _ _ (L p f Hp)). by rewrite Hs in Hi.
  - intros p f Hp Hs. specialize (Hi _ _ _ (L p f Hp)). rewrite Hs in Hi. lia.
  - intros p q f g Hp Hq Hsf Hsg E. apply (Hu p q (m_id f)).
    + by rewrite (L p f Hp), Hsf.
    + by rewrite (L q g Hq), Hsg, E.
Qed.

End fibers.
Arguments fiber : clear implicits.
Arguments world : clear implicits.

(** ** Witnesses *)

(** A thread with its main fiber at address 1 and a new fiber at address 2. *)
Definition one_fiber : world nat :=
  match (GetThis 0 1 ;;;
         modify (fun w => set_tls 0 (Thread_ (Some 1%nat) (Some 1%nat) (Some 1%nat) (Some 1%nat)) w) ;;;
         new_fiber 1024 2 (Some 7%nat) 0 false) (World ∅ 0 0 ∅) with
  | Ok _ w => w
  | _ => World ∅ 0 0 ∅
  end.


Definition after (o : op) (w : world nat) : world nat :=
  match run_op o w with Ok _ w' => w' | _ => w end.

Lemma fiber_identity_witness :
  let w := after (NewFiber 1024 2 (Some 7%nat) 0 false) (after (GetThis_ 0 1) (World ∅ 0 0 ∅)) in
  reachable w /\ TotalFibers w = 2 /\ TotalFibers w = u64 (Z.of_nat (size (fibers w))).
Proof.
  intros w.
  assert (reachable w) as Hr.
  { apply (reach_step (NewFiber 1024 2 (Some 7%nat) 0 false) (after (GetThis_ 0 1) (World ∅ 0 0 ∅)));
      [|by vm_compute|reflexivity].
    apply (reach_step (GetThis_ 0 1) (World ∅ 0 0 ∅)); [apply reach_init|reflexivity|reflexivity]. }
  split; [exact Hr|]. split; [by vm_compute|]. apply (fiber_identity _ Hr).
Defined.
End Fiber.
