(* ===== verification/Scheduler.v ===== *)
(** * The fiber scheduler: src/src/scheduler.h, src/src/scheduler.cpp

    The scheduler's members are one record; the fibers and the thread-local
    variables are those of [Fiber].  [run] is cut where control leaves it: at
    the end of its critical section, and at each [swapIn], from which it comes
    back when the fiber gives up control.  Threads interleave at these points.
    The virtual [tickle] is recorded by counting its calls; [IOManager] refines
    it. *)

From stdpp Require Import prelude gmap.
From Stdlib Require Import ZArith Lia.
From S2P Require Import Prelude Fiber.

Module Scheduler.
Import Fiber.
Local Open Scope Z_scope.

Section scheduler.
Context {K : Type}.
Variable g_fiber_stack_size : Z.   (* the configured default stack size *)

(** What a fiber is made to call: a client's function, [Scheduler::run] or
    [Scheduler::idle]. *)
Inductive code := User (k : K) | Run | Idle.

Record FiberAndThread := FiberAndThread_ {
  ft_fiber : option nat;
  ft_cb : option K;
  ft_thread : Z
}.

Record sched := Sched {
  fw : Fiber.world code;
  m_fibers : list FiberAndThread;
  m_active_thread_count : Z;
  m_idle_thread_count : Z;
  m_stop : bool;
  m_autostop : bool;
  m_root_thread : Z;
  m_root_fiber : option nat;
  m_thread_count : Z;
  m_threads : list nat;
  m_thread_ids : list Z;
  t_scheduler : gset nat;      (* the threads whose [t_scheduler] is this one *)
  tickles : nat                (* calls of [tickle] *)
}.
Abbreviation cmd := (Prelude.cmd sched).

Definition set_fw v s := Sched v (m_fibers s) (m_active_thread_count s) (m_idle_thread_count s)
  (m_stop s) (m_autostop s) (m_root_thread s) (m_root_fiber s) (m_thread_count s) (m_threads s)
  (m_thread_ids s) (t_scheduler s) (tickles s).
Definition set_m_fibers v s := Sched (fw s) v (m_active_thread_count s) (m_idle_thread_count s)
  (m_stop s) (m_autostop s) (m_root_thread s) (m_root_fiber s) (m_thread_count s) (m_threads s)
  (m_thread_ids s) (t_scheduler s) (tickles s).
Definition add_active d s := Sched (fw s) (m_fibers s) (u64 (m_active_thread_count s + d))
  (m_idle_thread_count s) (m_stop s) (m_autostop s) (m_root_thread s) (m_root_fiber s)
  (m_thread_count s) (m_threads s) (m_thread_ids s) (t_scheduler s) (tickles s).
Definition add_idle d s := Sched (fw s) (m_fibers s) (m_active_thread_count s)
  (u64 (m_idle_thread_count s + d)) (m_stop s) (m_autostop s) (m_root_thread s) (m_root_fiber s)
  (m_thread_count s) (m_threads s) (m_thread_ids s) (t_scheduler s) (tickles s).
Definition set_flags stop autostop s := Sched (fw s) (m_fibers s) (m_active_thread_count s)
  (m_idle_thread_count s) stop autostop (m_root_thread s) (m_root_fiber s) (m_thread_count s)
  (m_threads s) (m_thread_ids s) (t_scheduler s) (tickles s).
Definition set_root thr fib s := Sched (fw s) (m_fibers s) (m_active_thread_count s)
  (m_idle_thread_count s) (m_stop s) (m_autostop s) thr fib (m_thread_count s) (m_threads s)
  (m_thread_ids s) (t_scheduler s) (tickles s).
Definition set_threads ts ids s := Sched (fw s) (m_fibers s) (m_active_thread_count s)
  (m_idle_thread_count s) (m_stop s) (m_autostop s) (m_root_thread s) (m_root_fiber s)
  (m_thread_count s) ts ids (t_scheduler s) (tickles s).
Definition set_count n s := Sched (fw s) (m_fibers s) (m_active_thread_count s)
  (m_idle_thread_count s) (m_stop s) (m_autostop s) (m_root_thread s) (m_root_fiber s) n
  (m_threads s) (m_thread_ids s) (t_scheduler s) (tickles s).
Definition set_scheduler v s := Sched (fw s) (m_fibers s) (m_active_thread_count s)
  (m_idle_thread_count s) (m_stop s) (m_autostop s) (m_root_thread s) (m_root_fiber s)
  (m_thread_count s) (m_threads s) (m_thread_ids s) v (tickles s).
Definition add_tickle s := Sched (fw s) (m_fibers s) (m_active_thread_count s)
  (m_idle_thread_count s) (m_stop s) (m_autostop s) (m_root_thread s) (m_root_fiber s)
  (m_thread_count s) (m_threads s) (m_thread_ids s) (t_scheduler s) (S (tickles s)).

(** Fiber operations inside the scheduler. *)
Definition lift {A} (m : Prelude.cmd (Fiber.world code) A) : cmd A :=
  fun s => match m (fw s) with
           | Ok x w => Ok x (set_fw w s)
           | Throw e w => Throw e (set_fw w s)
           | Fail_ f => Fail_ f
           end.

Definition tickle : cmd unit := modify add_tickle.

(** [Scheduler::GetThis() == this] on thread [me]. *)
Definition GetThis_is_this (me : nat) : cmd bool := gets (fun s => bool_decide (me ∈ t_scheduler s)).
Definition setThis (me : nat) : cmd unit := modify (fun s => set_scheduler ({[me]} ∪ t_scheduler s) s).

Definition empty_sched (w : Fiber.world code) : sched :=
  Sched w [] 0 0 true false 0 None 0 [] [] ∅ 0.

(** The constructor on thread [me]; [a1] and [a2] are fresh addresses. *)
Definition Scheduler (me a1 a2 : nat) (thread_size : Z) (use_caller : bool) : cmd unit :=
  assert_ (0 <? thread_size) ;;;
  (if use_caller then
     lift (Fiber.GetThis me a1) ;;;
     let* this := GetThis_is_this me in
     assert_ (negb this) ;;;
     setThis me ;;;
     lift (new_fiber g_fiber_stack_size a2 (Some Run) 0 true) ;;;
     lift (modify (fun w => let t := tls me w in
                            set_tls me (Thread_ (t_fiber t) (t_thread_fiber t) (Some a2) (cpu t)) w)) ;;;
     modify (set_root (Z.of_nat me) (Some a2)) ;;;
     modify (fun s => set_threads (m_threads s) (m_thread_ids s ++ [Z.of_nat me]) s)
   else modify (set_root (-1) None)) ;;;
  modify (set_count (if use_caller then u64 (thread_size - 1) else thread_size)).

(** The destructor. *)
Definition destroy_Scheduler (me : nat) : cmd unit :=
  let* s := gets id in
  assert_ (m_stop s) ;;;
  let* this := GetThis_is_this me in
  if this then modify (fun s => set_scheduler (t_scheduler s ∖ {[me]}) s) else ret tt.

(** [start]: [ids] are the threads the kernel creates. *)
Definition start (ids : list nat) : cmd unit :=
  let* s := gets id in
  if negb (m_stop s) then ret tt else
  modify (fun s => set_flags false (m_autostop s) s) ;;;
  assert_ (bool_decide (m_threads s = [])) ;;;
  modify (fun s => let new := take (Z.to_nat (m_thread_count s)) ids in
                   set_threads new (m_thread_ids s ++ (Z.of_nat <$> new)) s).

Definition stopping (s : sched) : bool :=
  m_autostop s && m_stop s && bool_decide (m_fibers s = []) && (m_active_thread_count s =? 0).

Fixpoint repeat_tickle (n : nat) : cmd unit :=
  match n with O => ret tt | S n => tickle ;;; repeat_tickle n end.

(** [stop] on thread [me] up to the switch to the root fiber: the result tells
    whether it returned early, and whether [m_root_fiber->call()] is made; with
    the virtual [stopping] of the object. *)
Definition stop_begin (stopping : cmd bool) (me : nat) : cmd (bool * bool) :=
  modify (fun s => set_flags (m_stop s) true s) ;;;
  let* s := gets id in
  let* early :=
    (match m_root_fiber s with
     | Some r =>
       let* st := lift (state r) in
       if (m_thread_count s =? 0) && (bool_decide (st = TERM) || bool_decide (st = INIT)) then
         modify (fun s => set_flags true (m_autostop s) s) ;;; stopping
       else ret false
     | None => ret false
     end) in
  if early : bool then ret (true, false) else
  let* this := GetThis_is_this me in
  (if negb (m_root_thread s =? -1) then assert_ this else assert_ (negb this)) ;;;
  modify (fun s => set_flags true (m_autostop s) s) ;;;
  repeat_tickle (Z.to_nat (m_thread_count s)) ;;;
  match m_root_fiber s with
  | Some r =>
    tickle ;;;
    let* stopped := stopping in
    if stopped : bool then ret (false, false) else lift (call me r) ;;; ret (false, true)
  | None => ret (false, false)
  end.

(** The rest of [stop]: the threads it joins. *)
Definition stop_end : cmd (list nat) :=
  let* thrs := gets m_threads in
  modify (fun s => set_threads [] (m_thread_ids s) s) ;;; ret thrs.

(** ** Scheduling *)

Definition is_task (ft : FiberAndThread) : bool :=
  bool_decide (ft_fiber ft <> None) || bool_decide (ft_cb ft <> None).

Definition scheduleNoLock (ft : FiberAndThread) : cmd bool :=
  let* need_tickle := gets (fun s => bool_decide (m_fibers s = [])) in
  (if is_task ft then modify (fun s => set_m_fibers (m_fibers s ++ [ft]) s) else ret tt) ;;;
  ret need_tickle.

Definition schedule_ (tickle : cmd unit) (ft : FiberAndThread) : cmd unit :=
  let* need_tickle := scheduleNoLock ft in
  if need_tickle : bool then tickle else ret tt.
Definition schedule : FiberAndThread -> cmd unit := schedule_ tickle.

(** [schedule(begin, end)]. *)
Fixpoint schedule_loop (fts : list FiberAndThread) (need_tickle : bool) : cmd bool :=
  match fts with
  | [] => ret need_tickle
  | ft :: fts =>
    let* b := scheduleNoLock ft in schedule_loop fts (b || need_tickle)
  end.
Definition schedule_range_ (tickle : cmd unit) (fts : list FiberAndThread) : cmd unit :=
  let* need_tickle := schedule_loop fts false in
  if need_tickle : bool then tickle else ret tt.
Definition schedule_range : list FiberAndThread -> cmd unit := schedule_range_ tickle.

(** ** [run] *)

(** The critical section: the scan of [m_fibers] by thread [me]; the result is
    the task taken, if any, and [tickle_me]. *)
Fixpoint scan (me : nat) (done todo : list FiberAndThread) (tickle_me : bool)
    : cmd (option FiberAndThread * bool) :=
  match todo with
  | [] => ret (None, tickle_me)
  | it :: todo =>
    if negb (ft_thread it =? -1) && negb (ft_thread it =? Z.of_nat me)
    then scan me (done ++ [it]) todo true
    else
      assert_ (is_task it) ;;;
      let* busy := match ft_fiber it with
                   | Some f => let* st := lift (state f) in ret (bool_decide (st = EXEC))
                   | None => ret false
                   end in
      if busy : bool then scan me (done ++ [it]) todo tickle_me
      else
        modify (set_m_fibers (done ++ todo)) ;;;
        modify (add_active 1) ;;;
        ret (Some it, tickle_me)
  end.
Definition pick (me : nat) : cmd (option FiberAndThread * bool) :=
  let* l := gets m_fibers in scan me [] l false.

(** Where a worker is in its loop: at the top, with the outcome of the critical
    section, in a fiber it switched to, back from it, or out of the loop. *)
Inductive kind := OfFiber | OfCb | OfIdle.
Inductive pc :=
  | Top
  | Picked (ft : option FiberAndThread) (tickle_me : bool)
  | In (f : nat) (k : kind)
  | Back_ (f : nat) (k : kind)
  | Exited.
Record worker := Worker {
  w_pc : pc;
  cb_fiber : option nat;
  idle_fiber : nat
}.
Definition at_pc (p : pc) (w : worker) : worker := Worker p (cb_fiber w) (idle_fiber w).

(** The beginning of [run] on thread [me]. *)
Definition run_enter (me a1 a2 : nat) : cmd worker :=
  setThis me ;;;
  let* s := gets id in
  (if negb (Z.of_nat me =? m_root_thread s) then
     let* f := lift (Fiber.GetThis me a1) in
     lift (modify (fun w => let t := tls me w in
                            set_tls me (Thread_ (t_fiber t) (t_thread_fiber t) (Some f) (cpu t)) w))
   else ret tt) ;;;
  lift (new_fiber g_fiber_stack_size a2 (Some Idle) 0 false) ;;;
  ret (Worker Top None a2).

(** From the end of the critical section to the [swapIn]; [a] is a fresh
    address. *)
Definition run_dispatch (me a : nat) (ft : option FiberAndThread) (tickle_me : bool) (wk : worker)
    : cmd worker :=
  (if tickle_me then tickle else ret tt) ;;;
  let* fiber_runs :=
    match ft ≫= ft_fiber with
    | Some f => let* st := lift (state f) in
                ret (negb (bool_decide (st = TERM)) || negb (bool_decide (st = ERROR)))
    | None => ret false
    end in
  match ft ≫= ft_fiber, ft ≫= ft_cb, fiber_runs with
  | Some f, _, true =>
    lift (swapIn me f) ;;; ret (at_pc (In f OfFiber) wk)
  | _, Some cb, _ =>
    let* c := match cb_fiber wk with
              | Some c => lift (Fiber.reset c (Some (User cb))) ;;; ret c
              | None => lift (new_fiber g_fiber_stack_size a (Some (User cb)) 0 false) ;;; ret a
              end in
    lift (swapIn me c) ;;; ret (Worker (In c OfCb) (Some c) (idle_fiber wk))
  | _, None, _ =>
    if bool_decide (ft <> None) then modify (add_active (-1)) ;;; ret (at_pc Top wk) else
    let* st := lift (state (idle_fiber wk)) in
    if bool_decide (st = TERM) then ret (at_pc Exited wk) else
    modify (add_idle 1) ;;;
    lift (swapIn me (idle_fiber wk)) ;;; ret (at_pc (In (idle_fiber wk) OfIdle) wk)
  end.

(** From the return of [swapIn] to the end of the iteration. *)
Definition run_after (f : nat) (k : kind) (wk : worker) : cmd worker :=
  match k with
  | OfFiber =>
    modify (add_active (-1)) ;;;
    let* st := lift (state f) in
    if bool_decide (st = READY) then
      schedule (FiberAndThread_ (Some f) None (-1)) ;;; ret (Worker Top None (idle_fiber wk))
    else
      (if negb (bool_decide (st = TERM)) && negb (bool_decide (st = ERROR))
       then lift (set_state f HOLD) else ret tt) ;;;
      ret (at_pc Top wk)
  | OfCb =>
    modify (add_active (-1)) ;;;
    let* st := lift (state f) in
    if bool_decide (st = READY) then
      schedule (FiberAndThread_ (Some f) None (-1)) ;;; ret (Worker Top None (idle_fiber wk))
    else if bool_decide (st = ERROR) || bool_decide (st = TERM) then
      lift (Fiber.reset f None) ;;; ret (at_pc Top wk)
    else
      lift (set_state f HOLD) ;;; ret (Worker Top None (idle_fiber wk))
  | OfIdle =>
    modify (add_idle (-1)) ;;;
    let* st := lift (state f) in
    (if negb (bool_decide (st = TERM)) && negb (bool_decide (st = ERROR))
     then lift (set_state f HOLD) else ret tt) ;;;
    ret (at_pc Top wk)
  end.

(** [Scheduler::idle] between two switches: it returns when the scheduler is
    stopping and yields otherwise. *)
Definition idle (me a : nat) : cmd unit :=
  let* s := gets stopping in
  if s : bool then lift (hand_back me a (Done_ Returns)) else lift (hand_back me a ToHold).

(** ** The system of worker threads

    A step is one section of one thread: entering [run], its critical section,
    the dispatch up to a switch, the fiber's code giving up control, the rest of
    the iteration; or a call of the scheduler's public methods by anybody. *)

Record sys := Sys { sc : sched; workers : gmap nat worker }.

Inductive step : sys -> sys -> Prop :=
  | s_enter me a1 a2 s ws s' wk :
      ws !! me = None -> run_enter me a1 a2 s = Ok wk s' ->
      step (Sys s ws) (Sys s' (<[me := wk]> ws))
  | s_pick me s ws s' wk ft t :
      ws !! me = Some wk -> w_pc wk = Top -> pick me s = Ok (ft, t) s' ->
      step (Sys s ws) (Sys s' (<[me := at_pc (Picked ft t) wk]> ws))
  | s_dispatch me a s ws s' wk wk' ft t :
      ws !! me = Some wk -> w_pc wk = Picked ft t -> run_dispatch me a ft t wk s = Ok wk' s' ->
      step (Sys s ws) (Sys s' (<[me := wk']> ws))
  | s_give_up me a h s ws s' wk f k :
      ws !! me = Some wk -> w_pc wk = In f k -> k <> OfIdle -> lift (hand_back me a h) s = Ok tt s' ->
      step (Sys s ws) (Sys s' (<[me := at_pc (Back_ f k) wk]> ws))
  | s_idle me a s ws s' wk f :
      ws !! me = Some wk -> w_pc wk = In f OfIdle -> idle me a s = Ok tt s' ->
      step (Sys s ws) (Sys s' (<[me := at_pc (Back_ f OfIdle) wk]> ws))
  | s_after me s ws s' wk wk' f k :
      ws !! me = Some wk -> w_pc wk = Back_ f k -> run_after f k wk s = Ok wk' s' ->
      step (Sys s ws) (Sys s' (<[me := wk']> ws))
  | s_schedule ft s ws s' :
      schedule ft s = Ok tt s' -> step (Sys s ws) (Sys s' ws)
  | s_schedule_range fts s ws s' :
      schedule_range fts s = Ok tt s' -> step (Sys s ws) (Sys s' ws)
  | s_start ids s ws s' :
      start ids s = Ok tt s' -> step (Sys s ws) (Sys s' ws)
  | s_stop me r s ws s' :
      stop_begin (gets stopping) me s = Ok r s' -> step (Sys s ws) (Sys s' ws)
  | s_join thrs s ws s' :
      stop_end s = Ok thrs s' -> step (Sys s ws) (Sys s' ws)
  | s_fiber o s ws s' :
      lift (Fiber.run_op o) s = Ok tt s' -> step (Sys s ws) (Sys s' ws).

(** A constructed scheduler, without workers, and what it can become. *)
Inductive reachable : sys -> Prop :=
  | reach_init w me a1 a2 n use_caller s :
      Scheduler me a1 a2 n use_caller (empty_sched w) = Ok tt s -> reachable (Sys s ∅)
  | reach_step x y : reachable x -> step x y -> reachable y.

(** Workers between taking a task and finishing its iteration, and workers in
    the idle fiber. *)
Definition busy (wk : worker) : bool :=
  match w_pc wk with
  | Picked (Some _) _ | In _ (OfFiber | OfCb) | Back_ _ (OfFiber | OfCb) => true
  | _ => false
  end.
Definition idling (wk : worker) : bool :=
  match w_pc wk with In _ OfIdle | Back_ _ OfIdle => true | _ => false end.
Definition count (P : worker -> bool) (ws : gmap nat worker) : Z :=
  Z.of_nat (size (filter (fun kv => P kv.2 = true) ws)).

Lemma count_insert_new P ws me wk :
  ws !! me = None -> count P (<[me := wk]> ws) = count P ws + Z.b2z (P wk).
Proof.
  intros Hn. unfold count. rewrite map_filter_insert. simpl. destruct (P wk) eqn:E.
  - rewrite decide_True by done. rewrite map_size_insert_None; [simpl; lia|].
    apply map_lookup_filter_None_2. by left.
  - rewrite decide_False by done. rewrite delete_id by done. simpl. lia.
Qed.

Lemma count_insert P ws me wk wk' :
  ws !! me = Some wk ->
  count P (<[me := wk']> ws) = count P ws - Z.b2z (P wk) + Z.b2z (P wk').
Proof.
  intros Hw. rewrite <- insert_delete_eq, count_insert_new by apply lookup_delete_eq.
  rewrite <- (insert_delete_id ws me wk Hw) at 2.
  rewrite count_insert_new by apply lookup_delete_eq. lia.
Qed.

Lemma count_nonneg P ws : 0 <= count P ws.
Proof. unfold count. lia. Qed.

Lemma count_zero P ws : count P ws = 0 -> forall me wk, ws !! me = Some wk -> P wk = false.
Proof.
  unfold count. intros Hz me wk Hw. destruct (P wk) eqn:E; [|done].
  assert (size (filter (fun kv : nat * worker => P kv.2 = true) ws) = 0)%nat as H%map_size_empty_inv by lia.
  assert (filter (fun kv : nat * worker => P kv.2 = true) ws !! me = Some wk) as L
    by by apply map_lookup_filter_Some.
  by rewrite H in L.
Qed.

(** [quiet m]: [m] leaves the two counters alone and queues only tasks. *)
Definition same_counts (s s' : sched) : Prop :=
  m_active_thread_count s' = m_active_thread_count s /\
  m_idle_thread_count s' = m_idle_thread_count s /\
  (Forall (fun ft => is_task ft = true) (m_fibers s) -> Forall (fun ft => is_task ft = true) (m_fibers s')).
Definition quiet {A} (m : cmd A) : Prop := forall s x s', m s = Ok x s' -> same_counts s s'.

Lemma quiet_bind {A B} (m : cmd A) (k : A -> cmd B) : quiet m -> (forall x, quiet (k x)) -> quiet (bind m k).
Proof.
  intros Hm Hk s x s' H. inv_bind H. destruct (Hm _ _ _ H0) as (? & ? & ?).
  destruct (Hk _ _ _ _ H) as (? & ? & ?). split_and!; [congruence|congruence|auto].
Qed.
Lemma quiet_ret {A} (x : A) : quiet (ret x).
Proof. by intros s y s' [= <- <-]. Qed.
Lemma quiet_gets {A} (f : sched -> A) : quiet (gets f).
Proof. by intros s y s' [= <- <-]. Qed.
Lemma quiet_assert b : quiet (assert_ b).
Proof. destruct b; by intros s y s' [= <- <-]. Qed.
Lemma quiet_lift {A} (m : Prelude.cmd (Fiber.world code) A) : quiet (lift m).
Proof. intros s y s' H. unfold lift in H. destruct (m (fw s)); simplify_eq; done. Qed.
Lemma quiet_modify f : (forall s, same_counts s (f s)) -> quiet (modify f).
Proof. intros Hf s x s' [= <- <-]. apply Hf. Qed.
Lemma quiet_tickle : quiet tickle.
Proof. by apply quiet_modify. Qed.
Lemma quiet_if {A} (b : bool) (m1 m2 : cmd A) : quiet m1 -> quiet m2 -> quiet (if b then m1 else m2).
Proof. by destruct b. Qed.

Create HintDb quiet.
Hint Resolve quiet_ret quiet_gets quiet_assert quiet_lift quiet_tickle : quiet.
Hint Extern 2 (quiet (bind _ _)) => apply quiet_bind; [|intros ?] : quiet.
Hint Extern 2 (quiet (if _ then _ else _)) => apply quiet_if : quiet.
Hint Extern 3 (quiet (match ?x with _ => _ end)) => destruct x : quiet.
Hint Extern 4 (quiet (modify _)) => apply quiet_modify; intros ?; done : quiet.

Lemma quiet_scheduleNoLock ft : quiet (scheduleNoLock ft).
Proof.
  unfold scheduleNoLock. apply quiet_bind; [apply quiet_gets|intros b].
  apply quiet_bind; [|intros ?; apply quiet_ret].
  destruct (is_task ft) eqn:E; [|apply quiet_ret].
  apply quiet_modify. intros s. split_and!; [done|done|]. intros H. by apply Forall_app_2; [|constructor].
Qed.
Hint Resolve quiet_scheduleNoLock : quiet.
Lemma quiet_schedule ft : quiet (schedule ft).
Proof. unfold schedule, schedule_. eauto with quiet. Qed.
Lemma quiet_schedule_loop fts : forall b, quiet (schedule_loop fts b).
Proof. induction fts; intros b; simpl; eauto with quiet. Qed.
Hint Resolve quiet_schedule quiet_schedule_loop : quiet.
Lemma quiet_schedule_range fts : quiet (schedule_range fts).
Proof. unfold schedule_range, schedule_range_. eauto with quiet. Qed.
Lemma quiet_start ids : quiet (start ids).
Proof. unfold start. eauto 10 with quiet. Qed.
Lemma quiet_repeat_tickle n : quiet (repeat_tickle n).
Proof. induction n; simpl; eauto with quiet. Qed.
Lemma quiet_GetThis_is_this me : quiet (GetThis_is_this me).
Proof. apply quiet_gets. Qed.
Hint Resolve quiet_repeat_tickle quiet_GetThis_is_this : quiet.
Lemma quiet_stop_begin me : quiet (stop_begin (gets stopping) me).
Proof. unfold stop_begin. eauto 20 with quiet. Qed.
Lemma quiet_stop_end : quiet stop_end.
Proof. unfold stop_end. eauto with quiet. Qed.
Lemma quiet_setThis me : quiet (setThis me).
Proof. unfold setThis. eauto with quiet. Qed.
Hint Resolve quiet_setThis : quiet.
Lemma quiet_run_enter me a1 a2 : quiet (run_enter me a1 a2).
Proof. unfold run_enter. eauto 20 with quiet. Qed.
Lemma quiet_idle me a : quiet (idle me a).
Proof. unfold idle. eauto with quiet. Qed.
Lemma quiet_Scheduler me a1 a2 n use_caller : quiet (Scheduler me a1 a2 n use_caller).
Proof. unfold Scheduler. eauto 20 with quiet. Qed.

Lemma set_fw_id s : set_fw (fw s) s = s.
Proof. by destruct s. Qed.

Lemma lift_state f s :
  lift (state f) s = match fibers (fw s) !! f with
                     | Some x => Ok (m_state x) s
                     | None => Fail_ Undef
                     end.
Proof.
  unfold lift, state, bind, get_fiber. destruct (fibers (fw s) !! f); [|done]. simpl. by rewrite set_fw_id.
Qed.

(** ** The scan *)

(** A task that thread [me] may take, and one that only another thread may. *)
Definition foreign (me : nat) (ft : FiberAndThread) : bool :=
  negb (ft_thread ft =? -1) && negb (ft_thread ft =? Z.of_nat me).
Definition executing (s : sched) (ft : FiberAndThread) : bool :=
  match ft_fiber ft ≫= (fibers (fw s) !!.) with
  | Some f => bool_decide (m_state f = EXEC)
  | None => false
  end.
Definition eligible (me : nat) (s : sched) (ft : FiberAndThread) : bool :=
  negb (foreign me ft) && negb (executing s ft).
Definition alive (s : sched) (ft : FiberAndThread) : Prop :=
  forall f, ft_fiber ft = Some f -> is_Some (fibers (fw s) !! f).

Lemma scan_step me pre it todo t s :
  is_task it = true -> alive s it ->
  scan me pre (it :: todo) t s =
    if foreign me it then scan me (pre ++ [it]) todo true s
    else if executing s it then scan me (pre ++ [it]) todo t s
    else Ok (Some it, t) (add_active 1 (set_m_fibers (pre ++ todo) s)).
Proof.
  intros Hit Hal. cbn [scan]. fold (foreign me it). destruct (foreign me it); [done|].
  unfold bind at 1. rewrite Hit. simpl. unfold bind at 1, executing.
  destruct (ft_fiber it) as [f|] eqn:Hf; simpl.
  - unfold bind at 1. rewrite lift_state. destruct (Hal f Hf) as [x Hx]. rewrite Hx. simpl.
    by destruct (bool_decide _).
  - done.
Qed.

Lemma scan_spec me todo : forall pre t s,
  Forall (fun ft => is_task ft = true) todo -> Forall (alive s) todo ->
  (exists l1 it l2, todo = l1 ++ it :: l2 /\ eligible me s it = true /\
     Forall (fun ft => eligible me s ft = false) l1 /\
     scan me pre todo t s = Ok (Some it, t || existsb (foreign me) l1)
                              (add_active 1 (set_m_fibers (pre ++ l1 ++ l2) s))) \/
  (Forall (fun ft => eligible me s ft = false) todo /\
   scan me pre todo t s = Ok (None, t || existsb (foreign me) todo) s).
Proof.
  induction todo as [|it todo IH]; intros pre t s Hts Hal.
  { right. split; [constructor|]. simpl. by rewrite orb_false_r. }
  apply Forall_cons in Hts as [Ht Hts]. apply Forall_cons in Hal as [Ha Hal].
  rewrite (scan_step me pre it todo t s Ht Ha).
  destruct (foreign me it) eqn:Ef; [|destruct (executing s it) eqn:Ex].
  - assert (eligible me s it = false) as El by (unfold eligible; by rewrite Ef).
    destruct (IH (pre ++ [it]) true s Hts Hal) as [(l1 & x & l2 & -> & Hx & Hl & Hrun)|[Hl Hrun]]; rewrite Hrun.
    + left. exists (it :: l1), x, l2. split_and!; [done|done|by constructor|].
      rewrite <- (assoc (++)). simpl. by rewrite Ef, orb_true_r.
    + right. split; [by constructor|]. simpl. by rewrite Ef, orb_true_r.
  - assert (eligible me s it = false) as El by (unfold eligible; by rewrite Ex, andb_false_r).
    destruct (IH (pre ++ [it]) t s Hts Hal) as [(l1 & x & l2 & -> & Hx & Hl & Hrun)|[Hl Hrun]]; rewrite Hrun.
    + left. exists (it :: l1), x, l2. split_and!; [done|done|by constructor|].
      rewrite <- (assoc (++)). simpl. by rewrite Ef.
    + right. split; [by constructor|]. simpl. by rewrite Ef.
  - left. exists [], it, todo. split_and!; [done|unfold eligible; by rewrite Ef, Ex|constructor|].
    simpl. by rewrite orb_false_r.
Qed.

(** Without knowing that the fibers are alive: what a scan that succeeds did. *)
Lemma scan_effect me todo : forall pre t s r t' s',
  m_fibers s = pre ++ todo -> scan me pre todo t s = Ok (r, t') s' ->
  m_active_thread_count s' = match r with
                             | Some _ => u64 (m_active_thread_count s + 1)
                             | None => m_active_thread_count s
                             end /\
  m_idle_thread_count s' = m_idle_thread_count s /\
  (Forall (fun ft => is_task ft = true) (m_fibers s) -> Forall (fun ft => is_task ft = true) (m_fibers s')).
Proof.
  induction todo as [|it todo IH]; intros pre t s r t' s' Hm H.
  { injection H as <- <- <-. by split_and!. }
  assert (m_fibers s = (pre ++ [it]) ++ todo) as Hm' by by rewrite <- (assoc (++)).
  cbn [scan] in H. destruct (_ && _); [by eapply IH|].
  inv_bind H. destruct (is_task it); [|done]. injection H0 as <- <-.
  inv_bind H. assert (s0 = s) as ->.
  { destruct (ft_fiber it); [|by injection H0].
    inv_bind H0. rewrite lift_state in H1. destruct (fibers (fw s) !! n); simplify_eq. by injection H0. }
  destruct y; [by eapply IH|]. injection H as <- <- <-. simpl.
  split_and!; [done|done|]. rewrite Hm. intros Hall. apply Forall_app in Hall as [? Hall].
  apply Forall_cons in Hall as [_ ?]. by apply Forall_app.
Qed.

(** ** The counters *)

(** [shift da di s s']: the counters moved by [da] and [di]. *)
Definition shift (da di : Z) (s s' : sched) : Prop :=
  m_active_thread_count s' = u64 (m_active_thread_count s + da) /\
  m_idle_thread_count s' = u64 (m_idle_thread_count s + di) /\
  (Forall (fun ft => is_task ft = true) (m_fibers s) -> Forall (fun ft => is_task ft = true) (m_fibers s')).
Definition in_range (s : sched) : Prop :=
  u64 (m_active_thread_count s) = m_active_thread_count s /\
  u64 (m_idle_thread_count s) = m_idle_thread_count s.

Lemma shift_range da di s s' : shift da di s s' -> in_range s'.
Proof. intros (E1 & E2 & _). unfold in_range. rewrite E1, E2. split; apply wrap_id, wrap_in_u; lia. Qed.

Lemma shift_trans da di db dj s s1 s2 :
  shift da di s s1 -> shift db dj s1 s2 -> shift (da + db) (di + dj) s s2.
Proof.
  intros (E1 & E2 & E3) (F1 & F2 & F3). unfold shift.
  rewrite F1, F2, E1, E2, !wrap_add_l, <- !Z.add_assoc. auto.
Qed.

(** A command moves the counters by amounts that depend on its result. *)
Definition shifts {A} (m : cmd A) (da di : A -> Z) : Prop :=
  forall s x s', in_range s -> m s = Ok x s' -> shift (da x) (di x) s s'.

Lemma shifts_bind {A B} (m : cmd A) (k : A -> cmd B) da di db dj :
  shifts m da di -> (forall x, shifts (k x) (fun y => db y - da x) (fun y => dj y - di x)) ->
  shifts (bind m k) db dj.
Proof.
  intros Hm Hk s y s' Hr H. inv_bind H. specialize (Hm _ _ _ Hr H0).
  specialize (Hk _ _ _ _ (shift_range _ _ _ _ Hm) H).
  replace (db y) with (da y0 + (db y - da y0)) by lia.
  replace (dj y) with (di y0 + (dj y - di y0)) by lia. by eapply shift_trans.
Qed.

Lemma shifts_quiet {A} (m : cmd A) : quiet m -> shifts m (fun _ => 0) (fun _ => 0).
Proof.
  intros Hm s x s' [Ha Hi] H. destruct (Hm _ _ _ H) as (E1 & E2 & E3).
  unfold shift. by rewrite E1, E2, !Z.add_0_r, Ha, Hi.
Qed.

Lemma shifts_ret {A} (x : A) da di : da x = 0 -> di x = 0 -> shifts (ret x) da di.
Proof.
  intros Ha Hi s y s' [Ra Ri] [= <- <-]. unfold shift. by rewrite Ha, Hi, !Z.add_0_r, Ra, Ri.
Qed.

Lemma shifts_active d : shifts (modify (add_active d)) (fun _ => d) (fun _ => 0).
Proof. intros s x s' [_ Hi] [= <- <-]. unfold shift. simpl. by rewrite Z.add_0_r, Hi. Qed.
Lemma shifts_idle d : shifts (modify (add_idle d)) (fun _ => 0) (fun _ => d).
Proof. intros s x s' [Ha _] [= <- <-]. unfold shift. simpl. by rewrite Z.add_0_r, Ha. Qed.

(** Walks through a command: quiet parts first, the counters where they move. *)
Ltac shifts_step :=
  match goal with
  | |- shifts (ret _) _ _ => apply shifts_ret; simpl; lia
  | |- shifts (bind (modify (add_active _)) _) _ _ => eapply shifts_bind; [apply shifts_active|intros []]
  | |- shifts (bind (modify (add_idle _)) _) _ _ => eapply shifts_bind; [apply shifts_idle|intros []]
  | |- shifts (bind _ _) _ _ => eapply shifts_bind; [apply shifts_quiet; solve [eauto 10 with quiet]|intros ?]
  | |- shifts (if ?b then _ else _) _ _ => destruct b
  end.

Lemma dispatch_shifts me a ft t wk :
  shifts (run_dispatch me a ft t wk)
    (fun wk' => Z.b2z (busy wk') - Z.b2z (bool_decide (ft <> None))) (fun wk' => Z.b2z (idling wk')).
Proof.
  unfold run_dispatch. do 2 shifts_step.
  destruct ft as [[[f|] [cb|] tid]|]; simpl; repeat shifts_step.
Qed.

Lemma after_shifts f k wk :
  shifts (run_after f k wk)
    (fun wk' => Z.b2z (busy wk') - Z.b2z (busy (at_pc (Back_ f k) wk)))
    (fun wk' => Z.b2z (idling wk') - Z.b2z (idling (at_pc (Back_ f k) wk))).
Proof. destruct k; simpl; repeat shifts_step. Qed.

(** ** The invariant of the system *)

Record inv (x : sys) : Prop := {
  inv_active : m_active_thread_count (sc x) = u64 (count busy (workers x));
  inv_idle : m_idle_thread_count (sc x) = u64 (count idling (workers x));
  inv_tasks : Forall (fun ft => is_task ft = true) (m_fibers (sc x))
}.

Lemma inv_in_range x : inv x -> in_range (sc x).
Proof. intros [Ha Hi _]. unfold in_range. rewrite Ha, Hi. split; apply wrap_id, wrap_in_u; lia. Qed.

Lemma inv_quiet s s' ws : same_counts s s' -> inv (Sys s ws) -> inv (Sys s' ws).
Proof. intros (E1 & E2 & E3) []. split; simpl in *; [congruence|congruence|auto]. Qed.

Lemma inv_shift s s' ws me wk wk' :
  inv (Sys s ws) -> ws !! me = Some wk ->
  shift (Z.b2z (busy wk') - Z.b2z (busy wk)) (Z.b2z (idling wk') - Z.b2z (idling wk)) s s' ->
  inv (Sys s' (<[me := wk']> ws)).
Proof.
  intros [Ha Hi Ht] Hw (E1 & E2 & E3). split; simpl in *.
  - rewrite E1, Ha, wrap_add_l, (count_insert busy ws me wk) by done. f_equal. lia.
  - rewrite E2, Hi, wrap_add_l, (count_insert idling ws me wk) by done. f_equal. lia.
  - auto.
Qed.

Lemma in_back f k wk : w_pc wk = In f k ->
  busy (at_pc (Back_ f k) wk) = busy wk /\ idling (at_pc (Back_ f k) wk) = idling wk.
Proof. unfold busy, idling. simpl. by intros ->. Qed.

Lemma run_enter_top me a1 a2 s wk s' : run_enter me a1 a2 s = Ok wk s' -> wk = Worker Top None a2.
Proof. intros H. unfold run_enter in H. repeat inv_bind H. by injection H. Qed.

Lemma at_pc_id wk p : w_pc wk = p -> at_pc p wk = wk.
Proof. intros <-. by destruct wk. Qed.

Lemma sched_step x y : inv x -> step x y -> inv y.
Proof.
  intros Hi Hst. pose proof (inv_in_range x Hi) as Hr. destruct Hst; simpl in *.
  - pose proof (run_enter_top _ _ _ _ _ _ H0) as ->. apply quiet_run_enter in H0.
    destruct Hi as [Ha Hd Ht], H0 as (E1 & E2 & E3). split; simpl in *.
    + rewrite E1, Ha, count_insert_new by done. f_equal. simpl. lia.
    + rewrite E2, Hd, count_insert_new by done. f_equal. simpl. lia.
    + auto.
  - unfold pick, bind, gets in H1. apply scan_effect in H1 as (E1 & E2 & E3); [|done].
    eapply inv_shift; [done..|]. destruct Hr as [Ra Ri]. unfold shift.
    rewrite E1, E2. unfold busy, idling. simpl. rewrite H0.
    destruct ft; simpl; rewrite !Z.add_0_r, ?Ra, ?Ri; auto.
  - eapply inv_shift; [done..|].
    pose proof (dispatch_shifts me a ft t wk _ _ _ Hr H1) as S. 
    unfold busy at 2, idling at 2. rewrite H0. destruct ft; simpl in *; rewrite ?Z.sub_0_r in *; done.
  - eapply inv_shift; [done..|]. destruct (in_back f k wk H0) as [-> ->]. rewrite !Z.sub_diag.
    by apply (shifts_quiet _ (quiet_lift _) _ _ _ Hr H2).
  - eapply inv_shift; [done..|]. destruct (in_back f OfIdle wk H0) as [-> ->]. rewrite !Z.sub_diag.
    by apply (shifts_quiet _ (quiet_idle _ _) _ _ _ Hr H1).
  - eapply inv_shift; [done..|]. pose proof (after_shifts f k wk _ _ _ Hr H1) as S.
    by rewrite (at_pc_id wk _ H0) in S.
  - eapply inv_quiet; [|done]. by eapply quiet_schedule.
  - eapply inv_quiet; [|done]. by eapply quiet_schedule_range.
  - eapply inv_quiet; [|done]. by eapply quiet_start.
  - eapply inv_quiet; [|done]. by eapply quiet_stop_begin.
  - eapply inv_quiet; [|done]. by eapply quiet_stop_end.
  - eapply inv_quiet; [|done]. by eapply quiet_lift.
Qed.

Lemma sched_reachable x : reachable x -> inv x.
Proof.
  induction 1 as [w me a1 a2 n uc s H|x y Hr IH Hst]; [|by eapply sched_step].
  apply quiet_Scheduler in H as (E1 & E2 & E3). split; simpl.
  - by rewrite E1.
  - by rewrite E2.
  - apply E3. constructor.
Qed.

(** ** One task on one worker *)

Lemma lift_ok {A} (m : Prelude.cmd (Fiber.world code) A) s x w :
  m (fw s) = Ok x w -> lift m s = Ok x (set_fw w s).
Proof. unfold lift. by intros ->. Qed.

Lemma lift_state_ok f s x : fibers (fw s) !! f = Some x -> lift (state f) s = Ok (m_state x) s.
Proof. intros H. by rewrite lift_state, H. Qed.

Lemma lift_set_state_ok f v s x :
  fibers (fw s) !! f = Some x ->
  lift (set_state f v) s = Ok tt (set_fw (set_fibers (<[f := with_state v x]> (fibers (fw s))) (fw s)) s).
Proof. intros H. apply lift_ok. by apply set_state_eq. Qed.

(** The state a task's fiber is in when the iteration is over, if no other
    thread touched it. *)
Lemma at_main_update me m f x (w : Fiber.world code) :
  at_main me m w -> is_Some (fibers w !! f) ->
  at_main me m (set_fibers (<[f := x]> (fibers w)) w).
Proof.
  intros (H1 & H2 & H3 & H4) Hf. split_and!; try done. simpl. rewrite lookup_insert. by case_decide.
Qed.

Definition settled (k : kind) (f : nat) (h : handback) (x : fiber code) : fiber code :=
  match k, h with
  | OfCb, Done_ _ => with_state INIT (with_ctx (Start MainFunc_) (with_cb None (left_as f h x)))
  | _, _ => left_as f h x
  end.

Lemma run_after_ok me m f k h x wk s :
  k <> OfIdle -> at_main me m (fw s) -> m_stack x = true ->
  fibers (fw s) !! f = Some (left_as f h x) ->
  exists wk' s', run_after f k wk s = Ok wk' s' /\ w_pc wk' = Top /\ at_main me m (fw s') /\
    m_active_thread_count s' = u64 (m_active_thread_count s - 1) /\
    m_fibers s' = m_fibers s ++ match h with ToReady => [FiberAndThread_ (Some f) None (-1)] | _ => [] end /\
    fibers (fw s') !! f = Some (settled k f h x) /\
    (k = OfCb -> cb_fiber wk' = match h with Done_ _ => cb_fiber wk | _ => None end).
Proof.
  intros Hk Hmain Hstack Hf.
  assert (lift (state f) (add_active (-1) s) = Ok (m_state (left_as f h x)) (add_active (-1) s)) as Hst
    by by apply lift_state_ok.
  assert (forall s0 : sched, m_fibers s0 ++ [] = m_fibers s0) as Happ by (intros; apply app_nil_r).
  assert (is_Some (fibers (fw s) !! f)) as Hlive by by eexists.
  destruct h as [| |o].
  - (* READY: queued again *)
    assert (forall wk0 : worker, (schedule (FiberAndThread_ (Some f) None (-1)) ;;; ret wk0) (add_active (-1) s) =
      Ok wk0 (let s1 := set_m_fibers (m_fibers s ++ [FiberAndThread_ (Some f) None (-1)]) (add_active (-1) s) in
              if bool_decide (m_fibers s = []) then add_tickle s1 else s1)) as Hsch.
    { intros wk0. unfold schedule, schedule_, scheduleNoLock, bind, gets, modify, ret, tickle, modify. simpl.
      by destruct (bool_decide (m_fibers s = [])). }
    destruct k; [| |done]; simpl; unfold bind at 1; simpl; unfold bind at 1; rewrite Hst; simpl; rewrite Hsch;
      (eexists _, _; split; [done|]); destruct (bool_decide _); split_and!; try done.
  - (* HOLD *)
    pose proof (lift_set_state_ok f HOLD (add_active (-1) s) _ Hf) as Hset.
    destruct k; [| |done]; simpl; unfold bind at 1; simpl; unfold bind at 1; rewrite Hst; simpl;
      unfold bind; rewrite Hset; (eexists _, _; split; [done|]); simpl; rewrite lookup_insert_eq, Happ;
      split_and!; try done; by apply at_main_update.
  - (* TERM or ERROR *)
    assert (resettable (m_state (left_as f (Done_ o) x)) = true /\
      m_state (left_as f (Done_ o) x) <> READY /\
      negb (bool_decide (m_state (left_as f (Done_ o) x) = TERM)) &&
      negb (bool_decide (m_state (left_as f (Done_ o) x) = ERROR)) = false /\
      bool_decide (m_state (left_as f (Done_ o) x) = ERROR) ||
      bool_decide (m_state (left_as f (Done_ o) x) = TERM) = true /\
      m_stack (left_as f (Done_ o) x) = true) as (Hre & Hnr & Hnt & Hte & Hsk).
    { simpl. by destruct (cb_outcome (m_cb x) o). }
    remember (left_as f (Done_ o) x) as y eqn:Hy.
    destruct k; [| |done]; simpl; unfold bind at 1; simpl; unfold bind at 1; rewrite Hst; simpl;
      rewrite bool_decide_false by done.
    + rewrite Hnt. eexists _, _; split; [done|]. simpl. rewrite Happ. split_and!; try done.
      by rewrite Hf, Hy.
    + rewrite Hte. unfold bind. erewrite lift_ok; cycle 1.
      { simpl. unfold Fiber.reset, bind. erewrite get_fiber_eq by done. rewrite Hsk, Hre. done. }
      eexists _, _; split; [done|]. simpl. rewrite lookup_insert_eq, Happ.
      split_and!; try done; [by apply at_main_update|by rewrite Hy].
Qed.

(** The fiber that a task runs in, and its object when it is switched to: the
    task's own fiber, the worker's spare fiber, or a new one at [a]. *)
Inductive runs_in (a : nat) (wk : worker) (s : sched) : FiberAndThread -> kind -> nat -> fiber code -> Prop :=
  | runs_fiber f co tid x :
      fibers (fw s) !! f = Some x -> m_state x <> EXEC -> resumable f x -> m_stack x = true ->
      runs_in a wk s (FiberAndThread_ (Some f) co tid) OfFiber f x
  | runs_spare cb tid c y :
      cb_fiber wk = Some c -> fibers (fw s) !! c = Some y -> m_stack y = true ->
      resettable (m_state y) = true ->
      runs_in a wk s (FiberAndThread_ None (Some cb) tid) OfCb c
        (with_state INIT (with_ctx (Start MainFunc_) (with_cb (Some (User cb)) y)))
  | runs_new cb tid :
      cb_fiber wk = None -> fibers (fw s) !! a = None ->
      runs_in a wk s (FiberAndThread_ None (Some cb) tid) OfCb a
        (Fiber_ (u64 (s_fiber_id (fw s) + 1)) (u32 g_fiber_stack_size) INIT (Start MainFunc_) true
           (Some (User cb))).

Lemma runs_in_stack a wk s ft k f x : runs_in a wk s ft k f x -> m_stack x = true.
Proof. by destruct 1. Qed.

Lemma lift_swapIn_ok me m f x s :
  at_main me m (fw s) -> f <> m -> fibers (fw s) !! f = Some x -> m_state x <> EXEC -> resumable f x ->
  exists w, lift (swapIn me f) s = Ok tt (set_fw w s) /\ at_fiber me m f w /\
    fibers w !! f = Some (with_state EXEC x).
Proof.
  intros Hm Hne Hf Hs Hr. destruct (swapIn_ok me m f (fw s) x Hm Hne Hf Hs Hr) as (w & Hrun & Hat & _ & Hx & _).
  exists w. split; [by apply lift_ok|done].
Qed.

Lemma dispatch_ok me m a ft k f x t wk s :
  at_main me m (fw s) -> runs_in a wk s ft k f x -> f <> m ->
  exists wk' s', run_dispatch me a (Some ft) t wk s = Ok wk' s' /\ w_pc wk' = In f k /\
    at_fiber me m f (fw s') /\ fibers (fw s') !! f = Some (with_state EXEC x) /\
    m_active_thread_count s' = m_active_thread_count s /\ m_fibers s' = m_fibers s /\
    (k = OfCb -> cb_fiber wk' = Some f).
Proof.
  intros Hmain Hrun Hne. set (s0 := if t then add_tickle s else s).
  assert (fw s0 = fw s /\ m_active_thread_count s0 = m_active_thread_count s /\ m_fibers s0 = m_fibers s)
    as (Ew & Ea & Ef) by (unfold s0; by destruct t).
  assert ((if t then tickle else ret tt) s = Ok tt s0) as Et by (unfold s0; by destruct t).
  rewrite <- Ew in Hmain.
  destruct Hrun as [f co tid x Hf Hs Hr Hsk|cb tid c y Hc Hy Hsk Hre|cb tid Hc Hn]; rewrite <- Ew in *.
  - unfold run_dispatch, bind at 1. rewrite Et. cbn [mbind option_bind ft_fiber ft_cb].
    unfold bind at 1 2. rewrite (lift_state_ok f s0 x Hf). unfold ret at 1.
    replace (negb (bool_decide (m_state x = TERM)) || negb (bool_decide (m_state x = ERROR))) with true
      by (by destruct (m_state x)).
    destruct (lift_swapIn_ok me m f x s0 Hmain Hne Hf Hs Hr) as (w & Hsw & Hat & Hx).
    destruct co; unfold bind; rewrite Hsw; (eexists _, _; split; [done|]); by split_and!.
  - unfold run_dispatch, bind at 1. rewrite Et. cbn [mbind option_bind ft_fiber ft_cb].
    unfold bind at 1, ret at 1. rewrite Hc. unfold bind at 1 2.
    set (x := with_state INIT (with_ctx (Start MainFunc_) (with_cb (Some (User cb)) y))) in *.
    set (s1 := set_fw (set_fibers (<[c := x]> (fibers (fw s0))) (fw s0)) s0).
    assert (lift (Fiber.reset c (Some (User cb))) s0 = Ok tt s1) as ->.
    { apply lift_ok. unfold Fiber.reset, bind. rewrite (get_fiber_eq _ _ _ Hy), Hsk, Hre. done. }
    destruct (lift_swapIn_ok me m c x s1) as (w & Hsw & Hat & Hx); try done.
    { apply at_main_update; [done|by eexists]. }
    { simpl. by rewrite lookup_insert_eq. }
    { right. by eexists. }
    unfold ret at 1, bind. rewrite Hsw. eexists _, _. split; [done|]. by split_and!.
  - unfold run_dispatch, bind at 1. rewrite Et. cbn [mbind option_bind ft_fiber ft_cb].
    unfold bind at 1, ret at 1. rewrite Hc. unfold bind at 1 2.
    match goal with |- context [Fiber_ ?i ?n INIT (Start MainFunc_) true (Some (User cb))] =>
      set (x := Fiber_ i n INIT (Start MainFunc_) true (Some (User cb))) in * end.
    set (s1 := set_fw (set_fibers (<[a := x]> (fibers (fw s0)))
      (set_ids (u64 (s_fiber_id (fw s0) + 1)) (u64 (s_fiber_count (fw s0) + 1)) (fw s0))) s0).
    assert (lift (new_fiber g_fiber_stack_size a (Some (User cb)) 0 false) s0 = Ok tt s1) as -> by by apply lift_ok.
    destruct (lift_swapIn_ok me m a x s1) as (w & Hsw & Hat & Hx); try done.
    { destruct Hmain as (H1 & H2 & H3 & H4). split_and!; try done. simpl.
      rewrite lookup_insert. by case_decide. }
    { simpl. by rewrite lookup_insert_eq. }
    { right. by eexists. }
    unfold ret at 1, bind. rewrite Hsw. eexists _, _. split; [done|]. by split_and!.
Qed.

(** ** Properties *)

(** C12: in every interleaving of the workers' sections, of fibers giving up
    control and of calls to [schedule], [start] and [stop],
    [m_active_thread_count] is the number of workers that hold or run a task,
    [m_idle_thread_count] the number in their idle fiber (both modulo 2^64, and
    never below 0), and the queue holds only entries with a fiber or a callback,
    so the assertion of the scan never fails. *)
Theorem sched_counters x :
  reachable x ->
  m_active_thread_count (sc x) = u64 (count busy (workers x)) /\
  m_idle_thread_count (sc x) = u64 (count idling (workers x)) /\
  Forall (fun ft => is_task ft = true) (m_fibers (sc x)).
Proof. intros []%sched_reachable. by split_and!. Qed.

(** The critical section of [run] takes the first task in the queue that is
    not bound to another thread and whose fiber no thread executes, leaves the
    others in order, and reports [tickle_me] exactly when it passed over a task
    bound to another thread; when no task qualifies it changes nothing. *)
Theorem pick_outcome me s ws :
  reachable (Sys s ws) -> Forall (alive s) (m_fibers s) ->
  (exists l1 it l2, m_fibers s = l1 ++ it :: l2 /\ eligible me s it = true /\
     Forall (fun ft => eligible me s ft = false) l1 /\
     pick me s = Ok (Some it, existsb (foreign me) l1) (add_active 1 (set_m_fibers (l1 ++ l2) s))) \/
  (Forall (fun ft => eligible me s ft = false) (m_fibers s) /\
   pick me s = Ok (None, existsb (foreign me) (m_fibers s)) s).
Proof.
  intros [_ _ Ht]%sched_reachable Hal. unfold pick, bind, gets.
  by apply (scan_spec me (m_fibers s) [] false s).
Qed.


(** C34: when the idle fiber of a worker gets control it ends exactly when at that
    moment [stop] has been asked for, the queue is empty and no worker holds or
    runs a task; otherwise it puts itself on hold; in both cases the worker's main
    fiber runs again.  (What is scheduled after that moment, before the worker
    leaves its loop, is not covered.) *)
Theorem idle_outcome me m f x a s ws :
  reachable (Sys s ws) -> count busy ws < 2 ^ 64 ->
  at_fiber me m f (fw s) -> f <> m -> fibers (fw s) !! f = Some x -> m_cb x = Some Idle ->
  exists s', idle me a s = Ok tt s' /\ at_main me m (fw s') /\
    fibers (fw s') !! f = Some (left_as f (if stopping s then Done_ Returns else ToHold) x) /\
    (m_state <$> fibers (fw s') !! f = Some TERM <->
       m_autostop s = true /\ m_stop s = true /\ m_fibers s = [] /\
       forall t wk, ws !! t = Some wk -> busy wk = false).
Proof.
  intros [Ha _ _]%sched_reachable Hsz Hat Hne Hx Hcb. simpl in Ha.
  set (h := if stopping s then Done_ Returns else ToHold).
  destruct (hand_back_ok me m f (fw s) x h a Hat Hne Hx) as (w & Hrun & Hmain & _ & Hf).
  exists (set_fw w s). split_and!; [|done|done|].
  - unfold idle, bind, gets. pose proof (lift_ok (hand_back me a h) s tt w Hrun) as Hl.
    unfold h in Hl. by destruct (stopping s).
  - simpl. rewrite Hf. simpl.
    assert (m_active_thread_count s = 0 <-> forall t wk, ws !! t = Some wk -> busy wk = false) as Hz.
    { rewrite Ha, wrap_id by (pose proof (count_nonneg busy ws); unfold in_u; lia). split.
      - intros Hz t wk. by apply count_zero.
      - intros Hall. unfold count.
        assert (filter (fun kv : nat * worker => busy kv.2 = true) ws = ∅) as ->; [|done].
        apply map_empty. intros t. apply map_lookup_filter_None_2. right.
        intros wk Hw. simpl. by rewrite (Hall t wk Hw). }
    rewrite <- Hz. unfold h. destruct (stopping s) eqn:E; unfold stopping in E; simpl; rewrite ?Hcb; simpl.
    + apply andb_true_iff in E as [E E4]. apply andb_true_iff in E as [E E3].
      apply andb_true_iff in E as [E1 E2]. apply bool_decide_eq_true in E3. apply Z.eqb_eq in E4.
      split; [done|done].
    + split; [done|]. intros (E1 & E2 & E3 & E4). rewrite E1, E2, E4, bool_decide_true in E by done. done.
Qed.

(** ** Running a schedule of steps *)

Inductive label :=
  | LEnter (me a1 a2 : nat)
  | LPick (me : nat)
  | LDispatch (me a : nat)
  | LHandBack (me a : nat) (h : handback)
  | LIdle (me a : nat)
  | LAfter (me : nat)
  | LSchedule (ft : FiberAndThread)
  | LFiber (o : Fiber.op (K := code)).

Definition keep_ws {A} (r : res sched A) (ws : gmap nat worker) (k : A -> gmap nat worker) : option sys :=
  match r with Ok x s => Some (Sys s (k x)) | _ => None end.

Definition do_label (l : label) (x : sys) : option sys :=
  let '(Sys s ws) := x in
  match l with
  | LEnter me a1 a2 =>
    match ws !! me with
    | None => keep_ws (run_enter me a1 a2 s) ws (fun wk => <[me := wk]> ws)
    | Some _ => None
    end
  | LPick me =>
    match ws !! me with
    | Some (Worker Top c i) =>
      keep_ws (pick me s) ws (fun '(ft, t) => <[me := Worker (Picked ft t) c i]> ws)
    | _ => None
    end
  | LDispatch me a =>
    match ws !! me with
    | Some (Worker (Picked ft t) c i) =>
      keep_ws (run_dispatch me a ft t (Worker (Picked ft t) c i) s) ws (fun wk => <[me := wk]> ws)
    | _ => None
    end
  | LHandBack me a h =>
    match ws !! me with
    | Some (Worker (In f OfFiber) c i) =>
      keep_ws (lift (hand_back me a h) s) ws (fun _ => <[me := Worker (Back_ f OfFiber) c i]> ws)
    | Some (Worker (In f OfCb) c i) =>
      keep_ws (lift (hand_back me a h) s) ws (fun _ => <[me := Worker (Back_ f OfCb) c i]> ws)
    | _ => None
    end
  | LIdle me a =>
    match ws !! me with
    | Some (Worker (In f OfIdle) c i) =>
      keep_ws (idle me a s) ws (fun _ => <[me := Worker (Back_ f OfIdle) c i]> ws)
    | _ => None
    end
  | LAfter me =>
    match ws !! me with
    | Some (Worker (Back_ f k) c i) =>
      keep_ws (run_after f k (Worker (Back_ f k) c i) s) ws (fun wk => <[me := wk]> ws)
    | _ => None
    end
  | LSchedule ft => keep_ws (schedule ft s) ws (fun _ => ws)
  | LFiber o => keep_ws (lift (Fiber.run_op o) s) ws (fun _ => ws)
  end.

Definition run_labels (ls : list label) (x : sys) : option sys :=
  fold_left (fun y l => y ≫= do_label l) ls (Some x).

Lemma do_label_step l x y : do_label l x = Some y -> step x y.
Proof.
  destruct x as [s ws]. destruct l as [me a1 a2|me|me a|me a h|me a|me|ft|o]; simpl; intros H.
  - destruct (ws !! me) eqn:Hw; [done|]. destruct (run_enter me a1 a2 s) eqn:E; simplify_eq/=.
    by eapply s_enter.
  - destruct (ws !! me) as [[[] c i]|] eqn:Hw; try done.
    destruct (pick me s) as [[ft t] ?|?|?] eqn:E; simplify_eq/=. by eapply (s_pick me _ _ _ (Worker Top c i)).
  - destruct (ws !! me) as [[[|ft t| | |] c i]|] eqn:Hw; try done.
    destruct (run_dispatch _ _ _ _ _ _) eqn:E; simplify_eq/=. by eapply s_dispatch.
  - destruct (ws !! me) as [[[| |f []| |] c i]|] eqn:Hw; try done.
    all: destruct (lift (hand_back me a h) s) as [[]| |] eqn:E; simplify_eq/=.
    + by eapply (s_give_up me a h _ _ _ (Worker (In f OfFiber) c i)).
    + by eapply (s_give_up me a h _ _ _ (Worker (In f OfCb) c i)).
  - destruct (ws !! me) as [[[| |f []| |] c i]|] eqn:Hw; try done.
    destruct (idle me a s) as [[]| |] eqn:E; simplify_eq/=.
    by eapply (s_idle me a _ _ _ (Worker (In f OfIdle) c i)).
  - destruct (ws !! me) as [[[| | |f k|] c i]|] eqn:Hw; try done.
    destruct (run_after _ _ _ _) eqn:E; simplify_eq/=. by eapply s_after.
  - destruct (schedule ft s) as [[]| |] eqn:E; simplify_eq/=. by eapply s_schedule.
  - destruct (lift (Fiber.run_op o) s) as [[]| |] eqn:E; simplify_eq/=. by eapply s_fiber.
Qed.

Lemma run_labels_reachable ls : forall x y, reachable x -> run_labels ls x = Some y -> reachable y.
Proof.
  unfold run_labels. induction ls as [|l ls IH]; intros x y Hx H; simpl in H; [by simplify_eq|].
  destruct (do_label l x) as [z|] eqn:E; simpl in H.
  - eapply IH; [|exact H]. eapply reach_step; [exact Hx|by eapply do_label_step].
  - clear -H. exfalso. induction ls as [|l ls IH]; simpl in H; [done|]. by apply IH.
Qed.

End scheduler.
Arguments sched : clear implicits.
Arguments code : clear implicits.
Arguments FiberAndThread : clear implicits.

(** ** Witnesses *)

(** A scheduler whose workers 0 and 1 have entered [run], with a client fiber at
    address 50. *)
Definition fresh_system : sys (K := nat) :=
  match Scheduler 1024 9 1 2 2 false (empty_sched (World ∅ 0 0 ∅)) with
  | Ok _ s => Sys s ∅
  | _ => Sys (empty_sched (World ∅ 0 0 ∅)) ∅
  end.
Definition started : list (label (K := nat)) :=
  [LEnter 0 10 11; LEnter 1 20 21; LFiber (NewFiber 1024 50 (Some (User 7%nat)) 0 false)].
Definition task : FiberAndThread nat := FiberAndThread_ (Some 50%nat) None (-1).
Definition system (ls : list label) : sys := default fresh_system (run_labels 1024 ls fresh_system).

Lemma reachable_fresh : reachable 1024 fresh_system.
Proof. by eapply (reach_init 1024 (World ∅ 0 0 ∅) 9 1 2 2 false). Qed.

Lemma reachable_system ls : is_Some (run_labels 1024 ls fresh_system) -> reachable 1024 (system ls).
Proof.
  intros [x Hx]. unfold system. rewrite Hx. eapply run_labels_reachable; [apply reachable_fresh|exact Hx].
Qed.

Lemma sched_counters_witness :
  let x := system (started ++ [LSchedule task; LPick 0]) in
  reachable 1024 x /\ m_active_thread_count (sc x) = 1 /\
  m_active_thread_count (sc x) = u64 (count busy (workers x)).
Proof.
  intros x. assert (reachable 1024 x) as Hr by (apply reachable_system; vm_compute; by eexists).
  split; [exact Hr|]. split; [by vm_compute|]. apply (sched_counters 1024 x Hr).
Defined.

Lemma pick_outcome_witness :
  let x := system (started ++ [LSchedule task]) in
  reachable 1024 x /\ Forall (alive (sc x)) (m_fibers (sc x)) /\
  pick 0 (sc x) = Ok (Some task, false) (add_active 1 (set_m_fibers [] (sc x))).
Proof.
  intros x. assert (reachable 1024 x) as Hr by (apply reachable_system; vm_compute; by eexists).
  assert (Forall (alive (sc x)) (m_fibers (sc x))) as Hal.
  { vm_compute. constructor; [|constructor]. intros f [= <-]. by eexists. }
  split; [exact Hr|]. split; [exact Hal|].
  destruct (pick_outcome 1024 0 (sc x) (workers x)) as [(l1 & it & l2 & Hq & _ & _ & Hp)|[_ Hp]].
  - by destruct x.
  - exact Hal.
  - rewrite Hp. vm_compute in Hq. destruct l1 as [|y [|z l1]]; simpl in Hq; [|discriminate Hq|discriminate Hq].
    injection Hq as <- <-. vm_compute. reflexivity.
  - exfalso. vm_compute in Hp. discriminate Hp.
Defined.


Lemma idle_outcome_witness :
  let x := system (started ++ [LPick 0; LDispatch 0 99]) in
  reachable 1024 x /\ at_fiber 0 10 11 (fw (sc x)) /\
  exists s', idle 0 98 (sc x) = Ok tt s' /\ m_state <$> fibers (fw s') !! 11%nat = Some HOLD.
Proof.
  intros x. assert (reachable 1024 x) as Hr by (apply reachable_system; vm_compute; by eexists).
  assert (at_fiber 0 10 11 (fw (sc x))) as Hat by (vm_compute; split_and!; [reflexivity..|by eexists|by eexists]).
  split; [exact Hr|]. split; [exact Hat|].
  destruct (idle_outcome 1024 0 10 11 (Fiber_ 1 1024 EXEC (Start MainFunc_) true (Some Idle)) 98
    (sc x) (workers x)) as (s' & H & _ & Hf & _); [by destruct x|by vm_compute|exact Hat|lia|by vm_compute|done|].
  exists s'. split; [exact H|]. rewrite Hf. by vm_compute.
Defined.

(** The test [state != TERM || state != ERROR] always holds, so a fiber that was
    queued twice and has finished is switched to again, and fails the assertion
    at the end of [MainFunc]. *)
Example finished_fiber_resumed :
  let x := system (started ++ [LSchedule task; LSchedule task; LPick 0; LDispatch 0 99;
                               LHandBack 0 98 (Done_ Returns); LAfter 0; LPick 0]) in
  reachable 1024 x /\
  run_dispatch 1024 0 97 (Some task) false (Worker (Picked (Some task) false) None 11) (sc x) = Fail_ AssertFail.
Proof.
  intros x. split; [apply reachable_system; vm_compute; by eexists|by vm_compute].
Qed.

(** After a fiber has yielded, its worker still sets it to HOLD, although by then
    another worker may execute it; when it is queued once more, a second worker
    switches to it while the first one runs it. *)
Example fiber_runs_twice :
  let x := system (started ++
    [LSchedule task; LPick 0; LDispatch 0 99;                 (* worker 0 runs it *)
     LSchedule task; LHandBack 0 98 ToHold; LPick 1; LDispatch 1 97;   (* it moves to worker 1 *)
     LAfter 0;                                                 (* worker 0: state(HOLD) *)
     LSchedule task; LPick 0; LDispatch 0 96]) in
  reachable 1024 x /\
  w_pc <$> workers x !! 0%nat = Some (In 50 OfFiber) /\ w_pc <$> workers x !! 1%nat = Some (In 50 OfFiber).
Proof.
  intros x. split; [apply reachable_system; vm_compute; by eexists|split; by vm_compute].
Qed.
End Scheduler.
