(* ===== verification/IOManager.v ===== *)
(** * The I/O manager: src/src/iomanager.h, src/src/iomanager.cpp

    [IOManager] is a [Scheduler] and a [TimerManager]; its state holds theirs, a
    table of descriptor contexts and a count of pending events.  The kernel is
    outside: the result of each [epoll_ctl] call and the events [epoll_wait]
    returns are arguments, the successful [epoll_ctl] calls are recorded in
    order, and the bytes in the wake-up pipe are counted. *)

From stdpp Require Import prelude gmap.
From Stdlib Require Import ZArith Lia.
From S2P Require Import Prelude Timer Fiber Scheduler.

Module IOManager.
Import Scheduler.
Local Open Scope Z_scope.

(** [IOManager::Event] and the flags of <sys/epoll.h>. *)
Definition NONE : Z := 0.
Definition READ : Z := 1.
Definition WRITE : Z := 4.
Definition EPOLLIN : Z := 1.
Definition EPOLLOUT : Z := 4.
Definition EPOLLERR : Z := 8.
Definition EPOLLHUP : Z := 16.
Definition EPOLLET : Z := 2 ^ 31.

Inductive ctl := EPOLL_CTL_ADD | EPOLL_CTL_MOD | EPOLL_CTL_DEL.
#[export] Instance ctl_eq_dec : EqDecision ctl.
Proof. solve_decision. Defined.

(** [Scheduler *scheduler] of a context: [new FdContext] leaves it without a
    value. *)
Inductive sptr := Garbage | Null | This.
#[global] Instance sptr_eq_dec : EqDecision sptr.
Proof. solve_decision. Defined.

Section iomanager.
Context {K W : Type}.
Abbreviation callback := (Timer.callback K W).

Record EventContext := EventContext_ {
  scheduler : sptr;
  fiber : option nat;
  cb : option callback
}.
Record FdContext := FdContext_ {
  fd : Z;
  read : EventContext;
  write : EventContext;
  events : Z
}.
Record iom := IOM {
  sched : Scheduler.sched callback;
  timers : Timer.manager K W;
  m_pendingEventCount : Z;
  m_fdContexts : list FdContext;
  ctls : list (ctl * Z * Z);     (* successful epoll_ctl calls: op, fd, events *)
  pipe : nat                     (* bytes in the wake-up pipe *)
}.
Abbreviation cmd := (Prelude.cmd iom).

Definition set_sched v s := IOM v (timers s) (m_pendingEventCount s) (m_fdContexts s) (ctls s) (pipe s).
Definition set_timers v s := IOM (sched s) v (m_pendingEventCount s) (m_fdContexts s) (ctls s) (pipe s).
Definition add_pending d s :=
  IOM (sched s) (timers s) (u64 (m_pendingEventCount s + d)) (m_fdContexts s) (ctls s) (pipe s).
Definition set_fdContexts v s := IOM (sched s) (timers s) (m_pendingEventCount s) v (ctls s) (pipe s).
Definition add_ctl c s :=
  IOM (sched s) (timers s) (m_pendingEventCount s) (m_fdContexts s) (ctls s ++ [c]) (pipe s).
Definition set_pipe v s := IOM (sched s) (timers s) (m_pendingEventCount s) (m_fdContexts s) (ctls s) v.

Definition in_sched {A} (m : Prelude.cmd (Scheduler.sched callback) A) : cmd A :=
  fun s => match m (sched s) with
           | Ok x v => Ok x (set_sched v s)
           | Throw e v => Throw e (set_sched v s)
           | Fail_ f => Fail_ f
           end.
Definition in_timers {A} (m : Prelude.cmd (Timer.manager K W) A) : cmd A :=
  fun s => match m (timers s) with
           | Ok x v => Ok x (set_timers v s)
           | Throw e v => Throw e (set_timers v s)
           | Fail_ f => Fail_ f
           end.

(** ** Contexts *)

Definition no_ctx (p : sptr) : EventContext := EventContext_ p None None.
Definition new_FdContext (i : nat) : FdContext :=
  FdContext_ (Z.of_nat i) (no_ctx Garbage) (no_ctx Garbage) NONE.

(** [getContext]: [None] fails its assertion. *)
Definition getContext (c : FdContext) (event : Z) : option EventContext :=
  if event =? READ then Some (read c)
  else if event =? WRITE then Some (write c) else None.
Definition setContext (c : FdContext) (event : Z) (v : EventContext) : FdContext :=
  if event =? READ then FdContext_ (fd c) v (write c) (events c)
  else FdContext_ (fd c) (read c) v (events c).
Definition with_events (c : FdContext) (e : Z) : FdContext :=
  FdContext_ (fd c) (read c) (write c) e.
Definition resetContext : EventContext := no_ctx Null.

(** [m_fdContexts.resize(size)] and the loop that fills the new slots. *)
Definition resized (size : nat) (l : list FdContext) : list FdContext :=
  take size l ++ (new_FdContext <$> seq (length l) (size - length l)).
Definition resizeContext (size : nat) : cmd unit :=
  modify (fun s => set_fdContexts (resized size (m_fdContexts s)) s).

(** [m_fdContexts[fd]]: undefined out of range. *)
Definition at_ (fd : Z) : cmd FdContext :=
  fun s => if fd <? 0 then Fail_ Undef else
           match m_fdContexts s !! Z.to_nat fd with
           | Some c => Ok c s
           | None => Fail_ Undef
           end.
Definition put (fd : Z) (c : FdContext) : cmd unit :=
  modify (fun s => set_fdContexts (<[Z.to_nat fd := c]> (m_fdContexts s)) s).

(** ** Waking up *)

(** [IOManager::tickle]. *)
Definition tickle : cmd unit :=
  let* s := gets id in
  if negb (0 <? m_idle_thread_count (sched s)) then ret tt
  else modify (set_pipe (S (pipe s))).
(** The scheduling calls of the base class, which call the virtual [tickle]
    after the lock is released. *)
Definition schedule (ft : FiberAndThread callback) : cmd unit :=
  let* need_tickle := in_sched (scheduleNoLock ft) in
  if need_tickle : bool then tickle else ret tt.
Definition schedule_range (fts : list (FiberAndThread callback)) : cmd unit :=
  let* need_tickle := in_sched (schedule_loop fts false) in
  if need_tickle : bool then tickle else ret tt.
Definition onTimerInsertAtFront : cmd unit := tickle.
(** [addTimer] as the timer manager calls the notification. *)
Definition addTimer (now : Z) (a : nat) (ms : Z) (f : option callback) (recurring : bool) : cmd unit :=
  let* front := in_timers (Timer.addTimer now a ms f recurring) in
  if front : bool then onTimerInsertAtFront else ret tt.

(** ** Events *)

(** [FdContext::triggerEvent]; [schedule(&ctx.cb)] and [schedule(&ctx.fiber)]
    empty the context's member. *)
Definition triggerEvent (fdi event : Z) : cmd unit :=
  let* c := at_ fdi in
  assert_ (negb (Z.land (events c) event =? 0)) ;;;
  let c := with_events c (Z.land (events c) (Z.lnot event)) in
  put fdi c ;;;
  match getContext c event with
  | None => fail AssertFail
  | Some ctx =>
    match scheduler ctx with
    | This =>
      match cb ctx with
      | Some f =>
        put fdi (setContext c event (EventContext_ Null (fiber ctx) None)) ;;;
        schedule (FiberAndThread_ None (Some f) (-1))
      | None =>
        put fdi (setContext c event (EventContext_ Null None (cb ctx))) ;;;
        schedule (FiberAndThread_ (fiber ctx) None (-1))
      end
    | Garbage | Null => fail Undef
    end
  end.

(** A call of [epoll_ctl] that returned [rt]. *)
Definition epoll_ctl (op : ctl) (fdi ev rt : Z) : cmd bool :=
  if rt =? 0 then modify (add_ctl (op, fdi, ev)) ;;; ret true else ret false.

(** The context of a descriptor, the table grown where it is too small. *)
Definition lookup_or_grow (fdi : Z) : cmd FdContext :=
  let* size := gets (fun s => Z.of_nat (length (m_fdContexts s))) in
  if fdi <? s32 size then at_ fdi
  else resizeContext (Z.to_nat (Z.quot (fdi * 3) 2)) ;;; at_ fdi.

(** [addEvent(fd, event, cb)] on thread [me]; [rt] is what [epoll_ctl] returns,
    [a] a fresh address for [Fiber::GetThis].  Its part under the lock of the
    context [c]: *)
Definition register_in (me a : nat) (rt fdi event : Z) (f : option callback) (c : FdContext) : cmd Z :=
  assert_ (Z.land (events c) event =? 0) ;;;
  let op := if events c =? 0 then EPOLL_CTL_ADD else EPOLL_CTL_MOD in
  let* ok := epoll_ctl op fdi (Z.lor EPOLLET (Z.lor (events c) event)) rt in
  if negb ok then ret (-1) else
  modify (add_pending 1) ;;;
  let c := with_events c (Z.lor (events c) event) in
  put fdi c ;;;
  match getContext c event with
  | None => fail AssertFail
  | Some ctx =>
    let* this := in_sched (GetThis_is_this me) in
    let p := if this : bool then This else Null in
    match f with
    | Some _ => put fdi (setContext c event (EventContext_ p (fiber ctx) f)) ;;; ret 0
    | None =>
      let* cur := in_sched (lift (Fiber.GetThis me a)) in
      put fdi (setContext c event (EventContext_ p (Some cur) (cb ctx))) ;;;
      let* st := in_sched (lift (Fiber.state cur)) in
      assert_ (bool_decide (st = Fiber.EXEC)) ;;; ret 0
    end
  end.
Definition addEvent (me a : nat) (rt fdi event : Z) (f : option callback) : cmd Z :=
  let* c := lookup_or_grow fdi in register_in me a rt fdi event f c.

(** [addEvent] in its three critical sections, between which other threads run:
    the test of the size under the read lock, the growth under the write lock,
    the registration under the context's own lock. *)
Definition too_small (fdi : Z) : cmd bool :=
  gets (fun s => negb (fdi <? s32 (Z.of_nat (length (m_fdContexts s))))).
Definition grow_for (fdi : Z) : cmd unit :=
  resizeContext (Z.to_nat (Z.quot (fdi * 3) 2)) ;;; let* _ := at_ fdi in ret tt.
Definition add_to_ctx (me a : nat) (rt fdi event : Z) (f : option callback) : cmd Z :=
  let* c := at_ fdi in register_in me a rt fdi event f c.

(** The guard shared by the three methods that take an event back: the context
    of a descriptor that has one, [None] when the method returns false. *)
Definition find_ctx (fdi : Z) : cmd (option FdContext) :=
  let* size := gets (fun s => Z.of_nat (length (m_fdContexts s))) in
  if s32 size <=? fdi then ret None else let* c := at_ fdi in ret (Some c).

Definition delEvent (rt fdi event : Z) : cmd bool :=
  let* oc := find_ctx fdi in
  match oc with
  | None => ret false
  | Some c =>
    if Z.land (events c) event =? 0 then ret false else
    let new_events := Z.land (events c) (Z.lnot event) in
    let op := if new_events =? 0 then EPOLL_CTL_DEL else EPOLL_CTL_MOD in
    let* ok := epoll_ctl op fdi (Z.lor EPOLLET new_events) rt in
    if negb ok then ret false else
    modify (add_pending (-1)) ;;;
    let c := with_events c new_events in
    match getContext c event with
    | None => fail AssertFail
    | Some _ => put fdi (setContext c event resetContext) ;;; ret true
    end
  end.

Definition cancelEvent (rt fdi event : Z) : cmd bool :=
  let* oc := find_ctx fdi in
  match oc with
  | None => ret false
  | Some c =>
    if Z.land (events c) event =? 0 then ret false else
    let new_events := Z.land (events c) (Z.lnot event) in
    let op := if new_events =? 0 then EPOLL_CTL_DEL else EPOLL_CTL_MOD in
    let* ok := epoll_ctl op fdi (Z.lor EPOLLET new_events) rt in
    if negb ok then ret false else
    triggerEvent fdi event ;;;
    modify (add_pending (-1)) ;;; ret true
  end.

(** One of the two guarded [triggerEvent]s of [cancekAll] and of [idle]. *)
Definition trigger_if (b : bool) (fdi event : Z) : cmd unit :=
  if b then triggerEvent fdi event ;;; modify (add_pending (-1)) else ret tt.

Definition cancekAll (rt fdi : Z) : cmd bool :=
  let* oc := find_ctx fdi in
  match oc with
  | None => ret false
  | Some c =>
    if events c =? 0 then ret false else
    let* ok := epoll_ctl EPOLL_CTL_DEL fdi 0 rt in
    if negb ok then ret false else
    trigger_if (negb (Z.land (events c) READ =? 0)) fdi READ ;;;
    let* c := at_ fdi in
    trigger_if (negb (Z.land (events c) WRITE =? 0)) fdi WRITE ;;;
    let* c := at_ fdi in
    assert_ (events c =? 0) ;;; ret true
  end.

(** ** Idling *)

(** [stopping(timeout)]: the parameter is a copy, so the caller's variable
    keeps its value. *)
Definition stopping (now : Z) : cmd bool :=
  let* timeout := in_timers (Timer.getNextTimer now) in
  gets (fun s => (timeout =? 2 ^ 64 - 1) && (m_pendingEventCount s =? 0) &&
                 Scheduler.stopping (sched s)).

(** The timeout that [idle] passes to [epoll_wait]. *)
Definition epoll_timeout : Z :=
  let MAX_TIMEOUT := 3000 in
  let next_timeout := 0 in
  if negb (next_timeout =? 2 ^ 64 - 1) then Z.min next_timeout MAX_TIMEOUT else MAX_TIMEOUT.

(** What [epoll_wait] reports: the wake-up pipe, or a descriptor's context with
    event flags. *)
Inductive epoll_event := Tickled | Ready (fdi ev : Z).

(** The body of the loop over the reported events; [rt2] is what [epoll_ctl]
    returns. *)
Definition handle_event (e : epoll_event) (rt2 : Z) : cmd unit :=
  match e with
  | Tickled => modify (set_pipe 0)
  | Ready fdi ev =>
    let* c := at_ fdi in
    let ev := if negb (Z.land ev (Z.lor EPOLLERR EPOLLHUP) =? 0)
              then Z.lor ev (Z.lor EPOLLIN EPOLLOUT) else ev in
    let real_events := NONE in
    let real_events := if negb (Z.land ev EPOLLIN =? 0) then Z.lor real_events READ else real_events in
    let real_events := if negb (Z.land ev EPOLLOUT =? 0) then Z.lor real_events WRITE else real_events in
    if Z.land (events c) real_events =? NONE then ret tt else
    let left_events := Z.land (events c) (Z.lnot real_events) in
    let op := if left_events =? 0 then EPOLL_CTL_DEL else EPOLL_CTL_MOD in
    let* ok := epoll_ctl op (fd c) (Z.lor EPOLLET left_events) rt2 in
    if negb ok then ret tt else
    trigger_if (negb (Z.land real_events READ =? 0)) fdi READ ;;;
    trigger_if (negb (Z.land real_events WRITE =? 0)) fdi WRITE
  end.
Fixpoint handle_events (es : list (epoll_event * Z)) : cmd unit :=
  match es with
  | [] => ret tt
  | (e, rt2) :: es => handle_event e rt2 ;;; handle_events es
  end.

(** The callbacks of expired timers are handed to the scheduler. *)
Definition schedule_expired (now : Z) (n : nat) : cmd unit :=
  let* cbs := in_timers (Timer.listExpiredCb now n) in
  if bool_decide (cbs = []) then ret tt
  else schedule_range ((fun f => FiberAndThread_ None f (-1)) <$> cbs).

(** One iteration of [idle] on thread [me], in the idle fiber: the result tells
    whether the loop ended; otherwise the fiber has switched out without
    changing its state. [now1] and [now2] are the clock in [stopping] and in
    [listExpiredCb], [a] and [n] fresh addresses. *)
Definition idle_iter (me a n : nat) (now1 now2 : Z) (es : list (epoll_event * Z)) : cmd bool :=
  let* stopped := stopping now1 in
  if stopped : bool then ret true else
  schedule_expired now2 n ;;;
  handle_events es ;;;
  let* cur := in_sched (lift (Fiber.GetThis me a)) in
  in_sched (lift (Fiber.swapOut me cur false)) ;;; ret false.

(** The constructor after those of the bases: the pipe is registered, 32
    contexts are made; [tickle_fd] is the pipe's reading end. *)
Definition IOManager (sc : Scheduler.sched callback) (tm : Timer.manager K W) (tickle_fd : Z)
    (ids : list nat) : res iom unit :=
  (modify (add_ctl (EPOLL_CTL_ADD, tickle_fd, Z.lor EPOLLIN EPOLLET)) ;;;
   resizeContext 32 ;;;
   in_sched (start ids)) (IOM sc tm 0 [] [] 0).

(** ** The invariant *)

(** The context of a registered event holds a callback or a fiber, not both, and
    a scheduler pointer that was set (to the caller's scheduler, null where the
    caller has none); one of an unregistered event holds neither. *)
Definition wf_ctx (registered : bool) (x : EventContext) : Prop :=
  if registered then scheduler x <> Garbage /\ (fiber x = None <-> cb x <> None)
  else fiber x = None /\ cb x = None.
Definition has (c : FdContext) (event : Z) : bool := negb (Z.land (events c) event =? 0).
Definition wf_fdc (i : nat) (c : FdContext) : Prop :=
  fd c = Z.of_nat i /\ events c ∈ [0; 1; 4; 5] /\
  wf_ctx (has c READ) (read c) /\ wf_ctx (has c WRITE) (write c).

(** How many events are registered. *)
Definition bits (c : FdContext) : Z := Z.b2z (has c READ) + Z.b2z (has c WRITE).
Definition total (l : list FdContext) : Z := foldr (fun c n => bits c + n) 0 l.

(** The interest list of the kernel after a sequence of successful calls, and
    that no call was one the kernel refuses (adding a descriptor that is there,
    changing or deleting one that is not). *)
Definition apply_ctl (m : gmap Z Z) (c : ctl * Z * Z) : gmap Z Z :=
  match c with
  | (EPOLL_CTL_DEL, f, _) => delete f m
  | (_, f, ev) => <[f := ev]> m
  end.
Definition interest (log : list (ctl * Z * Z)) : gmap Z Z := foldl apply_ctl ∅ log.
Definition accepted (m : gmap Z Z) (c : ctl * Z * Z) : Prop :=
  match c with
  | (EPOLL_CTL_ADD, f, _) => m !! f = None
  | (_, f, _) => is_Some (m !! f)
  end.
Definition registered_as (e : Z) : option Z := if e =? 0 then None else Some (Z.lor EPOLLET e).

Record inv (tickle_fd : Z) (s : iom) : Prop := {
  inv_size : (32 <= length (m_fdContexts s))%nat /\ Z.of_nat (length (m_fdContexts s)) < 2 ^ 31;
  inv_wf : forall i c, m_fdContexts s !! i = Some c -> wf_fdc i c;
  inv_pending : m_pendingEventCount s = u64 (total (m_fdContexts s));
  inv_interest : forall i c, m_fdContexts s !! i = Some c -> Z.of_nat i <> tickle_fd ->
    interest (ctls s) !! Z.of_nat i = registered_as (events c);
  inv_outside : forall f, Z.of_nat (length (m_fdContexts s)) <= f -> f <> tickle_fd ->
    interest (ctls s) !! f = None;
  inv_accepted : forall l1 c l2, ctls s = l1 ++ c :: l2 -> c.1.2 <> tickle_fd -> accepted (interest l1) c
}.

Lemma total_app l1 l2 : total (l1 ++ l2) = total l1 + total l2.
Proof. induction l1 as [|c l1 IH]; simpl; [done|]. rewrite IH. lia. Qed.

Lemma total_insert l i c c' :
  l !! i = Some c -> total (<[i := c']> l) = total l - bits c + bits c'.
Proof.
  intros Hi. rewrite <- (take_drop_middle l i c Hi) at 2.
  rewrite insert_take_drop by by eapply lookup_lt_Some. rewrite !total_app. simpl. lia.
Qed.

Lemma bits_nonneg c : 0 <= bits c.
Proof. unfold bits. destruct (has c READ), (has c WRITE); simpl; lia. Qed.

Lemma total_nonneg l : 0 <= total l.
Proof. induction l as [|c l IH]; simpl; [lia|]. pose proof (bits_nonneg c). lia. Qed.

Lemma total_zero l i c : total l = 0 -> l !! i = Some c -> bits c = 0.
Proof.
  intros Ht Hi. rewrite <- (take_drop_middle l i c Hi), total_app in Ht. simpl in Ht.
  pose proof (bits_nonneg c). pose proof (total_nonneg (take i l)).
  pose proof (total_nonneg (drop (S i) l)). lia.
Qed.

Lemma total_new n : forall k, total (new_FdContext <$> seq k n) = 0.
Proof. induction n as [|n IH]; intros k; simpl; [done|]. by rewrite IH. Qed.

Lemma interest_snoc log c : interest (log ++ [c]) = apply_ctl (interest log) c.
Proof. unfold interest. by rewrite foldl_snoc. Qed.

(** ** Growing the table *)

Lemma resized_grow size l : (length l <= size)%nat ->
  length (resized size l) = size /\
  (forall i c, l !! i = Some c -> resized size l !! i = Some c) /\
  (forall i c, resized size l !! i = Some c -> l !! i = Some c \/ ((length l <= i < size)%nat /\ c = new_FdContext i)) /\
  total (resized size l) = total l.
Proof.
  intros Hle. unfold resized. rewrite take_ge by done. split_and!.
  - rewrite length_app, length_fmap, length_seq. lia.
  - intros i c Hi. by apply lookup_app_l_Some.
  - intros i c [Hi|[Hge Hi]]%lookup_app_Some; [by left|right].
    rewrite list_lookup_fmap in Hi. destruct (seq _ _ !! _) as [k|] eqn:Hk; simplify_eq/=.
    apply lookup_seq in Hk as [-> Hlt]. split; [lia|]. f_equal. lia.
  - rewrite total_app, total_new. lia.
Qed.

Lemma wf_new i : wf_fdc i (new_FdContext i).
Proof. split_and!; try done. simpl. set_solver. Qed.

Lemma inv_grow t s size :
  inv t s -> (length (m_fdContexts s) <= size)%nat -> Z.of_nat size < 2 ^ 31 ->
  inv t (set_fdContexts (resized size (m_fdContexts s)) s).
Proof.
  intros [[H1 H2] Hwf Hp Hi Ho Ha] Hle Hlt.
  destruct (resized_grow size (m_fdContexts s) Hle) as (Rl & Rk & Rn & Rt).
  split; simpl.
  - rewrite Rl. lia.
  - intros i c [Hc|[_ ->]]%Rn; [by apply Hwf|apply wf_new].
  - by rewrite Rt.
  - intros i c [Hc|[Hc ->]]%Rn Ht; [by apply Hi|]. apply Ho; [lia|done].
  - intros f Hf Ht. rewrite Rl in Hf. apply Ho; [lia|done].
  - done.
Qed.

Lemma lookup_or_grow_ok t fdi s :
  inv t s -> 0 <= fdi < 2 ^ 30 ->
  exists c s', lookup_or_grow fdi s = Ok c s' /\ inv t s' /\ m_fdContexts s' !! Z.to_nat fdi = Some c /\
    (c = default (new_FdContext (Z.to_nat fdi)) (m_fdContexts s !! Z.to_nat fdi)) /\
    sched s' = sched s /\ timers s' = timers s /\ ctls s' = ctls s /\ pipe s' = pipe s /\
    (forall i x, m_fdContexts s !! i = Some x -> m_fdContexts s' !! i = Some x).
Proof.
  intros Hinv Hfd. pose proof Hinv as [[H1 H2] _ _ _ _ _].
  unfold lookup_or_grow, bind, gets. rewrite swrap_id by (unfold in_s; lia).
  destruct (Z.ltb_spec fdi (Z.of_nat (length (m_fdContexts s)))) as [Hlt|Hge].
  - destruct (lookup_lt_is_Some_2 (m_fdContexts s) (Z.to_nat fdi)) as [c Hc]; [lia|].
    exists c, s. unfold at_. rewrite (proj2 (Z.ltb_ge fdi 0)), Hc by lia. by split_and!.
  - assert (Z.quot (fdi * 3) 2 = (fdi * 3) / 2) as Eq by (apply Z.quot_div_nonneg; lia).
    set (size := Z.to_nat (Z.quot (fdi * 3) 2)).
    assert (fdi < (fdi * 3) / 2 < 2 ^ 31) as Hsz.
    { split; [|apply Z.div_lt_upper_bound; lia].
      assert (fdi + 1 <= fdi * 3 / 2) by (apply Z.div_le_lower_bound; lia). lia. }
    assert (Z.of_nat size = (fdi * 3) / 2) as Es by (unfold size; rewrite Eq; lia).
    destruct (resized_grow size (m_fdContexts s)) as (Rl & Rk & Rn & Rt); [lia|].
    destruct (lookup_lt_is_Some_2 (resized size (m_fdContexts s)) (Z.to_nat fdi)) as [c Hc]; [lia|].
    exists c, (set_fdContexts (resized size (m_fdContexts s)) s).
    unfold resizeContext, modify, at_. rewrite (proj2 (Z.ltb_ge fdi 0)) by lia.
    simpl. fold size. rewrite Hc.
    split_and!; try done.
    + apply inv_grow; [done|lia|lia].
    + rewrite lookup_ge_None_2 by lia. simpl. destruct (Rn _ _ Hc) as [Hx|[_ Hx]]; [|done].
      apply lookup_lt_Some in Hx. lia.
Qed.

(** ** Changing one context

    The state after the context at [i] became [c'], with the matching call of
    [epoll_ctl] and change of the count; the scheduler, timers and pipe are free. *)
Definition updated (i : nat) (c c' : FdContext) (ev : Z) (s s' : iom) : Prop :=
  m_fdContexts s' = <[i := c']> (m_fdContexts s) /\
  m_pendingEventCount s' = u64 (m_pendingEventCount s + (bits c' - bits c)) /\
  ctls s' = ctls s ++
    [(if events c' =? 0 then EPOLL_CTL_DEL else if events c =? 0 then EPOLL_CTL_ADD else EPOLL_CTL_MOD,
      Z.of_nat i, ev)] /\
  (events c' <> 0 -> ev = Z.lor EPOLLET (events c')).

Lemma inv_updated t i c c' ev s s' :
  inv t s -> m_fdContexts s !! i = Some c -> wf_fdc i c' -> (events c' = 0 -> events c <> 0) ->
  updated i c c' ev s s' -> inv t s'.
Proof.
  intros [Hs Hwf Hp Hi Ho Ha] Hc Hwf' Hdel (Et & Ep & Ec & Ev).
  assert (forall f, interest (ctls s') !! f =
    if decide (f = Z.of_nat i) then registered_as (events c') else interest (ctls s) !! f) as Hint.
  { intros f. rewrite Ec, interest_snoc. unfold apply_ctl, registered_as.
    destruct (Z.eqb_spec (events c') 0) as [E0|E0].
    - rewrite lookup_delete. repeat case_decide; congruence.
    - destruct (events c =? 0); rewrite lookup_insert, Ev by done; repeat case_decide; congruence. }
  assert (i < length (m_fdContexts s))%nat as Hlt by by eapply lookup_lt_Some.
  split.
  - by rewrite Et, length_insert.
  - intros j x. rewrite Et. intros [(<- & <- & _)|[_ Hx]]%list_lookup_insert_Some; [done|by apply Hwf].
  - rewrite Ep, Hp, wrap_add_l, Et, (total_insert _ _ _ _ Hc). f_equal. lia.
  - intros j x Hx Ht. rewrite Hint. rewrite Et in Hx.
    apply list_lookup_insert_Some in Hx as [(<- & <- & _)|[Hne Hx]].
    + by rewrite decide_True.
    + rewrite decide_False by lia. by apply Hi.
  - intros f Hf Ht. rewrite Et, length_insert in Hf. rewrite Hint, decide_False by lia. by apply Ho.
  - intros l1 x l2 E Hx. rewrite Ec in E.
    apply snoc_split in E as [(_ & <- & ->)|(l2' & _ & E)]; [|by eapply Ha].
    simpl in Hx. specialize (Hi i c Hc Hx). unfold registered_as in Hi. unfold accepted.
    destruct (Z.eqb_spec (events c') 0) as [E0|E0].
    + specialize (Hdel E0). rewrite Hi. destruct (Z.eqb_spec (events c) 0); [done|by eexists].
    + rewrite Hi. destruct (Z.eqb_spec (events c) 0); [done|by eexists].
Qed.

(** ** Triggering *)

(** The context without [event]. *)
Definition without (c : FdContext) (event : Z) : FdContext :=
  setContext (with_events c (Z.land (events c) (Z.lnot event))) event (no_ctx Null).
Definition is_event (e : Z) : Prop := e = READ \/ e = WRITE.

Lemma wf_without i c event : wf_fdc i c -> is_event event -> wf_fdc i (without c event).
Proof.
  intros (Hf & He & Hr & Hw) Hev. unfold wf_fdc, has in *.
  rewrite !elem_of_cons, elem_of_nil in He.
  destruct c as [f r w e]. simpl in *. unfold without.
  destruct Hev as [-> | ->]; destruct He as [->|[->|[->|[->|[]]]]]; cbn in *; split_and!; try done; set_solver.
Qed.

Lemma bits_without i c event :
  wf_fdc i c -> is_event event -> has c event = true ->
  bits (without c event) = bits c - 1 /\ events (without c event) = Z.land (events c) (Z.lnot event) /\
  has (without c event) event = false /\
  (forall e, is_event e -> e <> event -> has (without c event) e = has c e).
Proof.
  intros (Hf & He & _ & _) Hev. unfold bits, has. rewrite !elem_of_cons, elem_of_nil in He.
  destruct c as [f r w e]. simpl in *. unfold without.
  destruct Hev as [-> | ->]; destruct He as [->|[->|[->|[->|[]]]]]; cbn; intros Hh; try done;
    (split_and!; [done..|]); intros e [-> | ->]; done.
Qed.

(** What one successful run of [triggerEvent] did: the event is gone from the
    context, and its waiter went to the end of the queue. *)
Definition same_table (s s' : iom) : Prop :=
  m_fdContexts s' = m_fdContexts s /\ m_pendingEventCount s' = m_pendingEventCount s /\ ctls s' = ctls s.

Lemma tickle_table s : exists s', tickle s = Ok tt s' /\ same_table s s' /\
  sched s' = sched s /\ timers s' = timers s.
Proof.
  unfold tickle, bind, gets. destruct (negb _); [by exists s|]. by eexists.
Qed.

Lemma schedule_table ft s : exists s', schedule ft s = Ok tt s' /\ same_table s s' /\
  timers s' = timers s /\
  m_fibers (sched s') = m_fibers (sched s) ++ (if is_task ft then [ft] else []).
Proof.
  unfold schedule, bind, in_sched, scheduleNoLock, bind, gets, modify, ret.
  destruct (is_task ft); simpl.
  - destruct (bool_decide _); [|eexists; split; [done|done]].
    destruct (tickle_table (set_sched (set_m_fibers (m_fibers (sched s) ++ [ft]) (sched s)) s))
      as (s' & -> & Ht & Hs & Htm). exists s'. split_and!; [done|done|done|by rewrite Hs].
  - destruct (bool_decide _).
    + destruct (tickle_table (set_sched (sched s) s)) as (s' & -> & Ht & Hs & Htm).
      exists s'. split_and!; [done|done|done|]. rewrite Hs. simpl. by rewrite app_nil_r.
    + eexists; split; [done|]. simpl. by rewrite app_nil_r.
Qed.

(** The task a context's waiter becomes. *)
Definition waiter (x : EventContext) : FiberAndThread callback :=
  match cb x with
  | Some f => FiberAndThread_ None (Some f) (-1)
  | None => FiberAndThread_ (fiber x) None (-1)
  end.

Lemma getContext_event c event x : getContext c event = Some x -> is_event event.
Proof.
  unfold getContext, is_event. destruct (Z.eqb_spec event READ); [by left|].
  destruct (Z.eqb_spec event WRITE); [by right|done].
Qed.

Lemma at_ok fdi s c :
  0 <= fdi -> m_fdContexts s !! Z.to_nat fdi = Some c -> at_ fdi s = Ok c s.
Proof. intros Hf Hc. unfold at_. by rewrite (proj2 (Z.ltb_ge fdi 0)), Hc. Qed.

Lemma trigger_eq fdi event s c x :
  0 <= fdi -> m_fdContexts s !! Z.to_nat fdi = Some c -> wf_fdc (Z.to_nat fdi) c ->
  is_event event -> has c event = true -> getContext c event = Some x ->
  match scheduler x with
  | This =>
    exists s', triggerEvent fdi event s = Ok tt s' /\
      m_fdContexts s' = <[Z.to_nat fdi := without c event]> (m_fdContexts s) /\
      m_pendingEventCount s' = m_pendingEventCount s /\ ctls s' = ctls s /\ timers s' = timers s /\
      m_fibers (sched s') = m_fibers (sched s) ++ [waiter x]
  | _ => triggerEvent fdi event s = Fail_ Undef
  end.
Proof.
  intros Hfd Hc (_ & _ & Hr & Hw) Hev Hhas Hx.
  assert (fiber x = None <-> cb x <> None) as Hone.
  { unfold getContext, has in *. destruct Hev as [-> | ->]; simpl in Hx; injection Hx as <-.
    - by rewrite Hhas in Hr; destruct Hr.
    - by rewrite Hhas in Hw; destruct Hw. }
  assert (triggerEvent fdi event s =
    (match scheduler x with
     | This => put fdi (without c event) ;;; schedule (waiter x)
     | _ => fail Undef
     end) (set_fdContexts (<[Z.to_nat fdi := with_events c (Z.land (events c) (Z.lnot event))]>
             (m_fdContexts s)) s)) as ->.
  { unfold triggerEvent, bind at 1. rewrite (at_ok fdi s c) by done. unfold has in Hhas.
    unfold bind at 1, assert_. rewrite Hhas. simpl. unfold bind at 1. simpl.
    assert (getContext (with_events c (Z.land (events c) (Z.lnot event))) event = Some x) as ->.
    { unfold getContext in *. by destruct (event =? READ), (event =? WRITE). }
    destruct (scheduler x); [done|done|]. unfold waiter, without, no_ctx.
    destruct (cb x) as [f|]; [|done]. assert (fiber x = None) as -> by by apply Hone. done. }
  destruct (scheduler x); [done|done|]. unfold bind. simpl. rewrite list_insert_insert_eq.
  match goal with |- context [schedule ?ft ?s0] =>
    destruct (schedule_table ft s0) as (s' & -> & (E1 & E2 & E3) & Et & Eq) end.
  exists s'. split_and!; try done. rewrite Eq. simpl. f_equal. unfold waiter, is_task.
  destruct (cb x); [done|]. destruct (fiber x); [done|]. destruct Hone as [H _]. by specialize (H eq_refl).
Qed.

(** ** The guarded triggers *)

Definition ctx_of (c : FdContext) (event : Z) : EventContext := if event =? READ then read c else write c.

Lemma getContext_ctx_of c event : is_event event -> getContext c event = Some (ctx_of c event).
Proof. by intros [-> | ->]. Qed.

Lemma ctx_of_without c e event : is_event e -> is_event event -> e <> event ->
  ctx_of (without c event) e = ctx_of c e.
Proof. by intros [-> | ->] [-> | ->]. Qed.

(** The events of [sel] are taken from the context and their waiters queued. *)
Definition taken (sel : list Z) (c : FdContext) : FdContext := foldl without c sel.
Definition triggered (fdi : Z) (sel : list Z) (c : FdContext) (s s' : iom) : Prop :=
  m_fdContexts s' = <[Z.to_nat fdi := taken sel c]> (m_fdContexts s) /\
  m_pendingEventCount s' = u64 (m_pendingEventCount s - Z.of_nat (length sel)) /\
  ctls s' = ctls s /\ timers s' = timers s /\
  m_fibers (sched s') = m_fibers (sched s) ++ ((fun e => waiter (ctx_of c e)) <$> sel).

Lemma trigger_if_ok fdi event b s c :
  0 <= fdi -> m_fdContexts s !! Z.to_nat fdi = Some c -> wf_fdc (Z.to_nat fdi) c -> is_event event ->
  in_u 64 (m_pendingEventCount s) ->
  (b = true -> has c event = true /\ scheduler (ctx_of c event) = This) ->
  exists s', trigger_if b fdi event s = Ok tt s' /\ triggered fdi (if b then [event] else []) c s s'.
Proof.
  intros Hfd Hc Hwf Hev Hp Hb. unfold triggered, trigger_if. destruct b; cycle 1.
  - exists s. simpl. rewrite Z.sub_0_r, list_insert_id, app_nil_r, wrap_id by done. by split_and!.
  - destruct (Hb eq_refl) as [Hh Hs].
    pose proof (trigger_eq fdi event s c _ Hfd Hc Hwf Hev Hh (getContext_ctx_of c event Hev)) as H.
    rewrite Hs in H. destruct H as (s' & Hrun & E1 & E2 & E3 & E4 & E5).
    unfold bind. rewrite Hrun. eexists; split; [done|]. simpl. rewrite E1, E2, E3, E4, E5. by split_and!.
Qed.

Lemma trigger_if_fails fdi event b s c :
  0 <= fdi -> m_fdContexts s !! Z.to_nat fdi = Some c -> wf_fdc (Z.to_nat fdi) c -> is_event event ->
  b = true -> ~ (has c event = true /\ scheduler (ctx_of c event) = This) ->
  exists e, trigger_if b fdi event s = Fail_ e /\ (has c event = false -> e = AssertFail).
Proof.
  intros Hfd Hc Hwf Hev -> Hn. simpl. unfold bind. destruct (has c event) eqn:Hh.
  - pose proof (trigger_eq fdi event s c _ Hfd Hc Hwf Hev Hh (getContext_ctx_of c event Hev)) as H.
    destruct (scheduler (ctx_of c event)); [rewrite H; by eexists|rewrite H; by eexists|tauto].
  - exists AssertFail. split; [|done]. unfold triggerEvent, bind at 1. rewrite (at_ok fdi s c) by done.
    unfold has in Hh. unfold bind, assert_. by rewrite Hh.
Qed.

(** Both, in the order of the code. *)
Definition sel_of (r w : bool) : list Z := (if r then [READ] else []) ++ (if w then [WRITE] else []).

Lemma wf_taken i c r w : wf_fdc i c -> wf_fdc i (taken (sel_of r w) c).
Proof.
  intros H. destruct r, w; simpl; repeat apply wf_without; try done; (by left) || (by right).
Qed.

Lemma bits_taken i c r w :
  wf_fdc i c -> (r = true -> has c READ = true) -> (w = true -> has c WRITE = true) ->
  bits (taken (sel_of r w) c) = bits c - Z.of_nat (length (sel_of r w)) /\
  (forall e, is_event e -> has (taken (sel_of r w) c) e = has c e && negb (if e =? READ then r else w)).
Proof.
  intros (Hf & He & _ & _) Hr Hw. unfold bits, has in *. rewrite !elem_of_cons, elem_of_nil in He.
  destruct c as [f rr ww e]. simpl in *.
  destruct He as [->|[->|[->|[->|[]]]]]; destruct r, w; cbn in *;
    try (specialize (Hr eq_refl); discriminate Hr); try (specialize (Hw eq_refl); discriminate Hw);
    (split; [done|]); intros x [-> | ->]; done.
Qed.

Lemma triggers_ok fdi r w s c :
  0 <= fdi -> m_fdContexts s !! Z.to_nat fdi = Some c -> wf_fdc (Z.to_nat fdi) c ->
  in_u 64 (m_pendingEventCount s) ->
  (r = true -> has c READ = true /\ scheduler (read c) = This) ->
  (w = true -> has c WRITE = true /\ scheduler (write c) = This) ->
  exists s1 s2, trigger_if r fdi READ s = Ok tt s1 /\ trigger_if w fdi WRITE s1 = Ok tt s2 /\
    m_fdContexts s1 !! Z.to_nat fdi = Some (taken (sel_of r false) c) /\
    triggered fdi (sel_of r w) c s s2.
Proof.
  intros Hfd Hc Hwf Hp Hr Hw.
  assert (is_event READ /\ is_event WRITE) as [ER EW] by (unfold is_event; tauto).
  destruct (trigger_if_ok fdi READ r s c Hfd Hc Hwf ER Hp Hr) as (s1 & H1 & (T1 & T2 & T3 & T4 & T5)).
  set (c1 := taken (sel_of r false) c).
  assert (m_fdContexts s1 !! Z.to_nat fdi = Some c1) as Hc1.
  { rewrite T1. unfold c1, sel_of. rewrite app_nil_r. apply list_lookup_insert_eq. by eapply lookup_lt_Some. }
  pose proof (wf_taken _ c r false Hwf) as Hwf1. fold c1 in Hwf1.
  destruct (bits_taken _ c r false Hwf) as [_ Hhas]; [naive_solver|done|]. fold c1 in Hhas.
  destruct (trigger_if_ok fdi WRITE w s1 c1 Hfd Hc1 Hwf1 EW) as (s2 & H2 & (U1 & U2 & U3 & U4 & U5)).
  { rewrite T2. apply wrap_in_u. lia. }
  { intros Hw'. destruct (Hw Hw'). rewrite Hhas by done. simpl. rewrite andb_true_r. split; [done|].
    unfold c1. by destruct r. }
  exists s1, s2. split_and!; [done|done|done|]. unfold triggered.
  rewrite U1, U2, U3, U4, U5, T1, T2, T3, T4, T5. rewrite list_insert_insert_eq.
  split_and!; try done.
  - f_equal. unfold c1. by destruct r, w.
  - rewrite <- !Z.add_opp_r, wrap_add_l. f_equal. unfold sel_of. rewrite length_app. lia.
  - rewrite <- (assoc (++)). f_equal. unfold sel_of. rewrite fmap_app. f_equal.
    destruct w; [|done]. simpl. f_equal. f_equal. unfold c1. by destruct r.
Qed.

(** ** Taking events back *)

Lemma find_ctx_eq t fdi s :
  inv t s -> 0 <= fdi -> find_ctx fdi s = Ok (m_fdContexts s !! Z.to_nat fdi) s.
Proof.
  intros [[H1 H2] _ _ _ _ _] Hf. unfold find_ctx, bind, gets. rewrite swrap_id by (unfold in_s; lia).
  destruct (Z.leb_spec (Z.of_nat (length (m_fdContexts s))) fdi).
  - rewrite lookup_ge_None_2 by lia. done.
  - destruct (lookup_lt_is_Some_2 (m_fdContexts s) (Z.to_nat fdi)) as [c Hc]; [lia|].
    by rewrite (at_ok fdi s c), Hc.
Qed.

Lemma inv_pending_u t s : inv t s -> in_u 64 (m_pendingEventCount s).
Proof. intros H. rewrite (inv_pending _ _ H). apply wrap_in_u. lia. Qed.

(** [took fdi sel s s']: the registered events [sel] of the descriptor were
    taken from its context, the kernel and the count. *)
Definition took (fdi : Z) (c : FdContext) (sel : list Z) (s s' : iom) : Prop :=
  exists ev, updated (Z.to_nat fdi) c (taken sel c) ev s s' /\ timers s' = timers s.

Lemma triggered_took fdi c r w op ev s s' :
  0 <= fdi -> wf_fdc (Z.to_nat fdi) c ->
  (r = true -> has c READ = true) -> (w = true -> has c WRITE = true) -> sel_of r w <> [] ->
  op = (if events (taken (sel_of r w) c) =? 0 then EPOLL_CTL_DEL else EPOLL_CTL_MOD) ->
  (events (taken (sel_of r w) c) <> 0 -> ev = Z.lor EPOLLET (events (taken (sel_of r w) c))) ->
  triggered fdi (sel_of r w) c (add_ctl (op, fdi, ev) s) s' ->
  took fdi c (sel_of r w) s s' /\
  m_fibers (sched s') = m_fibers (sched s) ++ ((fun e => waiter (ctx_of c e)) <$> sel_of r w).
Proof.
  intros Hfd Hwf Hr Hw Hne Hop Hev (T1 & T2 & T3 & T4 & T5). split; [|done].
  destruct (bits_taken _ c r w Hwf Hr Hw) as [Hb _].
  assert (events c <> 0) as He.
  { intros E. unfold has in Hr, Hw. rewrite E in Hr, Hw.
    destruct r; [by specialize (Hr eq_refl)|]. destruct w; [by specialize (Hw eq_refl)|]. done. }
  exists ev. split; [|done]. split_and!; [done| | |done].
  - rewrite T2. simpl. f_equal. lia.
  - rewrite T3. simpl. rewrite (proj2 (Z.eqb_neq (events c) 0)) by done. rewrite Z2Nat.id by done. by rewrite Hop.
Qed.

Lemma took_inv t fdi c r w s s' :
  inv t s -> m_fdContexts s !! Z.to_nat fdi = Some c ->
  (r = true -> has c READ = true) -> (w = true -> has c WRITE = true) -> sel_of r w <> [] ->
  took fdi c (sel_of r w) s s' -> inv t s'.
Proof.
  intros Hi Hc Hr Hw Hne (ev & Hu & _). pose proof (inv_wf _ _ Hi _ _ Hc) as Hwf.
  eapply inv_updated; [done|done|by apply wf_taken| |done].
  intros _ E. unfold has in Hr, Hw. rewrite E in Hr, Hw.
  destruct r; [by specialize (Hr eq_refl)|]. destruct w; [by specialize (Hw eq_refl)|]. done.
Qed.

Lemma took_one_inv t fdi c event s s' :
  inv t s -> m_fdContexts s !! Z.to_nat fdi = Some c -> is_event event -> has c event = true ->
  took fdi c [event] s s' -> inv t s'.
Proof.
  intros Hi Hc [-> | ->] Hh Hk;
    [apply (took_inv t fdi c true false s)|apply (took_inv t fdi c false true s)]; done.
Qed.

Lemma delEvent_eq t rt fdi event s :
  inv t s -> 0 <= fdi -> is_event event ->
  match m_fdContexts s !! Z.to_nat fdi with
  | None => delEvent rt fdi event s = Ok false s
  | Some c =>
    if has c event && (rt =? 0)
    then exists s', delEvent rt fdi event s = Ok true s' /\ took fdi c [event] s s' /\ sched s' = sched s
    else delEvent rt fdi event s = Ok false s
  end.
Proof.
  intros Hi Hfd Hev. unfold delEvent, bind. rewrite !(find_ctx_eq t) by done.
  destruct (m_fdContexts s !! Z.to_nat fdi) as [c|] eqn:Hc; [|done].
  pose proof (inv_wf _ _ Hi _ _ Hc) as Hwf. unfold has.
  destruct (Z.land (events c) event =? 0) eqn:Hh; simpl; [done|].
  unfold epoll_ctl. destruct (rt =? 0); simpl; [|done].
  assert (has c event = true) as Hhas by (unfold has; by rewrite Hh).
  destruct (bits_without _ c event Hwf Hev Hhas) as (Hb & He & _ & _).
  unfold bind. simpl. rewrite getContext_ctx_of by done.
  eexists; split; [done|]. split; [|done]. simpl. exists (Z.lor EPOLLET (events (without c event))).
  split; [|done]. unfold updated. simpl. change (taken [event] c) with (without c event).
  rewrite Hb, He. split_and!; [done|f_equal; lia| |done].
  rewrite Z2Nat.id by done. do 4 f_equal.
  assert (events c <> 0) as Hne by (intros E; by rewrite E in Hh).
  by rewrite (proj2 (Z.eqb_neq (events c) 0)).
Qed.

Lemma cancelEvent_eq t rt fdi event s :
  inv t s -> 0 <= fdi -> is_event event ->
  match m_fdContexts s !! Z.to_nat fdi with
  | None => cancelEvent rt fdi event s = Ok false s
  | Some c =>
    if has c event && (rt =? 0) then
      match scheduler (ctx_of c event) with
      | This => exists s', cancelEvent rt fdi event s = Ok true s' /\ took fdi c [event] s s' /\
                  m_fibers (sched s') = m_fibers (sched s) ++ [waiter (ctx_of c event)]
      | _ => cancelEvent rt fdi event s = Fail_ Undef
      end
    else cancelEvent rt fdi event s = Ok false s
  end.
Proof.
  intros Hi Hfd Hev. unfold cancelEvent, bind. rewrite !(find_ctx_eq t) by done.
  destruct (m_fdContexts s !! Z.to_nat fdi) as [c|] eqn:Hc; [|done].
  pose proof (inv_wf _ _ Hi _ _ Hc) as Hwf. unfold has.
  destruct (Z.land (events c) event =? 0) eqn:Hh; simpl; [done|].
  unfold epoll_ctl. destruct (rt =? 0); simpl; [|done]. unfold bind; simpl.
  assert (has c event = true) as Hhas by (unfold has; by rewrite Hh).
  destruct (bits_without _ c event Hwf Hev Hhas) as (Hb & He & _ & _).
  match goal with |- context [triggerEvent fdi event ?s0] =>
    pose proof (trigger_eq fdi event s0 c _ Hfd Hc Hwf Hev Hhas (getContext_ctx_of c event Hev)) as Ht end.
  destruct (scheduler (ctx_of c event)); [by rewrite Ht|by rewrite Ht|].
  destruct Ht as (s' & -> & E1 & E2 & E3 & E4 & E5).
  eexists; split; [done|]. split; [|done].
  exists (Z.lor EPOLLET (events (without c event))). split; [|done].
  unfold updated. simpl. change (taken [event] c) with (without c event).
  rewrite E1, E2, E3, Hb, He. simpl. split_and!; [done|f_equal; lia| |done].
  rewrite Z2Nat.id by done. do 4 f_equal.
  assert (events c <> 0) as Hne by (intros E; by rewrite E in Hh).
  by rewrite (proj2 (Z.eqb_neq (events c) 0)).
Qed.

(** The waiters of the selected events can be scheduled. *)
Definition can_fire (c : FdContext) (r w : bool) : bool :=
  let this x := match scheduler x with This => true | _ => false end in
  implb r (has c READ && this (read c)) && implb w (has c WRITE && this (write c)).

Lemma can_fire_true c r w : can_fire c r w = true ->
  (r = true -> has c READ = true /\ scheduler (read c) = This) /\
  (w = true -> has c WRITE = true /\ scheduler (write c) = This).
Proof.
  unfold can_fire. destruct r, w, (has c READ), (has c WRITE), (scheduler (read c)), (scheduler (write c));
    simpl; done.
Qed.

Lemma triggers_fail fdi r w s c :
  0 <= fdi -> m_fdContexts s !! Z.to_nat fdi = Some c -> wf_fdc (Z.to_nat fdi) c ->
  in_u 64 (m_pendingEventCount s) -> can_fire c r w = false ->
  exists e, (trigger_if r fdi READ ;;; trigger_if w fdi WRITE) s = Fail_ e.
Proof.
  intros Hfd Hc Hwf Hp Hf.
  assert (is_event READ /\ is_event WRITE) as [ER EW] by (unfold is_event; tauto).
  destruct (decide (r = true /\ ~ (has c READ = true /\ scheduler (read c) = This))) as [[Hr Hn]|Hr].
  - destruct (trigger_if_fails fdi READ r s c Hfd Hc Hwf ER Hr Hn) as (e & He & _).
    exists e. unfold bind. by rewrite He.
  - assert (r = true -> has c READ = true /\ scheduler (read c) = This) as Hr'.
    { intros Hr1. destruct (has c READ) eqn:E1; [destruct (scheduler (read c)) eqn:E2; [..|done]|].
      all: exfalso; apply Hr; split; [done|]; intuition congruence. }
    destruct (trigger_if_ok fdi READ r s c Hfd Hc Hwf ER Hp Hr') as (s1 & H1 & (T1 & _)).
    set (c1 := taken (if r then [READ] else []) c) in *.
    assert (m_fdContexts s1 !! Z.to_nat fdi = Some c1) as Hc1.
    { rewrite T1. apply list_lookup_insert_eq. by eapply lookup_lt_Some. }
    assert (wf_fdc (Z.to_nat fdi) c1) as Hwf1 by (unfold c1; destruct r; [by apply wf_without|done]).
    assert (has c1 WRITE = has c WRITE /\ write c1 = write c) as [E1 E2].
    { unfold c1. destruct r; [|done]. split; [|done]. destruct (Hr' eq_refl) as [Hh _].
      by apply (bits_without _ c READ Hwf ER Hh). }
    destruct (trigger_if_fails fdi WRITE w s1 c1 Hfd Hc1 Hwf1 EW) as (e & He & _).
    + unfold can_fire in Hf. destruct w; [done|]. destruct r; [|done].
      destruct (Hr' eq_refl) as [Ea Eb]. by rewrite Ea, Eb in Hf.
    + unfold ctx_of. simpl. rewrite E1, E2. intros [Ha Hb]. unfold can_fire in Hf.
      rewrite Ha, Hb in Hf. destruct r; [destruct (Hr' eq_refl) as [Ea Eb]; rewrite Ea, Eb in Hf|];
        by destruct w.
    + exists e. unfold bind. by rewrite H1.
Qed.

(** After the first trigger the other event's flag is as before. *)
Lemma first_trigger fdi r s c :
  0 <= fdi -> m_fdContexts s !! Z.to_nat fdi = Some c -> wf_fdc (Z.to_nat fdi) c ->
  in_u 64 (m_pendingEventCount s) ->
  match trigger_if r fdi READ s with
  | Ok _ s1 => exists c1, m_fdContexts s1 !! Z.to_nat fdi = Some c1 /\ has c1 WRITE = has c WRITE
  | Throw _ _ => False
  | Fail_ _ => True
  end.
Proof.
  intros Hfd Hc Hwf Hp. assert (is_event READ) as ER by by left.
  destruct (decide (r = true -> has c READ = true /\ scheduler (read c) = This)) as [Hr|Hr].
  - destruct (trigger_if_ok fdi READ r s c Hfd Hc Hwf ER Hp Hr) as (s1 & -> & (T1 & _)).
    eexists. split; [rewrite T1; apply list_lookup_insert_eq; by eapply lookup_lt_Some|].
    destruct r; [|done]. destruct (Hr eq_refl) as [Hh _]. apply (bits_without _ c READ Hwf ER Hh); [by right|done].
  - destruct r; [|by exfalso; apply Hr].
    destruct (trigger_if_fails fdi READ true s c Hfd Hc Hwf ER eq_refl) as (e & -> & _); [|done].
    intros Hx. apply Hr. by intros _.
Qed.

Lemma cancekAll_body fdi s c :
  0 <= fdi -> m_fdContexts s !! Z.to_nat fdi = Some c -> wf_fdc (Z.to_nat fdi) c ->
  in_u 64 (m_pendingEventCount s) ->
  (trigger_if (has c READ) fdi READ ;;;
   let* c := at_ fdi in
   trigger_if (has c WRITE) fdi WRITE ;;;
   let* c := at_ fdi in
   assert_ (events c =? 0) ;;; ret true) s =
  ((trigger_if (has c READ) fdi READ ;;; trigger_if (has c WRITE) fdi WRITE) ;;;
   let* c := at_ fdi in
   assert_ (events c =? 0) ;;; ret true) s.
Proof.
  intros Hfd Hc Hwf Hp. pose proof (first_trigger fdi (has c READ) s c Hfd Hc Hwf Hp) as H1.
  unfold bind. destruct (trigger_if (has c READ) fdi READ s) as [[] s1| |]; [|done|done].
  destruct H1 as (c1 & Hc1 & Hh). by rewrite (at_ok fdi s1 c1 Hfd Hc1), Hh.
Qed.

Lemma cancekAll_eq t rt fdi s :
  inv t s -> 0 <= fdi ->
  match m_fdContexts s !! Z.to_nat fdi with
  | None => cancekAll rt fdi s = Ok false s
  | Some c =>
    let r := has c READ in let w := has c WRITE in
    if negb (events c =? 0) && (rt =? 0) then
      if can_fire c r w then
        exists s', cancekAll rt fdi s = Ok true s' /\ took fdi c (sel_of r w) s s' /\
          m_fibers (sched s') = m_fibers (sched s) ++ ((fun e => waiter (ctx_of c e)) <$> sel_of r w)
      else exists e, cancekAll rt fdi s = Fail_ e
    else cancekAll rt fdi s = Ok false s
  end.
Proof.
  intros Hi Hfd. set (s0 := add_ctl (EPOLL_CTL_DEL, fdi, 0) s).
  assert (cancekAll rt fdi s =
    match m_fdContexts s !! Z.to_nat fdi with
    | None => Ok false s
    | Some c =>
      if negb (events c =? 0) && (rt =? 0) then
        (trigger_if (has c READ) fdi READ ;;; let* c := at_ fdi in
         trigger_if (has c WRITE) fdi WRITE ;;; let* c := at_ fdi in
         assert_ (events c =? 0) ;;; ret true) s0
      else Ok false s
    end) as ->.
  { unfold cancekAll, bind at 1. rewrite (find_ctx_eq t) by done.
    destruct (m_fdContexts s !! Z.to_nat fdi) as [c|]; [|done].
    destruct (events c =? 0); [done|]. unfold epoll_ctl. by destruct (rt =? 0). }
  destruct (m_fdContexts s !! Z.to_nat fdi) as [c|] eqn:Hc; [|done]. cbn zeta.
  pose proof (inv_wf _ _ Hi _ _ Hc) as Hwf.
  destruct (Z.eqb_spec (events c) 0) as [H0|H0]; [done|]. destruct (rt =? 0); [|done].
  assert (in_u 64 (m_pendingEventCount s0)) as Hp by by apply (inv_pending_u t s).
  assert (sel_of (has c READ) (has c WRITE) <> [] /\
    events (taken (sel_of (has c READ) (has c WRITE)) c) = 0) as [Hne Hz].
  { destruct Hwf as (_ & He & _ & _). rewrite !elem_of_cons, elem_of_nil in He. unfold has.
    destruct c as [f rr ww e]. simpl in *. by destruct He as [->|[->|[->|[->|[]]]]]. }
  simpl negb. simpl andb. rewrite (cancekAll_body fdi s0 c Hfd Hc Hwf Hp).
  destruct (can_fire c (has c READ) (has c WRITE)) eqn:Hf.
  - destruct (can_fire_true _ _ _ Hf) as [Hr Hw].
    destruct (triggers_ok fdi (has c READ) (has c WRITE) s0 c Hfd Hc Hwf Hp Hr Hw)
      as (s1 & s2 & H1 & H2 & Hc1 & Ht).
    assert (m_fdContexts s2 !! Z.to_nat fdi = Some (taken (sel_of (has c READ) (has c WRITE)) c)) as Hc2.
    { destruct Ht as (-> & _). apply list_lookup_insert_eq. by eapply lookup_lt_Some. }
    exists s2. split; [unfold bind; rewrite H1, H2, (at_ok fdi s2 _ Hfd Hc2), Hz; done|].
    eapply (triggered_took fdi c (has c READ) (has c WRITE)); [done|done|naive_solver|naive_solver|done| | |exact Ht].
    + by rewrite Hz.
    + by rewrite Hz.
  - destruct (triggers_fail fdi (has c READ) (has c WRITE) s0 c Hfd Hc Hwf Hp Hf) as [e He].
    exists e. unfold bind at 1. by rewrite He.
Qed.

(** ** Events from the kernel *)

(** Whether a report wakes the reader and the writer: an error or a hang-up
    wakes both. *)
Definition failed (ev : Z) : bool := negb (Z.land ev (Z.lor EPOLLERR EPOLLHUP) =? 0).
Definition wakes (ev flag : Z) : bool := failed ev || negb (Z.land ev flag =? 0).

Lemma wakes_eq ev flag : flag = EPOLLIN \/ flag = EPOLLOUT ->
  negb (Z.land (if failed ev then Z.lor ev (Z.lor EPOLLIN EPOLLOUT) else ev) flag =? 0) = wakes ev flag.
Proof.
  intros Hf. unfold wakes. destruct (failed ev); [|done]. simpl. apply negb_true_iff, Z.eqb_neq.
  rewrite Z.land_lor_distr_l. intros [_ H]%Z.lor_eq_0_iff. by destruct Hf as [-> | ->].
Qed.

Lemma handle_event_eq t fdi ev rt2 s c :
  inv t s -> 0 <= fdi -> m_fdContexts s !! Z.to_nat fdi = Some c ->
  let r := wakes ev EPOLLIN in let w := wakes ev EPOLLOUT in
  if ((r && has c READ) || (w && has c WRITE)) && (rt2 =? 0) then
    if can_fire c r w then
      exists s', handle_event (Ready fdi ev) rt2 s = Ok tt s' /\ took fdi c (sel_of r w) s s' /\
        m_fibers (sched s') = m_fibers (sched s) ++ ((fun e => waiter (ctx_of c e)) <$> sel_of r w)
    else exists e, handle_event (Ready fdi ev) rt2 s = Fail_ e
  else handle_event (Ready fdi ev) rt2 s = Ok tt s.
Proof.
  intros Hi Hfd Hc r w. pose proof (inv_wf _ _ Hi _ _ Hc) as Hwf.
  set (real := Z.lor (if r then READ else 0) (if w then WRITE else 0)).
  set (left_events := Z.land (events c) (Z.lnot real)).
  set (op := if left_events =? 0 then EPOLL_CTL_DEL else EPOLL_CTL_MOD).
  set (s0 := add_ctl (op, fdi, Z.lor EPOLLET left_events) s).
  assert (handle_event (Ready fdi ev) rt2 s =
    if negb (Z.land (events c) real =? 0) && (rt2 =? 0)
    then (trigger_if r fdi READ ;;; trigger_if w fdi WRITE) s0 else Ok tt s) as ->.
  { unfold handle_event, bind at 1. rewrite (at_ok fdi s c Hfd Hc). fold (failed ev).
    rewrite (wakes_eq ev EPOLLIN), (wakes_eq ev EPOLLOUT) by tauto. fold r w.
    assert ((if w then Z.lor (if r then Z.lor NONE READ else NONE) WRITE
             else if r then Z.lor NONE READ else NONE) = real) as -> by (unfold real; by destruct r, w).
    destruct Hwf as (Hf & _). rewrite Hf, Z2Nat.id by done. fold left_events op.
    unfold NONE. destruct (Z.land (events c) real =? 0); [done|]. unfold epoll_ctl.
    destruct (rt2 =? 0); [|done]. unfold real. by destruct r, w. }
  assert (negb (Z.land (events c) real =? 0) = (r && has c READ) || (w && has c WRITE)) as ->.
  { destruct Hwf as (_ & He & _ & _). rewrite !elem_of_cons, elem_of_nil in He. unfold has, real.
    destruct c as [f rr ww e]. simpl in *. destruct He as [->|[->|[->|[->|[]]]]]; by destruct r, w. }
  destruct ((r && has c READ) || (w && has c WRITE)) eqn:Hsome; [|done].
  destruct (rt2 =? 0); [|done]. simpl andb.
  assert (in_u 64 (m_pendingEventCount s0)) as Hp by by apply (inv_pending_u t s).
  destruct (can_fire c r w) eqn:Hf.
  - destruct (can_fire_true _ _ _ Hf) as [Hr Hw].
    destruct (triggers_ok fdi r w s0 c Hfd Hc Hwf Hp Hr Hw) as (s1 & s2 & H1 & H2 & _ & Ht).
    assert (events (taken (sel_of r w) c) = left_events) as El.
    { destruct Hwf as (_ & He & _ & _). rewrite !elem_of_cons, elem_of_nil in He. unfold left_events, real.
      destruct c as [f rr ww e]. simpl in *. destruct He as [->|[->|[->|[->|[]]]]]; by destruct r, w. }
    exists s2. split; [unfold bind; by rewrite H1|].
    eapply (triggered_took fdi c r w); [done|done|naive_solver|naive_solver| | | |exact Ht].
    + intros E. destruct r, w; done.
    + by rewrite El.
    + by rewrite El.
  - by apply (triggers_fail fdi r w s0 c).
Qed.

(** ** Adding an event *)

Definition with_waiter (c : FdContext) (event : Z) (x : EventContext) : FdContext :=
  setContext (with_events c (Z.lor (events c) event)) event x.

Lemma wf_with_waiter i c event x :
  wf_fdc i c -> is_event event -> has c event = false -> wf_ctx true x ->
  wf_fdc i (with_waiter c event x) /\ bits (with_waiter c event x) = bits c + 1 /\
  events (with_waiter c event x) <> 0 /\ events (with_waiter c event x) = Z.lor (events c) event.
Proof.
  intros (Hf & He & Hr & Hw) Hev Hh Hx. unfold wf_fdc, has, bits, has in *.
  rewrite !elem_of_cons, elem_of_nil in He.
  destruct c as [f r w e]. simpl in *. unfold with_waiter.
  destruct Hev as [-> | ->]; destruct He as [->|[->|[->|[->|[]]]]]; cbn in *; try discriminate Hh;
    split_and!; try done; try set_solver; by destruct Hx.
Qed.

Lemma in_sched_table {A} (m : Prelude.cmd _ A) s x s' : in_sched m s = Ok x s' -> same_table s s'.
Proof. unfold in_sched. intros H. destruct (m (sched s)); simplify_eq. done. Qed.

Lemma added_updated fdi c event x s sa :
  0 <= fdi -> wf_fdc (Z.to_nat fdi) c -> is_event event -> has c event = false -> wf_ctx true x ->
  m_fdContexts sa = <[Z.to_nat fdi := with_waiter c event x]> (m_fdContexts s) ->
  m_pendingEventCount sa = u64 (m_pendingEventCount s + 1) ->
  ctls sa = ctls s ++ [(if events c =? 0 then EPOLL_CTL_ADD else EPOLL_CTL_MOD, fdi,
    Z.lor EPOLLET (Z.lor (events c) event))] ->
  updated (Z.to_nat fdi) c (with_waiter c event x) (Z.lor EPOLLET (Z.lor (events c) event)) s sa.
Proof.
  intros Hfd Hwf Hev Hhas Hxw E1 E2 E3.
  destruct (wf_with_waiter _ c event x Hwf Hev Hhas Hxw) as (_ & Hb & Hne & He).
  unfold updated. rewrite E1, E2, E3, Hb, (proj2 (Z.eqb_neq _ 0) Hne), He, Z2Nat.id by lia.
  split_and!; [done|f_equal; lia|done|done].
Qed.

(** What a successful [addEvent] did. *)
Lemma addEvent_effect t me a rt fdi event f s v s' :
  inv t s -> 0 <= fdi < 2 ^ 30 -> addEvent me a rt fdi event f s = Ok v s' ->
  exists s1 c, lookup_or_grow fdi s = Ok c s1 /\ inv t s1 /\ m_fdContexts s1 !! Z.to_nat fdi = Some c /\
    ((v = -1 /\ rt <> 0 /\ s' = s1) \/
     (v = 0 /\ rt = 0 /\ is_event event /\ has c event = false /\
      exists x, wf_ctx true x /\ cb x = f /\
        updated (Z.to_nat fdi) c (with_waiter c event x) (Z.lor EPOLLET (Z.lor (events c) event)) s1 s')).
Proof.
  intros Hi Hfd H.
  destruct (lookup_or_grow_ok t fdi s Hi Hfd) as (c & s1 & Hl & Hi1 & Hc & _).
  exists s1, c. do 3 (split; [done|]). unfold addEvent, bind at 1 in H. rewrite Hl in H. unfold register_in in H.
  pose proof (inv_wf _ _ Hi1 _ _ Hc) as Hwf.
  inv_bind H. destruct (Z.land (events c) event =? 0) eqn:Hh; [|done]. injection H0 as <- <-.
  unfold epoll_ctl in H. destruct (Z.eqb_spec rt 0) as [Hrt|Hrt]; cycle 1.
  { injection H as <- <-. by left. }
  right. inv_bind H. injection H0 as <- <-. simpl in H.
  inv_bind H. injection H0 as <- <-. inv_bind H. injection H0 as <- <-.
  destruct (getContext _ event) as [x|] eqn:Hx; [|done].
  assert (is_event event) as Hev by (by eapply getContext_event).
  assert (has c event = false) as Hhas by (unfold has; by rewrite Hh).
  assert (x = ctx_of c event) as ->.
  { rewrite getContext_ctx_of in Hx by done. injection Hx as <-. by destruct Hev as [-> | ->]. }
  assert (fiber (ctx_of c event) = None /\ cb (ctx_of c event) = None) as [Hxf Hxc].
  { destruct Hwf as (_ & _ & Hr & Hw). destruct Hev as [-> | ->]; rewrite Hhas in *; done. }
  rewrite Hxf, Hxc in H. inv_bind H. injection H0 as <- <-.
  destruct f as [f|].
  - inv_bind H. injection H0 as <- <-. injection H as <- <-. do 4 (split; [done|]).
    exists (EventContext_ (if bool_decide (me ∈ t_scheduler (sched s1)) then This else Null) None (Some f)).
    assert (wf_ctx true (EventContext_ (if bool_decide (me ∈ t_scheduler (sched s1)) then This else Null)
      None (Some f))) as Hxw by (split; [by destruct (bool_decide _)|done]).
    split; [done|]. split; [done|]. apply added_updated; [lia|done..| |done|done].
    simpl. by rewrite list_insert_insert_eq.
  - inv_bind H. apply in_sched_table in H0 as (E1 & E2 & E3).
    inv_bind H. injection H0 as <- <-. inv_bind H. apply in_sched_table in H0 as (F1 & F2 & F3).
    inv_bind H. destruct (bool_decide (y0 = Fiber.EXEC)); [|done]. injection H0 as <- <-.
    injection H as <- <-. do 4 (split; [done|]).
    exists (EventContext_ (if bool_decide (me ∈ t_scheduler (sched s1)) then This else Null) (Some y) None).
    assert (wf_ctx true (EventContext_ (if bool_decide (me ∈ t_scheduler (sched s1)) then This else Null)
      (Some y) None)) as Hxw by (split; [by destruct (bool_decide _)|naive_solver]).
    split; [done|]. split; [done|]. apply added_updated; [lia|done..| | |].
    + rewrite F1. simpl. rewrite E1. simpl. by rewrite list_insert_insert_eq.
    + rewrite F2. simpl. by rewrite E2.
    + rewrite F3. simpl. by rewrite E3.
Qed.

(** ** Reachable states

    The critical sections of the methods that touch the table, in any order and
    with any answers of the kernel, mixed with any step of the scheduler, the
    timers and the pipe.  The growth and the registration of [addEvent] are steps
    of their own, so a growth may come late, when other threads have grown the
    table; only one that would shrink it is left out ([resize_shrinks]).  The
    methods that take an event back look the context up under the read lock and
    work under the context's lock: as the table never shrinks, the lookup may be
    made with the second section. *)
Inductive reachable (t : Z) : iom -> Prop :=
  | reach_init sc tm ids s : IOManager sc tm t ids = Ok tt s -> reachable t s
  | reach_grow fdi s s' :
      reachable t s -> fdi < 2 ^ 30 ->
      (length (m_fdContexts s) <= Z.to_nat (Z.quot (fdi * 3) 2))%nat ->
      grow_for fdi s = Ok tt s' -> reachable t s'
  | reach_add_to me a rt fdi event f s v s' :
      reachable t s -> 0 <= fdi < 2 ^ 30 -> add_to_ctx me a rt fdi event f s = Ok v s' -> reachable t s'
  | reach_del rt fdi event s v s' :
      reachable t s -> 0 <= fdi -> is_event event -> delEvent rt fdi event s = Ok v s' -> reachable t s'
  | reach_cancel rt fdi event s v s' :
      reachable t s -> 0 <= fdi -> is_event event -> cancelEvent rt fdi event s = Ok v s' -> reachable t s'
  | reach_cancel_all rt fdi s v s' :
      reachable t s -> 0 <= fdi -> cancekAll rt fdi s = Ok v s' -> reachable t s'
  | reach_event e rt2 s s' :
      reachable t s -> handle_event e rt2 s = Ok tt s' -> reachable t s'
  | reach_sched {A} (m : Prelude.cmd (Scheduler.sched callback) A) x s s' :
      reachable t s -> in_sched m s = Ok x s' -> reachable t s'
  | reach_timers {A} (m : Prelude.cmd (Timer.manager K W) A) x s s' :
      reachable t s -> in_timers m s = Ok x s' -> reachable t s'
  | reach_tickle s s' : reachable t s -> tickle s = Ok tt s' -> reachable t s'.

Lemma inv_same_table t s s' : same_table s s' -> inv t s -> inv t s'.
Proof. intros (E1 & E2 & E3) []. split; rewrite ?E1, ?E2, ?E3; done. Qed.

Lemma inv_init sc tm t ids s : IOManager sc tm t ids = Ok tt s -> inv t s.
Proof.
  unfold IOManager. intros H. inv_bind H. injection H0 as <- <-. inv_bind H. injection H0 as <- <-.
  apply in_sched_table in H. apply (inv_same_table t _ _ H). clear H s.
  assert (forall i c, resized 32 [] !! i = Some c -> c = new_FdContext i /\ (i < 32)%nat) as L.
  { intros i c Hi. destruct (resized_grow 32 []) as (_ & _ & Hn & _); [simpl; lia|].
    destruct (Hn i c Hi) as [?|[? ->]]; [done|]. split; [done|lia]. }
  split; cbn [m_fdContexts m_pendingEventCount ctls set_fdContexts add_ctl].
  - by vm_compute.
  - intros i c [-> _]%L. apply wf_new.
  - by vm_compute.
  - intros i c [-> _]%L Ht. unfold interest. simpl. rewrite lookup_insert_ne by congruence. done.
  - intros f _ Ht. unfold interest. simpl. rewrite lookup_insert_ne by congruence. done.
  - intros l1 c l2 E Hc. destruct l1 as [|y l1]; simplify_eq/=. by destruct l1.
Qed.

Lemma handle_event_inv t e rt2 s s' : inv t s -> handle_event e rt2 s = Ok tt s' -> inv t s'.
Proof.
  intros Hi H. destruct e as [|fdi ev].
  - injection H as <-. by apply (inv_same_table t s).
  - pose proof H as H'. unfold handle_event, bind at 1, at_ in H'.
    destruct (Z.ltb_spec fdi 0); [done|].
    destruct (m_fdContexts s !! Z.to_nat fdi) as [c|] eqn:Hc; [|done]. clear H'.
    pose proof (handle_event_eq t fdi ev rt2 s c Hi ltac:(lia) Hc) as He. cbn zeta in He.
    destruct (_ && _) eqn:Hsome; [|rewrite He in H; by injection H as <-].
    destruct (can_fire _ _ _) eqn:Hf; [|destruct He as [e He]; by rewrite He in H].
    destruct He as (s1 & He & Hk & _). rewrite He in H. injection H as <-.
    destruct (can_fire_true _ _ _ Hf) as [Hr Hw].
    apply (took_inv t fdi c (wakes ev EPOLLIN) (wakes ev EPOLLOUT) s);
      [done|done|naive_solver|naive_solver| |done].
    intros E. destruct (wakes ev EPOLLIN), (wakes ev EPOLLOUT); done.
Qed.

(** The sections in a row are [addEvent]. *)
Lemma addEvent_sections me a rt fdi event f s :
  addEvent me a rt fdi event f s =
  (let* small := too_small fdi in
   (if small : bool then grow_for fdi else ret tt) ;;; add_to_ctx me a rt fdi event f) s.
Proof.
  unfold addEvent, add_to_ctx, lookup_or_grow, too_small, grow_for, resizeContext, bind, gets, modify.
  destruct (fdi <? _); simpl; [done|]. unfold at_.
  destruct (fdi <? 0) eqn:E; [done|]. simpl.
  destruct (resized _ _ !! _) eqn:E1; [|done]. simpl. by rewrite E1.
Qed.

Lemma grow_for_inv t fdi s s' :
  inv t s -> fdi < 2 ^ 30 -> (length (m_fdContexts s) <= Z.to_nat (Z.quot (fdi * 3) 2))%nat ->
  grow_for fdi s = Ok tt s' -> inv t s'.
Proof.
  unfold grow_for, resizeContext, bind, modify, at_. intros Hi Hlt Hle H. simpl in H.
  destruct (Z.ltb_spec fdi 0); [done|]. destruct (resized _ _ !! _); [|done]. injection H as <-.
  apply inv_grow; [done|done|]. rewrite Z.quot_div_nonneg, Z2Nat.id by (try apply Z.div_pos; lia).
  apply Z.div_lt_upper_bound; lia.
Qed.

Lemma add_to_ctx_addEvent t me a rt fdi event f s v s' :
  inv t s -> add_to_ctx me a rt fdi event f s = Ok v s' -> addEvent me a rt fdi event f s = Ok v s'.
Proof.
  intros Hi H. rewrite addEvent_sections. unfold bind at 1, too_small, gets.
  assert (exists c, m_fdContexts s !! Z.to_nat fdi = Some c /\ 0 <= fdi) as (c & Hc & Hf).
  { unfold add_to_ctx, bind at 1, at_ in H. destruct (Z.ltb_spec fdi 0); [done|].
    destruct (m_fdContexts s !! Z.to_nat fdi) as [c|]; [|done]. by exists c. }
  apply lookup_lt_Some in Hc. destruct (inv_size _ _ Hi) as [H1 H2].
  rewrite swrap_id by (unfold in_s; lia). rewrite (proj2 (Z.ltb_lt fdi _)) by lia. exact H.
Qed.

Lemma iom_reachable t s : reachable t s -> inv t s.
Proof.
  induction 1 as [sc tm ids s H|fdi s s' Hr IH Hfd Hle H|me a rt fdi event f s v s' Hr IH Hfd H|rt fdi event s v s' Hr IH Hfd Hev H
    |rt fdi event s v s' Hr IH Hfd Hev H|rt fdi s v s' Hr IH Hfd H|e rt2 s s' Hr IH H|A m x s s' Hr IH H
    |A m x s s' Hr IH H|s s' Hr IH H].
  - by eapply inv_init.
  - by eapply grow_for_inv.
  - apply (add_to_ctx_addEvent t) in H; [|done].
    destruct (addEvent_effect t _ _ _ _ _ _ _ _ _ IH Hfd H) as (s1 & c & _ & Hi1 & Hc & Hv).
    destruct Hv as [(_ & _ & ->)|(_ & _ & Hev & Hh & x & Hx & _ & Hu)]; [done|].
    pose proof (inv_wf _ _ Hi1 _ _ Hc) as Hwf.
    destruct (wf_with_waiter _ c event x Hwf Hev Hh Hx) as (Hw' & _ & Hne & _).
    eapply inv_updated; [exact Hi1|done|done|done|done].
  - pose proof (delEvent_eq t rt fdi event s IH Hfd Hev) as He.
    destruct (m_fdContexts s !! Z.to_nat fdi) as [c|] eqn:Hc; [|rewrite He in H; by injection H as <- <-].
    destruct (has c event) eqn:Hh, (rt =? 0); simpl in He; [|rewrite He in H; by injection H as <- <-..].
    destruct He as (s1 & He & Hk & _). rewrite He in H. injection H as <- <-. by eapply took_one_inv.
  - pose proof (cancelEvent_eq t rt fdi event s IH Hfd Hev) as He.
    destruct (m_fdContexts s !! Z.to_nat fdi) as [c|] eqn:Hc; [|rewrite He in H; by injection H as <- <-].
    destruct (has c event) eqn:Hh, (rt =? 0); simpl in He; [|rewrite He in H; by injection H as <- <-..].
    destruct (scheduler (ctx_of c event)); [by rewrite He in H|by rewrite He in H|].
    destruct He as (s1 & He & Hk & _). rewrite He in H. injection H as <- <-. by eapply took_one_inv.
  - pose proof (cancekAll_eq t rt fdi s IH Hfd) as He.
    destruct (m_fdContexts s !! Z.to_nat fdi) as [c|] eqn:Hc; [|rewrite He in H; by injection H as <- <-]. cbn zeta in He.
    destruct (Z.eqb_spec (events c) 0) as [H0|H0]; [simpl in He; rewrite He in H; by injection H as <- <-|].
    destruct (rt =? 0); simpl in He; [|rewrite He in H; by injection H as <- <-].
    destruct (can_fire _ _ _) eqn:Hf; [|destruct He as [e He]; by rewrite He in H].
    destruct He as (s1 & He & Hk & _). rewrite He in H. injection H as <- <-. destruct (can_fire_true _ _ _ Hf) as [Hr' Hw].
    apply (took_inv t fdi c (has c READ) (has c WRITE) s); [done|done|naive_solver|naive_solver| |done].
    pose proof (inv_wf _ _ IH _ _ Hc) as (_ & Hev & _ & _). rewrite !elem_of_cons, elem_of_nil in Hev.
    unfold has. destruct Hev as [E|[E|[E|[E|[]]]]]; [done|rewrite E; by vm_compute..].
  - by eapply handle_event_inv.
  - eapply inv_same_table; [|done]. by eapply in_sched_table.
  - eapply inv_same_table; [|done]. unfold in_timers in H. destruct (m (timers s)); by simplify_eq.
  - destruct (tickle_table s) as (s1 & E & Ht & _). rewrite E in H. injection H as <-. by eapply inv_same_table.
Qed.

(** [addEvent] without another thread in between is a growth and a registration. *)
Lemma reach_add t me a rt fdi event f s v s' :
  reachable t s -> 0 <= fdi < 2 ^ 30 -> addEvent me a rt fdi event f s = Ok v s' -> reachable t s'.
Proof.
  intros Hr Hfd H. rewrite addEvent_sections in H. unfold bind at 1, too_small, gets in H.
  destruct (inv_size _ _ (iom_reachable _ _ Hr)) as [H1 H2]. rewrite swrap_id in H by (unfold in_s; lia).
  destruct (Z.ltb_spec fdi (Z.of_nat (length (m_fdContexts s)))) as [Hlt|Hge]; simpl in H.
  - eapply (reach_add_to t me a rt fdi event f s); [done|done|exact H].
  - inv_bind H. destruct y. eapply reach_add_to; [|exact Hfd|exact H]. eapply (reach_grow t fdi s); [done|lia| |done].
    rewrite Z.quot_div_nonneg by lia. enough (fdi <= fdi * 3 / 2) by lia.
    apply Z.div_le_lower_bound; lia.
Qed.

Lemma total_bound l : total l <= 2 * Z.of_nat (length l).
Proof.
  induction l as [|c l IH]; simpl length; [done|]. cbn [total foldr]. fold (total l).
  unfold bits. destruct (has c READ), (has c WRITE); simpl Z.b2z; lia.
Qed.

Lemma bits_events i c : wf_fdc i c -> bits c = 0 -> events c = 0.
Proof.
  intros (_ & He & _ & _). rewrite !elem_of_cons, elem_of_nil in He. unfold bits, has.
  by destruct He as [->|[->|[->|[->|[]]]]].
Qed.

(** A successful [addEvent] with a callback. *)
Lemma addEvent_cb t me a rt fdi event f s :
  inv t s -> 0 <= fdi < 2 ^ 30 -> is_event event ->
  exists c s1, lookup_or_grow fdi s = Ok c s1 /\ inv t s1 /\ m_fdContexts s1 !! Z.to_nat fdi = Some c /\
    c = default (new_FdContext (Z.to_nat fdi)) (m_fdContexts s !! Z.to_nat fdi) /\
    sched s1 = sched s /\ timers s1 = timers s /\
    (forall i x, m_fdContexts s !! i = Some x -> m_fdContexts s1 !! i = Some x) /\
    (has c event = true -> addEvent me a rt fdi event (Some f) s = Fail_ AssertFail) /\
    (has c event = false -> rt <> 0 -> addEvent me a rt fdi event (Some f) s = Ok (-1) s1) /\
    (has c event = false -> rt = 0 ->
       exists s', addEvent me a rt fdi event (Some f) s = Ok 0 s' /\ sched s' = sched s1 /\ timers s' = timers s1 /\
         updated (Z.to_nat fdi) c
           (with_waiter c event (EventContext_ (if bool_decide (me ∈ t_scheduler (sched s)) then This else Null)
              None (Some f))) (Z.lor EPOLLET (Z.lor (events c) event)) s1 s').
Proof.
  intros Hi Hfd Hev. destruct (lookup_or_grow_ok t fdi s Hi Hfd) as (c & s1 & Hl & Hi1 & Hc & Hd & Hs & Ht & _ & _ & Hk).
  pose proof (inv_wf _ _ Hi1 _ _ Hc) as Hwf.
  exists c, s1. do 7 (split; [done|]).
  assert (forall r, addEvent me a r fdi event (Some f) s =
    if has c event then Fail_ AssertFail else if r =? 0 then
      Ok 0 (let x := EventContext_ (if bool_decide (me ∈ t_scheduler (sched s)) then This else Null)
                       (fiber (ctx_of c event)) (Some f) in
            set_fdContexts (<[Z.to_nat fdi := with_waiter c event x]> (m_fdContexts s1))
              (add_pending 1 (add_ctl (if events c =? 0 then EPOLL_CTL_ADD else EPOLL_CTL_MOD, fdi,
                 Z.lor EPOLLET (Z.lor (events c) event)) (set_sched (sched s1) s1))))
    else Ok (-1) s1) as E.
  { intros r. unfold addEvent, bind at 1. rewrite Hl. unfold register_in, has, assert_, epoll_ctl.
    destruct (Z.land (events c) event =? 0); [|done]. destruct (r =? 0); [|done].
    unfold bind. simpl. rewrite getContext_ctx_of by done. unfold in_sched. simpl.
    rewrite <- Hs. destruct Hev as [-> | ->]; simpl; by rewrite list_insert_insert_eq. }
  rewrite !E. split; [by intros ->|]. split; [intros -> Hr; by rewrite (proj2 (Z.eqb_neq rt 0) Hr)|].
  intros Hh ->. rewrite Hh. simpl. eexists. do 3 (split; [done|]).
  assert (fiber (ctx_of c event) = None) as ->.
  { destruct Hwf as (_ & _ & Hr & Hw). destruct Hev as [-> | ->]; rewrite Hh in *; apply Hr || apply Hw. }
  apply added_updated; [lia|done|done|done| |done|done|done].
  split; [by destruct (bool_decide _)|done].
Qed.

(** The same for the fiber that thread [me] executes. *)
Lemma addEvent_fiber t me a rt fdi event f fb s :
  inv t s -> 0 <= fdi < 2 ^ 30 -> is_event event ->
  Fiber.t_fiber (Fiber.tls me (fw (sched s))) = Some f -> Fiber.fibers (fw (sched s)) !! f = Some fb ->
  Fiber.m_state fb = Fiber.EXEC ->
  exists c s1, lookup_or_grow fdi s = Ok c s1 /\ inv t s1 /\ m_fdContexts s1 !! Z.to_nat fdi = Some c /\
    c = default (new_FdContext (Z.to_nat fdi)) (m_fdContexts s !! Z.to_nat fdi) /\
    sched s1 = sched s /\ timers s1 = timers s /\
    (forall i x, m_fdContexts s !! i = Some x -> m_fdContexts s1 !! i = Some x) /\
    (has c event = true -> addEvent me a rt fdi event None s = Fail_ AssertFail) /\
    (has c event = false -> rt <> 0 -> addEvent me a rt fdi event None s = Ok (-1) s1) /\
    (has c event = false -> rt = 0 ->
       exists s', addEvent me a rt fdi event None s = Ok 0 s' /\ sched s' = sched s1 /\ timers s' = timers s1 /\
         updated (Z.to_nat fdi) c
           (with_waiter c event (EventContext_ (if bool_decide (me ∈ t_scheduler (sched s)) then This else Null)
              (Some f) None)) (Z.lor EPOLLET (Z.lor (events c) event)) s1 s').
Proof.
  intros Hi Hfd Hev Hcur Hfb Hst.
  destruct (lookup_or_grow_ok t fdi s Hi Hfd) as (c & s1 & Hl & Hi1 & Hc & Hd & Hs & Ht & _ & _ & Hk).
  pose proof (inv_wf _ _ Hi1 _ _ Hc) as Hwf.
  exists c, s1. do 7 (split; [done|]). rewrite <- Hs in Hcur, Hfb.
  assert (forall r, addEvent me a r fdi event None s =
    if has c event then Fail_ AssertFail else if r =? 0 then
      Ok 0 (let x := EventContext_ (if bool_decide (me ∈ t_scheduler (sched s)) then This else Null)
                       (Some f) (cb (ctx_of c event)) in
            set_fdContexts (<[Z.to_nat fdi := with_waiter c event x]> (m_fdContexts s1))
              (add_pending 1 (add_ctl (if events c =? 0 then EPOLL_CTL_ADD else EPOLL_CTL_MOD, fdi,
                 Z.lor EPOLLET (Z.lor (events c) event)) (set_sched (set_fw (fw (sched s1)) (sched s1)) s1))))
    else Ok (-1) s1) as E.
  { intros r. unfold addEvent, bind at 1. rewrite Hl. unfold register_in, has, assert_, epoll_ctl.
    destruct (Z.land (events c) event =? 0); [|done]. destruct (r =? 0); [|done].
    unfold bind. simpl. rewrite getContext_ctx_of by done. unfold in_sched, lift. simpl.
    rewrite (Fiber.GetThis_eq me a f _ fb Hcur Hfb). simpl. unfold Fiber.state, bind, Fiber.get_fiber. rewrite Hfb. simpl.
    rewrite bool_decide_true by done. rewrite <- Hs.
    destruct Hev as [-> | ->]; simpl; by rewrite list_insert_insert_eq. }
  rewrite !E. split; [by intros ->|]. split; [intros -> Hr; by rewrite (proj2 (Z.eqb_neq rt 0) Hr)|].
  intros Hh ->. rewrite Hh. simpl. eexists. split; [done|]. split; [by destruct (sched s1)|]. split; [done|].
  assert (cb (ctx_of c event) = None) as ->.
  { destruct Hwf as (_ & _ & Hr & Hw). destruct Hev as [-> | ->]; rewrite Hh in *; apply Hr || apply Hw. }
  apply added_updated; [lia|done|done|done| |done|done|done].
  split; [by destruct (bool_decide _)|done].
Qed.

(** [addTimer] with its notification. *)
Lemma addTimer_table now a ms f recurring s :
  exists s', addTimer now a ms f recurring s = Ok tt s' /\ same_table s s' /\ sched s' = sched s /\
    let h := <[a := Timer.Timer now ms f recurring]> (Timer.heap (timers s)) in
    Timer.heap (timers s') = h /\
    Timer.m_timers (timers s') = Timer.set_insert h a (Timer.m_timers (timers s)) /\
    (Timer.inv (timers s) -> Timer.heap (timers s) !! a = None -> Timer.inv (timers s')).
Proof.
  unfold addTimer, bind, in_timers. rewrite Timer.addTimer_eq. cbv zeta.
  set (h := <[a := Timer.Timer now ms f recurring]> (Timer.heap (timers s))).
  set (ts := Timer.set_insert h a (Timer.m_timers (timers s))).
  generalize (bool_decide (head ts = Some a) && negb (Timer.m_tickled (timers s))). intros b.
  set (s1 := set_timers (Timer.Manager h ts (Timer.m_tickled (timers s) || b) (Timer.m_previous_time (timers s))) s).
  assert (exists s', (if b then onTimerInsertAtFront else ret tt) s1 = Ok tt s' /\ same_table s1 s' /\
    sched s' = sched s1 /\ timers s' = timers s1) as (s' & E & Hst & Es & Et).
  { destruct b; [by apply tickle_table|]. by exists s1. }
  exists s'. rewrite Es, Et. split_and!; [done..|]. intros Hi Ha. simpl.
  pose proof (Timer.inv_added now a ms f recurring _ Hi Ha) as Hadd. cbv zeta in Hadd. fold h ts in Hadd.
  by apply (proj1 (Timer.inv_flags _ _ (Timer.m_tickled (timers s) || b) 0 Hadd)).
Qed.

(** ** Properties *)

(** C11: after any sequence of the critical sections of the threads (the growth
    of the table and the registration of [addEvent] are separate ones),
    descriptors in 0 .. 2^30 - 1, whatever [epoll_ctl] answers, as long as no
    assertion or undefined call stops the program and no late growth shrinks the
    table (the code can do that, [resize_shrinks]): every slot of the table holds
    the context of its own descriptor; the context of a registered event holds
    one waiter (a callback or a fiber, not both) and a scheduler pointer that was
    set (perhaps to null), that of an unregistered event holds no waiter;
    [m_pendingEventCount] is the number of registered events; the kernel's
    interest list has, for every descriptor but the pipe's, exactly the
    registered events, and every successful [epoll_ctl] call so far was one the
    kernel accepts. *)
Theorem iomanager_inv t s : reachable t s -> inv t s.
Proof. apply iom_reachable. Qed.


(** [delEvent], [cancelEvent] and [cancekAll] return true exactly when the
    event is registered (for [cancekAll]: some event is) and [epoll_ctl]
    succeeds; then the kernel stops watching it, the count goes down, and
    [delEvent] drops the waiter while the cancelling methods queue it, the
    reader before the writer, on the scheduler it was registered with. In all
    other cases nothing changes. *)
Theorem withdraw_outcome t rt fdi event s c :
  reachable t s -> 0 <= fdi -> is_event event -> m_fdContexts s !! Z.to_nat fdi = Some c ->
  can_fire c (has c READ) (has c WRITE) = true ->
  let ok := has c event && (rt =? 0) in
  let ok_all := negb (events c =? 0) && (rt =? 0) in
  (exists s', delEvent rt fdi event s = Ok ok s' /\
     (if ok then took fdi c [event] s s' /\ sched s' = sched s else s' = s)) /\
  (exists s', cancelEvent rt fdi event s = Ok ok s' /\
     (if ok then took fdi c [event] s s' /\
        m_fibers (sched s') = m_fibers (sched s) ++ [waiter (ctx_of c event)] else s' = s)) /\
  (exists s', cancekAll rt fdi s = Ok ok_all s' /\
     (if ok_all then took fdi c (sel_of (has c READ) (has c WRITE)) s s' /\
        m_fibers (sched s') = m_fibers (sched s) ++
          ((fun e => waiter (ctx_of c e)) <$> sel_of (has c READ) (has c WRITE)) else s' = s)).
Proof.
  intros Hi%iom_reachable Hfd Hev Hc Hf ok ok_all.
  pose proof (delEvent_eq t rt fdi event s Hi Hfd Hev) as Hdel.
  pose proof (cancelEvent_eq t rt fdi event s Hi Hfd Hev) as Hcan.
  pose proof (cancekAll_eq t rt fdi s Hi Hfd) as Hall. rewrite Hc in Hdel, Hcan, Hall. cbn zeta in Hall.
  rewrite Hf in Hall. fold ok in Hdel, Hcan. fold ok_all in Hall. split_and!.
  - destruct ok; [|by exists s]. destruct Hdel as (s' & H1 & H2). by exists s'.
  - destruct ok eqn:Hok; [|by exists s].
    assert (scheduler (ctx_of c event) = This) as Hs.
    { destruct (can_fire_true _ _ _ Hf) as [Hr Hw]. apply andb_true_iff in Hok as [Hh _].
      destruct Hev as [-> | ->]; [by apply Hr|by apply Hw]. }
    rewrite Hs in Hcan. destruct Hcan as (s' & H1 & H2). by exists s'.
  - destruct ok_all; [|by exists s]. destruct Hall as (s' & H1 & H2). by exists s'.
Qed.

(** C18: one event from [epoll_wait]. If it wakes no registered event, or
    [epoll_ctl] fails, nothing changes. If every event it wakes is registered
    (with a scheduler), exactly these are taken from the context, the kernel and
    the count, and their waiters are queued in order. If it wakes a registered
    and an unregistered event, as an error or hang-up does on a descriptor with
    one event, the program stops. *)
Theorem handle_event_outcome t fdi ev rt2 s c :
  reachable t s -> 0 <= fdi -> m_fdContexts s !! Z.to_nat fdi = Some c ->
  let r := wakes ev EPOLLIN in let w := wakes ev EPOLLOUT in
  let some := (r && has c READ) || (w && has c WRITE) in
  (some && (rt2 =? 0) = false -> handle_event (Ready fdi ev) rt2 s = Ok tt s) /\
  (some && (rt2 =? 0) = true -> can_fire c r w = true ->
     exists s', handle_event (Ready fdi ev) rt2 s = Ok tt s' /\ took fdi c (sel_of r w) s s' /\
       m_fibers (sched s') = m_fibers (sched s) ++ ((fun e => waiter (ctx_of c e)) <$> sel_of r w)) /\
  (some && (rt2 =? 0) = true -> can_fire c r w = false ->
     exists e, handle_event (Ready fdi ev) rt2 s = Fail_ e).
Proof.
  intros Hi%iom_reachable Hfd Hc r w some.
  pose proof (handle_event_eq t fdi ev rt2 s c Hi Hfd Hc) as H. cbn zeta in H. fold r w some in H.
  split_and!; intros Hs; rewrite Hs in H; [done| |]; intros Hf; by rewrite Hf in H.
Qed.

(** [IOManager::stopping] answers true only when there is nothing left to
    do: [stop] was asked for, no task is queued or runs, no descriptor has a
    registered event, and (for a clock after its epoch) no timer is set. *)
Theorem stopping_outcome t now s :
  reachable t s ->
  exists b s', stopping now s = Ok b s' /\ same_table s s' /\ sched s' = sched s /\
    (b = true ->
       m_autostop (sched s) = true /\ m_stop (sched s) = true /\ m_fibers (sched s) = [] /\
       m_active_thread_count (sched s) = 0 /\
       (forall i c, m_fdContexts s !! i = Some c -> events c = 0) /\
       (0 < now < 2 ^ 64 -> Timer.inv (timers s) -> Timer.m_timers (timers s) = [])).
Proof.
  intros Hi%iom_reachable. unfold stopping, bind, in_timers, gets. simpl.
  eexists _, _. split; [done|]. do 2 (split; [done|]). simpl.
  intros [[Ht Hp]%andb_true_iff Hs]%andb_true_iff.
  unfold Scheduler.stopping in Hs. apply andb_true_iff in Hs as [[[E1 E2]%andb_true_iff E3]%andb_true_iff E4].
  apply Z.eqb_eq in Ht, Hp, E4. apply bool_decide_eq_true in E3. do 4 (split; [done|]). split.
  - intros i c Hc. pose proof (inv_wf _ _ Hi _ _ Hc) as Hwf. apply (bits_events i); [done|].
    apply (total_zero (m_fdContexts s) i); [|done].
    pose proof (inv_pending _ _ Hi) as Hpe. rewrite Hp in Hpe. pose proof (inv_size _ _ Hi) as [_ Hsz].
    pose proof (total_bound (m_fdContexts s)). pose proof (total_nonneg (m_fdContexts s)).
    rewrite wrap_id in Hpe by (unfold in_u; lia). done.
  - intros Hn Hti. destruct (Timer.m_timers (timers s)) as [|a l] eqn:Hm; [done|]. exfalso.
    destruct (Timer.inv_live _ _ Hti a) as [x Hx]; [left; rewrite Hm; set_solver|].
    pose proof (Timer.inv_next _ _ Hti a x Hx) as [Hx1 Hx2]. rewrite <- (Timer.next_of_lookup _ _ _ Hx) in Hx1, Hx2.
    simpl in Ht. destruct (Z.leb_spec (Timer.next_of (Timer.heap (timers s)) a) now); [done|].
    rewrite wrap_id in Ht by (unfold in_u; lia). lia.
Qed.

End iomanager.
Arguments iom : clear implicits.

(** ** Witnesses *)

(** An I/O manager whose pipe is descriptor 3, used from thread 0. *)
Definition ex_sched : Scheduler.sched (Timer.callback nat nat) :=
  set_scheduler {[0%nat]} (empty_sched (Fiber.World ∅ 0 0 ∅)).
Definition made (r : res (iom nat nat) unit) : iom nat nat :=
  match r with Ok _ s => s | _ => IOM ex_sched (Timer.TimerManager 1000) 0 [] [] 0 end.
Definition ex_iom : iom nat nat := made (IOManager ex_sched (Timer.TimerManager 1000) 3 []).
Definition ex_cb : Timer.callback nat nat := Timer.Plain 7%nat.
(** The same with a reader on descriptor 5. *)
Definition ex_reader : iom nat nat := made ((addEvent 0 1 0 5 READ (Some ex_cb) ;;; ret tt) ex_iom).

Lemma reachable_ex : reachable 3 ex_iom.
Proof. by eapply (reach_init 3 ex_sched (Timer.TimerManager 1000) []). Qed.
Lemma reachable_reader : reachable 3 ex_reader.
Proof. by eapply (reach_add 3 0 1 0 5 READ (Some ex_cb) ex_iom 0); [apply reachable_ex|lia|vm_compute]. Qed.

Lemma iomanager_inv_witness :
  reachable 3 ex_reader /\ inv 3 ex_reader /\ m_pendingEventCount ex_reader = 1.
Proof.
  split; [apply reachable_reader|]. split; [apply (iomanager_inv 3 ex_reader reachable_reader)|by vm_compute].
Defined.


Lemma withdraw_outcome_witness :
  reachable 3 ex_reader /\
  exists s', cancelEvent 0 5 READ ex_reader = Ok true s' /\
    m_fibers (sched s') = [FiberAndThread_ None (Some ex_cb) (-1)].
Proof.
  split; [apply reachable_reader|].
  destruct (withdraw_outcome 3 0 5 READ ex_reader
    (FdContext_ 5 (EventContext_ This None (Some ex_cb)) (no_ctx Garbage) 1) reachable_reader)
    as (_ & (s' & H1 & H2) & _); [lia|by left|by vm_compute|by vm_compute|].
  exists s'. split; [exact H1|]. simpl in H2. destruct H2 as [_ H2]. rewrite H2. by vm_compute.
Defined.

Lemma handle_event_outcome_witness :
  reachable 3 ex_reader /\
  exists s', handle_event (Ready 5 EPOLLIN) 0 ex_reader = Ok tt s' /\
    m_fibers (sched s') = [FiberAndThread_ None (Some ex_cb) (-1)].
Proof.
  split; [apply reachable_reader|].
  destruct (handle_event_outcome 3 5 EPOLLIN 0 ex_reader
    (FdContext_ 5 (EventContext_ This None (Some ex_cb)) (no_ctx Garbage) 1) reachable_reader)
    as (_ & H & _); [lia|by vm_compute|].
  destruct H as (s' & H1 & _ & H2); [by vm_compute|by vm_compute|].
  exists s'. split; [exact H1|]. rewrite H2. by vm_compute.
Defined.

Lemma stopping_outcome_witness :
  reachable 3 ex_reader /\ exists s', stopping 1000 ex_reader = Ok false s' /\ sched s' = sched ex_reader.
Proof.
  split; [apply reachable_reader|].
  destruct (stopping_outcome 3 1000 ex_reader reachable_reader) as (b & s' & H & _ & Hs & _).
  exists s'. split; [|exact Hs]. rewrite H. f_equal. vm_compute in H. by injection H as <- _.
Defined.

(** A hang-up on a descriptor with only a reader wakes the writer too: the
    assertion of [triggerEvent] fails. *)
Example hangup_on_reader : handle_event (Ready 5 EPOLLHUP) 0 ex_reader = Fail_ AssertFail.
Proof. by vm_compute. Qed.

(** [stopping] fills a copy of [next_timeout], so [epoll_wait] never sleeps. *)
Example epoll_never_sleeps : epoll_timeout = 0.
Proof. reflexivity. Qed.

(** Two threads that both found the table too small, for descriptors 100 and 40,
    resize it one after the other: the second call shrinks it and the context of
    100, where the first thread registers its event, is out of the table. *)
Example resize_shrinks :
  let s := made ((resizeContext (Z.to_nat (Z.quot (100 * 3) 2)) ;;;
                  resizeContext (Z.to_nat (Z.quot (40 * 3) 2)) ;;; ret tt) ex_iom) in
  m_fdContexts s !! 100%nat = None /\ delEvent 0 100 READ s = Ok false s.
Proof. split; by vm_compute. Qed.
End IOManager.
