(* ===== verification/Text.v ===== *)
(** * Text: C strings and printed numbers

    What the components share when they print and read text: the characters a C
    function sees of a [std::string], the decimal and hexadecimal texts an output
    stream writes, and [std::string] operations. *)

From stdpp Require Import prelude strings.
From Stdlib Require Import ZArith Lia Ascii.
From S2P Require Import Prelude.

Module Text.
Local Open Scope string_scope.
Local Open Scope Z_scope.

Definition code (c : ascii) : Z := Z.of_nat (nat_of_ascii c).
(** The characters a C function sees. *)
Fixpoint c_str (s : string) : list Z :=
  match s with
  | EmptyString => []
  | String c s => if code c =? 0 then [] else code c :: c_str s
  end.

(** What [os << n] writes for a number. *)
Definition digit (d : Z) : ascii := ascii_of_nat (Z.to_nat (48 + d)).
Fixpoint digits (fuel : nat) (n : Z) (acc : string) : string :=
  match fuel with
  | O => acc
  | S fuel =>
    let acc := String (digit (n mod 10)) acc in
    if n <? 10 then acc else digits fuel (n / 10) acc
  end.
Definition dec (n : Z) : string := digits (S (Z.to_nat (Z.log2 n))) n "".
(** A signed number, and one under [std::hex]. *)
Definition sdec (n : Z) : string := if n <? 0 then "-" +:+ dec (- n) else dec n.
Definition hex_char (d : Z) : ascii := ascii_of_nat (Z.to_nat (if d <? 10 then 48 + d else 87 + d)).
Fixpoint hex_digits (fuel : nat) (n : Z) (acc : string) : string :=
  match fuel with
  | O => acc
  | S fuel =>
    let acc := String (hex_char (n mod 16)) acc in
    if n <? 16 then acc else hex_digits fuel (n / 16) acc
  end.
Definition hex (n : Z) : string := hex_digits (S (Z.to_nat (Z.log2 n))) n "".

(** ** Numbers *)

Fixpoint undec_go (acc : Z) (s : string) : Z :=
  match s with
  | EmptyString => acc
  | String c s => undec_go (10 * acc + (code c - 48)) s
  end.
Definition undec (s : string) : Z := undec_go 0 s.
Definition is_digit (c : ascii) : Prop := 48 <= code c <= 57.
Fixpoint all_chars (P : ascii -> Prop) (s : string) : Prop :=
  match s with EmptyString => True | String c s => P c /\ all_chars P s end.

Lemma code_digit d : 0 <= d < 10 -> code (digit d) = 48 + d.
Proof. intros H. unfold code, digit. rewrite nat_ascii_embedding by lia. lia. Qed.

Lemma digits_spec fuel : forall n acc,
  0 <= n < 2 ^ Z.of_nat (S fuel) ->
  undec_go 0 (digits (S fuel) n acc) = undec_go n acc /\
  (all_chars is_digit acc -> all_chars is_digit (digits (S fuel) n acc)).
Proof.
  induction fuel as [|fuel IH]; intros n acc Hn.
  - assert (n = 0 \/ n = 1) as [-> | ->] by lia; (split; [done|]); intros H; by split.
  - pose proof (Z.mod_pos_bound n 10 ltac:(lia)) as Hm.
    assert (digits (S (S fuel)) n acc =
      if n <? 10 then String (digit (n mod 10)) acc
      else digits (S fuel) (n / 10) (String (digit (n mod 10)) acc)) as -> by done.
    assert (is_digit (digit (n mod 10))) as Hd by (unfold is_digit; rewrite code_digit; lia).
    destruct (Z.ltb_spec n 10) as [Hlt|Hge].
    + rewrite Z.mod_small by lia. split.
      * cbn [undec_go]. rewrite code_digit by lia. f_equal. lia.
      * rewrite Z.mod_small in Hd by lia. by split.
    + destruct (IH (n / 10) (String (digit (n mod 10)) acc)) as [IH1 IH2].
      { split; [apply Z.div_pos; lia|]. apply Z.div_lt_upper_bound; [lia|].
        rewrite Nat2Z.inj_succ, Z.pow_succ_r in Hn by lia. lia. }
      split; [|intros Ha; apply IH2; by split].
      rewrite IH1. cbn [undec_go]. rewrite code_digit by lia. f_equal.
      pose proof (Z.div_mod n 10 ltac:(lia)). lia.
Qed.

Lemma dec_spec n : 0 <= n -> undec (dec n) = n /\ all_chars is_digit (dec n).
Proof.
  intros Hn. destruct (digits_spec (Z.to_nat (Z.log2 n)) n "") as [H1 H2].
  { split; [done|]. pose proof (Z.log2_nonneg n).
    rewrite Nat2Z.inj_succ, Z2Nat.id by lia.
    destruct (Z.eq_dec n 0) as [->|]; [by vm_compute|]. apply Z.log2_spec. lia. }
  split; [exact H1|by apply H2].
Qed.

Lemma digits_length fuel : forall n acc, (String.length acc <= String.length (digits fuel n acc))%nat.
Proof.
  induction fuel as [|fuel IH]; intros n acc; [done|]. cbn [digits]. destruct (n <? 10); [simpl; lia|].
  specialize (IH (n / 10) (String (digit (n mod 10)) acc)). simpl in *. lia.
Qed.
Lemma dec_nonempty n : dec n <> "".
Proof.
  unfold dec. cbn [digits]. destruct (n <? 10); [done|]. intros E.
  pose proof (digits_length (Z.to_nat (Z.log2 n)) (n / 10) (String (digit (n mod 10)) "")) as H. rewrite E in H. simpl in H. lia.
Qed.

Lemma app_assoc_s (a b c : string) : (a +:+ b) +:+ c = a +:+ b +:+ c.
Proof. induction a as [|x a IH]; unfold String.append; fold String.append; [done|]. by rewrite IH. Qed.

Lemma app_empty_s (a : string) : a +:+ "" = a.
Proof. induction a as [|x a IH]; unfold String.append; fold String.append; [done|]. by rewrite IH. Qed.

Lemma all_chars_app P a b : all_chars P (a +:+ b) <-> all_chars P a /\ all_chars P b.
Proof. induction a as [|x a IH]; unfold String.append; fold String.append; simpl; [tauto|]. rewrite IH. tauto. Qed.

Lemma all_chars_impl (P Q : ascii -> Prop) s : (forall c, P c -> Q c) -> all_chars P s -> all_chars Q s.
Proof. intros H. induction s as [|c s IH]; simpl; [done|]. intros [? ?]. auto. Qed.

#[global] Instance all_chars_dec P `{!forall c, Decision (P c)} s : Decision (all_chars P s).
Proof. induction s; simpl; apply _. Defined.


(** ** Bytes in memory *)

(** The string of a block of bytes, and the bytes of a string. *)
Definition to_text (l : list Z) : string :=
  foldr (fun z s => String (ascii_of_nat (Z.to_nat z)) s) "" l.
Fixpoint bytes_of (s : string) : list Z :=
  match s with EmptyString => [] | String c s => code c :: bytes_of s end.

Lemma ascii_of_code c : ascii_of_nat (Z.to_nat (code c)) = c.
Proof. unfold code. rewrite Nat2Z.id. apply ascii_nat_embedding. Qed.

Lemma to_text_bytes s : to_text (bytes_of s) = s.
Proof. induction s as [|c s IH]; [done|]. cbn [bytes_of to_text foldr]. rewrite ascii_of_code. f_equal. exact IH. Qed.

Lemma to_text_app a b : to_text (a ++ b) = to_text a +:+ to_text b.
Proof. induction a as [|z a IH]; [done|]. cbn [app to_text foldr]. change (foldr _ _ (a ++ b)) with (to_text (a ++ b)). by rewrite IH. Qed.

Lemma bytes_of_app a b : bytes_of (a +:+ b) = (bytes_of a ++ bytes_of b)%list.
Proof.
  induction a as [|c a IH]; [done|]. change (String c a +:+ b) with (String c (a +:+ b)).
  cbn [bytes_of app]. by rewrite IH.
Qed.

Lemma length_bytes_of s : length (bytes_of s) = String.length s.
Proof. induction s as [|c s IH]; [done|]. simpl. by rewrite IH. Qed.

Lemma code_range c : 0 <= code c < 256.
Proof. unfold code. pose proof (nat_ascii_bounded c). lia. Qed.

(** ** Positions in a string *)

Lemma length_app_s a b : String.length (a +:+ b) = (String.length a + String.length b)%nat.
Proof. induction a as [|c a IH]; [done|]. change (String c a +:+ b) with (String c (a +:+ b)). simpl. by rewrite IH. Qed.
Lemma get_app_s a b n : String.get (String.length a + n) (a +:+ b) = String.get n b.
Proof. induction a as [|c a IH]; [done|]. exact IH. Qed.
Lemma substring_skip a b n m : String.substring (String.length a + n) m (a +:+ b) = String.substring n m b.
Proof. induction a as [|c a IH]; [done|]. exact IH. Qed.
Lemma substring_here a b : String.substring 0 (String.length a) (a +:+ b) = a.
Proof.
  induction a as [|c a IH]; [by destruct b|]. change (String c a +:+ b) with (String c (a +:+ b)). simpl. by rewrite IH.
Qed.
(** The middle of three parts. *)
Lemma substring_mid a b c : String.substring (String.length a) (String.length b) (a +:+ b +:+ c) = b.
Proof. rewrite <- (Nat.add_0_r (String.length a)), substring_skip. apply substring_here. Qed.

End Text.
