(* ===== verification/Address.v ===== *)
(** * Socket addresses: src/src/address.h, src/src/address.cpp

    The system's address structures with all their fields, their images in memory
    (what [addr()] points to), the four address classes, and the lookups.  The
    resolver ([getaddrinfo], [inet_pton]) and the list of interfaces are arguments
    of the functions that ask for them.  [byte_order] is [COOL_BYTE_ORDER] and
    [little] the order of the host. *)

From stdpp Require Import prelude strings.
From Stdlib Require Import ZArith Lia Ascii.
From S2P Require Import Prelude Endian Text.

Module Address.
Import Endian Text.
Local Open Scope Z_scope.

Definition AF_UNSPEC : Z := 0.
Definition AF_UNIX : Z := 1.
Definition AF_INET : Z := 2.
Definition AF_INET6 : Z := 10.

Record sockaddr_in := SockAddrIn {
  sin_family : Z;
  sin_port : Z;
  s_addr : Z;
  sin_zero : list Z
}.
Record sockaddr_in6 := SockAddrIn6 {
  sin6_family : Z;
  sin6_port : Z;
  sin6_flowinfo : Z;
  s6_addr : list Z;
  sin6_scope_id : Z
}.
Record sockaddr_un := SockAddrUn {
  sun_family : Z;
  sun_path : list Z
}.
Record sockaddr := SockAddr {
  sa_family : Z;
  sa_data : list Z
}.

#[global] Instance sockaddr_in_eq_dec : EqDecision sockaddr_in.
Proof. solve_decision. Defined.
#[global] Instance sockaddr_in6_eq_dec : EqDecision sockaddr_in6.
Proof. solve_decision. Defined.
#[global] Instance sockaddr_un_eq_dec : EqDecision sockaddr_un.
Proof. solve_decision. Defined.
#[global] Instance sockaddr_eq_dec : EqDecision sockaddr.
Proof. solve_decision. Defined.

(** The classes derived from [Address], with their members. *)
Inductive Address :=
  | IPv4Address (m_addr : sockaddr_in)
  | IPv6Address (m_addr : sockaddr_in6)
  | UnixAddress (m_addr : sockaddr_un) (m_len : Z)
  | UnknowAddress (m_addr : sockaddr).
#[global] Instance Address_eq_dec : EqDecision Address.
Proof. solve_decision. Defined.
Definition is_IPAddress (a : Address) : bool :=
  match a with IPv4Address _ | IPv6Address _ => true | _ => false end.

(** These functions keep no state. *)
Abbreviation eff := (cmd unit).

Definition zeros (n : nat) : list Z := replicate n 0.

(** ** Masks *)

(** [(1 << (sizeof(T) * 8 - bits)) - 1]: the count is a [size_t], the rest [int]. *)
Definition CreateMask (sizeof_T : Z) (bits : Z) : eff Z :=
  let count := u64 (sizeof_T * 8 - bits) in
  require (count <? 32) ;;;
  let one := s32 (2 ^ count) in
  require (in_sb 32 (one - 1)) ;;;
  ret (wrap (8 * sizeof_T) (one - 1)).

Fixpoint CountBytes_loop (fuel : nat) (value result : Z) : eff Z :=
  match fuel with
  | O => fail OutOfFuel
  | S fuel => if value =? 0 then ret result
              else CountBytes_loop fuel (Z.land value (value - 1)) (u32 (result + 1))
  end.
(** A value of at most 32 bits. *)
Definition CountBytes (value : Z) : eff Z := CountBytes_loop 33 value 0.

Section host.
Context (byte_order : Z) (little : bool).

Local Abbreviation image := (host_bytes little).
Local Abbreviation value := (host_value little).
Local Abbreviation swap := (byteswapOnLittleEndian byte_order).

(** ** Images in memory *)

Definition in_image (a : sockaddr_in) : list Z :=
  image 2 (sin_family a) ++ image 2 (sin_port a) ++ image 4 (s_addr a) ++ sin_zero a.
Definition in6_image (a : sockaddr_in6) : list Z :=
  image 2 (sin6_family a) ++ image 2 (sin6_port a) ++ image 4 (sin6_flowinfo a) ++ s6_addr a
  ++ image 4 (sin6_scope_id a).
Definition un_image (a : sockaddr_un) : list Z := image 2 (sun_family a) ++ sun_path a.
Definition sa_image (a : sockaddr) : list Z := image 2 (sa_family a) ++ sa_data a.

(** The bytes [off], ..., [off + n - 1] of a block. *)
Definition field (off n : nat) (p : list Z) : list Z := take n (drop off p).

(** [*(const sockaddr_in* )p] and the others: the block must be long enough. *)
Definition load_in (p : list Z) : eff sockaddr_in :=
  require (bool_decide (16 <= length p)%nat) ;;;
  ret (SockAddrIn (value (field 0 2 p)) (value (field 2 2 p)) (value (field 4 4 p)) (field 8 8 p)).
Definition load_in6 (p : list Z) : eff sockaddr_in6 :=
  require (bool_decide (28 <= length p)%nat) ;;;
  ret (SockAddrIn6 (value (field 0 2 p)) (value (field 2 2 p)) (value (field 4 4 p)) (field 8 16 p)
         (value (field 24 4 p))).
Definition load_sa (p : list Z) : eff sockaddr :=
  require (bool_decide (16 <= length p)%nat) ;;;
  ret (SockAddr (value (field 0 2 p)) (field 2 14 p)).
Definition load_un (p : list Z) : eff sockaddr_un :=
  require (bool_decide (110 <= length p)%nat) ;;;
  ret (SockAddrUn (value (field 0 2 p)) (field 2 108 p)).
Definition load_family (p : list Z) : eff Z :=
  require (bool_decide (2 <= length p)%nat) ;;; ret (value (field 0 2 p)).

Definition addr (a : Address) : list Z :=
  match a with
  | IPv4Address m => in_image m
  | IPv6Address m => in6_image m
  | UnixAddress m _ => un_image m
  | UnknowAddress m => sa_image m
  end.
Definition addrlen (a : Address) : Z :=
  match a with
  | IPv4Address _ => 16
  | IPv6Address _ => 28
  | UnixAddress _ m_len => m_len
  | UnknowAddress _ => 16
  end.
(** [addr()->sa_family] *)
Definition family (a : Address) : Z := value (take 2 (addr a)).

Definition Create (p : option (list Z)) : eff (option Address) :=
  match p with
  | None => ret None
  | Some p =>
    let* f := load_family p in
    if f =? AF_INET then let* a := load_in p in ret (Some (IPv4Address a))
    else if f =? AF_INET6 then let* a := load_in6 p in ret (Some (IPv6Address a))
    else let* a := load_sa p in ret (Some (UnknowAddress a))
  end.

(** A system call fills the structure of an address from its first byte on. *)
Definition fill (data : list Z) (a : Address) : eff Address :=
  let p := addr a in
  require (bool_decide (length data <= length p)%nat) ;;;
  let p := data ++ drop (length data) p in
  match a with
  | IPv4Address _ => let* m := load_in p in ret (IPv4Address m)
  | IPv6Address _ => let* m := load_in6 p in ret (IPv6Address m)
  | UnixAddress _ m_len => let* m := load_un p in ret (UnixAddress m m_len)
  | UnknowAddress _ => let* m := load_sa p in ret (UnknowAddress m)
  end.

(** ** Comparison *)

Fixpoint memcmp_bytes (a b : list Z) : Z :=
  match a, b with
  | x :: a, y :: b => if x =? y then memcmp_bytes a b else x - y
  | _, _ => 0
  end.
Definition memcmp (a b : list Z) (n : Z) : eff Z :=
  require (bool_decide (n <= Z.of_nat (length a)) && bool_decide (n <= Z.of_nat (length b))) ;;;
  ret (memcmp_bytes (take (Z.to_nat n) a) (take (Z.to_nat n) b)).

Definition less (a rhs : Address) : eff bool :=
  let minlen := Z.min (addrlen a) (addrlen rhs) in
  let* res := memcmp (addr a) (addr rhs) minlen in
  ret (if res <? 0 then true
       else if 0 <? res then false
       else if addrlen a <? addrlen rhs then true else false).
Definition equal (a rhs : Address) : eff bool :=
  if addrlen a =? addrlen rhs
  then let* res := memcmp (addr a) (addr rhs) (addrlen a) in ret (res =? 0)
  else ret false.
Definition not_equal (a rhs : Address) : eff bool := let* b := equal a rhs in ret (negb b).

(** ** IPv4 *)

Definition new_IPv4Address (address port : Z) : sockaddr_in :=
  SockAddrIn AF_INET (swap 2 port) (swap 4 address) (zeros 8).
Definition with_port4 (v : Z) (a : sockaddr_in) : sockaddr_in :=
  SockAddrIn (sin_family a) (swap 2 v) (s_addr a) (sin_zero a).
Definition with_s_addr (v : Z) (a : sockaddr_in) : sockaddr_in :=
  SockAddrIn (sin_family a) (sin_port a) v (sin_zero a).
(** [inet_pton(AF_INET, address, ...)]: the result and the four bytes it stores. *)
Definition IPv4Address_Create (inet_pton : Z * list Z) (port : Z) : option sockaddr_in :=
  let rt := with_port4 port (new_IPv4Address 0 0) in
  if fst inet_pton <=? 0 then None else Some (with_s_addr (value (snd inet_pton)) rt).
Definition port4 (a : sockaddr_in) : Z := swap 2 (sin_port a).
Definition insert4 (a : sockaddr_in) : string :=
  let addr := swap 4 (s_addr a) in
  dec (Z.land (Z.shiftr addr 24) 255) +:+ "." +:+ dec (Z.land (Z.shiftr addr 16) 255) +:+ "." +:+
  dec (Z.land (Z.shiftr addr 8) 255) +:+ "." +:+ dec (Z.land addr 255) +:+
  ":" +:+ dec (swap 2 (sin_port a)).

Definition broadcastAddress4 (prefix_len : Z) (a : sockaddr_in) : eff (option sockaddr_in) :=
  if 32 <? prefix_len then ret None
  else let* m := CreateMask 4 prefix_len in
       ret (Some (with_s_addr (Z.lor (s_addr a) (swap 4 m)) a)).
Definition networkAddress4 (prefix_len : Z) (a : sockaddr_in) : eff (option sockaddr_in) :=
  if 32 <? prefix_len then ret None
  else let* m := CreateMask 4 prefix_len in
       ret (Some (with_s_addr (Z.land (s_addr a) (swap 4 m)) a)).
Definition subnetMask4 (prefix_len : Z) : eff sockaddr_in :=
  let* m := CreateMask 4 prefix_len in
  ret (SockAddrIn AF_INET 0 (u32 (Z.lnot (swap 4 m))) (zeros 8)).

(** ** IPv6 *)

Definition new_IPv6Address : sockaddr_in6 := SockAddrIn6 AF_INET6 0 0 (zeros 16) 0.
Definition new_IPv6Address_of (address : list Z) (port : Z) : sockaddr_in6 :=
  SockAddrIn6 AF_INET6 (swap 2 port) 0 (take 16 address) 0.
Definition with_port6 (v : Z) (a : sockaddr_in6) : sockaddr_in6 :=
  SockAddrIn6 (sin6_family a) (swap 2 v) (sin6_flowinfo a) (s6_addr a) (sin6_scope_id a).
Definition with_s6_addr (v : list Z) (a : sockaddr_in6) : sockaddr_in6 :=
  SockAddrIn6 (sin6_family a) (sin6_port a) (sin6_flowinfo a) v (sin6_scope_id a).
Definition IPv6Address_Create (inet_pton : Z * list Z) (port : Z) : option sockaddr_in6 :=
  let rt := with_port6 port new_IPv6Address in
  if fst inet_pton <=? 0 then None else Some (with_s6_addr (snd inet_pton) rt).
Definition port6 (a : sockaddr_in6) : Z := swap 2 (sin6_port a).

(** [(uint16_t* )s6_addr] *)
Fixpoint groups (l : list Z) : list Z :=
  match l with
  | x :: y :: l => value [x; y] :: groups l
  | _ => []
  end.
(** The loop of [insert]; [prev] is [addr[i - 1]], and [None] for [i = 0]. *)
Fixpoint insert6_loop (prev : option Z) (used_zeros : bool) (l : list Z) (os : string) : bool * string :=
  match l with
  | [] => (used_zeros, os)
  | x :: l =>
    if (x =? 0) && negb used_zeros then insert6_loop (Some x) used_zeros l os
    else
      let skipped := match prev with Some p => (p =? 0) && negb used_zeros | None => false end in
      let os := if skipped then os +:+ ":" else os in
      let used_zeros := used_zeros || skipped in
      let os := match prev with Some _ => os +:+ ":" | None => os end in
      insert6_loop (Some x) used_zeros l (os +:+ hex (swap 2 x))
  end.
Definition insert6 (a : sockaddr_in6) : string :=
  let addr := groups (s6_addr a) in
  let '(used_zeros, os) := insert6_loop None false addr "[" in
  let os := if negb used_zeros && (default 0 (addr !! 7%nat) =? 0) then os +:+ "::" else os in
  os +:+ "]:" +:+ dec (swap 2 (sin6_port a)).

(** [s6_addr[i] = v] for [k] indices from [i]. *)
Fixpoint set_range (i k : nat) (v : Z) (l : list Z) : list Z :=
  match k with O => l | S k => set_range (S i) k v (<[i := v]> l) end.

(** [s6_addr] has 16 bytes. *)
Definition byte_at (l : list Z) (i : Z) : eff Z :=
  match l !! Z.to_nat i with Some x => ret x | None => fail Undef end.
Definition broadcastAddress6 (prefix_len : Z) (a : sockaddr_in6) : eff sockaddr_in6 :=
  let i := prefix_len / 8 in
  let* x := byte_at (s6_addr a) i in
  let* m := CreateMask 1 (prefix_len mod 8) in
  let l := <[Z.to_nat i := u8 (Z.lor x m)]> (s6_addr a) in
  ret (with_s6_addr (set_range (Z.to_nat (i + 1)) (Z.to_nat (16 - (i + 1))) 255 l) a).
Definition networkAddress6 (prefix_len : Z) (a : sockaddr_in6) : eff sockaddr_in6 :=
  let i := prefix_len / 8 in
  let* x := byte_at (s6_addr a) i in
  let* m := CreateMask 1 (prefix_len mod 8) in
  ret (with_s6_addr (<[Z.to_nat i := u8 (Z.land x m)]> (s6_addr a)) a).
Definition subnetMask6 (prefix_len : Z) : eff sockaddr_in6 :=
  let i := prefix_len / 8 in
  let* _ := byte_at (zeros 16) i in
  let* m := CreateMask 1 (prefix_len mod 8) in
  let l := <[Z.to_nat i := u8 (Z.lnot m)]> (zeros 16) in
  ret (SockAddrIn6 AF_INET6 0 0 (set_range 0 (Z.to_nat i) 255 l) 0).

(** ** Unix and unknown addresses *)

Definition MAX_PATH_LEN : Z := 108 - 1.
Definition offsetof_sun_path : Z := 2.
Definition new_UnixAddress : Address :=
  UnixAddress (SockAddrUn AF_UNIX (zeros 108)) (offsetof_sun_path + MAX_PATH_LEN).
Definition UnixAddress_of (path : list Z) : eff Address :=
  let m_len := u32 (Z.of_nat (length path) + 1) in
  let m_len := match path with 0 :: _ => m_len - 1 | _ => m_len end in
  if 108 <? m_len then throw logic_error
  else
    let n := Z.to_nat m_len in
    ret (UnixAddress (SockAddrUn AF_UNIX (take n (path ++ [0]) ++ zeros (108 - n)))
           (m_len + offsetof_sun_path)).
(** The setter [addrlen(v)]. *)
Definition set_addrlen (v : Z) (a : Address) : Address :=
  match a with UnixAddress m _ => UnixAddress m v | _ => a end.

(** A C string in a block. *)
Fixpoint until_nul (l : list Z) : option (list Z) :=
  match l with
  | [] => None
  | 0 :: _ => Some []
  | x :: l => (cons x) <$> until_nul l
  end.
Definition insert_un (m : sockaddr_un) (m_len : Z) : eff string :=
  if (offsetof_sun_path <? m_len) && (default 0 (sun_path m !! 0%nat) =? 0)
  then
    let n := m_len - offsetof_sun_path - 1 in
    require (bool_decide (n + 1 <= Z.of_nat (length (sun_path m)))) ;;;
    ret ("\0" +:+ to_text (take (Z.to_nat n) (drop 1 (sun_path m))))
  else match until_nul (sun_path m) with
       | Some l => ret (to_text l)
       | None => fail Undef
       end.

Definition UnknowAddress_of (family : Z) : Address := UnknowAddress (SockAddr (u16 family) (zeros 14)).
Definition insert_unknow (m : sockaddr) : string := "[UnknowAddress family=" +:+ dec (sa_family m) +:+ "]".

Definition to_string (a : Address) : eff string :=
  match a with
  | IPv4Address m => ret (insert4 m)
  | IPv6Address m => ret (insert6 m)
  | UnixAddress m m_len => insert_un m m_len
  | UnknowAddress m => ret (insert_unknow m)
  end.

(** ** Lookups *)

(** [memchr]: the index of a byte. *)
Fixpoint index_of (c : Z) (l : list Z) : option nat :=
  match l with
  | [] => None
  | x :: l => if x =? c then Some O else S <$> index_of c l
  end.
Definition colon : Z := 58.

(** The node and the service that [Lookup] passes to the resolver; a pointer into
    [host] is the rest of it. *)
Definition split_host (host : list Z) : list Z * option (list Z) :=
  let '(node, service) :=
    match host with
    | 91 :: rest =>
      match index_of 93 rest with
      | Some j => (take j rest,
                   match rest !! S j with
                   | Some c => if c =? colon then Some (drop (j + 2) rest) else None
                   | None => None
                   end)
      | None => ([], None)
      end
    | _ => ([], None)
    end in
  let '(node, service) :=
    match node with
    | [] =>
      match index_of colon host with
      | Some j =>
        match index_of colon (drop (S j) host) with
        | None => (take j host, Some (drop (S j) host))
        | Some _ => ([], Some (drop j host))
        end
      | None => ([], None)
      end
    | _ => (node, service)
    end in
  (match node with [] => host | _ => node end, service).

(** The characters up to a NUL. *)
Definition c_chars (l : list Z) : list Z := match until_nul l with Some k => k | None => l end.

Section resolver.
(** [getaddrinfo(node, service, flags, family, type, protocol)]: an error, or the
    addresses of the result. *)
Context (getaddrinfo : list Z -> option (list Z) -> Z -> Z -> Z -> Z -> Z + list (option (list Z))).

Fixpoint create_all (ps : list (option (list Z))) : eff (list (option Address)) :=
  match ps with
  | [] => ret []
  | p :: ps => let* a := Create p in let* l := create_all ps in ret (a :: l)
  end.
(** [Lookup]: the result and the addresses appended to [res]. *)
Definition Lookup (host : list Z) (family type protocol : Z) : eff (bool * list (option Address)) :=
  let '(node, service) := split_host host in
  match getaddrinfo (c_chars node) (c_chars <$> service) 0 family type protocol with
  | inl _ => ret (false, [])
  | inr results => let* res := create_all results in ret (true, res)
  end.
Definition LookupAny (host : list Z) (family type protocol : Z) : eff (option Address) :=
  let* r := Lookup host family type protocol in
  if fst r then match snd r with a :: _ => ret a | [] => fail Undef end else ret None.
Fixpoint first_ip (l : list (option Address)) : option Address :=
  match l with
  | [] => None
  | Some a :: l => if is_IPAddress a then Some a else first_ip l
  | None :: l => first_ip l
  end.
Definition LookupAnyIPAddress (host : list Z) (family type protocol : Z) : eff (option Address) :=
  let* r := Lookup host family type protocol in
  ret (if fst r then first_ip (snd r) else None).

Definition AI_NUMERICHOST : Z := 4.
Definition with_port (v : Z) (a : Address) : Address :=
  match a with
  | IPv4Address m => IPv4Address (with_port4 v m)
  | IPv6Address m => IPv6Address (with_port6 v m)
  | _ => a
  end.
Definition IPAddress_Create (address : list Z) (port : Z) : eff (option Address) :=
  match getaddrinfo (c_chars address) None AI_NUMERICHOST AF_UNSPEC 0 0 with
  | inl _ => ret None
  | inr [] => fail Undef
  | inr (p :: _) =>
    let* a := Create p in
    ret (match a with
         | Some a => if is_IPAddress a then Some (with_port port a) else None
         | None => None
         end)
  end.
End resolver.

(** ** Interfaces *)

Record ifaddrs := IfAddrs {
  ifa_name : list Z;
  ifa_addr : option (list Z);
  ifa_netmask : option (list Z)
}.
Definition interface : Type := list Z * (Address * Z).

Definition deref {A} (p : option A) : eff A := match p with Some x => ret x | None => fail Undef end.
Fixpoint count_all (l : list Z) (prefix_len : Z) : eff Z :=
  match l with
  | [] => ret prefix_len
  | x :: l => let* n := CountBytes x in count_all l (u32 (prefix_len + n))
  end.
(** [std::multimap::insert]: after the entries whose name is not greater. *)
Definition name_less (a b : list Z) : bool :=
  match memcmp_bytes a b with
  | 0 => (length a <? length b)%nat
  | z => z <? 0
  end.
Fixpoint multimap_insert (e : interface) (res : list interface) : list interface :=
  match res with
  | [] => [e]
  | x :: res => if name_less (fst e) (fst x) then e :: x :: res else x :: multimap_insert e res
  end.

(** The body of the loop over the interfaces. *)
Definition one_interface (family : Z) (next : ifaddrs) (res : list interface) : eff (list interface) :=
  let* skip := (if family =? AF_UNSPEC then ret false
                else let* p := deref (ifa_addr next) in let* f := load_family p in ret (negb (family =? f))) in
  if skip then ret res
  else match ifa_addr next with
       | None => ret res
       | Some p =>
         let* f := load_family p in
         let* entry :=
           (if f =? AF_INET then
              let* addr := Create (Some p) in
              let* np := deref (ifa_netmask next) in
              let* nm := load_in np in
              let* n := CountBytes (s_addr nm) in
              ret (addr, n)
            else if f =? AF_INET6 then
              let* addr := Create (Some p) in
              let* np := deref (ifa_netmask next) in
              let* nm := load_in6 np in
              let* n := count_all (s6_addr nm) 0 in
              ret (addr, n)
            else ret (None, u32 (-1))) in
         match entry with
         | (Some a, n) => ret (multimap_insert (ifa_name next, (a, n)) res)
         | (None, _) => ret res
         end
       end.
Fixpoint interfaces (family : Z) (l : list ifaddrs) (res : list interface) : eff (list interface) :=
  match l with
  | [] => ret res
  | next :: l => let* res := one_interface family next res in interfaces family l res
  end.
(** [getifaddrs]: [None] when it fails. *)
Definition GetInterfaceAddress (sys : option (list ifaddrs)) (family : Z) (res : list interface)
    : eff (bool * list interface) :=
  match sys with
  | None => ret (false, res)
  | Some results =>
    let* res := interfaces family results res in
    ret (negb (bool_decide (res = [])), res)
  end.
Definition GetInterfaceAddress_named (sys : option (list ifaddrs)) (iface : list Z) (family : Z)
    (res : list (Address * Z)) : eff (bool * list (Address * Z)) :=
  if bool_decide (iface = []) || bool_decide (iface = [42])
  then
    let res := if (family =? AF_INET) || (family =? AF_UNSPEC)
               then res ++ [(IPv4Address (new_IPv4Address 0 0), 0)] else res in
    let res := if (family =? AF_INET6) || (family =? AF_UNSPEC)
               then res ++ [(IPv6Address new_IPv6Address, 0)] else res in
    ret (true, res)
  else
    let* r := GetInterfaceAddress sys family [] in
    if fst r
    then ret (true, res ++ (snd <$> filter (fun e : interface => fst e = iface) (snd r)))
    else ret (false, res).

End host.

(** ** Counting bits *)

Fixpoint ones_pos (p : positive) : Z :=
  match p with
  | xH => 1
  | xO p => ones_pos p
  | xI p => 1 + ones_pos p
  end.
(** The number of bits that are set. *)
Definition ones_of (z : Z) : Z := match z with Zpos p => ones_pos p | _ => 0 end.

Lemma ones_pos_pos p : 0 < ones_pos p.
Proof. induction p; simpl; lia. Qed.

Lemma ones_of_double z : 0 <= z -> ones_of (2 * z) = ones_of z.
Proof. by destruct z. Qed.

Lemma land_double a b (x y : bool) :
  Z.land (2 * a + Z.b2z x) (2 * b + Z.b2z y) = 2 * Z.land a b + Z.b2z (x && y).
Proof.
  apply Z.bits_inj'. intros i Hi. destruct (Z.eq_dec i 0) as [->|Hne].
  - by rewrite Z.land_spec, !Z.testbit_0_r.
  - replace i with (Z.succ (i - 1)) by lia.
    rewrite Z.land_spec, !Z.testbit_succ_r by lia. by rewrite Z.land_spec.
Qed.

(** Clearing the lowest bit. *)
Lemma clear_lowest p :
  0 <= Z.land (Zpos p) (Zpos p - 1) /\ ones_of (Z.land (Zpos p) (Zpos p - 1)) = ones_pos p - 1.
Proof.
  induction p as [p IH|p IH|]; [| |done].
  - pose proof (land_double (Zpos p) (Zpos p) true false) as H. rewrite Z.land_diag in H.
    cbn [Z.b2z andb] in H. replace (Zpos p~1 - 1) with (2 * Zpos p + 0) by lia.
    replace (Zpos p~1) with (2 * Zpos p + 1) at 1 2 by lia. rewrite H. split; [lia|].
    rewrite Z.add_0_r, ones_of_double by done. cbn [ones_of ones_pos]. lia.
  - pose proof (land_double (Zpos p) (Zpos p - 1) false true) as H.
    cbn [Z.b2z andb] in H. replace (Zpos p~0 - 1) with (2 * (Zpos p - 1) + 1) by lia.
    replace (Zpos p~0) with (2 * Zpos p + 0) at 1 2 by lia. rewrite H, Z.add_0_r.
    destruct IH as [IH1 IH2]. split; [lia|]. rewrite ones_of_double by done. cbn [ones_pos]. lia.
Qed.

Lemma CountBytes_loop_ok fuel : forall v r,
  0 <= v -> ones_of v < Z.of_nat fuel -> 0 <= r -> r + ones_of v < 2 ^ 32 ->
  CountBytes_loop fuel v r tt = Ok (r + ones_of v) tt.
Proof.
  induction fuel as [|fuel IH]; intros v r Hv Hf Hr Hb.
  - destruct v as [|p|]; [done| |done]. pose proof (ones_pos_pos p). simpl in Hf. lia.
  - cbn [CountBytes_loop]. destruct (Z.eqb_spec v 0) as [->|Hne]; [by rewrite Z.add_0_r|].
    destruct v as [|p|]; [done| |done]. destruct (clear_lowest p) as [H1 H2]. pose proof (ones_pos_pos p).
    cbn [ones_of] in *. rewrite wrap_id by (unfold in_u; lia). rewrite IH; [|lia..]. f_equal. lia.
Qed.

Lemma ones_pos_bound p w : Zpos p < 2 ^ w -> 0 <= w -> ones_pos p <= w.
Proof.
  revert w. induction p as [p IH|p IH|]; intros w Hp Hw.
  3: { simpl. destruct (Z.eq_dec w 0) as [->|]; [done|lia]. }
  all: assert (w <> 0) by (intros ->; done); cbn [ones_pos];
    assert (ones_pos p <= w - 1); [|lia]; apply IH; [|lia];
    replace w with (Z.succ (w - 1)) in Hp by lia; rewrite Z.pow_succ_r in Hp by lia; lia.
Qed.

(** [CountBytes] terminates and counts the bits of any value of at most 32 bits. *)
Lemma CountBytes_ok v : in_u 32 v -> CountBytes v tt = Ok (ones_of v) tt.
Proof.
  intros [Hv Hb]. unfold CountBytes.
  assert (ones_of v <= 32) by (destruct v as [|p|]; [done|by apply ones_pos_bound|done]).
  assert (0 <= ones_of v) by (destruct v as [|p|]; [done|pose proof (ones_pos_pos p); simpl; lia|done]).
  rewrite CountBytes_loop_ok; [done|lia..].
Qed.

(** ** Masks of IPv4 addresses *)

Lemma CreateMask4 n : 2 <= n <= 32 -> CreateMask 4 n tt = Ok (2 ^ (32 - n) - 1) tt.
Proof.
  intros Hn. unfold CreateMask. rewrite wrap_id by (unfold in_u; lia).
  replace (4 * 8 - n) with (32 - n) by lia.
  pose proof (Z.pow_pos_nonneg 2 (32 - n) ltac:(lia) ltac:(lia)).
  assert (2 ^ (32 - n) <= 2 ^ 30) by (apply Z.pow_le_mono_r; lia).
  rewrite (proj2 (Z.ltb_lt _ _)) by lia.
  rewrite swrap_id by (unfold in_s; lia).
  unfold in_sb. rewrite bool_decide_eq_true_2 by (unfold in_s; lia).
  unfold bind, require, ret. rewrite wrap_id by (unfold in_u; lia). done.
Qed.

(** 1 << 32 and INT_MIN - 1 are undefined. *)
Lemma CreateMask4_undefined n : n = 0 \/ n = 1 \/ 32 < n < 2 ^ 32 -> CreateMask 4 n tt = Fail_ Undef.
Proof.
  intros [->|[->|Hn]]; [by vm_compute..|]. unfold CreateMask.
  assert (u64 (4 * 8 - n) = 4 * 8 - n + 2 ^ 64) as ->.
  { unfold wrap. rewrite <- (Z.mod_add _ 1) by lia. apply Z.mod_small. lia. }
  rewrite (proj2 (Z.ltb_ge _ _)) by lia. done.
Qed.

Section swap.
Context (byte_order : Z).
Local Abbreviation swap := (byteswapOnLittleEndian byte_order).

Lemma swap_involutive n v : in_u (8 * Z.of_nat n) v -> swap n (swap n v) = v.
Proof. unfold byteswapOnLittleEndian. destruct (_ =? _); [done|]. apply byteswap_u_involutive. Qed.

Lemma swap_bound n v : in_u (8 * Z.of_nat n) v -> in_u (8 * Z.of_nat n) (swap n v).
Proof. unfold byteswapOnLittleEndian. destruct (_ =? _); [done|]. intros _. apply bswap_bound. Qed.

Lemma swap_lor n a b : in_u (8 * Z.of_nat n) a -> in_u (8 * Z.of_nat n) b ->
  swap n (Z.lor a b) = Z.lor (swap n a) (swap n b).
Proof.
  intros Ha Hb. unfold byteswapOnLittleEndian, byteswap_u. destruct (_ =? _); [done|].
  rewrite !wrap_id by first [done | by apply lor_bound; [lia|..]]. apply bswap_lor.
Qed.

Lemma swap_land n a b : in_u (8 * Z.of_nat n) a -> in_u (8 * Z.of_nat n) b ->
  swap n (Z.land a b) = Z.land (swap n a) (swap n b).
Proof.
  intros Ha Hb. unfold byteswapOnLittleEndian, byteswap_u. destruct (_ =? _); [done|].
  rewrite !wrap_id by first [done | by apply land_bound; [lia|..]]. apply bswap_land.
Qed.

Definition range32 : list Z := seqZ 2 31.

(** The mask of each prefix length, computed. *)
Lemma subnet_table n : 2 <= n <= 32 ->
  swap 4 (u32 (Z.lnot (swap 4 (2 ^ (32 - n) - 1)))) = 2 ^ 32 - 2 ^ (32 - n) /\
  ones_of (u32 (Z.lnot (swap 4 (2 ^ (32 - n) - 1)))) = n.
Proof.
  intros Hn. assert (n ∈ range32) as Hin by (unfold range32; apply elem_of_seqZ; lia).
  clear Hn. revert n Hin. apply Forall_forall. unfold byteswapOnLittleEndian.
  destruct (byte_order =? COOL_BIG_ENDIAN); eapply bool_decide_unpack; vm_compute; exact I.
Qed.
End swap.

(** The address in host order. *)
Definition host_addr (byte_order : Z) (a : sockaddr_in) : Z := byteswapOnLittleEndian byte_order 4 (s_addr a).

Lemma land_low x k : 0 <= k -> Z.land x (2 ^ k - 1) = x mod 2 ^ k.
Proof. intros Hk. rewrite <- Z.land_ones by done. by rewrite Z.ones_equiv, Z.sub_1_r. Qed.

(** A network mask removes the low bits. *)
Lemma lor_low_masked x k : 0 <= k <= 32 ->
  Z.land (Z.lor x (2 ^ k - 1)) (2 ^ 32 - 2 ^ k) = Z.land x (2 ^ 32 - 2 ^ k).
Proof.
  intros Hk. rewrite Z.land_lor_distr_l.
  assert (Z.land (2 ^ k - 1) (2 ^ 32 - 2 ^ k) = 0) as ->; [|by rewrite Z.lor_0_r].
  rewrite Z.land_comm, land_low by lia.
  replace 32 with (32 - k + k) by lia. rewrite Z.pow_add_r by lia.
  replace (2 ^ (32 - k) * 2 ^ k - 2 ^ k) with ((2 ^ (32 - k) - 1) * 2 ^ k) by lia.
  apply Z.mod_mul. lia.
Qed.

(** For every IPv4 address and prefix length from 2 to 32, in host order whatever the byte order of
    the build: [broadcastAddress] sets exactly the host bits, [subnetMask] has the leading bits and
    [CountBytes] of it, as stored, gives the prefix length back, the broadcast address agrees with the
    address under the mask, and [networkAddress] keeps the host bits (and not, as its name says, the
    network bits).  For 0, 1 and, in [subnetMask], more than 32 the shift or the subtraction in
    [CreateMask] is undefined; [broadcastAddress] and [networkAddress] return null above 32. *)
Theorem subnet4_outcome (byte_order n : Z) (a : sockaddr_in) :
  in_u 32 (s_addr a) -> in_u 32 n ->
  let host := host_addr byte_order in
  if decide (2 <= n <= 32)
  then exists b m net,
    broadcastAddress4 byte_order n a tt = Ok (Some b) tt /\
    subnetMask4 byte_order n tt = Ok m tt /\
    networkAddress4 byte_order n a tt = Ok (Some net) tt /\
    host b = Z.lor (host a) (2 ^ (32 - n) - 1) /\
    host m = 2 ^ 32 - 2 ^ (32 - n) /\
    CountBytes (s_addr m) tt = Ok n tt /\
    Z.land (host b) (host m) = Z.land (host a) (host m) /\
    host net = host a mod 2 ^ (32 - n)
  else subnetMask4 byte_order n tt = Fail_ Undef /\
       broadcastAddress4 byte_order n a tt = (if 32 <? n then Ok None tt else Fail_ Undef) /\
       networkAddress4 byte_order n a tt = (if 32 <? n then Ok None tt else Fail_ Undef).
Proof.
  intros Ha Hn host. unfold broadcastAddress4, subnetMask4, networkAddress4, bind.
  case_decide as H.
  - rewrite (proj2 (Z.ltb_ge 32 n)), CreateMask4 by lia.
    destruct (subnet_table byte_order n H) as [Hm Hc].
    assert (in_u (8 * Z.of_nat 4) (2 ^ (32 - n) - 1)) as Hmask.
    { unfold in_u. pose proof (Z.pow_pos_nonneg 2 (32 - n) ltac:(lia) ltac:(lia)).
      assert (2 ^ (32 - n) <= 2 ^ 30) by (apply Z.pow_le_mono_r; lia). lia. }
    eexists _, _, _. split_and!; [done..| | | | |]; unfold host, host_addr; cbn [s_addr with_s_addr].
    + by rewrite swap_lor, (swap_involutive _ _ (2 ^ _ - 1)) by (done || by apply swap_bound).
    + exact Hm.
    + rewrite CountBytes_ok by (apply wrap_in_u; lia). by rewrite Hc.
    + rewrite swap_lor, (swap_involutive _ _ (2 ^ _ - 1)) by (done || by apply swap_bound).
      rewrite Hm. apply lor_low_masked. lia.
    + rewrite swap_land, (swap_involutive _ _ (2 ^ _ - 1)) by (done || by apply swap_bound).
      apply land_low. lia.
  - unfold in_u in Hn. destruct (32 <? n); cbv beta; rewrite CreateMask4_undefined by lia; done.
Qed.

Lemma subnet4_outcome_witness :
  exists b m net,
    broadcastAddress4 COOL_LITTLE_ENDIAN 24 (new_IPv4Address COOL_LITTLE_ENDIAN 3232235777 80) tt = Ok (Some b) tt /\
    subnetMask4 COOL_LITTLE_ENDIAN 24 tt = Ok m tt /\
    networkAddress4 COOL_LITTLE_ENDIAN 24 (new_IPv4Address COOL_LITTLE_ENDIAN 3232235777 80) tt = Ok (Some net) tt /\
    host_addr COOL_LITTLE_ENDIAN b = 3232236031 /\ host_addr COOL_LITTLE_ENDIAN net = 1 /\
    CountBytes (s_addr m) tt = Ok 24 tt.
Proof.
  pose proof (subnet4_outcome COOL_LITTLE_ENDIAN 24 (new_IPv4Address COOL_LITTLE_ENDIAN 3232235777 80)) as H.
  cbv zeta in H. rewrite decide_True in H by lia.
  destruct H as (b & m & net & H1 & H2 & H3 & H4 & _ & H6 & _ & H8).
  - by vm_compute.
  - by vm_compute.
  - exists b, m, net. rewrite H4, H8. split_and!; [done..|by vm_compute|by vm_compute|done].
Defined.

(** [networkAddress] of 192.168.1.1/24 is 0.0.0.1. *)
Example network_is_host_part :
  (let* r := networkAddress4 COOL_LITTLE_ENDIAN 24 (new_IPv4Address COOL_LITTLE_ENDIAN 3232235777 80) in
   ret (insert4 COOL_LITTLE_ENDIAN <$> r)) tt = Ok (Some "0.0.0.1:80") tt.
Proof. by vm_compute. Qed.

(** The prefix length 128 of a single IPv6 address is out of range. *)
Example prefix_128 : broadcastAddress6 128 new_IPv6Address tt = Fail_ Undef /\
  subnetMask6 128 tt = Fail_ Undef.
Proof. by vm_compute. Qed.

(** ** The order of addresses *)

Section order.
Context (little : bool).

(** The structures have the sizes of the system's. *)
Definition wf_addr (a : Address) : Prop :=
  match a with
  | IPv4Address m => length (sin_zero m) = 8%nat
  | IPv6Address m => length (s6_addr m) = 16%nat
  | UnixAddress m m_len => length (sun_path m) = 108%nat /\ 0 <= m_len <= 110
  | UnknowAddress m => length (sa_data m) = 14%nat
  end.

(** The bytes that the comparison looks at. *)
Definition key (a : Address) : list Z := take (Z.to_nat (addrlen a)) (addr little a).

Lemma key_length a : wf_addr a -> Z.of_nat (length (key a)) = addrlen a /\ addrlen a <= Z.of_nat (length (addr little a)).
Proof.
  intros H. unfold key. rewrite length_take.
  assert (0 <= addrlen a <= Z.of_nat (length (addr little a))) as Hl.
  { destruct a; simpl in *; unfold in_image, in6_image, un_image, sa_image;
      rewrite ?length_app, ?length_host_bytes; lia. }
  lia.
Qed.

Fixpoint lex_lt (a b : list Z) : bool :=
  match a, b with
  | _, [] => false
  | [], _ :: _ => true
  | x :: a, y :: b => if x =? y then lex_lt a b else x <? y
  end.

Lemma memcmp_lex a : forall b,
  lex_lt a b = (if memcmp_bytes a b <? 0 then true
                else if 0 <? memcmp_bytes a b then false
                else bool_decide (length a < length b)%nat).
Proof.
  induction a as [|x a IH]; intros [|y b]; simpl; try done.
  destruct (Z.eqb_spec x y) as [->|Hne].
  - rewrite IH. destruct (memcmp_bytes a b <? 0), (0 <? memcmp_bytes a b); try done.
    apply bool_decide_ext. lia.
  - destruct (Z.ltb_spec x y), (Z.ltb_spec (x - y) 0), (Z.ltb_spec 0 (x - y)); done || lia.
Qed.

Lemma memcmp_min a : forall b n m,
  memcmp_bytes (take n a) (take m b) = memcmp_bytes (take (n `min` m) a) (take (n `min` m) b).
Proof.
  induction a as [|x a IH]; intros b n m; [by rewrite !take_nil|].
  destruct n as [|n], m as [|m], b as [|y b]; simpl; try done. by destruct (x =? y).
Qed.

Lemma memcmp_eq a : forall b, length a = length b -> (memcmp_bytes a b = 0 <-> a = b).
Proof.
  induction a as [|x a IH]; intros [|y b] Hl; simpl in *; try done.
  destruct (Z.eqb_spec x y) as [->|Hne]; [rewrite IH by lia; split; congruence|].
  split; [lia|congruence].
Qed.

Lemma less_lex a b : wf_addr a -> wf_addr b -> less little a b tt = Ok (lex_lt (key a) (key b)) tt.
Proof.
  intros [Ha Ha']%key_length [Hb Hb']%key_length. unfold less, memcmp, bind.
  rewrite !bool_decide_eq_true_2 by lia. cbn [andb require ret].
  rewrite memcmp_lex.
  assert (memcmp_bytes (take (Z.to_nat (Z.min (addrlen a) (addrlen b))) (addr little a))
            (take (Z.to_nat (Z.min (addrlen a) (addrlen b))) (addr little b)) =
          memcmp_bytes (key a) (key b)) as ->.
  { unfold key. rewrite (memcmp_min _ _ (Z.to_nat (addrlen a)) (Z.to_nat (addrlen b))).
    by rewrite Z2Nat.inj_min. }
  unfold ret. f_equal.
  destruct (memcmp_bytes (key a) (key b) <? 0), (0 <? memcmp_bytes (key a) (key b)); try done.
  destruct (Z.ltb_spec (addrlen a) (addrlen b)); symmetry;
    [apply bool_decide_eq_true_2|apply bool_decide_eq_false_2]; lia.
Qed.

Lemma equal_key a b : wf_addr a -> wf_addr b ->
  equal little a b tt = Ok (bool_decide (key a = key b)) tt.
Proof.
  intros [Ha Ha']%key_length [Hb Hb']%key_length. unfold equal.
  destruct (Z.eqb_spec (addrlen a) (addrlen b)) as [E|E].
  - unfold memcmp, bind. rewrite !bool_decide_eq_true_2 by lia. cbn [andb require ret].
    unfold ret. f_equal. rewrite E at 2. fold (key a) (key b).
    destruct (Z.eqb_spec (memcmp_bytes (key a) (key b)) 0) as [H|H];
      rewrite memcmp_eq in H by lia; symmetry;
      [by apply bool_decide_eq_true_2|by apply bool_decide_eq_false_2].
  - rewrite bool_decide_eq_false_2 by congruence. done.
Qed.

Lemma lex_trichotomy a : forall b,
  lex_lt a b = (negb (bool_decide (a = b)) && negb (lex_lt b a)).
Proof.
  induction a as [|x a IH]; intros [|y b]; try done. cbn [lex_lt].
  rewrite Z.eqb_sym. destruct (Z.eqb_spec y x) as [->|Hne].
  - rewrite IH. f_equal. f_equal. apply bool_decide_ext. split; congruence.
  - rewrite bool_decide_eq_false_2 by congruence.
    destruct (Z.ltb_spec x y), (Z.ltb_spec y x); done || lia.
Qed.

Lemma lex_irrefl a : lex_lt a a = false.
Proof. rewrite lex_trichotomy, bool_decide_eq_true_2; done. Qed.

Lemma lex_trans a : forall b c, lex_lt a b = true -> lex_lt b c = true -> lex_lt a c = true.
Proof.
  induction a as [|x a IH]; intros [|y b] [|z c]; simpl; try done.
  destruct (Z.eqb_spec x y), (Z.eqb_spec y z), (Z.eqb_spec x z); subst; try done; try apply IH;
    rewrite ?Z.ltb_lt; lia.
Qed.

(** C39: the operators on addresses agree with one another for addresses of any classes (a Unix
    address with a length within its structure): [==] holds
    exactly when the [addrlen()] bytes of both are equal, of [a < b], [a == b] and [b < a] exactly one
    holds, [<] is transitive, and none of them reads outside an address. *)
Theorem address_order (a b c : Address) :
  wf_addr a -> wf_addr b -> wf_addr c ->
  exists lt eq gt : bool,
    less little a b tt = Ok lt tt /\ equal little a b tt = Ok eq tt /\ less little b a tt = Ok gt tt /\
    not_equal little a b tt = Ok (negb eq) tt /\
    (eq = true <-> key a = key b) /\
    (lt, eq, gt) ∈ [(true, false, false); (false, true, false); (false, false, true)] /\
    (less little a b tt = Ok true tt -> less little b c tt = Ok true tt -> less little a c tt = Ok true tt).
Proof.
  intros Ha Hb Hc. exists (lex_lt (key a) (key b)), (bool_decide (key a = key b)), (lex_lt (key b) (key a)).
  unfold not_equal, bind. rewrite !less_lex, !equal_key by done.
  split_and!; try done; [by rewrite bool_decide_eq_true| |].
  - case_bool_decide as E.
    + rewrite E, lex_irrefl. set_solver.
    + rewrite (lex_trichotomy (key a)), bool_decide_eq_false_2 by done.
      destruct (lex_lt (key b) (key a)); set_solver.
  - intros [= H1] [= H2]. f_equal. by eapply lex_trans.
Qed.
End order.

Lemma address_order_witness :
  exists lt eq gt,
    less true (IPv4Address (new_IPv4Address 1 1 80)) (IPv6Address new_IPv6Address) tt = Ok lt tt /\
    equal true (IPv4Address (new_IPv4Address 1 1 80)) (IPv6Address new_IPv6Address) tt = Ok eq tt /\
    (lt, eq, gt) ∈ [(true, false, false); (false, true, false); (false, false, true)].
Proof.
  destruct (address_order true (IPv4Address (new_IPv4Address 1 1 80)) (IPv6Address new_IPv6Address)
    (UnknowAddress_of 0)) as (lt & eq & gt & H1 & H2 & _ & _ & _ & H & _).
  - by vm_compute.
  - by vm_compute.
  - by vm_compute.
  - by exists lt, eq, gt.
Defined.

(** ** The text of an IPv6 address *)

Section text6.
Context (byte_order : Z) (little : bool).
Local Abbreviation swap := (byteswapOnLittleEndian byte_order).

Definition group_text (x : Z) : string := hex (swap 2 x).
Fixpoint colon_groups (l : list Z) : string :=
  match l with [] => "" | x :: l => ":" +:+ group_text x +:+ colon_groups l end.
(** The groups, separated by colons. *)
Definition join_groups (l : list Z) : string :=
  match l with [] => "" | x :: l => group_text x +:+ colon_groups l end.

Lemma insert6_used p l os :
  insert6_loop byte_order (Some p) true l os = (true, os +:+ colon_groups l).
Proof.
  revert p os. induction l as [|x l IH]; intros p os; cbn [insert6_loop colon_groups].
  - by rewrite app_empty_s.
  - rewrite !andb_false_r. cbn [orb]. rewrite IH. by rewrite !app_assoc_s.
Qed.

Lemma insert6_nonzero pre : forall prev l os,
  Forall (fun x => x <> 0) pre ->
  (forall p, prev = Some p -> p <> 0) ->
  exists prev',
    insert6_loop byte_order prev false (pre ++ l) os =
    insert6_loop byte_order prev' false l
      (os +:+ match prev with None => join_groups pre | Some _ => colon_groups pre end) /\
    (forall p, prev' = Some p -> p <> 0).
Proof.
  induction pre as [|x pre IH]; intros prev l os Hpre Hprev.
  - exists prev. split; [|done]. by destruct prev; simpl; rewrite app_empty_s.
  - apply Forall_cons in Hpre as [Hx Hpre].
    cbn [app insert6_loop]. rewrite (proj2 (Z.eqb_neq x 0)) by done. cbn [andb].
    destruct prev as [p|].
    + rewrite (proj2 (Z.eqb_neq p 0)) by by apply Hprev. cbn [andb orb].
      edestruct (IH (Some x)) as (prev' & -> & Hp'); [done|by intros ? [= <-]|].
      exists prev'. split; [|exact Hp']. cbn [colon_groups]. by rewrite !app_assoc_s.
    + cbn [orb]. edestruct (IH (Some x)) as (prev' & -> & Hp'); [done|by intros ? [= <-]|].
      exists prev'. split; [|exact Hp']. cbn [join_groups]. by rewrite !app_assoc_s.
Qed.

Lemma insert6_zeros zs : forall prev l os,
  Forall (fun x => x = 0) zs -> zs <> [] ->
  insert6_loop byte_order prev false (zs ++ l) os = insert6_loop byte_order (Some 0) false l os.
Proof.
  induction zs as [|x zs IH]; intros prev l os Hz Hne; [done|].
  apply Forall_cons in Hz as [-> Hz]. cbn. destruct zs as [|y zs]; [done|]. by apply IH.
Qed.

(** Any list is a run of non-zero values, a run of zeros, and a rest that does not begin with 0. *)
Lemma first_zeros (l : list Z) : exists pre zs post,
  l = pre ++ zs ++ post /\ Forall (fun x => x <> 0) pre /\ Forall (fun x => x = 0) zs /\
  (zs = [] -> post = []) /\ (forall x, head post = Some x -> x <> 0).
Proof.
  assert (forall l : list Z, exists zs post, l = zs ++ post /\ Forall (fun x => x = 0) zs /\
    (forall x, head post = Some x -> x <> 0)) as Hz.
  { intros k. induction k as [|x k (zs & post & -> & H1 & H2)]; [by exists [], []|].
    destruct (Z.eq_dec x 0) as [->|Hne]; [exists (0 :: zs), post; split_and!; auto|].
    exists [], (x :: zs ++ post). split_and!; [done..|]. by intros ? [= <-]. }
  induction l as [|x l (pre & zs & post & -> & H1 & H2 & H3 & H4)].
  { exists [], [], []. split_and!; try done. }
  destruct (Z.eq_dec x 0) as [->|Hne].
  - destruct (Hz (pre ++ zs ++ post)) as (zs' & post' & E & Hzs' & Hp').
    exists [], (0 :: zs'), post'. rewrite E. split_and!; auto; done.
  - exists (x :: pre), zs, post. split_and!; auto.
Qed.

(** The text of an IPv6 address is an abbreviation of it: the first run of zero groups, if there is
    one, is written as "::" and stands between the texts of the groups before and after it; without a
    zero group all groups are written. *)
Theorem insert6_outcome (a : sockaddr_in6) :
  length (groups little (s6_addr a)) = 8%nat ->
  exists pre zs post,
    groups little (s6_addr a) = pre ++ zs ++ post /\
    Forall (fun x => x <> 0) pre /\ Forall (fun x => x = 0) zs /\
    insert6 byte_order little a =
      "[" +:+ (if bool_decide (zs = []) then join_groups pre
               else join_groups pre +:+ "::" +:+ join_groups post) +:+
      "]:" +:+ dec (swap 2 (sin6_port a)) /\
    (zs = [] -> post = []).
Proof.
  intros Hlen. destruct (first_zeros (groups little (s6_addr a))) as (pre & zs & post & E & H1 & H2 & H3 & H4).
  exists pre, zs, post. split_and!; try done. unfold insert6. rewrite E in *.
  destruct (insert6_nonzero pre None (zs ++ post) "[" H1) as (prev & -> & Hprev); [done|].
  case_bool_decide as Hzs.
  - rewrite (H3 Hzs), Hzs, !app_nil_r in *. cbn [app insert6_loop].
    assert (default 0 (pre !! 7%nat) <> 0) as Hn.
    { destruct (lookup_lt_is_Some_2 pre 7) as [x Hx]; [lia|]. rewrite Hx.
      rewrite Forall_forall in H1. apply H1. by eapply list_elem_of_lookup_2. }
    rewrite (proj2 (Z.eqb_neq _ _) Hn). cbn [negb andb]. by rewrite !app_assoc_s.
  - rewrite insert6_zeros by done. destruct post as [|x post].
    + rewrite app_nil_r in *. cbn [insert6_loop negb andb].
      assert (default 0 ((pre ++ zs) !! 7%nat) = 0) as ->.
      { destruct (lookup_lt_is_Some_2 zs (7 - length pre)) as [x Hx].
        { rewrite length_app in Hlen. destruct zs; [done|]. simpl in *. lia. }
        rewrite lookup_app_r; [|rewrite length_app in Hlen; destruct zs; [done|]; simpl in Hlen; lia].
        rewrite Hx. rewrite Forall_forall in H2. apply H2. by eapply list_elem_of_lookup_2. }
      cbn [Z.eqb join_groups]. by rewrite !app_assoc_s.
    + cbn [insert6_loop]. rewrite (proj2 (Z.eqb_neq x 0)) by by apply H4.
      cbn [andb negb orb Z.eqb]. rewrite insert6_used. cbn [negb andb join_groups].
      by rewrite !app_assoc_s.
Qed.
End text6.

Lemma insert6_outcome_witness :
  exists pre zs post,
    groups true [32; 1; 13; 184; 0; 0; 0; 0; 0; 0; 0; 0; 0; 0; 0; 1] = pre ++ zs ++ post /\
    insert6 COOL_LITTLE_ENDIAN true
      (new_IPv6Address_of COOL_LITTLE_ENDIAN [32; 1; 13; 184; 0; 0; 0; 0; 0; 0; 0; 0; 0; 0; 0; 1] 80) =
      "[2001:db8::1]:80".
Proof.
  destruct (insert6_outcome COOL_LITTLE_ENDIAN true
    (new_IPv6Address_of COOL_LITTLE_ENDIAN [32; 1; 13; 184; 0; 0; 0; 0; 0; 0; 0; 0; 0; 0; 0; 1] 80))
    as (pre & zs & post & E & _); [by vm_compute|].
  exists pre, zs, post. split; [exact E|by vm_compute].
Defined.


(** ** Host names *)

Lemma index_of_none c l : c ∉ l -> index_of c l = None.
Proof.
  induction l as [|x l IH]; intros H; simpl; [done|].
  rewrite (proj2 (Z.eqb_neq x c)) by set_solver. by rewrite IH by set_solver.
Qed.

Lemma index_of_app c l r : c ∉ l -> index_of c (l ++ c :: r) = Some (length l).
Proof.
  induction l as [|x l IH]; intros H; simpl; [by rewrite Z.eqb_refl|].
  rewrite (proj2 (Z.eqb_neq x c)) by set_solver. by rewrite IH by set_solver.
Qed.

(** A host that does not begin with a bracket is only searched for colons. *)
Lemma split_host_plain h : head h <> Some 91 ->
  split_host h =
    match index_of colon h with
    | Some j =>
      match index_of colon (drop (S j) h) with
      | None => (match take j h with [] => h | n => n end, Some (drop (S j) h))
      | Some _ => (h, Some (drop j h))
      end
    | None => (h, None)
    end.
Proof.
  intros Hh. unfold split_host.
  assert (match h with
          | 91 :: rest =>
            match index_of 93 rest with
            | Some j => (take j rest,
                         match rest !! S j with
                         | Some c => if c =? colon then Some (drop (j + 2) rest) else None
                         | None => None
                         end)
            | None => ([], None)
            end
          | _ => ([], None)
          end = ([], None)) as ->.
  { destruct h as [|[|p|p] h]; try done. by do 7 (destruct p as [p|p|]; try done). }
  destruct (index_of colon h) as [j|]; [|by destruct h].
  destruct (index_of colon (drop (S j) h)); [done|]. by destruct (take j h).
Qed.

Lemma drop_length_cons {A} (l : list A) x r : drop (S (length l)) (l ++ x :: r) = r.
Proof. induction l as [|y l IH]; simpl; [done|]. exact IH. Qed.

Lemma split_host_bracket v6 tail : 93 ∉ v6 -> v6 <> [] ->
  split_host (91 :: v6 ++ 93 :: tail) =
    (v6, match tail with c :: r => if c =? colon then Some r else None | [] => None end).
Proof.
  intros H Hne. unfold split_host. rewrite index_of_app by done.
  rewrite take_app_length, lookup_app_r by lia.
  replace (S (length v6) - length v6)%nat with 1%nat by lia.
  replace (length v6 + 2)%nat with (S (S (length v6))) by lia.
  destruct v6 as [|x v6]; [done|]. destruct tail as [|c r]; [done|].
  change ((93 :: c :: r) !! 1%nat) with (Some c). cbv iota beta.
  destruct (c =? colon); [|done]. f_equal. f_equal.
  replace (S (S (length (x :: v6)))) with (S (length (x :: v6)) + 1)%nat by lia.
  rewrite <- drop_drop, (drop_length_cons (x :: v6)). done.
Qed.

(** How [Lookup] divides a host name for the resolver: "node:service" into the two parts,
    "node" without a colon into the node alone, and a name with an address in brackets into the
    address and, after "]:", the service.  A name with several colons and no brackets is passed as
    the node together with its own text from the first colon on as the service. *)
Theorem lookup_split (node service v6 more : list Z) :
  node <> [] -> head node <> Some 91 -> colon ∉ node -> colon ∉ service ->
  v6 <> [] -> 93 ∉ v6 ->
  split_host (node ++ colon :: service) = (node, Some service) /\
  split_host node = (node, None) /\
  split_host (91 :: v6 ++ 93 :: colon :: service) = (v6, Some service) /\
  split_host (91 :: v6 ++ [93]) = (v6, None) /\
  split_host (node ++ colon :: service ++ colon :: more) =
    (node ++ colon :: service ++ colon :: more, Some (colon :: service ++ colon :: more)).
Proof.
  intros Hn Hh Hnc Hsc Hv Hb.
  assert (forall r, head (node ++ r) <> Some 91) as Hh' by (by destruct node).
  split_and!.
  - rewrite split_host_plain, index_of_app by done. rewrite drop_length_cons, index_of_none by done.
    rewrite take_app_length. by destruct node.
  - by rewrite split_host_plain, index_of_none by done.
  - by rewrite split_host_bracket by done.
  - by rewrite split_host_bracket by done.
  - rewrite split_host_plain, index_of_app by done. rewrite drop_length_cons, index_of_app by done.
    by rewrite drop_app_length.
Qed.

Lemma lookup_split_witness :
  split_host ([97; 46; 98] ++ colon :: [56; 48]) = ([97; 46; 98], Some [56; 48]).
Proof.
  apply (lookup_split [97; 46; 98] [56; 48] [49] []); first [done | by vm_compute | set_solver].
Defined.

(** "::1" is looked up as node "::1" with service "::1". *)
Example bare_ipv6 : split_host [58; 58; 49] = ([58; 58; 49], Some [58; 58; 49]).
Proof. by vm_compute. Qed.

(** ** Unix addresses *)

Lemma length_zeros n : length (zeros n) = n.
Proof. apply length_replicate. Qed.


Lemma until_nul_clean l r : 0 ∉ l -> until_nul (l ++ 0 :: r) = Some l.
Proof.
  induction l as [|x l IH]; intros H; [done|]. cbn [app until_nul].
  rewrite IH by set_solver. destruct x; [set_solver|done|done].
Qed.

Lemma zero_head (path : list Z) (x y : Z) :
  match path with 0 :: _ => x | _ => y end = if bool_decide (head path = Some 0) then x else y.
Proof. destruct path as [|[|p|p] path]; first [by rewrite bool_decide_eq_true_2 | by rewrite bool_decide_eq_false_2]. Qed.

(** A Unix address made of a path prints that path: a path with a leading zero byte (an abstract
    name) is stored without a terminator and printed as backslash, 0 and its other bytes, any other
    path without zero bytes is stored with its terminator and printed as it is, and a path that does
    not fit into [sun_path] throws [std::logic_error]. *)
Theorem unix_outcome (path : list Z) :
  Z.of_nat (length path) + 1 < 2 ^ 32 -> 0 ∉ tail path -> path <> [] ->
  let n := (length path + if bool_decide (head path = Some 0%Z) then 0 else 1)%nat in
  if decide (n <= 108)%nat
  then exists a, UnixAddress_of path tt = Ok a tt /\ wf_addr a /\
         addrlen a = Z.of_nat n + 2 /\
         to_string COOL_LITTLE_ENDIAN true a tt =
           Ok (if bool_decide (head path = Some 0) then "\0" +:+ to_text (tail path) else to_text path) tt
  else UnixAddress_of path tt = Throw logic_error tt.
Proof.
  intros Hlen Hz Hne n. unfold UnixAddress_of. rewrite wrap_id by (unfold in_u; lia).
  rewrite zero_head. subst n. case_bool_decide as Hh.
  - destruct path as [|z path]; [done|]. injection Hh as ->.
    replace (Z.of_nat (length (0 :: path)) + 1 - 1) with (Z.of_nat (length (0 :: path))) by lia.
    rewrite Nat.add_0_r. case_decide as Hn.
    + rewrite (proj2 (Z.ltb_ge 108 _)), Nat2Z.id by lia. eexists. split; [done|].
      rewrite take_app_length. cbn [wf_addr sun_path addrlen].
      rewrite length_app, length_zeros. unfold offsetof_sun_path at 1 2 3.
      split; [lia|]. split; [lia|].
      cbn [to_string]. unfold insert_un. cbn [sun_path app lookup].
      rewrite (proj2 (Z.ltb_lt _ _)) by (unfold offsetof_sun_path; simpl; lia).
      change (default 0 ((0 :: path ++ zeros (108 - length (0 :: path))) !! 0%nat)) with 0. cbn [andb Z.eqb].
      replace (Z.of_nat (length (0 :: path)) + offsetof_sun_path - offsetof_sun_path - 1)
        with (Z.of_nat (length path)) by (simpl; lia).
      rewrite bool_decide_eq_true_2 by (cbn [length]; rewrite length_app, length_zeros; lia).
      cbn [require ret]. unfold bind, ret. change (drop 1 (0 :: path ++ ?x)) with (path ++ x).
      rewrite Nat2Z.id. cbn [skipn drop]. by rewrite take_app_length.
    + by rewrite (proj2 (Z.ltb_lt 108 _)) by lia.
  - case_decide as Hn.
    + rewrite (proj2 (Z.ltb_ge 108 _)) by lia.
      replace (Z.to_nat (Z.of_nat (length path) + 1)) with (length path + 1)%nat by lia.
      eexists. split; [done|]. rewrite take_ge by (rewrite length_app; simpl; lia).
      cbn [wf_addr sun_path addrlen]. rewrite !length_app, length_zeros. cbn [length].
      unfold offsetof_sun_path at 1 2 3.
      split; [lia|]. split; [lia|].
      cbn [to_string]. unfold insert_un. cbn [sun_path]. rewrite <- app_assoc.
      assert (default 0 ((path ++ [0] ++ zeros (108 - (length path + 1))) !! 0%nat) =? 0 = false) as ->.
      { destruct path as [|z path]; [done|]. apply Z.eqb_neq. simpl. intros ->. by apply Hh. }
      rewrite andb_false_r. cbn [app]. rewrite until_nul_clean; [done|].
      destruct path as [|z path]; [done|]. intros [<-|?]%elem_of_cons; [done|set_solver].
    + by rewrite (proj2 (Z.ltb_lt 108 _)) by lia.
Qed.

Lemma unix_outcome_witness :
  exists a, UnixAddress_of [47; 116; 109; 112] tt = Ok a tt /\ addrlen a = 7 /\
    to_string COOL_LITTLE_ENDIAN true a tt = Ok "/tmp" tt.
Proof.
  pose proof (unix_outcome [47; 116; 109; 112]) as H. cbv zeta in H.
  rewrite decide_True in H by (vm_compute; lia).
  destruct H as (a & H1 & _ & H3 & H4); [by vm_compute|set_solver|done|].
  by exists a.
Defined.
End Address.
