(* ===== verification/Socket.v ===== *)
(** * Sockets: src/src/socket.h, src/src/socket.cpp

    A socket object talks to its environment: the system calls (as the hooks
    present them), the descriptor manager and the I/O manager of the thread.  Each
    such call and its answer is an entry of a history, and [kernel] answers a call
    from the history so far; a theorem for every [kernel] holds whatever the
    environment does.  Logging is left out. *)

From stdpp Require Import prelude strings.
From Stdlib Require Import ZArith Lia.
From S2P Require Import Prelude Text Address FdManager.

Module Socket.
Import Text.
Local Open Scope Z_scope.

Definition SOCK_STREAM : Z := 1.
Definition SOCK_DGRAM : Z := 2.
Definition SOL_SOCKET : Z := 1.
Definition SO_REUSEADDR : Z := 2.
Definition SO_ERROR : Z := 4.
Definition IPPROTO_TCP : Z := 6.
Definition TCP_NODELAY : Z := 1.
Definition SOMAXCONN : Z := 4096.
Definition EVENT_READ : Z := 1.
Definition EVENT_WRITE : Z := 4.

(** The value of a socket option. *)
Inductive optval :=
  | OptInt (v : Z)
  | OptTimeval (sec usec : Z).

Inductive syscall :=
  | Sys_socket (family type protocol : Z)
  | Sys_bind (fd : Z) (addr : list Z) (addrlen : Z)
  | Sys_listen (fd backlog : Z)
  | Sys_accept (fd : Z)
  | Sys_connect (fd : Z) (addr : list Z) (addrlen : Z)
  | Sys_connect_with_timeout (fd : Z) (addr : list Z) (addrlen timeout_ms : Z)
  | Sys_close (fd : Z)
  | Sys_send (fd : Z) (buf : list Z) (flags : Z)
  | Sys_sendmsg (fd : Z) (iov : list (list Z)) (name : option (list Z * Z)) (flags : Z)
  | Sys_sendto (fd : Z) (buf : list Z) (flags : Z) (addr : list Z) (addrlen : Z)
  | Sys_recv (fd len flags : Z)
  | Sys_recvmsg (fd : Z) (iov_lens : list Z) (name : option (list Z * Z)) (flags : Z)
  | Sys_recvfrom (fd len flags : Z) (addr : list Z) (addrlen : Z)
  | Sys_getpeername (fd addrlen : Z)
  | Sys_getsockname (fd addrlen : Z)
  | Sys_getsockopt (fd level option : Z)
  | Sys_setsockopt (fd level option : Z) (val : optval)
  | FdMgr_get (fd : Z)
  | IOManager_cancelEvent (fd event : Z)
  | IOManager_cancekAll (fd : Z).

(** What a call returns: its result, the bytes and the length it stores, and the
    context that [FdMgr] has for a descriptor. *)
Record answer := Answer {
  rt : Z;
  data : list Z;
  len_out : Z;
  ctx : option FdManager.FdCtx
}.
Definition plain_answer (r : Z) : answer := Answer r [] 0 None.

Record Socket := Socket_ {
  m_sock : Z;
  m_family : Z;
  m_type : Z;
  m_protocol : Z;
  m_isConnected : bool;
  m_localAddress : option Address.Address;
  m_remoteAddress : option Address.Address
}.
Definition set_sock v s := Socket_ v (m_family s) (m_type s) (m_protocol s) (m_isConnected s)
  (m_localAddress s) (m_remoteAddress s).
Definition set_isConnected v s := Socket_ (m_sock s) (m_family s) (m_type s) (m_protocol s) v
  (m_localAddress s) (m_remoteAddress s).
Definition set_local v s := Socket_ (m_sock s) (m_family s) (m_type s) (m_protocol s) (m_isConnected s)
  v (m_remoteAddress s).
Definition set_remote v s := Socket_ (m_sock s) (m_family s) (m_type s) (m_protocol s) (m_isConnected s)
  (m_localAddress s) v.

Definition new_Socket (family type protocol : Z) : Socket :=
  Socket_ (-1) family type protocol false None None.

Definition history : Type := list (syscall * answer).
Definition obj : Type := history * Socket.
Abbreviation cmd := (Prelude.cmd obj).

Section socket.
Context (kernel : history -> syscall -> answer).
Context (byte_order : Z) (little : bool).

(** A call to the environment. *)
Definition call (c : syscall) : cmd answer :=
  fun s => let a := kernel s.1 c in Ok a (s.1 ++ [(c, a)], s.2).
Definition self {A} (f : Socket -> A) : cmd A := gets (fun s => f s.2).
Definition update (f : Socket -> Socket) : cmd unit := modify (fun s => (s.1, f s.2)).
(** A function without state. *)
Definition lift {A} (m : Prelude.cmd unit A) : cmd A :=
  fun s => match m tt with
           | Ok a _ => Ok a s
           | Throw e _ => Throw e s
           | Fail_ f => Fail_ f
           end.

(** ** Creation *)

Definition CreateTCP (address : Address.Address) : Socket :=
  new_Socket (Address.family little address) SOCK_STREAM 0.
Definition CreateUDP (address : Address.Address) : Socket :=
  new_Socket (Address.family little address) SOCK_DGRAM 0.
Definition CreateTCPSocket : Socket := new_Socket Address.AF_INET SOCK_STREAM 0.
Definition CreateUDPSocket : Socket := new_Socket Address.AF_INET SOCK_DGRAM 0.
Definition CreateTCPSocket6 : Socket := new_Socket Address.AF_INET6 SOCK_STREAM 0.
Definition CreateUDPSocket6 : Socket := new_Socket Address.AF_INET6 SOCK_DGRAM 0.
Definition CreateUnixTCPSocket : Socket := new_Socket Address.AF_UNIX SOCK_STREAM 0.
Definition CreateUnixUDPSocket : Socket := new_Socket Address.AF_UNIX SOCK_DGRAM 0.

Definition isValid (s : Socket) : bool := negb (m_sock s =? -1).

(** ** Options *)

Definition setOption (level option : Z) (val : optval) : cmd bool :=
  let* fd := self m_sock in
  let* a := call (Sys_setsockopt fd level option val) in
  ret (rt a =? 0).
(** [getOption]: whether it succeeds, and the value stored. *)
Definition getOption (level option : Z) : cmd (bool * list Z) :=
  let* fd := self m_sock in
  let* a := call (Sys_getsockopt fd level option) in
  ret (rt a =? 0, data a).
(** [{(int)(v / 1000), (int)(v % 1000 * 1000)}] *)
Definition timeval (v : Z) : optval := OptTimeval (s32 (Z.quot v 1000)) (s32 (Z.rem v 1000 * 1000)).
Definition get_timeout (type : Z) : cmd Z :=
  let* fd := self m_sock in
  let* a := call (FdMgr_get fd) in
  ret (match ctx a with Some c => s64 (FdManager.getTimeout type c) | None => -1 end).
Definition sendTimeout : cmd Z := get_timeout FdManager.SO_SNDTIMEO.
Definition set_sendTimeout (v : Z) : cmd unit :=
  setOption SOL_SOCKET FdManager.SO_SNDTIMEO (timeval v) ;;; ret tt.
Definition recvTimeout : cmd Z := get_timeout FdManager.SO_RCVTIMEO.
Definition set_recvTimeout (v : Z) : cmd unit :=
  setOption SOL_SOCKET FdManager.SO_RCVTIMEO (timeval v) ;;; ret tt.
(** [error]: the option's value, least significant byte first on this platform. *)
Definition error : cmd Z :=
  let* r := getOption SOL_SOCKET SO_ERROR in
  ret (if fst r then s32 (Endian.Endian.host_value little (snd r)) else -1).

(** ** Addresses of the ends *)

Definition empty_address (family : Z) : Address.Address :=
  if family =? Address.AF_INET then Address.IPv4Address (Address.new_IPv4Address byte_order 0 0)
  else if family =? Address.AF_INET6 then Address.IPv6Address Address.new_IPv6Address
  else if family =? Address.AF_UNIX then Address.new_UnixAddress
  else Address.UnknowAddress_of family.
(** The part that [remoteAddress] and [localAddress] share after the call. *)
Definition end_address (family : Z) (a : answer) : cmd (Address.Address * bool) :=
  if negb (rt a =? 0) then ret (Address.UnknowAddress_of family, false)
  else
    let* result := lift (Address.fill little (data a) (empty_address family)) in
    ret (if family =? Address.AF_UNIX then Address.set_addrlen (len_out a) result else result, true).
Definition remoteAddress : cmd Address.Address :=
  let* m := self m_remoteAddress in
  match m with
  | Some a => ret a
  | None =>
    let* family := self m_family in
    let* fd := self m_sock in
    let* a := call (Sys_getpeername fd (Address.addrlen (empty_address family))) in
    let* r := end_address family a in
    (if snd r : bool then update (set_remote (Some (fst r))) else ret tt) ;;;
    ret (fst r)
  end.
Definition localAddress : cmd Address.Address :=
  let* m := self m_localAddress in
  match m with
  | Some a => ret a
  | None =>
    let* family := self m_family in
    let* fd := self m_sock in
    let* a := call (Sys_getsockname fd (Address.addrlen (empty_address family))) in
    let* r := end_address family a in
    (if snd r : bool then update (set_local (Some (fst r))) else ret tt) ;;;
    ret (fst r)
  end.

(** ** Opening and closing *)

Definition initSock : cmd unit :=
  setOption SOL_SOCKET SO_REUSEADDR (OptInt 1) ;;;
  let* type := self m_type in
  if type =? SOCK_STREAM then setOption IPPROTO_TCP TCP_NODELAY (OptInt 1) ;;; ret tt else ret tt.
Definition newSock : cmd unit :=
  let* s := self id in
  let* a := call (Sys_socket (m_family s) (m_type s) (m_protocol s)) in
  update (set_sock (rt a)) ;;;
  if negb (rt a =? -1) then initSock else ret tt.
Definition init (sock : Z) : cmd bool :=
  let* a := call (FdMgr_get sock) in
  match ctx a with
  | Some c =>
    if FdManager.m_isSocket c && negb (FdManager.m_isClosed c) then
      update (set_sock sock) ;;;
      update (set_isConnected true) ;;;
      initSock ;;;
      localAddress ;;;
      remoteAddress ;;;
      ret true
    else ret false
  | None => ret false
  end.
Definition close : cmd bool :=
  let* s := self id in
  if negb (m_isConnected s) && (m_sock s =? -1) then ret true
  else
    update (set_isConnected true) ;;;
    (if negb (m_sock s =? -1) then call (Sys_close (m_sock s)) ;;; update (set_sock (-1)) else ret tt) ;;;
    ret false.
(** The destructor. *)
Definition destroy : cmd unit := close ;;; ret tt.

(** [accept]: the new socket is another object; the history goes on. *)
Definition in_new {A} (s : Socket) (m : cmd A) : cmd (A * Socket) :=
  fun st => match m (st.1, s) with
            | Ok a st' => Ok (a, st'.2) (st'.1, st.2)
            | Throw e st' => Throw e (st'.1, st.2)
            | Fail_ f => Fail_ f
            end.
Definition accept : cmd (option Socket) :=
  let* s := self id in
  let sock := new_Socket (m_family s) (m_type s) (m_protocol s) in
  let* a := call (Sys_accept (m_sock s)) in
  if rt a =? -1 then ret None
  else
    let* r := in_new sock (init (rt a)) in
    if fst r : bool then ret (Some (snd r))
    else let* _ := in_new (snd r) destroy in ret None.

(** [if (!isValid()) { newSock(); if (!isValid()) return false; }] *)
Definition open_if_needed : cmd bool :=
  let* v := self isValid in
  if v then ret true else newSock ;;; self isValid.

Definition bind_ (addr : Address.Address) : cmd bool :=
  let* ok := open_if_needed in
  if negb ok then ret false
  else
    let* s := self id in
    if negb (Address.family little addr =? m_family s) then ret false
    else
      let* a := call (Sys_bind (m_sock s) (Address.addr little addr) (Address.addrlen addr)) in
      if negb (rt a =? 0) then ret false
      else localAddress ;;; ret true.

Definition connect (addr : Address.Address) (timeout_ms : Z) : cmd bool :=
  let* ok := open_if_needed in
  if negb ok then ret false
  else
    let* s := self id in
    if negb (Address.family little addr =? m_family s) then ret false
    else
      let p := Address.addr little addr in
      let n := Address.addrlen addr in
      let* a := (if timeout_ms =? u64 (-1) then call (Sys_connect (m_sock s) p n)
                 else call (Sys_connect_with_timeout (m_sock s) p n timeout_ms)) in
      if negb (rt a =? 0) then close ;;; ret false
      else
        update (set_isConnected true) ;;;
        remoteAddress ;;;
        localAddress ;;;
        ret true.

Definition listen (backlog : Z) : cmd bool :=
  let* fd := self m_sock in
  let* a := call (Sys_listen fd backlog) in
  ret (rt a =? 0).

(** ** Sending and receiving: [int] results of [ssize_t] calls *)

Definition if_connected (c : Z -> syscall) : cmd (Z * list Z) :=
  let* s := self id in
  if m_isConnected s then let* a := call (c (m_sock s)) in ret (s32 (rt a), data a) else ret (-1, []).

Definition send (buf : list Z) (flags : Z) : cmd Z :=
  let* r := if_connected (fun fd => Sys_send fd buf flags) in ret (fst r).
Definition send_iov (buf : list (list Z)) (flags : Z) : cmd Z :=
  let* r := if_connected (fun fd => Sys_sendmsg fd buf None flags) in ret (fst r).
Definition sendTo (buf : list Z) (to : Address.Address) (flags : Z) : cmd Z :=
  let* r := if_connected (fun fd => Sys_sendto fd buf flags (Address.addr little to) (Address.addrlen to)) in
  ret (fst r).
Definition sendTo_iov (buf : list (list Z)) (to : Address.Address) (flags : Z) : cmd Z :=
  let* r := if_connected (fun fd => Sys_sendmsg fd buf (Some (Address.addr little to, Address.addrlen to)) flags) in
  ret (fst r).
(** Receiving: the result and the bytes stored in the buffer. *)
Definition recv (len flags : Z) : cmd (Z * list Z) := if_connected (fun fd => Sys_recv fd len flags).
Definition recv_iov (iov_lens : list Z) (flags : Z) : cmd (Z * list Z) :=
  if_connected (fun fd => Sys_recvmsg fd iov_lens None flags).
(** The local [len] hides the parameter: the size of the address is passed as the
    size of the buffer. *)
Definition recvFrom (_ : Z) (from : Address.Address) (flags : Z) : cmd (Z * list Z) :=
  let len := Address.addrlen from in
  if_connected (fun fd => Sys_recvfrom fd len flags (Address.addr little from) len).
Definition recvFrom_iov (iov_lens : list Z) (from : Address.Address) (flags : Z) : cmd (Z * list Z) :=
  if_connected (fun fd => Sys_recvmsg fd iov_lens (Some (Address.addr little from, Address.addrlen from)) flags).

Definition cancelRead : cmd bool :=
  let* fd := self m_sock in let* a := call (IOManager_cancelEvent fd EVENT_READ) in ret (negb (rt a =? 0)).
Definition cancelWrite : cmd bool :=
  let* fd := self m_sock in let* a := call (IOManager_cancelEvent fd EVENT_WRITE) in ret (negb (rt a =? 0)).
Definition cancelAccept : cmd bool :=
  let* fd := self m_sock in let* a := call (IOManager_cancelEvent fd EVENT_READ) in ret (negb (rt a =? 0)).
Definition cancelAll : cmd bool :=
  let* fd := self m_sock in let* a := call (IOManager_cancekAll fd) in ret (negb (rt a =? 0)).

(** ** Printing *)

Definition dump : cmd string :=
  let* s := self id in
  let* local := (match m_localAddress s with
                 | Some a => let* t := lift (Address.to_string byte_order little a) in ret (", localAddress: " +:+ t)
                 | None => ret ""
                 end) in
  let* remote := (match m_remoteAddress s with
                  | Some a => let* t := lift (Address.to_string byte_order little a) in ret (", remoteAddress " +:+ t)
                  | None => ret ""
                  end) in
  ret ("[Socket sock: " +:+ sdec (m_sock s) +:+ ", isConnected: " +:+ (if m_isConnected s then "1" else "0") +:+
       ", family: " +:+ sdec (m_family s) +:+ ", type: " +:+ sdec (m_type s) +:+
       ", protocol: " +:+ sdec (m_protocol s) +:+ local +:+ remote +:+ "]").

End socket.

(** ** Where the descriptors are *)

(** What an entry of the history does to the number of descriptors held. *)
Definition net (e : syscall * answer) : Z :=
  match e.1 with
  | Sys_socket _ _ _ | Sys_accept _ => if rt e.2 =? -1 then 0 else 1
  | Sys_close _ => -1
  | _ => 0
  end.
Definition held (h : history) : Z := foldr (fun e n => net e + n) 0 h.

Lemma held_snoc h e : held (h ++ [e]) = held h + net e.
Proof. induction h as [|x h IH]; simpl; [lia|]. rewrite IH. lia. Qed.

(** The descriptors that [accept] returned and the descriptor manager did not know as open
    sockets: [init] refuses them.  The first component: the last call was an [accept] that
    brought a descriptor. *)
Definition refuses (a : answer) : bool :=
  match ctx a with Some c => negb (FdManager.m_isSocket c && negb (FdManager.m_isClosed c)) | None => true end.
Definition tally_step (t : bool * Z) (e : syscall * answer) : bool * Z :=
  match e.1 with
  | Sys_accept _ => (negb (rt e.2 =? -1), t.2)
  | FdMgr_get _ => (false, t.2 + Z.b2z (t.1 && refuses e.2))
  | _ => (false, t.2)
  end.
Definition tally (h : history) : bool * Z := foldl tally_step (false, 0) h.
Definition pending (h : history) : bool := (tally h).1.
Definition refused (h : history) : Z := (tally h).2.
Lemma tally_snoc h e : tally (h ++ [e]) = tally_step (tally h) e.
Proof. apply foldl_snoc. Qed.
Lemma refused_nonneg h : 0 <= refused h.
Proof.
  induction h as [|e h IH] using rev_ind; [done|]. unfold refused in *. rewrite tally_snoc.
  unfold tally_step. destruct e.1; simpl; try done. destruct (_ && _); simpl; lia.
Qed.

(** Apart from [base] descriptors of other objects, those held are the object's own and the refused ones. *)
Definition balanced (base : Z) (s : obj) : Prop :=
  pending s.1 = false /\ held s.1 = base + refused s.1 + Z.b2z (isValid s.2).
Lemma tally_neutral h e : pending h = false ->
  match e.1 with Sys_accept _ => False | _ => True end ->
  pending (h ++ [e]) = false /\ refused (h ++ [e]) = refused h.
Proof.
  unfold pending, refused. rewrite tally_snoc. unfold tally_step. intros -> He.
  destruct e.1; simpl; try done. split; [done|lia].
Qed.

(** The calls that neither make nor close a descriptor. *)
Definition neutral (c : syscall) : bool :=
  match c with Sys_socket _ _ _ | Sys_accept _ | Sys_close _ => false | _ => true end.

Section balance.
Context (kernel : history -> syscall -> answer) (byte_order : Z) (little : bool) (base : Z).
Local Abbreviation keeps := (keeps (balanced base)).

Lemma keeps_call c : neutral c = true -> keeps (call kernel c).
Proof.
  intros Hc [h s] [Hp H]. unfold call, balanced in *. simpl in *. set (a := kernel h c).
  destruct (tally_neutral h (c, a) Hp) as [-> ->]; [by destruct c|]. split; [done|]. rewrite held_snoc, H.
  destruct c; try done; unfold net; simpl; lia.
Qed.

Lemma keeps_self {A} (f : Socket -> A) : keeps (self f).
Proof. by intros s Hs. Qed.

Lemma keeps_update f : (forall s, m_sock (f s) = m_sock s) -> keeps (update f).
Proof. intros Hf [h s] [Hp H]. unfold balanced, isValid in *. simpl in *. by rewrite Hf. Qed.

Lemma keeps_lift {A} (m : Prelude.cmd unit A) : keeps (lift m).
Proof. intros s Hs. unfold lift. by destruct (m tt). Qed.

Lemma keeps_match_option {A B} (o : option A) (f : A -> cmd B) (g : cmd B) :
  (forall a, keeps (f a)) -> keeps g -> keeps (match o with Some a => f a | None => g end).
Proof. by destruct o. Qed.

Lemma keeps_bool {A} (b : bool) (m1 m2 : cmd A) : keeps m1 -> keeps m2 -> keeps (if b then m1 else m2).
Proof. by destruct b. Qed.

#[local] Hint Resolve keeps_self keeps_lift : keeps.
#[local] Hint Extern 1 (Prelude.keeps _ (call _ _)) => apply keeps_call; reflexivity : keeps.
#[local] Hint Extern 1 (Prelude.keeps _ (update _)) => apply keeps_update; reflexivity : keeps.
#[local] Hint Extern 2 (Prelude.keeps _ (match _ with Some _ => _ | None => _ end)) =>
  apply keeps_match_option; [intros ?|] : keeps.
#[local] Hint Extern 2 (Prelude.keeps _ (if _ then _ else _)) => apply keeps_bool : keeps.

Ltac keep := cbv zeta; auto 40 with keeps.

Lemma keeps_setOption l o v : keeps (setOption kernel l o v).
Proof. unfold setOption. keep. Qed.
#[local] Hint Resolve keeps_setOption : keeps.

Lemma keeps_end_address f a : keeps (end_address byte_order little f a).
Proof. unfold end_address. keep. Qed.
#[local] Hint Resolve keeps_end_address : keeps.

Lemma keeps_remoteAddress : keeps (remoteAddress kernel byte_order little).
Proof. unfold remoteAddress. keep. Qed.
Lemma keeps_localAddress : keeps (localAddress kernel byte_order little).
Proof. unfold localAddress. keep. Qed.
Lemma keeps_initSock : keeps (initSock kernel).
Proof. unfold initSock. keep. Qed.
#[local] Hint Resolve keeps_remoteAddress keeps_localAddress keeps_initSock : keeps.

(** [close] closes the descriptor if there is one. *)
Lemma keeps_close : keeps (close kernel).
Proof.
  intros [h s] [Hp H]. unfold isValid in H. simpl in Hp, H.
  unfold close, bind, self, gets, update, modify, call, ret. simpl.
  destruct (m_sock s =? -1) eqn:E; simpl in *.
  - rewrite andb_true_r. destruct (negb (m_isConnected s)); unfold balanced, isValid; simpl; by rewrite E.
  - rewrite andb_false_r. simpl. unfold balanced, isValid. simpl. set (a := kernel h _).
    destruct (tally_neutral h (Sys_close (m_sock s), a) Hp I) as [-> ->].
    rewrite held_snoc, H. unfold net. simpl. split; [done|lia].
Qed.
#[local] Hint Resolve keeps_close : keeps.

(** [newSock] is only called without a descriptor. *)
Lemma newSock_balanced h s :
  isValid s = false -> balanced base (h, s) ->
  match newSock kernel (h, s) with Ok _ s' | Throw _ s' => balanced base s' | Fail_ _ => True end.
Proof.
  intros Hv [Hp H]. unfold newSock, bind at 1, self, gets. unfold bind at 1, call at 1. simpl.
  set (a := kernel h _). unfold bind at 1, update, modify. simpl.
  apply (keeps_bool (negb (rt a =? -1)) (initSock kernel) (ret tt)); [keep|keep|].
  unfold balanced, isValid in *. simpl in *.
  destruct (tally_neutral h (Sys_socket (m_family s) (m_type s) (m_protocol s), a) Hp I) as [-> ->].
  rewrite held_snoc, H, Hv. unfold net. simpl. split; [done|]. destruct (rt a =? -1); simpl; lia.
Qed.

Lemma keeps_open_if_needed : keeps (open_if_needed kernel).
Proof.
  intros [h s] H. unfold open_if_needed, bind at 1, self at 1, gets at 1. simpl.
  destruct (isValid s) eqn:E; [done|]. pose proof (newSock_balanced h s E H) as Hn.
  unfold bind. by destruct (newSock kernel (h, s)).
Qed.
#[local] Hint Resolve keeps_open_if_needed : keeps.

Lemma keeps_if_connected c : (forall fd, neutral (c fd) = true) -> keeps (if_connected kernel c).
Proof.
  intros Hc. unfold if_connected. apply keeps_bind; [keep|]. intros s. apply keeps_bool; [|keep].
  apply keeps_bind; [by apply keeps_call|keep].
Qed.
#[local] Hint Extern 1 (Prelude.keeps _ (if_connected _ _)) => apply keeps_if_connected; reflexivity : keeps.

(** The operations on a socket object, apart from [accept] and [init]. *)
Inductive op :=
  | OBind (a : Address.Address)
  | OConnect (a : Address.Address) (timeout_ms : Z)
  | OListen (backlog : Z)
  | OClose
  | OSend (buf : list Z) (flags : Z)
  | OSendIov (buf : list (list Z)) (flags : Z)
  | OSendTo (buf : list Z) (a : Address.Address) (flags : Z)
  | OSendToIov (buf : list (list Z)) (a : Address.Address) (flags : Z)
  | ORecv (len flags : Z)
  | ORecvIov (lens : list Z) (flags : Z)
  | ORecvFrom (len : Z) (a : Address.Address) (flags : Z)
  | ORecvFromIov (lens : list Z) (a : Address.Address) (flags : Z)
  | OSetSendTimeout (v : Z)
  | OSetRecvTimeout (v : Z)
  | OSendTimeout
  | ORecvTimeout
  | OError
  | OGetOption (level option : Z)
  | OSetOption (level option : Z) (v : optval)
  | OLocalAddress
  | ORemoteAddress
  | OCancelRead
  | OCancelWrite
  | OCancelAccept
  | OCancelAll
  | ODump.

Definition run_op (o : op) : cmd unit :=
  match o with
  | OBind a => bind_ kernel byte_order little a ;;; ret tt
  | OConnect a t => connect kernel byte_order little a t ;;; ret tt
  | OListen b => listen kernel b ;;; ret tt
  | OClose => close kernel ;;; ret tt
  | OSend b f => send kernel b f ;;; ret tt
  | OSendIov b f => send_iov kernel b f ;;; ret tt
  | OSendTo b a f => sendTo kernel little b a f ;;; ret tt
  | OSendToIov b a f => sendTo_iov kernel little b a f ;;; ret tt
  | ORecv n f => recv kernel n f ;;; ret tt
  | ORecvIov l f => recv_iov kernel l f ;;; ret tt
  | ORecvFrom n a f => recvFrom kernel little n a f ;;; ret tt
  | ORecvFromIov l a f => recvFrom_iov kernel little l a f ;;; ret tt
  | OSetSendTimeout v => set_sendTimeout kernel v
  | OSetRecvTimeout v => set_recvTimeout kernel v
  | OSendTimeout => sendTimeout kernel ;;; ret tt
  | ORecvTimeout => recvTimeout kernel ;;; ret tt
  | OError => error kernel little ;;; ret tt
  | OGetOption l o => getOption kernel l o ;;; ret tt
  | OSetOption l o v => setOption kernel l o v ;;; ret tt
  | OLocalAddress => localAddress kernel byte_order little ;;; ret tt
  | ORemoteAddress => remoteAddress kernel byte_order little ;;; ret tt
  | OCancelRead => cancelRead kernel ;;; ret tt
  | OCancelWrite => cancelWrite kernel ;;; ret tt
  | OCancelAccept => cancelAccept kernel ;;; ret tt
  | OCancelAll => cancelAll kernel ;;; ret tt
  | ODump => dump byte_order little ;;; ret tt
  end.
Fixpoint run_ops (os : list op) : cmd unit :=
  match os with [] => ret tt | o :: os => run_op o ;;; run_ops os end.

Lemma socket_keeps_run_op o : keeps (run_op o).
Proof.
  destruct o; simpl;
    unfold bind_, connect, listen, send, send_iov, sendTo, sendTo_iov, recv, recv_iov, recvFrom, recvFrom_iov,
      set_sendTimeout, set_recvTimeout, sendTimeout, recvTimeout, get_timeout, error, getOption,
      cancelRead, cancelWrite, cancelAccept, cancelAll, dump; keep.
Qed.

Lemma keeps_run_ops os : keeps (run_ops os).
Proof. induction os as [|o os IH]; simpl; [keep|]. apply keeps_bind; [apply socket_keeps_run_op|auto]. Qed.

(** What [init] does with a descriptor it has taken. *)
Lemma keeps_taken : keeps (initSock kernel ;;; localAddress kernel byte_order little ;;;
  remoteAddress kernel byte_order little ;;; ret true).
Proof. keep. Qed.
End balance.

Section pool.
#[local] Arguments held _ : simpl never.
#[local] Arguments refused _ : simpl never.
#[local] Arguments pending _ : simpl never.
Context (kernel : history -> syscall -> answer) (byte_order : Z) (little : bool).
(** [init] takes over a descriptor, whatever the object had, or leaves the object as it was. *)
Lemma init_spec sock h s :
  match init kernel byte_order little sock (h, s) with
  | Ok true s' => balanced (held h - refused h - Z.b2z (negb (sock =? -1))) s'
  | Ok false s' => s'.2 = s /\ pending s'.1 = false /\ held s'.1 = held h /\
      refused s'.1 = refused h + Z.b2z (pending h)
  | Throw _ _ | Fail_ _ => True
  end.
Proof.
  unfold init, bind at 1, call at 1. cbn [fst snd]. set (a := kernel h _). set (h' := h ++ [(FdMgr_get sock, a)]).
  assert (held h' = held h) as Eh by (unfold h'; rewrite held_snoc; unfold net; simpl; lia).
  assert (pending h' = false) as Ep by (unfold pending, h'; by rewrite tally_snoc).
  assert (refused h' = refused h + Z.b2z (pending h && refuses a)) as Er by (unfold refused at 1, h'; by rewrite tally_snoc).
  unfold refuses in Er. destruct (ctx a) as [c|]; [|cbn [ret fst snd]; by rewrite Er, Eh, Ep, andb_true_r].
  destruct (_ && negb (FdManager.m_isClosed c)); cbn [negb] in Er; [|cbn [ret fst snd]; by rewrite Er, Eh, Ep, andb_true_r].
  rewrite andb_false_r in Er. simpl in Er. unfold bind at 1 2, update at 1 2, modify. cbn [fst snd].
  set (st := (_, _)). set (b := held h - _ - _). assert (balanced b st) as Hst.
  { split; [done|]. unfold st, b, isValid. cbn [fst snd m_sock set_sock set_isConnected]. lia. }
  pose proof (keeps_taken kernel byte_order little b st Hst) as Hk. unfold bind in *.
  destruct (initSock kernel st); [|done..]. destruct (localAddress _ _ _ _); [|done..].
  by destruct (remoteAddress _ _ _ _).
Qed.
(** [accept] gives the descriptor to the new object, or it counts as refused. *)
Lemma accept_balanced base h x o st : balanced base (h, x) ->
  accept kernel byte_order little (h, x) = Ok o st ->
  st.2 = x /\ balanced (base + match o with Some y => Z.b2z (isValid y) | None => 0 end) st.
Proof.
  intros [Hp Hb] H. unfold accept, bind at 1, self, gets in H. cbn [fst snd] in *.
  unfold bind at 1, call in H. cbn [fst snd] in H. set (a := kernel h _) in *. unfold id in *.
  set (h1 := h ++ [(Sys_accept (m_sock x), a)]) in *.
  assert (tally h1 = (negb (rt a =? -1), refused h)) as Et by apply tally_snoc.
  assert (held h1 = held h + if rt a =? -1 then 0 else 1) as Eh by apply held_snoc.
  destruct (rt a =? -1) eqn:Ea.
  { injection H as <- <-. split; [done|]. split; cbn [fst snd]; [unfold pending; by rewrite Et|].
    unfold refused at 1. rewrite Et. cbn [snd]. lia. }
  unfold bind at 1, in_new in H. cbn [fst snd] in H. set (y := new_Socket _ _ _) in *.
  pose proof (init_spec (rt a) h1 y) as Hi. rewrite Ea in Hi. cbn [negb Z.b2z] in Hi.
  unfold pending in Hi at 2. unfold refused in Hi at 1 3. rewrite Et in Hi. cbn [fst snd negb Z.b2z] in Hi.
  destruct (init _ _ _ _ _) as [[] st1| |]; [| |done..]; cbn [fst snd] in H.
  - injection H as <- <-. split; [done|]. destruct Hi as [Hp1 Hh1]. split; [done|]. cbn [fst snd]. lia.
  - destruct Hi as (E2 & Hp1 & Hh1 & Hr1). unfold bind, in_new, destroy, close, bind, self, gets, ret in H.
    rewrite E2 in H. cbn in H. injection H as <- <-. split; [done|]. split; [done|]. cbn [fst snd]. lia.
Qed.

(** All the socket objects of a program.  [adopted] counts the descriptors from elsewhere that a call of
    [init] has taken over, [dropped] those an object had when [init] gave it another. *)
Record pool := Pool { p_hist : history; p_socks : list Socket; adopted : Z; dropped : Z }.
Definition valid_count (l : list Socket) : Z := foldr (fun x n => Z.b2z (isValid x) + n) 0 l.
Inductive act :=
  | New (family type protocol : Z)
  | On (i : nat) (o : op)
  | Accept (i : nat)
  | Init (i : nat) (sock : Z)
  | Delete (i : nat).
Definition at_sock {A} (i : nat) (m : cmd A) (k : A -> Socket -> Socket -> pool -> pool) : Prelude.cmd pool unit :=
  fun s => match p_socks s !! i with
           | None => Fail_ Undef
           | Some x =>
             match m (p_hist s, x) with
             | Ok a st => Ok tt (k a x st.2 (Pool st.1 (<[i := st.2]> (p_socks s)) (adopted s) (dropped s)))
             | Throw e st => Throw e (Pool st.1 (<[i := st.2]> (p_socks s)) (adopted s) (dropped s))
             | Fail_ f => Fail_ f
             end
           end.
Definition run_act (a : act) : Prelude.cmd pool unit :=
  match a with
  | New f t p => modify (fun s => Pool (p_hist s) (p_socks s ++ [new_Socket f t p]) (adopted s) (dropped s))
  | On i o => at_sock i (run_op kernel byte_order little o) (fun _ _ _ s => s)
  | Accept i => at_sock i (accept kernel byte_order little) (fun r _ _ s =>
      match r with Some y => Pool (p_hist s) (p_socks s ++ [y]) (adopted s) (dropped s) | None => s end)
  | Init i sock => at_sock i (init kernel byte_order little sock) (fun (b : bool) x _ s =>
      if b then Pool (p_hist s) (p_socks s) (adopted s + Z.b2z (negb (sock =? -1))) (dropped s + Z.b2z (isValid x)) else s)
  | Delete i => at_sock i (destroy kernel) (fun _ _ _ s =>
      Pool (p_hist s) (delete i (p_socks s)) (adopted s) (dropped s))
  end.
Fixpoint run_acts (l : list act) : Prelude.cmd pool unit :=
  match l with [] => ret tt | a :: l => run_act a ;;; run_acts l end.
Definition ledger (s : pool) : Prop :=
  pending (p_hist s) = false /\
  held (p_hist s) + adopted s = valid_count (p_socks s) + dropped s + refused (p_hist s).

Lemma valid_count_app l1 l2 : valid_count (l1 ++ l2) = valid_count l1 + valid_count l2.
Proof. induction l1 as [|x l1 IH]; [done|]. cbn [app valid_count foldr]. fold (valid_count (l1 ++ l2)). fold (valid_count l1). lia. Qed.
Lemma valid_count_insert l p x x' : l !! p = Some x ->
  valid_count (<[p := x']> l) = valid_count l - Z.b2z (isValid x) + Z.b2z (isValid x').
Proof.
  intros H. rewrite insert_take_drop by (by eapply lookup_lt_Some).
  rewrite <- (take_drop_middle l p x H) at 3. rewrite !valid_count_app. simpl. lia.
Qed.
Lemma valid_count_delete l p x : l !! p = Some x -> valid_count (delete p l) = valid_count l - Z.b2z (isValid x).
Proof.
  intros H. rewrite delete_take_drop. rewrite <- (take_drop_middle l p x H) at 3. rewrite !valid_count_app. simpl. lia.
Qed.
(** [destroy] leaves a socket without a descriptor. *)
Lemma destroy_invalid h x u st : destroy kernel (h, x) = Ok u st -> isValid st.2 = false.
Proof.
  unfold destroy, close, bind, self, gets, ret, update, modify, call, isValid. simpl.
  destruct (m_sock x =? -1) eqn:E; rewrite ?andb_true_r, ?andb_false_r; [|by intros [= <- <-]].
  destruct (negb _); intros [= <- <-]; simpl; by rewrite E.
Qed.
Lemma destroy_balanced base : keeps (balanced base) (destroy kernel).
Proof. apply (socket_keeps_run_op kernel byte_order little base OClose). Qed.

Lemma at_sock_Ok {A} i (m : cmd A) k s s' : at_sock i m k s = Ok tt s' ->
  exists x a st, p_socks s !! i = Some x /\ m (p_hist s, x) = Ok a st /\
    s' = k a x st.2 (Pool st.1 (<[i := st.2]> (p_socks s)) (adopted s) (dropped s)).
Proof.
  unfold at_sock. destruct (p_socks s !! i) as [x|]; [|done]. destruct (m _) as [a st| |] eqn:E; [|done..].
  intros [= <-]. by exists x, a, st.
Qed.
(** The base of an object in the pool. *)
Lemma ledger_balanced s i x : ledger s -> p_socks s !! i = Some x ->
  balanced (valid_count (p_socks s) - Z.b2z (isValid x) + dropped s - adopted s) (p_hist s, x).
Proof. intros [Hp Hl] Hx. split; [done|]. cbn [fst snd]. lia. Qed.
Lemma ledger_act a s s' : ledger s -> run_act a s = Ok tt s' -> ledger s'.
Proof.
  intros Hl H. destruct a as [f t p|i o|i|i sock|i]; cbn [run_act] in H.
  - injection H as <-. destruct Hl as [Hp Hl]. split; [done|]. cbn. rewrite valid_count_app. cbn. lia.
  - apply at_sock_Ok in H as (x & b & st & Hx & E & ->).
    pose proof (socket_keeps_run_op kernel byte_order little _ o _ (ledger_balanced s i x Hl Hx)) as Hb.
    rewrite E in Hb. destruct Hb as [Hp Hb]. split; [done|]. cbn. rewrite (valid_count_insert _ _ x) by done. lia.
  - apply at_sock_Ok in H as (x & o & st & Hx & E & ->).
    destruct (accept_balanced _ _ _ _ _ (ledger_balanced s i x Hl Hx) E) as [Ex [Hp Hb]].
    rewrite Ex in *. rewrite list_insert_id by done.
    destruct o as [y|]; (split; [done|]); cbn [p_hist p_socks adopted dropped]; rewrite ?valid_count_app; cbn [valid_count foldr]; lia.
  - apply at_sock_Ok in H as (x & b & st & Hx & E & ->). destruct Hl as [Hp Hl].
    pose proof (init_spec sock (p_hist s) x) as Hi. rewrite E in Hi. destruct b.
    + destruct Hi as [Hp' Hb]. split; [done|]. cbn. rewrite (valid_count_insert _ _ x) by done. lia.
    + destruct Hi as (-> & Hp' & Hh & Hr). rewrite Hp in Hr. rewrite list_insert_id by done. split; [done|]. cbn [p_hist p_socks adopted dropped fst snd Z.b2z] in *. lia.
  - apply at_sock_Ok in H as (x & b & st & Hx & E & ->).
    pose proof (destroy_balanced _ _ (ledger_balanced s i x Hl Hx)) as Hb. rewrite E in Hb.
    apply destroy_invalid in E. destruct Hb as [Hp Hb]. rewrite E in Hb. split; [done|]. cbn in *.
    rewrite (valid_count_delete _ i st.2) by (apply list_lookup_insert_eq; by eapply lookup_lt_Some).
    rewrite (valid_count_insert _ _ x), E by done. cbn. lia.
Qed.
Lemma ledger_acts l : forall s s', ledger s -> run_acts l s = Ok tt s' -> ledger s'.
Proof.
  induction l as [|a l IH]; intros s s' Hs H; cbn [run_acts] in H; [by injection H as <-|].
  apply bind_Ok in H as ([] & s1 & H1 & H). eapply IH; [|exact H]. by eapply ledger_act.
Qed.

(** C36: whatever the system answers, every descriptor is accounted for.  After any sequence of operations on
    any number of socket objects (creating and destroying them, [accept], [init] and everything else), the
    descriptors obtained from [socket], from [accept] and from elsewhere through [init], less those closed,
    are: one for each object that is valid, those that [accept] brought and the descriptor manager did not
    know (which nobody closes), and those of objects to which [init] gave another.  An object holds at most one,
    and when it is destroyed it holds none; so a program that never gives a valid object another
    descriptor, and whose manager knows the accepted ones, has none open when all objects are gone. *)
Theorem socket_balance (l : list act) (s : pool) :
  run_acts l (Pool [] [] 0 0) = Ok tt s ->
  held (p_hist s) + adopted s = valid_count (p_socks s) + dropped s + refused (p_hist s) /\
  (forall i x, p_socks s !! i = Some x ->
     exists st, destroy kernel (p_hist s, x) = Ok tt st /\ isValid st.2 = false /\
       held st.1 = held (p_hist s) - Z.b2z (isValid x)) /\
  (p_socks s = [] -> dropped s = 0 -> refused (p_hist s) = 0 -> held (p_hist s) + adopted s = 0).
Proof.
  intros E. assert (ledger s) as Hl by (eapply ledger_acts; [|exact E]; done).
  split_and!; [apply Hl| |].
  - intros i x Hx. pose proof (destroy_balanced _ _ (ledger_balanced s i x Hl Hx)) as Hb.
    destruct Hl as [Hp Hl]. unfold destroy, close, bind, self, gets, ret, call, update, modify, isValid in *.
    cbn [fst snd id] in *. destruct (m_sock x =? -1) eqn:Em; cbn [negb andb].
    + rewrite andb_true_r. destruct (negb (m_isConnected x)); eexists; (split; [done|]); cbn; rewrite Em; split; done || lia.
    + rewrite andb_false_r. eexists. split; [done|]. cbn. rewrite held_snoc. unfold net. cbn. split; [done|lia].
  - intros Hs Hd Hr. destruct Hl as [_ Hl]. rewrite Hs, Hd, Hr in Hl. cbn in Hl. lia.
Qed.
End pool.

(** A kernel that answers every call with success, descriptors being 5. *)
Definition friendly (_ : history) (c : syscall) : answer :=
  match c with
  | Sys_socket _ _ _ | Sys_accept _ => plain_answer 5
  | _ => plain_answer 0
  end.

(** A client connects, closes, connects again; a server accepts, and its descriptor is refused. *)
Definition ex_acts : list act :=
  let a := Address.IPv4Address (Address.new_IPv4Address 1 0 0) in
  [New Address.AF_INET SOCK_STREAM 0; On 0 (OConnect a 1000); On 0 OClose; On 0 (OConnect a 1000);
   New Address.AF_INET SOCK_STREAM 0; On 1 (OBind a); Accept 1; Delete 1].
Definition ex_pool : pool :=
  match run_acts friendly 1 true ex_acts (Pool [] [] 0 0) with Ok _ s => s | _ => Pool [] [] 0 0 end.

Lemma socket_balance_witness : held (p_hist ex_pool) = 2 /\ valid_count (p_socks ex_pool) = 1 /\ refused (p_hist ex_pool) = 1.
Proof.
  destruct (socket_balance friendly 1 true ex_acts ex_pool) as [H _].
  - vm_compute. reflexivity.
  - vm_compute. vm_compute in H. split_and!; reflexivity.
Defined.

(** ** Behaviour that is not intended *)

(** A descriptor that [accept] returned and [init] did not take is never closed. *)
Example accept_leaks :
  match accept friendly 1 true ([], Socket_ 4 2 1 0 false None None) with
  | Ok None s => held s.1 = 1
  | _ => False
  end.
Proof. by vm_compute. Qed.

(** A closed socket counts as connected: sending on it calls [send] with descriptor -1, and closing it
    again returns false although nothing is left to close. *)
Example closed_is_connected :
  match run_ops friendly 1 true [OClose; OSend [1] 0] ([], Socket_ 4 2 1 0 true None None) with
  | Ok _ s => m_isConnected s.2 = true /\ (Sys_send (-1) [1] 0, plain_answer 0) ∈ s.1
  | _ => False
  end.
Proof. vm_compute. split; [done|]. set_solver. Qed.

(** [recvFrom] asks for as many bytes as the address has. *)
Example recvFrom_length :
  match recvFrom friendly true 4096 (Address.IPv4Address (Address.new_IPv4Address 1 0 0)) 0
      ([], Socket_ 4 2 1 0 true None None) with
  | Ok _ ([(Sys_recvfrom _ len _ _ _, _)], _) => len = 16
  | _ => False
  end.
Proof. by vm_compute. Qed.

(** [listen] goes on without a descriptor. *)
Example listen_invalid :
  match listen friendly 128 ([], CreateTCPSocket) with
  | Ok b s => s.1 = [(Sys_listen (-1) 128, plain_answer 0)]
  | _ => False
  end.
Proof. by vm_compute. Qed.

End Socket.
