(* ===== verification/Stream.v ===== *)
(** * Streams: src/src/stream.h, src/src/stream.cpp

    The virtual operations of a stream are a class; [readFixSize] and
    [writeFixSize] are written against it.  A buffer is a block of bytes, and a
    pointer into it an offset: the code adds [size_t] values, so an offset is a
    64-bit number that may have wrapped around. *)

From stdpp Require Import prelude.
From Stdlib Require Import ZArith Lia.
From S2P Require Import Prelude ByteArray.

Module Stream.
Local Open Scope Z_scope.

(** [read(buffer, n)] returns its result and the bytes it stores in the buffer; the
    two overloads for a [ByteArray] also change that. *)
Class Stream (S : Type) := {
  read : Z -> cmd S (Z * list Z);
  write : list Z -> cmd S Z;
  read_ba : Z -> cmd (S * ByteArray.t) Z;
  write_ba : Z -> cmd (S * ByteArray.t) Z;
  close : cmd S unit
}.

(** ** Buffers *)

(** The place of a pointer [buffer + offset]. *)
Definition place (offset : Z) : Z := s64 offset.
Definition in_block (buf : list Z) (offset n : Z) : bool :=
  bool_decide (0 <= place offset) && bool_decide (place offset + n <= Z.of_nat (length buf)).
Definition store (buf : list Z) (offset : Z) (bs : list Z) : list Z :=
  splice (Z.to_nat (place offset)) bs buf.

Section fix_size.
Context {S : Type} `{!Stream S}.

(** [while (left > 0)]: [len] is a [size_t], so that [len <= 0] means 0. *)
Fixpoint readFixSize_loop (fuel : nat) (length_ offset left : Z) (buffer : list Z) : cmd S (Z * list Z) :=
  if left =? 0 then ret (s32 length_, buffer)
  else match fuel with
       | O => fail OutOfFuel
       | Datatypes.S fuel =>
         let* r := read left in
         let len := u64 (fst r) in
         require (bool_decide (snd r = []) || in_block buffer offset (Z.of_nat (length (snd r)))) ;;;
         let buffer := if bool_decide (snd r = []) then buffer else store buffer offset (snd r) in
         if len <=? 0 then ret (s32 len, buffer)
         else readFixSize_loop fuel length_ (u64 (offset + len)) (u64 (left - len)) buffer
       end.
Definition readFixSize (fuel : nat) (buffer : list Z) (length_ : Z) : cmd S (Z * list Z) :=
  readFixSize_loop fuel length_ 0 length_ buffer.

Fixpoint readFixSize_ba_loop (fuel : nat) (length_ left : Z) : cmd (S * ByteArray.t) Z :=
  if left =? 0 then ret (s32 length_)
  else match fuel with
       | O => fail OutOfFuel
       | Datatypes.S fuel =>
         let* rt := read_ba left in
         let len := u64 rt in
         if len <=? 0 then ret (s32 len) else readFixSize_ba_loop fuel length_ (u64 (left - len))
       end.
Definition readFixSize_ba (fuel : nat) (length_ : Z) : cmd (S * ByteArray.t) Z :=
  readFixSize_ba_loop fuel length_ length_.

Fixpoint writeFixSize_loop (fuel : nat) (length_ offset left : Z) (buffer : list Z) : cmd S Z :=
  if left =? 0 then ret (s32 length_)
  else match fuel with
       | O => fail OutOfFuel
       | Datatypes.S fuel =>
         require (in_block buffer offset left) ;;;
         let* rt := write (slice (Z.to_nat (place offset)) (Z.to_nat left) buffer) in
         let len := u64 rt in
         if len <=? 0 then ret (s32 len)
         else writeFixSize_loop fuel length_ (u64 (offset + len)) (u64 (left - len)) buffer
       end.
Definition writeFixSize (fuel : nat) (buffer : list Z) (length_ : Z) : cmd S Z :=
  writeFixSize_loop fuel length_ 0 length_ buffer.

Fixpoint writeFixSize_ba_loop (fuel : nat) (length_ left : Z) : cmd (S * ByteArray.t) Z :=
  if left =? 0 then ret (s32 length_)
  else match fuel with
       | O => fail OutOfFuel
       | Datatypes.S fuel =>
         let* rt := write_ba left in
         let len := u64 rt in
         if len <=? 0 then ret (s32 len) else writeFixSize_ba_loop fuel length_ (u64 (left - len))
       end.
Definition writeFixSize_ba (fuel : nat) (length_ : Z) : cmd (S * ByteArray.t) Z :=
  writeFixSize_ba_loop fuel length_ length_.

End fix_size.

(** ** Behaviour *)

Lemma place_id z : 0 <= z < 2 ^ 63 -> place z = z.
Proof. intros H. apply swrap_id; [lia|]. unfold in_s. lia. Qed.

Section behaviour.
Context {S : Type} `{!Stream S}.

(** Reads that each deliver something: from state [s] with [left] bytes to go, [data] arrives, and
    [left'] bytes are still to go in state [s']. *)
Inductive reads : S -> Z -> list Z -> Z -> S -> Prop :=
  | reads_nil s left : reads s left [] left s
  | reads_cons s left bs s1 rest left' s2 :
      0 < left -> read left s = Ok (Z.of_nat (length bs), bs) s1 ->
      bs <> [] -> Z.of_nat (length bs) <= left ->
      reads s1 (left - Z.of_nat (length bs)) rest left' s2 ->
      reads s left (bs ++ rest) left' s2.

(** Writes that each take something of [data]; [rest] is left over. *)
Inductive writes : S -> list Z -> list Z -> S -> Prop :=
  | writes_nil s data : writes s data data s
  | writes_cons s data n s1 rest s2 :
      write data s = Ok n s1 -> 0 < n <= Z.of_nat (length data) ->
      writes s1 (drop (Z.to_nat n) data) rest s2 ->
      writes s data rest s2.

Lemma reads_left s left data left' s' :
  reads s left data left' s' -> 0 <= left -> left' = left - Z.of_nat (length data) /\ 0 <= left'.
Proof.
  induction 1 as [|s left bs s1 rest left' s2 H1 H2 H3 H4 H5 IH]; intros Hl; simpl; [lia|].
  rewrite length_app. destruct IH; lia.
Qed.

(** The loop over reads that deliver. *)
Lemma readFixSize_loop_reads s left data left' s' :
  reads s left data left' s' ->
  forall length_ offset buffer,
  0 <= offset -> offset + left < 2 ^ 63 -> offset + left <= Z.of_nat (length buffer) ->
  exists k, (k <= length data)%nat /\ forall fuel,
    readFixSize_loop (k + fuel) length_ offset left buffer s =
    readFixSize_loop fuel length_ (offset + Z.of_nat (length data)) left'
      (splice (Z.to_nat offset) data buffer) s'.
Proof.
  induction 1 as [s left|s left bs s1 rest left' s2 H1 H2 H3 H4 H5 IH]; intros L offset buffer Ho Hb Hl.
  - exists O. split; [done|]. intros fuel. simpl. by rewrite Z.add_0_r, splice_nil.
  - destruct (IH L (offset + Z.of_nat (length bs)) (splice (Z.to_nat offset) bs buffer)) as (k & Hk & E);
      [lia|lia|rewrite length_splice; lia|].
    exists (Datatypes.S k). split.
    { rewrite length_app. destruct bs; [done|]. simpl. lia. }
    intros fuel. cbn [Nat.add readFixSize_loop]. rewrite (proj2 (Z.eqb_neq left 0)) by lia.
    unfold bind at 1. rewrite H2. cbn [fst snd].
    assert (0 < Z.of_nat (length bs)) by (destruct bs; [done|simpl; lia]).
    rewrite (wrap_id 64 (Z.of_nat (length bs))) by (unfold in_u; lia).
    unfold in_block. rewrite place_id, !(bool_decide_eq_true_2 (_ <= _)) by lia.
    rewrite orb_true_r. unfold bind, require, ret. rewrite (proj2 (Z.leb_gt _ 0)) by lia.
    rewrite !wrap_id by (unfold in_u; lia).
    rewrite bool_decide_eq_false_2 by done. unfold store. rewrite place_id by lia.
    rewrite E. rewrite length_app, Nat2Z.inj_add, Z.add_assoc. f_equal.
    rewrite <- splice_splice by lia. f_equal. lia.
Qed.

(** C38: [readFixSize] collects what the stream delivers: when the reads bring the whole length, it
    returns the length with exactly these bytes in the buffer, in order, the rest of the buffer as it
    was; when the stream ends before, it returns 0.  An error (-1) after no progress is not reported:
    as a [size_t] it counts as progress, and the next bytes are stored before the buffer. *)
Theorem readFixSize_outcome (fuel : nat) (buffer : list Z) (length_ : Z) (data : list Z) (left' : Z) (s s' : S) :
  0 <= length_ < 2 ^ 31 -> length_ <= Z.of_nat (length buffer) -> (Z.to_nat length_ + 1 < fuel)%nat ->
  reads s length_ data left' s' ->
  (left' = 0 ->
    Z.of_nat (length data) = length_ /\
    readFixSize fuel buffer length_ s = Ok (length_, data ++ drop (length data) buffer) s') /\
  (forall s2, left' <> 0 -> read left' s' = Ok (0, []) s2 ->
    readFixSize fuel buffer length_ s = Ok (0, data ++ drop (length data) buffer) s2) /\
  (forall s2 bs s3, left' <> 0 -> data = [] -> read left' s' = Ok (-1, []) s2 ->
    read (left' + 1) s2 = Ok (Z.of_nat (length bs), bs) s3 -> bs <> [] ->
    readFixSize fuel buffer length_ s = Fail_ Undef).
Proof.
  intros HL Hbuf Hf Hr. destruct (reads_left _ _ _ _ _ Hr) as [El Hl']; [lia|].
  destruct (readFixSize_loop_reads _ _ _ _ _ Hr length_ 0 buffer) as (k & Hk & E); [lia..|].
  unfold readFixSize. replace fuel with (k + (fuel - k))%nat by lia. rewrite E.
  replace (splice (Z.to_nat 0) data buffer) with (data ++ drop (length data) buffer) by done.
  assert (exists f, fuel - k = Datatypes.S (Datatypes.S f))%nat as [f ->] by (exists (fuel - k - 2)%nat; lia).
  split_and!.
  - intros ->. split; [lia|]. cbn [readFixSize_loop Z.eqb]. rewrite swrap_id by (lia || (unfold in_s; lia)). done.
  - intros s2 Hne H. cbn [readFixSize_loop]. rewrite (proj2 (Z.eqb_neq left' 0)) by done.
    unfold bind at 1. rewrite H. done.
  - intros s2 bs s3 Hne -> H H' Hbs. cbn [readFixSize_loop].
    rewrite (proj2 (Z.eqb_neq left' 0)) by done. unfold bind at 1. rewrite H. cbn [fst snd].
    change (u64 (-1)) with (2 ^ 64 - 1). cbn [length] in *.
    assert (u64 (0 + Z.of_nat 0 + (2 ^ 64 - 1)) = 2 ^ 64 - 1) as -> by done.
    assert (u64 (left' - (2 ^ 64 - 1)) = left' + 1) as ->.
    { unfold wrap. rewrite <- (Z.mod_add _ 1) by lia. rewrite Z.mod_small by lia. lia. }
    unfold bind at 1, require at 1. cbn [bool_decide orb]. unfold bind at 1.
    change (bool_decide ([] = [])) with true. cbn [orb]. unfold ret at 1.
    rewrite (proj2 (Z.leb_gt (2 ^ 64 - 1) 0)) by lia.
    rewrite (proj2 (Z.eqb_neq (left' + 1) 0)) by lia. rewrite H'. cbn [snd].
    rewrite bool_decide_eq_false_2 by done. unfold in_block.
    assert (place (2 ^ 64 - 1) = -1) as -> by done. done.
Qed.

Lemma writeFixSize_loop_writes s data rest s' :
  writes s data rest s' ->
  forall length_ offset buffer,
  0 <= offset -> offset + Z.of_nat (length data) < 2 ^ 63 ->
  slice (Z.to_nat offset) (length data) buffer = data ->
  offset + Z.of_nat (length data) <= Z.of_nat (length buffer) ->
  exists k, (k <= length data)%nat /\ (length rest <= length data)%nat /\
    let offset' := offset + Z.of_nat (length data - length rest) in
    slice (Z.to_nat offset') (length rest) buffer = rest /\
    forall fuel, writeFixSize_loop (k + fuel) length_ offset (Z.of_nat (length data)) buffer s =
      writeFixSize_loop fuel length_ offset' (Z.of_nat (length rest)) buffer s'.
Proof.
  induction 1 as [s data|s data n s1 rest s2 H1 H2 H3 IH]; intros L offset buffer Ho Hb Hs Hl.
  - exists O. split; [lia|]. split; [done|]. cbv zeta. rewrite Nat.sub_diag, Z.add_0_r. done.
  - assert (length (drop (Z.to_nat n) data) = length data - Z.to_nat n)%nat as Hd by apply length_drop.
    destruct (IH L (offset + n) buffer) as (k & Hk & Hr & Hsl & E); rewrite ?Hd; try lia.
    { rewrite <- Hs at 2. unfold slice.
      replace (length data) with (Z.to_nat n + (length data - Z.to_nat n))%nat at 2 by lia.
      rewrite <- take_drop_commute, drop_drop. do 2 f_equal. lia. }
    cbv zeta in *. rewrite Hd in *.
    replace (offset + n + Z.of_nat (length data - Z.to_nat n - length rest))
      with (offset + Z.of_nat (length data - length rest)) in * by lia.
    exists (Datatypes.S k). split; [lia|]. split; [lia|]. split; [done|].
    intros fuel. cbn [Nat.add writeFixSize_loop].
    rewrite (proj2 (Z.eqb_neq (Z.of_nat (length data)) 0)) by lia.
    unfold in_block. rewrite place_id, !(bool_decide_eq_true_2 (_ <= _)) by lia.
    cbn [andb]. unfold bind at 1, require, ret at 1. rewrite Nat2Z.id, Hs.
    unfold bind at 1. rewrite H1. rewrite (wrap_id 64 n) by (unfold in_u; lia).
    rewrite (proj2 (Z.leb_gt n 0)) by lia. rewrite !wrap_id by (unfold in_u; lia).
    rewrite <- E. f_equal. lia.
Qed.

(** When the stream takes everything. *)
Lemma writeFixSize_all (fuel : nat) (buffer : list Z) (s s' : S) :
  Z.of_nat (length buffer) < 2 ^ 31 -> (length buffer < fuel)%nat -> writes s buffer [] s' ->
  writeFixSize fuel buffer (Z.of_nat (length buffer)) s = Ok (Z.of_nat (length buffer)) s'.
Proof.
  intros HL Hf Hw.
  destruct (writeFixSize_loop_writes _ _ _ _ Hw (Z.of_nat (length buffer)) 0 buffer)
    as (k & Hk & _ & _ & E); [lia|lia|by apply slice_0_all|lia|].
  cbv zeta in *. unfold writeFixSize. replace fuel with (k + (fuel - k))%nat by lia. rewrite E.
  assert (exists f, fuel - k = Datatypes.S f)%nat as [f ->] by (exists (fuel - k - 1)%nat; lia).
  cbn [length writeFixSize_loop Z.eqb Z.of_nat]. rewrite swrap_id by (lia || (unfold in_s; lia)). done.
Qed.

(** [writeFixSize] offers the buffer to the stream in order until it has taken all of it: every
    write is given exactly the bytes not yet taken; when the whole buffer has been taken it returns
    the length, and when a write takes nothing it returns 0. *)
Theorem writeFixSize_outcome (fuel : nat) (buffer : list Z) (rest : list Z) (s s' : S) :
  Z.of_nat (length buffer) < 2 ^ 31 -> (length buffer < fuel)%nat ->
  writes s buffer rest s' ->
  rest = drop (length buffer - length rest) buffer /\
  (rest = [] -> writeFixSize fuel buffer (Z.of_nat (length buffer)) s = Ok (Z.of_nat (length buffer)) s') /\
  (forall s2, rest <> [] -> write rest s' = Ok 0 s2 ->
    writeFixSize fuel buffer (Z.of_nat (length buffer)) s = Ok 0 s2).
Proof.
  intros HL Hf Hw.
  destruct (writeFixSize_loop_writes _ _ _ _ Hw (Z.of_nat (length buffer)) 0 buffer)
    as (k & Hk & Hr & Hs & E); [lia|lia|by apply slice_0_all|lia|].
  cbv zeta in *. rewrite Z.add_0_l in *. unfold writeFixSize.
  assert (exists f, fuel - k = Datatypes.S f)%nat as [f Hf'] by (exists (fuel - k - 1)%nat; lia).
  replace fuel with (k + Datatypes.S f)%nat by lia. rewrite E. rewrite Nat2Z.id in Hs.
  split_and!.
  - rewrite <- Hs at 1. unfold slice. apply take_ge. rewrite length_drop. lia.
  - intros ->. rewrite <- E. replace (k + Datatypes.S f)%nat with fuel by lia. by apply writeFixSize_all.
  - intros s2 Hne H. cbn [writeFixSize_loop].
    rewrite (proj2 (Z.eqb_neq (Z.of_nat (length rest)) 0)) by (destruct rest; [done|simpl; lia]).
    unfold in_block. rewrite place_id, !(bool_decide_eq_true_2 (_ <= _)) by lia.
    cbn [andb]. unfold bind at 1, require, ret at 1. rewrite !Nat2Z.id, Hs.
    unfold bind at 1. by rewrite H.
Qed.
End behaviour.

(** A stream that answers from a script. *)
Definition script : Type := list (Z * list Z).
Definition pop : cmd script (Z * list Z) :=
  fun s => match s with x :: s => Ok x s | [] => Ok (0, []) [] end.
#[global] Instance script_stream : Stream script := {
  read _ := pop;
  write _ := let* r := pop in ret (fst r);
  read_ba _ := fail Undef;
  write_ba _ := fail Undef;
  close := ret tt
}.

Lemma readFixSize_outcome_witness :
  readFixSize 10 [0; 0; 0; 0] 3 ([(2, [7; 8]); (1, [9])] : script) = Ok (3, [7; 8; 9; 0]) [].
Proof.
  apply (readFixSize_outcome 10 [0; 0; 0; 0] 3 ([7; 8] ++ [9] ++ []) 0 ([(2, [7; 8]); (1, [9])] : script) []).
  - lia.
  - simpl. lia.
  - simpl. lia.
  - eapply reads_cons; [lia|done|done|simpl; lia|]. eapply reads_cons; [simpl; lia|done|done|simpl; lia|].
    apply reads_nil.
  - done.
Defined.

Lemma writeFixSize_outcome_witness :
  writeFixSize 10 [7; 8; 9] 3 ([(2, []); (1, [])] : script) = Ok 3 [].
Proof.
  apply (writeFixSize_outcome 10 [7; 8; 9] [] ([(2, []); (1, [])] : script) []).
  - simpl. lia.
  - simpl. lia.
  - eapply writes_cons; [done|simpl; lia|]. eapply writes_cons; [done|simpl; lia|]. apply writes_nil.
  - done.
Defined.

(** An error in the middle is swallowed: the byte that follows overwrites the last one received, and
    the call waits for one byte more than the length. *)
Example error_overwrites :
  readFixSize 10 [0; 0; 0] 3 ([(2, [7; 8]); (-1, []); (2, [1; 2])] : script) = Ok (3, [7; 1; 2]) [].
Proof. by vm_compute. Qed.

End Stream.
