(* ===== verification/SocketStream.v ===== *)
(** * Socket streams: src/src/socket_stream.h, src/src/socket_stream.cpp

    The implementation of the stream interface on a socket.  Reading into and
    writing from a [ByteArray] goes through the buffers the array hands out. *)

From stdpp Require Import prelude.
From Stdlib Require Import ZArith Lia.
From S2P Require Import Prelude ByteArray Socket Stream.

Module SocketStream.
Import Stream.
Local Open Scope Z_scope.

(** The stream with the history of its socket's environment. *)
Record SocketStream := SocketStream_ {
  hist : Socket.history;
  m_socket : option Socket.Socket;
  m_owner : bool
}.
Definition new_SocketStream (h : Socket.history) (sock : option Socket.Socket) (owner : bool) : SocketStream :=
  SocketStream_ h sock owner.

(** [recvmsg] stores the bytes it returns in the buffers, one after the other. *)
Fixpoint scatter (vs : list ByteArray.iovec) (bs : list Z) (ns : list (list Z)) : option (list (list Z)) :=
  match bs, vs with
  | [], _ => Some ns
  | _ :: _, [] => None
  | _ :: _, v :: vs =>
    match ns !! ByteArray.iov_node v with
    | None => None
    | Some d =>
      let x := take (ByteArray.iov_len v) bs in
      scatter vs (drop (ByteArray.iov_len v) bs) (<[ByteArray.iov_node v := splice (ByteArray.iov_base v) x d]> ns)
    end
  end.

Section stream.
Context (kernel : Socket.history -> Socket.syscall -> Socket.answer).
Context (fresh : nat -> nat -> list Z).

Definition isConnected (s : SocketStream) : bool :=
  match m_socket s with Some x => Socket.m_isConnected x | None => false end.

(** A method of [*m_socket]. *)
Definition in_socket {A} (m : Socket.cmd A) : cmd SocketStream A :=
  fun s => match m_socket s with
           | None => Fail_ Undef
           | Some x => match m (hist s, x) with
                       | Ok a (h, x') => Ok a (SocketStream_ h (Some x') (m_owner s))
                       | Throw e (h, x') => Throw e (SocketStream_ h (Some x') (m_owner s))
                       | Fail_ f => Fail_ f
                       end
           end.
Definition on_stream {A} (m : cmd SocketStream A) : cmd (SocketStream * ByteArray.t) A :=
  fun s => match m s.1 with
           | Ok a x => Ok a (x, s.2)
           | Throw e x => Throw e (x, s.2)
           | Fail_ f => Fail_ f
           end.
Definition on_ba {A} (m : cmd ByteArray.t A) : cmd (SocketStream * ByteArray.t) A :=
  fun s => match m s.2 with
           | Ok a x => Ok a (s.1, x)
           | Throw e x => Throw e (s.1, x)
           | Fail_ f => Fail_ f
           end.

Definition read_ (length_ : Z) : cmd SocketStream (Z * list Z) :=
  let* c := gets isConnected in
  if c then in_socket (Socket.recv kernel length_ 0) else ret (-1, []).

(** [ba->position(ba->position() + rt)] when [rt > 0]. *)
Definition advance (rt : Z) : cmd (SocketStream * ByteArray.t) Z :=
  (if 0 <? rt then
     let* pos := on_ba (gets ByteArray.m_pos) in on_ba (ByteArray.position (pos + Z.to_nat rt))
   else ret tt) ;;;
  ret rt.
(** [&iovs[0]] of an empty vector is undefined. *)
Definition read_ba_ (length_ : Z) : cmd (SocketStream * ByteArray.t) Z :=
  let* c := on_stream (gets isConnected) in
  if negb c then ret (-1)
  else
    let* r := on_ba (ByteArray.getWriteBuffers fresh (Z.to_nat length_)) in
    let iovs := snd r in
    require (negb (bool_decide (length iovs = 0%nat))) ;;;
    let* a := on_stream (in_socket (Socket.recv_iov kernel ((fun v => Z.of_nat (ByteArray.iov_len v)) <$> iovs) 0)) in
    on_ba (fun b => match scatter iovs (snd a) (ByteArray.m_nodes b) with
                    | Some ns => Ok tt (ByteArray.set_nodes ns b)
                    | None => Fail_ Undef
                    end) ;;;
    advance (fst a).

Definition write_ (buffer : list Z) : cmd SocketStream Z :=
  let* c := gets isConnected in
  if c then in_socket (Socket.send kernel buffer 0) else ret (-1).

Definition write_ba_ (length_ : Z) : cmd (SocketStream * ByteArray.t) Z :=
  let* c := on_stream (gets isConnected) in
  if negb c then ret (-1)
  else
    let* r := on_ba (ByteArray.getReadBuffers (Z.to_nat length_)) in
    let iovs := snd r in
    require (negb (bool_decide (length iovs = 0%nat))) ;;;
    let* bufs := on_ba (gets (fun b => ByteArray.iov_bytes b <$> iovs)) in
    let* rt := on_stream (in_socket (Socket.send_iov kernel bufs 0)) in
    advance rt.

Definition close_ : cmd SocketStream unit :=
  let* s := gets m_socket in
  match s with
  | Some _ => in_socket (Socket.close kernel) ;;; ret tt
  | None => ret tt
  end.
(** The destructor tests [m_socket] twice and not [m_owner]. *)
Definition destroy : cmd SocketStream unit := close_.

#[global] Instance socket_stream : Stream SocketStream := {
  read := read_;
  write := write_;
  read_ba := read_ba_;
  write_ba := write_ba_;
  close := close_
}.

(** ** Behaviour *)

(** A connected stream. *)
Definition connected (s : SocketStream) (x : Socket.Socket) : Prop :=
  m_socket s = Some x /\ Socket.m_isConnected x = true.

Definition after (s : SocketStream) (c : Socket.syscall) : SocketStream :=
  SocketStream_ (hist s ++ [(c, kernel (hist s) c)]) (m_socket s) (m_owner s).

Lemma in_socket_if_connected s x (c : Z -> Socket.syscall) :
  connected s x ->
  let a := kernel (hist s) (c (Socket.m_sock x)) in
  in_socket (Socket.if_connected kernel c) s = Ok (s32 (Socket.rt a), Socket.data a) (after s (c (Socket.m_sock x))).
Proof.
  intros [Hs Hc] a. unfold in_socket. rewrite Hs.
  unfold Socket.if_connected, bind, Socket.self, gets, id. simpl. rewrite Hc. simpl.
  unfold after. by rewrite Hs.
Qed.

Lemma in_socket_fmap {A B} (m : Socket.cmd A) (f : A -> B) s :
  in_socket (let* r := m in ret (f r)) s =
  match in_socket m s with Ok a s' => Ok (f a) s' | Throw e s' => Throw e s' | Fail_ x => Fail_ x end.
Proof. unfold in_socket, bind, ret. destruct (m_socket s); [|done]. by destruct (m _) as [a [h y]|e [h y]|]. Qed.

(** A buffer lies inside a node of a chain of [n] nodes of [base] bytes. *)
Definition fits (base n : nat) (v : ByteArray.iovec) : Prop :=
  (ByteArray.iov_node v < n)%nat /\ (0 < ByteArray.iov_len v)%nat /\
  (ByteArray.iov_base v + ByteArray.iov_len v <= base)%nat.

Lemma scatter_spec base vs : forall p bs (ns : list (list Z)),
  blocks base ns -> ByteArray.contiguous base p vs -> Forall (fits base (length ns)) vs ->
  (length bs <= ByteArray.iov_total vs)%nat ->
  exists ns', scatter vs bs ns = Some ns' /\ concat ns' = splice p bs (concat ns) /\ blocks base ns' /\
    length ns' = length ns.
Proof.
  induction vs as [|v vs IH]; intros p bs ns Hb Hc Hf Hl.
  { destruct bs; [|simpl in Hl; unfold ByteArray.iov_total in Hl; simpl in Hl; lia].
    exists ns. by rewrite splice_nil. }
  destruct bs as [|y bs]; [exists ns; by rewrite splice_nil|].
  apply Forall_cons in Hf as [(Hn & Hpos & Hfit) Hf]. destruct Hc as [Hp Hc].
  destruct (lookup_lt_is_Some_2 ns (ByteArray.iov_node v) Hn) as [d Hd].
  set (l := y :: bs) in *. cbn [scatter]. change (scatter (v :: vs) l ns) with
    (match ns !! ByteArray.iov_node v with
     | None => None
     | Some d => scatter vs (drop (ByteArray.iov_len v) l)
         (<[ByteArray.iov_node v := splice (ByteArray.iov_base v) (take (ByteArray.iov_len v) l) d]> ns)
     end).
  rewrite Hd. pose proof (length_take l (ByteArray.iov_len v)) as Ht.
  destruct (splice_blocks base ns (ByteArray.iov_node v) d (ByteArray.iov_base v) (take (ByteArray.iov_len v) l))
    as [E Hb']; [done|done|lia|].
  destruct (IH (p + ByteArray.iov_len v)%nat (drop (ByteArray.iov_len v) l) _ Hb') as (ns' & -> & E' & Hb'' & Hn').
  - done.
  - by rewrite length_insert.
  - rewrite length_drop. unfold ByteArray.iov_total in *. cbn [fmap list_fmap sum_list] in Hl. simpl in Hl. simpl. lia.
  - exists ns'. rewrite length_insert in Hn'. split_and!; try done. rewrite E', E, Hp.
    rewrite <- (take_drop (ByteArray.iov_len v) l) at 3.
    destruct (decide (ByteArray.iov_len v <= length l)%nat) as [Hle|Hgt].
    + rewrite <- splice_splice; [by rewrite Ht, Nat.min_l|].
      rewrite (length_concat_blocks base) by done. nia.
    + rewrite (drop_ge l) by lia. by rewrite splice_nil, app_nil_r.
Qed.

Lemma iov_ok_fits b v : ByteArray.wf b -> ByteArray.iov_ok b v ->
  fits (ByteArray.m_base_size b) (length (ByteArray.m_nodes b)) v.
Proof.
  intros Hwf (d & Hd & Hl & Hf). split_and!; [by eapply lookup_lt_Some|done|].
  by rewrite <- (blocks_lookup _ _ _ _ (ByteArray.wf_blocks b Hwf) Hd).
Qed.

Context (fresh_length : forall k n, length (fresh k n) = n).

Lemma contents_grow b ns b' :
  ByteArray.wf b -> ByteArray.m_nodes b' = ByteArray.m_nodes b ++ ns -> ByteArray.m_size b' = ByteArray.m_size b ->
  ByteArray.contents b' = ByteArray.contents b.
Proof.
  intros Hwf En Es. unfold ByteArray.contents, ByteArray.mem. rewrite En, Es, concat_app, take_app_le; [done|].
  change (concat (ByteArray.m_nodes b)) with (ByteArray.mem b).
  rewrite (ByteArray.length_mem b Hwf). apply Hwf.
Qed.

(** The buffers for writing: room for [n] bytes from the position on. *)
Lemma getWriteBuffers_spec n b :
  ByteArray.wf b -> (0 < n)%nat -> ByteArray.grows_enough b n ->
  exists vs b1, ByteArray.getWriteBuffers fresh n b = Ok (n, vs) b1 /\ ByteArray.wf b1 /\
    ByteArray.contents b1 = ByteArray.contents b /\ ByteArray.m_pos b1 = ByteArray.m_pos b /\
    ByteArray.m_size b1 = ByteArray.m_size b /\ ByteArray.m_base_size b1 = ByteArray.m_base_size b /\
    ByteArray.m_endian b1 = ByteArray.m_endian b /\ (ByteArray.m_capacity b <= ByteArray.m_capacity b1)%nat /\
    (ByteArray.m_pos b1 + n <= ByteArray.m_capacity b1)%nat /\
    ByteArray.iov_total vs = n /\ ByteArray.contiguous (ByteArray.m_base_size b1) (ByteArray.m_pos b1) vs /\
    Forall (fits (ByteArray.m_base_size b1) (length (ByteArray.m_nodes b1))) vs.
Proof.
  intros Hwf Hn Hg. destruct (ByteArray.addCapacity_spec fresh fresh_length n b Hwf Hn) as (count & E & Hwf1 & Hge).
  revert E Hwf1 Hge. cbv zeta. set (b1 := ByteArray.mk _ _ _ _ _ _ _). intros E Hwf1 Hge.
  pose proof (proj1 Hge Hg) as Hroom. pose proof (ByteArray.wf_chain b1 Hwf1) as Hok.
  pose proof (ByteArray.wf_limit b1 Hwf1) as Hlim. change (ByteArray.m_pos b) with (ByteArray.m_pos b1) in Hroom.
  destruct (ByteArray.iov_loop_contiguous (S n) [] n (ByteArray.m_pos b1 mod ByteArray.m_base_size b1)
    (ByteArray.m_base_size b1 - ByteArray.m_pos b1 mod ByteArray.m_base_size b1) (ByteArray.m_pos b1) b1)
    as (vs & Ei & _ & Ht & Hv & Hc); [done|lia|done|lia|].
  exists vs, b1. split_and!; try done.
  - unfold ByteArray.getWriteBuffers. rewrite decide_False by lia. unfold bind at 1. rewrite E.
    unfold bind at 1, gets at 1. unfold bind at 1. rewrite ByteArray.base_mod_ok by apply Hok.
    unfold bind at 1. rewrite ByteArray.cur_size_at by (done || lia).
    unfold bind at 1, gets at 1. unfold bind at 1. rewrite (ByteArray.ch_cur b1 Hok). by rewrite Ei.
  - by eapply contents_grow.
  - simpl. lia.
  - eapply Forall_impl; [exact Hv|]. intros v. by apply iov_ok_fits.
Qed.

(** Where [addCapacity] has reserved too little they run past the chain. *)
Lemma getWriteBuffers_overrun n b :
  ByteArray.wf b -> (0 < n)%nat -> ~ ByteArray.grows_enough b n -> ByteArray.getWriteBuffers fresh n b = Fail_ Undef.
Proof.
  intros Hwf Hn Hg. destruct (ByteArray.addCapacity_spec fresh fresh_length n b Hwf Hn) as (count & E & Hwf1 & Hge).
  revert E Hwf1 Hge. cbv zeta. set (b1 := ByteArray.mk _ _ _ _ _ _ _). intros E Hwf1 Hge.
  assert (ByteArray.m_capacity b1 < ByteArray.m_pos b1 + n)%nat as Hover.
  { apply Nat.nle_gt. intros H. apply Hg, Hge. exact H. }
  assert (ByteArray.m_pos b1 < ByteArray.m_capacity b1)%nat as Hp.
  { unfold ByteArray.grows_enough, ByteArray.getCapacity in Hg. pose proof (ByteArray.wf_pos b Hwf). cbn in *. lia. }
  pose proof (ByteArray.wf_chain b1 Hwf1) as Hok. pose proof (ByteArray.wf_limit b1 Hwf1) as Hlim.
  unfold ByteArray.getWriteBuffers. rewrite decide_False by lia. unfold bind at 1. rewrite E.
  unfold bind at 1, gets at 1. unfold bind at 1. rewrite ByteArray.base_mod_ok by apply Hok.
  unfold bind at 1. rewrite ByteArray.cur_size_at by (done || lia).
  unfold bind at 1, gets at 1. unfold bind at 1. rewrite (ByteArray.ch_cur b1 Hok).
  by rewrite (ByteArray.iov_loop_overrun (S n) [] n (ByteArray.m_pos b1) b1) by (done || lia).
Qed.

(** What is documented of [recvmsg] and [sendmsg]: -1, or the number of bytes transferred. *)
Definition recvmsg_ok : Prop := forall h fd lens name flags,
  let a := kernel h (Socket.Sys_recvmsg fd lens name flags) in
  (Socket.rt a = -1 /\ Socket.data a = []) \/
  (Socket.rt a = Z.of_nat (length (Socket.data a)) /\ Socket.rt a <= foldr Z.add 0 lens /\ Socket.rt a < 2 ^ 31).
Definition sendmsg_ok : Prop := forall h fd iov name flags,
  let a := kernel h (Socket.Sys_sendmsg fd iov name flags) in
  -1 <= Socket.rt a <= Z.of_nat (length (concat iov)) /\ Socket.rt a < 2 ^ 31.

Lemma sum_lens vs : foldr Z.add 0 ((fun v => Z.of_nat (ByteArray.iov_len v)) <$> vs) = Z.of_nat (ByteArray.iov_total vs).
Proof.
  unfold ByteArray.iov_total. induction vs as [|v vs IH]; [done|].
  rewrite !fmap_cons. cbn [foldr]. rewrite IH. cbn. lia.
Qed.

Lemma advance_ok s b rt :
  ByteArray.wf b -> -1 <= rt -> Z.of_nat (ByteArray.m_pos b) + rt <= Z.of_nat (ByteArray.m_capacity b) ->
  exists b', advance rt (s, b) = Ok rt (s, b') /\ ByteArray.wf b' /\
    ByteArray.m_pos b' = (ByteArray.m_pos b + Z.to_nat rt)%nat /\
    ByteArray.m_size b' = (ByteArray.m_size b `max` (ByteArray.m_pos b + Z.to_nat rt))%nat /\
    ByteArray.m_nodes b' = ByteArray.m_nodes b /\ ByteArray.m_base_size b' = ByteArray.m_base_size b /\
    ByteArray.m_endian b' = ByteArray.m_endian b /\ ByteArray.m_capacity b' = ByteArray.m_capacity b.
Proof.
  intros Hwf Hrt Hc. pose proof (ByteArray.wf_pos b Hwf). unfold advance. destruct (Z.ltb_spec 0 rt) as [Hp|Hp].
  - destruct (ByteArray.position_spec (ByteArray.m_pos b + Z.to_nat rt) b Hwf) as [_ H2].
    destruct H2 as [E Hwf']; [lia|]. eexists. unfold bind at 1 2, on_ba, gets. simpl. rewrite E.
    split_and!; done || simpl; lia.
  - exists b. replace (Z.to_nat rt) with 0%nat by lia. split_and!; done || lia.
Qed.

Lemma read_ba_undef s x b n :
  connected s x -> ByteArray.wf b -> ~ ((0 < n)%nat /\ ByteArray.grows_enough b n) ->
  read_ba_ (Z.of_nat n) (s, b) = Fail_ Undef.
Proof.
  intros [Hs1 Hs2] Hwf Hd. unfold read_ba_, bind at 1, on_stream at 1, gets at 1. simpl.
  unfold isConnected. rewrite Hs1, Hs2. simpl. rewrite Nat2Z.id. unfold bind at 1, on_ba at 1. simpl.
  destruct (decide (n = 0%nat)) as [->|Hn]; [done|].
  rewrite getWriteBuffers_overrun; [done|done|lia|]. intros Hg. apply Hd. split; [lia|done].
Qed.

(** C30: reading [n] bytes from a connected socket stream into a [ByteArray].  When [n] is not 0 and
    [addCapacity] reserves enough for them (it does not always, see [grows_enough]: not for five bytes
    into a fresh array with nodes of four, [read_overruns]), the received bytes are stored exactly at the array's
    position, as [write] of these bytes would, which advances by their number; on an error the result
    is -1 and the bytes, position and size of the array are unchanged; one [recvmsg] is made, for the
    number of bytes asked for.  Otherwise the call is undefined: it follows the null pointer at the end
    of the chain, or takes the first element of an empty vector. *)
Theorem read_ba_outcome (s : SocketStream) (x : Socket.Socket) (b : ByteArray.t) (n : nat) :
  recvmsg_ok -> connected s x -> ByteArray.wf b ->
  if decide ((0 < n)%nat /\ ByteArray.grows_enough b n) then exists lens b',
    let c := Socket.Sys_recvmsg (Socket.m_sock x) lens None 0 in
    let a := kernel (hist s) c in
    foldr Z.add 0 lens = Z.of_nat n /\
    read_ba_ (Z.of_nat n) (s, b) = Ok (Socket.rt a) (after s c, b') /\
    ByteArray.written b b' (Socket.data a)
  else read_ba_ (Z.of_nat n) (s, b) = Fail_ Undef.
Proof.
  intros Hk Hs Hwf. case_decide as Hd; [destruct Hd as [Hn Hg]|by eapply read_ba_undef].
  destruct (getWriteBuffers_spec n b Hwf Hn Hg)
    as (vs & b1 & E & Hwf1 & Ec & Ep & Es & Eb & Ee & Ecap & Hroom & Ht & Hct & Hf).
  exists ((fun v => Z.of_nat (ByteArray.iov_len v)) <$> vs).
  set (c := Socket.Sys_recvmsg _ _ _ _). set (a := kernel (hist s) c).
  specialize (Hk (hist s) (Socket.m_sock x) ((fun v => Z.of_nat (ByteArray.iov_len v)) <$> vs) None 0).
  cbv zeta in Hk. fold c a in Hk. rewrite sum_lens, Ht in Hk.
  assert (length (Socket.data a) <= n)%nat as Hdata.
  { destruct Hk as [[_ ->]|(? & ? & ?)]; simpl; lia. }
  assert (s32 (Socket.rt a) = Socket.rt a) as Hrt by (apply swrap_id; [lia|unfold in_s; lia]).
  destruct (scatter_spec _ vs (ByteArray.m_pos b1) (Socket.data a) (ByteArray.m_nodes b1)
    (ByteArray.wf_blocks b1 Hwf1) Hct Hf) as (ns & Esc & Ens & Hbl & Hlen); [lia|].
  assert (ByteArray.wf (ByteArray.set_nodes ns b1)) as Hwf2.
  { destruct Hwf1. constructor; simpl; try done; [|by rewrite Hlen..]. intros ->. by destruct (ByteArray.m_nodes b1). }
  destruct (advance_ok (after s c) (ByteArray.set_nodes ns b1) (Socket.rt a) Hwf2)
    as (b' & Ea & Hwf' & Ep' & Es' & En' & Eb' & Ee' & Ecap'); [lia|simpl; lia|].
  assert (Z.to_nat (Socket.rt a) = length (Socket.data a)) as Hlen' by (destruct Hk as [[-> ->]|(-> & _)]; simpl; lia).
  exists b'. cbv zeta. split_and!; [by rewrite sum_lens, Ht| |].
  - unfold read_ba_, bind at 1, on_stream at 1, gets at 1. simpl. destruct Hs as [Hs1 Hs2].
    unfold isConnected. rewrite Hs1, Hs2. simpl. rewrite Nat2Z.id.
    unfold bind at 1, on_ba at 1. simpl. rewrite E.
    assert (length vs <> 0%nat) as Hvs by (destruct vs; [unfold ByteArray.iov_total in Ht; simpl in Ht; lia|done]).
    unfold bind at 1. rewrite bool_decide_eq_false_2 by done. simpl. unfold bind at 1, on_stream at 1. simpl.
    unfold Socket.recv_iov. rewrite (in_socket_if_connected s x (fun fd => Socket.Sys_recvmsg fd _ None 0)) by done.
    fold c a. unfold bind at 1, on_ba at 1. simpl. rewrite Esc, Hrt. exact Ea.
  - fold a. cbn [ByteArray.m_pos ByteArray.m_size ByteArray.set_nodes] in *.
    split_and!; try done; try lia; try (simpl in *; congruence || lia).
    rewrite <- Ec. unfold ByteArray.contents, ByteArray.mem. rewrite En', Es'. cbn [ByteArray.m_nodes ByteArray.set_nodes].
    pose proof (ByteArray.length_mem b1 Hwf1) as Hm. unfold ByteArray.mem in Hm.
    pose proof (ByteArray.wf_size b1 Hwf1). pose proof (ByteArray.wf_pos b1 Hwf1).
    rewrite Ens, Hlen', <- Ep. apply take_splice_max; lia.
Qed.

(** Writing from a [ByteArray] to a connected socket stream offers exactly the unread bytes, up to
    the number asked for, to one [sendmsg], and advances the position of the array by the number of bytes
    sent; on an error nothing moves.  The bytes of the array do not change. *)
Theorem write_ba_outcome (s : SocketStream) (x : Socket.Socket) (b : ByteArray.t) (n : nat) :
  sendmsg_ok -> connected s x -> ByteArray.wf b -> (0 < n)%nat -> (0 < ByteArray.getReadSize b)%nat ->
  exists bufs b',
    let c := Socket.Sys_sendmsg (Socket.m_sock x) bufs None 0 in
    let rt := Socket.rt (kernel (hist s) c) in
    concat bufs = slice (ByteArray.m_pos b) (n `min` ByteArray.getReadSize b) (ByteArray.contents b) /\
    write_ba_ (Z.of_nat n) (s, b) = Ok rt (after s c, b') /\
    ByteArray.wf b' /\ ByteArray.contents b' = ByteArray.contents b /\
    ByteArray.m_pos b' = (ByteArray.m_pos b + Z.to_nat rt)%nat /\ ByteArray.m_size b' = ByteArray.m_size b.
Proof.
  intros Hk Hs Hwf Hn Hr. destruct (ByteArray.getReadBuffers_spec n b Hwf) as (vs & E & Hg & Ht & _).
  exists (ByteArray.iov_bytes b <$> vs). set (c := Socket.Sys_sendmsg _ _ _ _). set (rt := Socket.rt (kernel (hist s) c)).
  pose proof (ByteArray.wf_pos b Hwf) as Hpos. pose proof (ByteArray.wf_size b Hwf) as Hsize.
  assert (-1 <= rt <= Z.of_nat (n `min` ByteArray.getReadSize b) /\ rt < 2 ^ 31) as [Hrt Hrt'].
  { specialize (Hk (hist s) (Socket.m_sock x) (ByteArray.iov_bytes b <$> vs) None 0). cbv zeta in Hk.
    fold c rt in Hk. fold (ByteArray.gather b vs) in Hk. rewrite Hg, length_slice in Hk; [done|].
    rewrite ByteArray.length_contents by done. unfold ByteArray.getReadSize. lia. }
  unfold ByteArray.getReadSize in *.
  destruct (advance_ok (after s c) b rt Hwf) as (b' & Ea & Hwf' & Ep & Es & En & _); [lia|lia|].
  exists b'. cbv zeta. split_and!; try done.
  - unfold write_ba_, bind at 1, on_stream at 1, gets at 1. simpl. destruct Hs as [Hs1 Hs2].
    unfold isConnected. rewrite Hs1, Hs2. simpl. rewrite Nat2Z.id.
    unfold bind at 1, on_ba at 1. simpl. rewrite E.
    assert (length vs <> 0%nat) as Hvs by (destruct vs; [unfold ByteArray.iov_total in Ht; simpl in Ht; lia|done]).
    unfold bind at 1. rewrite bool_decide_eq_false_2 by done. simpl. unfold bind at 1, on_ba at 1, gets at 1. simpl.
    unfold bind at 1, on_stream at 1. simpl. unfold Socket.send_iov.
    rewrite in_socket_fmap.
    rewrite (in_socket_if_connected s x (fun fd => Socket.Sys_sendmsg fd _ None 0)) by done. fold c. simpl. fold rt.
    rewrite swrap_id by (lia || (unfold in_s; lia)).
    exact Ea.
  - unfold ByteArray.contents, ByteArray.mem. rewrite En, Es. f_equal. lia.
  - lia.
Qed.

End stream.

(** A peer that sends the byte 7 and takes one byte at a time. *)
Definition slow_peer (_ : Socket.history) (c : Socket.syscall) : Socket.answer :=
  match c with
  | Socket.Sys_recvmsg _ lens _ _ =>
    if 1 <=? foldr Z.add 0 lens then Socket.Answer 1 [7] 0 None else Socket.plain_answer (-1)
  | Socket.Sys_sendmsg _ iov _ _ => Socket.plain_answer (if bool_decide (concat iov = []) then 0 else 1)
  | _ => Socket.plain_answer 0
  end.
Definition ex_socket : Socket.Socket := Socket.Socket_ 5 2 1 0 true None None.
Definition ex_stream : SocketStream := new_SocketStream [] (Some ex_socket) true.

Lemma slow_peer_recvmsg : recvmsg_ok slow_peer.
Proof.
  intros h fd lens name flags. simpl. destruct (Z.leb_spec 1 (foldr Z.add 0 lens)); simpl; [right|left]; lia || done.
Qed.
Lemma slow_peer_sendmsg : sendmsg_ok slow_peer.
Proof. intros h fd iov name flags. simpl. case_bool_decide; simpl; [lia|]. destruct (concat iov); [done|simpl; lia]. Qed.

Lemma read_ba_outcome_witness :
  exists b', ByteArray.written ByteArray.sample b' [7] /\
    exists s', read_ba_ slow_peer ByteArray.zero_fresh 2 (ex_stream, ByteArray.sample) = Ok 1 (s', b').
Proof.
  pose proof (read_ba_outcome slow_peer ByteArray.zero_fresh (fun _ n => length_replicate n 0) ex_stream ex_socket
    ByteArray.sample 2 slow_peer_recvmsg (conj eq_refl eq_refl) ByteArray.sample_wf) as H.
  rewrite decide_True in H by (split; [lia|apply ByteArray.grows_enough_room; vm_compute; lia]).
  destruct H as (lens & b' & Hl & E & Hw).
  cbv zeta in *. unfold slow_peer at 2 in E. unfold slow_peer in Hw. rewrite Hl in E, Hw.
  exists b'. split; [exact Hw|]. eexists. exact E.
Defined.

(** Reading a few bytes more than a fresh array holds. *)
Example read_overruns :
  read_ba_ slow_peer ByteArray.zero_fresh 5 (ex_stream, ByteArray.ByteArray ByteArray.zero_fresh 4) = Fail_ Undef.
Proof. by vm_compute. Qed.

Lemma write_ba_outcome_witness :
  exists rt s' b',
    write_ba_ slow_peer 2 (ex_stream, ByteArray.sample) = Ok rt (s', b') /\
    ByteArray.m_size b' = ByteArray.m_size ByteArray.sample.
Proof.
  destruct (write_ba_outcome slow_peer ex_stream ex_socket ByteArray.sample 2 slow_peer_sendmsg
    (conj eq_refl eq_refl) ByteArray.sample_wf ltac:(lia)) as (bufs & b' & _ & E & _ & _ & _ & Hs).
  - vm_compute. lia.
  - eexists _, _, b'. split; [exact E|exact Hs].
Defined.

(** With nothing to read [write] takes the address of an element of an empty vector. *)
Example write_nothing :
  write_ba_ slow_peer 2 (ex_stream, ByteArray.ByteArray ByteArray.zero_fresh 4) = Fail_ Undef.
Proof. by vm_compute. Qed.

(** A stream that does not own its socket closes it all the same. *)
Example not_owner_closes :
  match destroy slow_peer (new_SocketStream [] (Some ex_socket) false) with
  | Ok _ s => hist s = [(Socket.Sys_close 5, Socket.plain_answer 0)]
  | _ => False
  end.
Proof. by vm_compute. Qed.

End SocketStream.
