(* ===== verification/Http.v ===== *)
(** * HTTP messages: src/src/http/http.h, src/src/http/http.cpp

    Strings are Rocq strings.  The C functions the code calls on [c_str()]
    ([strcmp], [strncmp], [strcasecmp]) see a string up to its first NUL.  A
    [std::map] with the case-insensitive order is the list of its entries in that
    order.  [boost::lexical_cast] is a parameter. *)

From stdpp Require Import prelude strings sorting.
From Stdlib Require Import ZArith Lia Ascii.
From S2P Require Import Prelude Text.

Module Http.
Import Text.
Local Open Scope string_scope.
Local Open Scope Z_scope.

Inductive http_method :=
  | DELETE | GET | HEAD | POST | PUT | CONNECT | OPTIONS | TRACE | COPY | LOCK | MKCOL | MOVE
  | PROPFIND | PROPPATCH | SEARCH | UNLOCK | BIND | REBIND | UNBIND | ACL | REPORT | MKACTIVITY
  | CHECKOUT | MERGE | MSEARCH | NOTIFY | SUBSCRIBE | UNSUBSCRIBE | PATCH | PURGE | MKCALENDAR
  | LINK | UNLINK | SOURCE | INVALID_METHOD.
#[global] Instance http_method_eq_dec : EqDecision http_method.
Proof. solve_decision. Defined.

(** The macro [HTTP_METHOD_MAP]: number, enumerator, and the text that [#string]
    makes of the third argument. *)
Definition HTTP_METHOD_MAP : list (Z * http_method * string) :=
  [(0, DELETE, "DELETE");
   (1, GET, "GET");
   (2, HEAD, "HEAD");
   (3, POST, "POST");
   (4, PUT, "PUT");
   (5, CONNECT, "CONNECT");
   (6, OPTIONS, "OPTIONS");
   (7, TRACE, "TRACE");
   (8, COPY, "COPY");
   (9, LOCK, "LOCK");
   (10, MKCOL, "MKCOL");
   (11, MOVE, "MOVE");
   (12, PROPFIND, "PROPFIND");
   (13, PROPPATCH, "PROPPATCH");
   (14, SEARCH, "SEARCH");
   (15, UNLOCK, "UNLOCK");
   (16, BIND, "BIND");
   (17, REBIND, "REBIND");
   (18, UNBIND, "UNBIND");
   (19, ACL, "ACL");
   (20, REPORT, "REPORT");
   (21, MKACTIVITY, "MKACTIVITY");
   (22, CHECKOUT, "CHECKOUT");
   (23, MERGE, "MERGE");
   (24, MSEARCH, "M - SEARCH");
   (25, NOTIFY, "NOTIFY");
   (26, SUBSCRIBE, "SUBSCRIBE");
   (27, UNSUBSCRIBE, "UNSUBSCRIBE");
   (28, PATCH, "PATCH");
   (29, PURGE, "PURGE");
   (30, MKCALENDAR, "MKCALENDAR");
   (31, LINK, "LINK");
   (32, UNLINK, "UNLINK");
   (33, SOURCE, "SOURCE")].

(** The macro [HTTP_STATUS_MAP]; an [http_status] is its number, since
    [(http_status)atoi(at)] makes any. *)
Definition HTTP_STATUS_MAP : list (Z * string) :=
  [(100, "Continue");
   (101, "Switching Protocols");
   (102, "Processing");
   (200, "OK");
   (201, "Created");
   (202, "Accepted");
   (203, "Non - Authoritative Information");
   (204, "No Content");
   (205, "Reset Content");
   (206, "Partial Content");
   (207, "Multi - Status");
   (208, "Already Reported");
   (226, "IM Used");
   (300, "Multiple Choices");
   (301, "Moved Permanently");
   (302, "Found");
   (303, "See Other");
   (304, "Not Modified");
   (305, "Use Proxy");
   (307, "Temporary Redirect");
   (308, "Permanent Redirect");
   (400, "Bad Request");
   (401, "Unauthorized");
   (402, "Payment Required");
   (403, "Forbidden");
   (404, "Not Found");
   (405, "Method Not Allowed");
   (406, "Not Acceptable");
   (407, "Proxy Authentication Required");
   (408, "Request Timeout");
   (409, "Conflict");
   (410, "Gone");
   (411, "Length Required");
   (412, "Precondition Failed");
   (413, "Payload Too Large");
   (414, "URI Too Long");
   (415, "Unsupported Media Type");
   (416, "Range Not Satisfiable");
   (417, "Expectation Failed");
   (421, "Misdirected Request");
   (422, "Unprocessable Entity");
   (423, "Locked");
   (424, "Failed Dependency");
   (426, "Upgrade Required");
   (428, "Precondition Required");
   (429, "Too Many Requests");
   (431, "Request Header Fields Too Large");
   (451, "Unavailable For Legal Reasons");
   (500, "Internal Server Error");
   (501, "Not Implemented");
   (502, "Bad Gateway");
   (503, "Service Unavailable");
   (504, "Gateway Timeout");
   (505, "HTTP Version Not Supported");
   (506, "Variant Also Negotiates");
   (507, "Insufficient Storage");
   (508, "Loop Detected");
   (510, "Not Extended");
   (511, "Network Authentication Required")].

(** ** C strings *)

Definition tolower (z : Z) : Z := if (65 <=? z) && (z <=? 90) then z + 32 else z.

(** [strcmp(s, t) == 0], [strncmp(s, t, n) == 0] and [strcasecmp] on characters
    before the NUL. *)
Definition strcmp_eq (s t : string) : bool := bool_decide (c_str s = c_str t).
Definition strncmp_eq (s t : string) (n : nat) : bool :=
  bool_decide (take n (c_str s) = take n (c_str t)).
Fixpoint casecmp (a b : list Z) : Z :=
  match a, b with
  | [], [] => 0
  | [], y :: _ => - tolower y
  | x :: _, [] => tolower x
  | x :: a, y :: b => if tolower x =? tolower y then casecmp a b else tolower x - tolower y
  end.
Definition strcasecmp (s t : string) : Z := casecmp (c_str s) (c_str t).

(** ** Methods and statuses *)

Definition method_text (e : Z * http_method * string) : string := e.2.
Definition method_of (e : Z * http_method * string) : http_method := e.1.2.

Definition string_to_http_method (v : string) : http_method :=
  match List.find (fun e => strcmp_eq (method_text e) v) HTTP_METHOD_MAP with
  | Some e => method_of e
  | None => INVALID_METHOD
  end.
Definition chars_to_http_methd (v : string) : http_method :=
  match List.find (fun e => strncmp_eq (method_text e) v (String.length (method_text e))) HTTP_METHOD_MAP with
  | Some e => method_of e
  | None => INVALID_METHOD
  end.
(** The number of an enumerator. *)
Definition method_num (m : http_method) : Z :=
  match List.find (fun e => bool_decide (method_of e = m)) HTTP_METHOD_MAP with
  | Some e => e.1.1
  | None => Z.of_nat (length HTTP_METHOD_MAP)
  end.
Definition s_method_string : list string := method_text <$> HTTP_METHOD_MAP.
Definition http_method_to_chars (v : http_method) : string :=
  let index := method_num v in
  if Z.of_nat (length s_method_string) <=? index then "<unknow>"
  else default "<unknow>" (s_method_string !! Z.to_nat index).
Definition http_status_to_chars (v : Z) : string :=
  match List.find (fun e => e.1 =? v) HTTP_STATUS_MAP with
  | Some e => e.2
  | None => "<unknow>"
  end.

(** ** Case-insensitive maps *)

Definition CaseInsensitiveLess (lhs rhs : string) : bool := strcasecmp lhs rhs <? 0.
Definition MapType : Type := list (string * string).

(** [find], [operator[]] with an assignment (an equivalent key keeps its
    spelling), and [erase]. *)
Fixpoint map_find (key : string) (m : MapType) : option string :=
  match m with
  | [] => None
  | (k, v) :: m => if CaseInsensitiveLess key k then None
                   else if CaseInsensitiveLess k key then map_find key m else Some v
  end.
Fixpoint map_set (key val : string) (m : MapType) : MapType :=
  match m with
  | [] => [(key, val)]
  | (k, v) :: m' => if CaseInsensitiveLess key k then (key, val) :: m
                    else if CaseInsensitiveLess k key then (k, v) :: map_set key val m' else (k, val) :: m'
  end.
Fixpoint map_erase (key : string) (m : MapType) : MapType :=
  match m with
  | [] => []
  | (k, v) :: m' => if CaseInsensitiveLess key k then m
                    else if CaseInsensitiveLess k key then (k, v) :: map_erase key m' else m'
  end.
Definition get_or (m : MapType) (key def : string) : string := default def (map_find key m).

Section lexical_cast.
Context {T : Type} (lexical_cast : string -> option T).   (* [None]: it throws *)

(** [checkGetAs]: the result and the value stored in [val]. *)
Definition checkGetAs (m : MapType) (key : string) (def : T) : bool * T :=
  match map_find key m with
  | None => (false, def)
  | Some v => match lexical_cast v with Some x => (true, x) | None => (false, def) end
  end.
Definition getAs (m : MapType) (key : string) (def : T) : T :=
  match map_find key m with
  | None => def
  | Some v => default def (lexical_cast v)
  end.
End lexical_cast.

(** ** Requests *)

Record HttpRequest := Request {
  m_method : http_method;
  m_version : Z;
  m_close : bool;
  m_path : string;
  m_query : string;
  m_fragment : string;
  m_body : string;
  m_headers : MapType;
  m_params : MapType;
  m_cookies : MapType
}.
Definition new_HttpRequest (version : Z) (close : bool) : HttpRequest :=
  Request GET version close "/" "" "" "" [] [] [].

Definition set_method v r := Request v (m_version r) (m_close r) (m_path r) (m_query r) (m_fragment r)
  (m_body r) (m_headers r) (m_params r) (m_cookies r).
Definition set_version v r := Request (m_method r) v (m_close r) (m_path r) (m_query r) (m_fragment r)
  (m_body r) (m_headers r) (m_params r) (m_cookies r).
Definition set_path v r := Request (m_method r) (m_version r) (m_close r) v (m_query r) (m_fragment r)
  (m_body r) (m_headers r) (m_params r) (m_cookies r).
Definition set_query v r := Request (m_method r) (m_version r) (m_close r) (m_path r) v (m_fragment r)
  (m_body r) (m_headers r) (m_params r) (m_cookies r).
Definition set_fragment v r := Request (m_method r) (m_version r) (m_close r) (m_path r) (m_query r) v
  (m_body r) (m_headers r) (m_params r) (m_cookies r).
Definition set_body v r := Request (m_method r) (m_version r) (m_close r) (m_path r) (m_query r)
  (m_fragment r) v (m_headers r) (m_params r) (m_cookies r).
Definition set_headers v r := Request (m_method r) (m_version r) (m_close r) (m_path r) (m_query r)
  (m_fragment r) (m_body r) v (m_params r) (m_cookies r).
Definition set_params v r := Request (m_method r) (m_version r) (m_close r) (m_path r) (m_query r)
  (m_fragment r) (m_body r) (m_headers r) v (m_cookies r).
Definition set_cookies v r := Request (m_method r) (m_version r) (m_close r) (m_path r) (m_query r)
  (m_fragment r) (m_body r) (m_headers r) (m_params r) v.

Definition getHeader (key def : string) (r : HttpRequest) : string := get_or (m_headers r) key def.
Definition getParam (key def : string) (r : HttpRequest) : string := get_or (m_params r) key def.
Definition getCookie (key def : string) (r : HttpRequest) : string := get_or (m_cookies r) key def.
Definition setHeader (key val : string) (r : HttpRequest) : HttpRequest :=
  set_headers (map_set key val (m_headers r)) r.
Definition setParam (key val : string) (r : HttpRequest) : HttpRequest :=
  set_params (map_set key val (m_params r)) r.
Definition setCookie (key val : string) (r : HttpRequest) : HttpRequest :=
  set_cookies (map_set key val (m_cookies r)) r.
Definition delHeader (key : string) (r : HttpRequest) : HttpRequest :=
  set_headers (map_erase key (m_headers r)) r.
Definition delParam (key : string) (r : HttpRequest) : HttpRequest :=
  set_params (map_erase key (m_params r)) r.
(** [delCookie] erases from [m_params]. *)
Definition delCookie (key : string) (r : HttpRequest) : HttpRequest :=
  set_params (map_erase key (m_params r)) r.

(** The typed getters: the value of a key, converted. *)
Section typed.
Context {T : Type} (lexical_cast : string -> option T).
Definition checkGetHeaderAs (key : string) (def : T) (r : HttpRequest) : bool * T :=
  checkGetAs lexical_cast (m_headers r) key def.
Definition getHeaderAs (key : string) (def : T) (r : HttpRequest) : T := getAs lexical_cast (m_headers r) key def.
Definition checkGetParamAs (key : string) (def : T) (r : HttpRequest) : bool * T :=
  checkGetAs lexical_cast (m_params r) key def.
Definition getParamAs (key : string) (def : T) (r : HttpRequest) : T := getAs lexical_cast (m_params r) key def.
Definition checkGetCookieAs (key : string) (def : T) (r : HttpRequest) : bool * T :=
  checkGetAs lexical_cast (m_cookies r) key def.
Definition getCookieAs (key : string) (def : T) (r : HttpRequest) : T := getAs lexical_cast (m_cookies r) key def.
End typed.

(** [hasX(key, val)]: [val] may be null ([false]), and is dereferenced when the
    key is found; the result and what is stored in it. *)
Definition has_in (m : MapType) (val : bool) (key : string) : res unit (bool * option string) :=
  match map_find key m with
  | None => Ok (false, None) tt
  | Some v => if val then Ok (true, Some v) tt else Fail_ Undef
  end.
Definition hasHeader (val : bool) (key : string) (r : HttpRequest) := has_in (m_headers r) val key.
Definition hasParam (val : bool) (key : string) (r : HttpRequest) := has_in (m_params r) val key.
Definition hasCookie (val : bool) (key : string) (r : HttpRequest) := has_in (m_cookies r) val key.

Definition CR : string := String (ascii_of_nat 13) EmptyString.
Definition LF : string := String (ascii_of_nat 10) EmptyString.
Definition CRLF : string := CR +:+ LF.

Definition version_text (version : Z) : string :=
  "HTTP/" +:+ dec (Z.shiftr version 4) +:+ "." +:+ dec (Z.land version 15).

(** The entries except those named "Connection", each on a line. *)
Definition header_lines (sep : string) (m : MapType) : list string :=
  (fun '(k, v) => k +:+ sep +:+ v) <$>
    filter (fun kv => strcasecmp kv.1 "Connection" <> 0) m.
Fixpoint lines (ls : list string) : string :=
  match ls with [] => "" | l :: ls => l +:+ CRLF +:+ lines ls end.
(** The end of a message: the length and the body, if there is one. *)
Definition tail_text (body : string) : string :=
  if bool_decide (body = "") then CRLF
  else "Content-Length: " +:+ dec (Z.of_nat (String.length body)) +:+ CRLF +:+ CRLF +:+ body.

Definition dump_request (r : HttpRequest) : string :=
  http_method_to_chars (m_method r) +:+ " " +:+ m_path r +:+
  (if bool_decide (m_query r = "") then "" else "?") +:+ m_query r +:+
  (if bool_decide (m_fragment r = "") then "" else "#") +:+ m_fragment r +:+ " " +:+
  version_text (m_version r) +:+ CRLF +:+
  "Connection: " +:+ (if m_close r then "close" else "keep-alive") +:+ CRLF +:+
  lines (header_lines ":" (m_headers r)) +:+
  tail_text (m_body r).
Definition to_string_request (r : HttpRequest) : string := dump_request r.

(** ** Responses *)

Record HttpResponse := Response {
  r_status : Z;
  r_version : Z;
  r_close : bool;
  r_body : string;
  r_reason : string;
  r_headers : MapType
}.
Definition new_HttpResponse (version : Z) (close : bool) : HttpResponse :=
  Response 200 version close "" "" [].
Definition set_status v r := Response v (r_version r) (r_close r) (r_body r) (r_reason r) (r_headers r).
Definition set_rversion v r := Response (r_status r) v (r_close r) (r_body r) (r_reason r) (r_headers r).
Definition setClose v r := Response (r_status r) (r_version r) v (r_body r) (r_reason r) (r_headers r).
Definition set_rbody v r := Response (r_status r) (r_version r) (r_close r) v (r_reason r) (r_headers r).
Definition set_reason v r := Response (r_status r) (r_version r) (r_close r) (r_body r) v (r_headers r).
Definition set_rheaders v r := Response (r_status r) (r_version r) (r_close r) (r_body r) (r_reason r) v.
Section typed_response.
Context {T : Type} (lexical_cast : string -> option T).
Definition rcheckGetHeaderAs (key : string) (def : T) (r : HttpResponse) : bool * T :=
  checkGetAs lexical_cast (r_headers r) key def.
Definition rgetHeaderAs (key : string) (def : T) (r : HttpResponse) : T := getAs lexical_cast (r_headers r) key def.
End typed_response.

Definition rgetHeader (key def : string) (r : HttpResponse) : string := get_or (r_headers r) key def.
Definition rsetHeader (key val : string) (r : HttpResponse) : HttpResponse :=
  set_rheaders (map_set key val (r_headers r)) r.
Definition rdelHeader (key : string) (r : HttpResponse) : HttpResponse :=
  set_rheaders (map_erase key (r_headers r)) r.

Definition dump_response (r : HttpResponse) : string :=
  version_text (r_version r) +:+ " " +:+ dec (u32 (r_status r)) +:+ " " +:+
  (if bool_decide (r_reason r = "") then http_status_to_chars (r_status r) else r_reason r) +:+ CRLF +:+
  lines (header_lines ": " (r_headers r)) +:+
  "Connection: " +:+ (if r_close r then "close" else "keep-alive") +:+ CRLF +:+
  tail_text (r_body r).
Definition to_string_response (r : HttpResponse) : string := dump_response r.

(** ** The order of keys *)

Definition canon (s : string) : list Z := tolower <$> c_str s.

Fixpoint lexc (a b : list Z) : Z :=
  match a, b with
  | [], [] => 0
  | [], y :: _ => - y
  | x :: _, [] => x
  | x :: a, y :: b => if x =? y then lexc a b else x - y
  end.

Lemma casecmp_lexc a : forall b, casecmp a b = lexc (tolower <$> a) (tolower <$> b).
Proof. induction a as [|x a IH]; intros [|y b]; simpl; try done. by rewrite IH. Qed.

Lemma tolower_pos z : 0 < z -> 0 < tolower z.
Proof. intros H. unfold tolower. destruct (_ && _); lia. Qed.

Lemma canon_pos s : Forall (fun z => 0 < z) (canon s).
Proof.
  unfold canon. induction s as [|c s IH]; simpl; [constructor|].
  destruct (Z.eqb_spec (code c) 0); simpl; [constructor|]. constructor; [|done].
  apply tolower_pos. unfold code in *. lia.
Qed.

Lemma lexc_anti a : forall b, lexc b a = - lexc a b.
Proof.
  induction a as [|x a IH]; intros [|y b]; simpl; try lia.
  rewrite Z.eqb_sym. destruct (Z.eqb_spec x y); [by rewrite IH|lia].
Qed.

Lemma lexc_eq a : forall b,
  Forall (fun z => 0 < z) a -> Forall (fun z => 0 < z) b -> (lexc a b = 0 <-> a = b).
Proof.
  induction a as [|x a IH]; intros [|y b] Ha Hb; simpl; try done.
  - apply Forall_cons in Hb as [Hy _]. split; [lia|done].
  - apply Forall_cons in Ha as [Hx _]. split; [lia|done].
  - apply Forall_cons in Ha as [Hx Ha], Hb as [Hy Hb]. destruct (Z.eqb_spec x y) as [->|Hne].
    + rewrite IH by done. split; congruence.
    + split; [lia|congruence].
Qed.

Lemma lexc_trans a : forall b c,
  Forall (fun z => 0 < z) a -> Forall (fun z => 0 < z) b -> Forall (fun z => 0 < z) c ->
  lexc a b < 0 -> lexc b c < 0 -> lexc a c < 0.
Proof.
  induction a as [|x a IH]; intros [|y b] [|z c] Ha Hb Hc;
    repeat match goal with H : Forall _ (_ :: _) |- _ => apply Forall_cons in H as [? H] end;
    simpl; try lia.
  destruct (Z.eqb_spec x y), (Z.eqb_spec y z), (Z.eqb_spec x z); subst; try lia. by apply IH.
Qed.

Lemma less_iff a b : CaseInsensitiveLess a b = true <-> lexc (canon a) (canon b) < 0.
Proof. unfold CaseInsensitiveLess, strcasecmp. rewrite casecmp_lexc. apply Z.ltb_lt. Qed.

Lemma less_false a b : CaseInsensitiveLess a b = false <-> 0 <= lexc (canon a) (canon b).
Proof. unfold CaseInsensitiveLess, strcasecmp. rewrite casecmp_lexc. apply Z.ltb_ge. Qed.

Lemma less_trans a b c :
  CaseInsensitiveLess a b = true -> CaseInsensitiveLess b c = true -> CaseInsensitiveLess a c = true.
Proof. rewrite !less_iff. apply lexc_trans; apply canon_pos. Qed.

(** Two keys that neither comes before the other differ in case only. *)
Lemma less_neither a b :
  CaseInsensitiveLess a b = false -> CaseInsensitiveLess b a = false -> canon a = canon b.
Proof.
  rewrite !less_false, (lexc_anti (canon a)). intros H1 H2.
  apply (lexc_eq (canon a) (canon b)); [apply canon_pos|apply canon_pos|lia].
Qed.

Lemma less_canon a b : CaseInsensitiveLess a b = true -> canon a <> canon b.
Proof.
  rewrite less_iff. intros H E. rewrite E in H.
  rewrite (proj2 (lexc_eq (canon b) (canon b) (canon_pos b) (canon_pos b)) eq_refl) in H. lia.
Qed.

Lemma less_congr a b c : canon a = canon b ->
  CaseInsensitiveLess a c = CaseInsensitiveLess b c /\ CaseInsensitiveLess c a = CaseInsensitiveLess c b.
Proof. intros E. unfold CaseInsensitiveLess, strcasecmp. rewrite !casecmp_lexc. unfold canon in E. by rewrite E. Qed.

(** ** Maps *)

Definition key_lt (x y : string * string) : Prop := CaseInsensitiveLess x.1 y.1 = true.
Definition ordered : MapType -> Prop := StronglySorted key_lt.

(** Searching the list for a key that is equal up to case. *)
Fixpoint cfind (k : list Z) (m : MapType) : option string :=
  match m with
  | [] => None
  | (x, v) :: m => if decide (canon x = k) then Some v else cfind k m
  end.

Lemma cfind_None k m : (forall e, e ∈ m -> canon e.1 <> k) -> cfind k m = None.
Proof.
  induction m as [|[x v] m IH]; intros H; simpl; [done|].
  rewrite decide_False by (apply (H (x, v)); set_solver). apply IH. set_solver.
Qed.

Lemma ordered_less k x v m :
  ordered ((x, v) :: m) -> CaseInsensitiveLess k x = true -> cfind (canon k) ((x, v) :: m) = None.
Proof.
  intros [_ Hx]%StronglySorted_inv Hk. apply cfind_None. intros e [->|He]%elem_of_cons.
  - intros E. by apply less_canon in Hk.
  - rewrite Forall_forall in Hx. specialize (Hx e He). intros E.
    by apply (less_canon k e.1); [eapply less_trans|].
Qed.

Lemma map_find_cfind k m : ordered m -> map_find k m = cfind (canon k) m.
Proof.
  induction m as [|[x v] m IH]; intros Hm; [done|]. cbn [map_find].
  destruct (CaseInsensitiveLess k x) eqn:L1; [by rewrite (ordered_less k x v m)|].
  pose proof Hm as [Hm' _]%StronglySorted_inv. cbn [cfind].
  destruct (CaseInsensitiveLess x k) eqn:L2.
  - rewrite decide_False by by apply less_canon. by apply IH.
  - by rewrite decide_True by by apply less_neither.
Qed.

Lemma map_set_keys k v m e : e ∈ map_set k v m -> e ∈ m \/ canon e.1 = canon k.
Proof.
  induction m as [|[x w] m IH]; simpl; [set_solver|].
  destruct (CaseInsensitiveLess k x) eqn:L1; [set_solver|].
  destruct (CaseInsensitiveLess x k) eqn:L2; [set_solver|].
  intros [->|He]%elem_of_cons; [right; simpl; symmetry; by apply less_neither|set_solver].
Qed.

Lemma map_erase_sublist k m : map_erase k m `sublist_of` m.
Proof.
  induction m as [|[x w] m IH]; simpl; [done|].
  destruct (CaseInsensitiveLess k x); [done|].
  destruct (CaseInsensitiveLess x k); [by apply sublist_skip|by apply sublist_cons].
Qed.

Lemma map_set_ordered k v m : ordered m -> ordered (map_set k v m).
Proof.
  induction 1 as [|[x w] m Hm IH Hx]; simpl; [by repeat constructor|].
  destruct (CaseInsensitiveLess k x) eqn:L1; [|destruct (CaseInsensitiveLess x k) eqn:L2].
  - constructor; [by constructor|]. constructor; [done|].
    eapply Forall_impl; [exact Hx|]. intros e He. by eapply less_trans.
  - constructor; [done|]. rewrite Forall_forall in Hx |- *.
    intros e [He|He]%map_set_keys; [by apply Hx|].
    unfold key_lt. simpl. destruct (less_congr e.1 k x He) as [_ ->]. done.
  - constructor; [done|]. exact Hx.
Qed.

Lemma map_erase_ordered k m : ordered m -> ordered (map_erase k m).
Proof.
  pose proof (map_erase_sublist k m) as Hs. generalize (map_erase k m), Hs. clear Hs.
  intros l Hs. induction Hs as [|e l m Hs IH|e l m Hs IH]; intros Hm; [done| |].
  - apply StronglySorted_inv in Hm as [Hm He]. constructor; [by apply IH|].
    rewrite Forall_forall in He |- *. intros y Hy. apply He. by eapply elem_of_sublist.
  - apply StronglySorted_inv in Hm as [Hm _]. by apply IH.
Qed.

Lemma map_find_set k v k' m :
  ordered m ->
  map_find k' (map_set k v m) = if decide (canon k = canon k') then Some v else map_find k' m.
Proof.
  intros Hm. rewrite !map_find_cfind by (done || by apply map_set_ordered).
  clear Hm. induction m as [|[x w] m IH]; [done|]. cbn [map_set].
  destruct (CaseInsensitiveLess k x) eqn:L1; [done|].
  destruct (CaseInsensitiveLess x k) eqn:L2; cbn [cfind].
  - rewrite IH. apply less_canon in L2. repeat case_decide; congruence.
  - pose proof (less_neither _ _ L1 L2). repeat case_decide; congruence.
Qed.

Lemma map_find_erase k k' m :
  ordered m ->
  map_find k' (map_erase k m) = if decide (canon k = canon k') then None else map_find k' m.
Proof.
  intros Hm. rewrite !map_find_cfind by (done || by apply map_erase_ordered).
  induction m as [|[x w] m IH]; [by case_decide|].
  pose proof Hm as [Hm' Hx]%StronglySorted_inv. cbn [map_erase].
  destruct (CaseInsensitiveLess k x) eqn:L1.
  - case_decide as E; [|done]. rewrite <- E. by apply ordered_less.
  - destruct (CaseInsensitiveLess x k) eqn:L2; cbn [cfind].
    + rewrite IH by done. apply less_canon in L2. repeat case_decide; congruence.
    + pose proof (less_neither _ _ L1 L2) as E. repeat case_decide; try congruence.
      apply cfind_None. intros e He Ek. rewrite Forall_forall in Hx. specialize (Hx e He).
      apply less_canon in Hx. simpl in Hx. congruence.
Qed.

(** ** Reading a message back

    A reference reader: lines end with CR LF, the head ends with an empty line,
    the rest is the body. *)

Fixpoint take_line (s : string) : option (string * string) :=
  match s with
  | EmptyString => None
  | String c s' =>
    match (if code c =? 13 then match s' with
                                | String d r => if code d =? 10 then Some r else None
                                | EmptyString => None
                                end else None) with
    | Some r => Some ("", r)
    | None => match take_line s' with
              | Some (l, r) => Some (String c l, r)
              | None => None
              end
    end
  end.
Fixpoint read_head (fuel : nat) (s : string) : option (list string * string) :=
  match fuel with
  | O => None
  | S fuel =>
    match take_line s with
    | None => None
    | Some (EmptyString, r) => Some ([], r)
    | Some (l, r) => match read_head fuel r with
                     | Some (ls, b) => Some (l :: ls, b)
                     | None => None
                     end
    end
  end.

Definition plain (s : string) : Prop := all_chars (fun c => code c <> 13) s.

Lemma take_line_app l rest : plain l -> take_line (l +:+ CRLF +:+ rest) = Some (l, rest).
Proof.
  induction l as [|c l IH]; intros Hl; [done|]. destruct Hl as [Hc Hl].
  change (String c l +:+ CRLF +:+ rest) with (String c (l +:+ CRLF +:+ rest)). cbn [take_line].
  rewrite (proj2 (Z.eqb_neq (code c) 13) Hc). by rewrite IH.
Qed.

Opaque CRLF.

Lemma lines_app l1 l2 : lines (l1 ++ l2) = lines l1 +:+ lines l2.
Proof. induction l1 as [|l l1 IH]; [done|]. cbn [lines app]. by rewrite IH, !app_assoc_s. Qed.

Lemma read_head_lines ls body :
  Forall (fun l => plain l /\ l <> "") ls ->
  read_head (S (length ls)) (lines ls +:+ CRLF +:+ body) = Some (ls, body).
Proof.
  induction 1 as [|l ls [Hp Hne] _ IH]; [done|].
  cbn [lines length]. rewrite !app_assoc_s. cbn [read_head]. rewrite take_line_app by done.
  destruct l as [|c l]; [done|]. cbn [read_head] in IH. by rewrite IH.
Qed.

Lemma plain_dec n : 0 <= n -> plain (dec n).
Proof.
  intros Hn. destruct (dec_spec n Hn) as [_ H]. eapply all_chars_impl; [|exact H].
  intros c [H1 H2]. simpl. lia.
Qed.

Lemma plain_version v : 0 <= v -> plain (version_text v).
Proof.
  intros Hv. unfold version_text, plain. rewrite !all_chars_app. split_and!; try done.
  - apply plain_dec. by apply Z.shiftr_nonneg.
  - apply plain_dec. apply Z.land_nonneg. by left.
Qed.

Lemma plain_status v : plain (http_status_to_chars v).
Proof.
  unfold http_status_to_chars. destruct (List.find _ _) as [e|] eqn:E; [|by vm_compute].
  apply List.find_some in E as [E _]. apply list_elem_of_In in E.
  assert (Forall (fun e : Z * string => plain e.2) HTTP_STATUS_MAP) as H
    by (eapply bool_decide_unpack; vm_compute; exact I).
  rewrite Forall_forall in H. by apply H.
Qed.

Lemma plain_method m : plain (http_method_to_chars m).
Proof. by destruct m; vm_compute. Qed.

(** ** Methods *)

Lemma strncmp_prefix s v : strncmp_eq s v (length (c_str s)) = true <-> c_str s `prefix_of` c_str v.
Proof.
  unfold strncmp_eq. rewrite bool_decide_eq_true, take_ge by lia. split.
  - intros E. rewrite E. apply prefix_take.
  - intros [k E]. by rewrite E, take_app_length.
Qed.

(** No method's name begins with another's. *)
Definition prefix_free : bool :=
  forallb (fun e => forallb (fun e' =>
    bool_decide (e = e') || negb (bool_decide (c_str (method_text e) `prefix_of` c_str (method_text e'))))
    HTTP_METHOD_MAP) HTTP_METHOD_MAP.
Lemma prefix_free_true : prefix_free = true.
Proof. by vm_compute. Qed.


Lemma find_method (f : string -> bool) m :
  m <> INVALID_METHOD ->
  (forall e e', e ∈ HTTP_METHOD_MAP -> e' ∈ HTTP_METHOD_MAP ->
    f (method_text e) = true -> f (method_text e') = true -> e = e') ->
  (match List.find (fun e => f (method_text e)) HTTP_METHOD_MAP with
   | Some e => method_of e
   | None => INVALID_METHOD
   end = m <-> f (http_method_to_chars m) = true).
Proof.
  intros Hm Huniq.
  assert (exists e, e ∈ HTTP_METHOD_MAP /\ method_of e = m /\ method_text e = http_method_to_chars m)
    as (e & He & Em & Et).
  { assert (exists n, (fun e => (method_of e, method_text e)) <$> (HTTP_METHOD_MAP !! n)
      = Some (m, http_method_to_chars m)) as [n Hn].
    { exists (Z.to_nat (method_num m)). by destruct m. }
    apply fmap_Some in Hn as (e & He & E). exists e. simplify_eq. split_and!; try done.
    by eapply list_elem_of_lookup_2. }
  destruct (List.find _ _) as [e'|] eqn:Hf.
  - apply List.find_some in Hf as [Hin Hf]. apply list_elem_of_In in Hin. rewrite <- Et. split.
    + intros E'. assert (e' = e) as <-; [|done].
      assert (forall x y, x ∈ HTTP_METHOD_MAP -> y ∈ HTTP_METHOD_MAP -> method_of x = method_of y -> x = y) as Hinj.
      { assert (Forall (fun x => Forall (fun y => method_of x = method_of y -> x = y) HTTP_METHOD_MAP)
          HTTP_METHOD_MAP) as H by (eapply bool_decide_unpack; vm_compute; exact I).
        intros x y Hx Hy. rewrite Forall_forall in H. specialize (H x Hx).
        rewrite Forall_forall in H. by apply H. }
      apply Hinj; congruence.
    + intros Hfe. by rewrite (Huniq e' e).
  - split; [congruence|]. intros H. rewrite <- Et in H.
    pose proof (List.find_none _ _ Hf e) as Hn. cbv beta in Hn.
    rewrite Hn in H; [done|]. by apply list_elem_of_In.
Qed.

Lemma method_text_clean e : e ∈ HTTP_METHOD_MAP -> String.length (method_text e) = length (c_str (method_text e)).
Proof.
  assert (Forall (fun e => String.length (method_text e) = length (c_str (method_text e))) HTTP_METHOD_MAP) as H
    by (eapply bool_decide_unpack; vm_compute; exact I).
  rewrite Forall_forall in H. apply H.
Qed.

Lemma method_prefix_inj e e' :
  e ∈ HTTP_METHOD_MAP -> e' ∈ HTTP_METHOD_MAP ->
  c_str (method_text e) `prefix_of` c_str (method_text e') -> e = e'.
Proof.
  intros He He' Hp. pose proof prefix_free_true as H. unfold prefix_free in H.
  rewrite forallb_forall in H. apply list_elem_of_In in He, He'. specialize (H e He).
  rewrite forallb_forall in H. specialize (H e' He').
  apply orb_true_iff in H as [H|H]; [by apply bool_decide_eq_true in H|].
  by rewrite bool_decide_eq_true_2 in H.
Qed.

(** The text of a method is an entry of the table. *)
Lemma method_length m : m <> INVALID_METHOD ->
  String.length (http_method_to_chars m) = length (c_str (http_method_to_chars m)).
Proof. by destruct m. Qed.

(** A method is recognised by exactly its text: [string_to_http_method] returns a method if and
    only if the C string is that method's text, [chars_to_http_methd] if and only if the text is a
    prefix of the characters given to it (no method's text begins with another's, so the order of
    the tests does not matter), and the text that [http_method_to_chars] prints is read back as the
    same method by both. *)
Theorem method_outcome (v : string) (m : http_method) :
  m <> INVALID_METHOD ->
  (string_to_http_method v = m <-> c_str (http_method_to_chars m) = c_str v) /\
  (chars_to_http_methd v = m <-> c_str (http_method_to_chars m) `prefix_of` c_str v) /\
  string_to_http_method (http_method_to_chars m) = m /\
  chars_to_http_methd (http_method_to_chars m) = m.
Proof.
  intros Hm.
  assert (string_to_http_method v = m <-> c_str (http_method_to_chars m) = c_str v) as H1.
  { unfold string_to_http_method. rewrite (find_method (fun t => strcmp_eq t v)); [|done|].
    - unfold strcmp_eq. by rewrite bool_decide_eq_true.
    - intros e e' He He' H H'. unfold strcmp_eq in H, H'. apply bool_decide_eq_true in H, H'.
      apply method_prefix_inj; [done..|]. by rewrite H, H'. }
  assert (chars_to_http_methd v = m <-> c_str (http_method_to_chars m) `prefix_of` c_str v) as H2.
  { unfold chars_to_http_methd.
    rewrite (find_method (fun t => strncmp_eq t v (String.length t))); [|done|].
    - by rewrite method_length, strncmp_prefix.
    - intros e e' He He' H H'. rewrite method_text_clean in H, H' by done.
      apply strncmp_prefix in H, H'. destruct (prefix_weak_total _ _ _ H H') as [Hp|Hp].
      + by apply method_prefix_inj.
      + symmetry. by apply method_prefix_inj. }
  split_and!; [done|done|by destruct m|by destruct m].
Qed.

Lemma method_outcome_witness : chars_to_http_methd "GETAWAY" = GET.
Proof.
  destruct (method_outcome "GETAWAY" GET) as (_ & H & _); [done|].
  apply H. by exists (c_str "AWAY").
Defined.

(** ** Requests and responses as built by the program *)

Inductive built : HttpRequest -> Prop :=
  | built_new version close : built (new_HttpRequest version close)
  | built_method v r : built r -> built (set_method v r)
  | built_version v r : built r -> built (set_version v r)
  | built_path v r : built r -> built (set_path v r)
  | built_query v r : built r -> built (set_query v r)
  | built_fragment v r : built r -> built (set_fragment v r)
  | built_body v r : built r -> built (set_body v r)
  | built_copy f r r' : f ∈ [m_headers; m_params; m_cookies] -> built r -> built r' ->
      built (set_headers (f r') r)
  | built_copy_params f r r' : f ∈ [m_headers; m_params; m_cookies] -> built r -> built r' ->
      built (set_params (f r') r)
  | built_copy_cookies f r r' : f ∈ [m_headers; m_params; m_cookies] -> built r -> built r' ->
      built (set_cookies (f r') r)
  | built_setHeader k v r : built r -> built (setHeader k v r)
  | built_setParam k v r : built r -> built (setParam k v r)
  | built_setCookie k v r : built r -> built (setCookie k v r)
  | built_delHeader k r : built r -> built (delHeader k r)
  | built_delParam k r : built r -> built (delParam k r)
  | built_delCookie k r : built r -> built (delCookie k r).

Definition wf_request (r : HttpRequest) : Prop :=
  ordered (m_headers r) /\ ordered (m_params r) /\ ordered (m_cookies r).

Lemma built_wf r : built r -> wf_request r.
Proof.
  induction 1 as [| | | | | | |f r r' Hf ? IH ? IH'|f r r' Hf ? IH ? IH'|f r r' Hf ? IH ? IH'| | | | | |].
  1-7: try done; repeat constructor.
  1-3: destruct IH as (? & ? & ?), IH' as (? & ? & ?); split_and!; simpl; try done; set_solver.
  all: match goal with IH : wf_request _ |- _ => destruct IH as (? & ? & ?) end; split_and!; simpl;
    auto using map_set_ordered, map_erase_ordered.
Qed.

(** The headers of a request are a map up to the case of the keys: in every request the program
    can build, reading a key after [setHeader] gives the new value for every spelling of that key and
    the old value for the others, reading it after [delHeader] gives the default, [hasHeader] agrees
    with [getHeader], and none of these touches the parameters or the cookies. *)
Theorem headers_outcome (r : HttpRequest) (key val key' def : string) :
  built r ->
  getHeader key' def (setHeader key val r) =
    (if decide (canon key = canon key') then val else getHeader key' def r) /\
  getHeader key' def (delHeader key r) =
    (if decide (canon key = canon key') then def else getHeader key' def r) /\
  (forall b x, hasHeader true key' r = Ok (b, x) tt ->
    b = bool_decide (is_Some x) /\ getHeader key' def r = default def x) /\
  (m_params (setHeader key val r), m_cookies (setHeader key val r)) = (m_params r, m_cookies r) /\
  (m_params (delHeader key r), m_cookies (delHeader key r)) = (m_params r, m_cookies r).
Proof.
  intros (H & _ & _)%built_wf. unfold getHeader, get_or. simpl.
  rewrite map_find_set, map_find_erase by done. split_and!; try (by case_decide); try done.
  intros b x. unfold hasHeader, has_in. by destruct (map_find key' (m_headers r)); intros [= <- <-].
Qed.

(** The typed getters of the headers: [checkGetHeaderAs] stores what [getHeaderAs] returns, and it succeeds
    exactly when the key is there with a text that is a value of the type; a value that was set under any
    spelling of the key is read back as the value its text is converted to, or as the default. *)
Theorem typed_headers {T} (lexical_cast : string -> option T) (r : HttpRequest) (key val key' : string) (def : T) :
  built r ->
  (checkGetHeaderAs lexical_cast key' def r).2 = getHeaderAs lexical_cast key' def r /\
  ((checkGetHeaderAs lexical_cast key' def r).1 = true <->
    exists v, map_find key' (m_headers r) = Some v /\ is_Some (lexical_cast v)) /\
  (canon key = canon key' -> getHeaderAs lexical_cast key' def (setHeader key val r) = default def (lexical_cast val)).
Proof.
  intros (H & _ & _)%built_wf. unfold checkGetHeaderAs, getHeaderAs, checkGetAs, getAs. cbn [setHeader set_headers m_headers].
  split_and!.
  - destruct (map_find key' (m_headers r)) as [v|]; [|done]. by destruct (lexical_cast v).
  - destruct (map_find key' (m_headers r)) as [v|].
    + destruct (lexical_cast v) eqn:E; split; cbn; try done; [by exists v; rewrite E|intros (? & [= <-] & [? ?]); congruence].
    + split; [done|]. by intros (? & ? & _).
  - intros E. rewrite map_find_set by done. by rewrite decide_True.
Qed.

Lemma headers_outcome_witness :
  getHeader "HOST" "" (setHeader "host" "b" (setHeader "Host" "a" (new_HttpRequest 17 true))) = "b".
Proof.
  destruct (headers_outcome (setHeader "Host" "a" (new_HttpRequest 17 true)) "host" "b" "HOST" "") as [-> _].
  - repeat constructor.
  - by vm_compute.
Defined.

(** ** Framing *)

Definition request_line (r : HttpRequest) : string :=
  http_method_to_chars (m_method r) +:+ " " +:+ m_path r +:+
  (if bool_decide (m_query r = "") then "" else "?") +:+ m_query r +:+
  (if bool_decide (m_fragment r = "") then "" else "#") +:+ m_fragment r +:+ " " +:+
  version_text (m_version r).
Definition status_line (r : HttpResponse) : string :=
  version_text (r_version r) +:+ " " +:+ dec (u32 (r_status r)) +:+ " " +:+
  (if bool_decide (r_reason r = "") then http_status_to_chars (r_status r) else r_reason r).
Definition connection_line (close : bool) : string :=
  "Connection: " +:+ (if close then "close" else "keep-alive").
Definition length_lines (body : string) : list string :=
  if bool_decide (body = "") then [] else ["Content-Length: " +:+ dec (Z.of_nat (String.length body))].

Lemma tail_text_lines body : tail_text body = lines (length_lines body) +:+ CRLF +:+ body.
Proof.
  unfold tail_text, length_lines. case_bool_decide as E; cbn [lines].
  - by rewrite E, app_empty_s.
  - by rewrite !app_assoc_s.
Qed.

Lemma dump_request_lines r :
  dump_request r =
  lines ([request_line r; connection_line (m_close r)] ++ header_lines ":" (m_headers r)
         ++ length_lines (m_body r)) +:+ CRLF +:+ m_body r.
Proof.
  unfold dump_request, request_line, connection_line.
  rewrite tail_text_lines, !lines_app. cbn [lines]. by rewrite !app_assoc_s.
Qed.

Lemma dump_response_lines r :
  dump_response r =
  lines ([status_line r] ++ header_lines ": " (r_headers r) ++ [connection_line (r_close r)]
         ++ length_lines (r_body r)) +:+ CRLF +:+ r_body r.
Proof.
  unfold dump_response, status_line, connection_line.
  rewrite tail_text_lines, !lines_app. cbn [lines]. by rewrite !app_assoc_s.
Qed.

Definition plain_map (m : MapType) : Prop := Forall (fun e => plain e.1 /\ plain e.2) m.

Lemma header_lines_plain sep m :
  plain sep -> sep <> "" -> plain_map m -> Forall (fun l => plain l /\ l <> "") (header_lines sep m).
Proof.
  intros Hs Hne Hm. unfold header_lines. apply Forall_fmap, Forall_forall.
  intros [k v] [_ Hkv]%list_elem_of_filter. unfold plain_map in Hm. rewrite Forall_forall in Hm.
  destruct (Hm _ Hkv) as [Hk Hv]. simpl in *. split.
  - unfold plain in *. by rewrite !all_chars_app.
  - destruct k; [|done]. by destruct sep.
Qed.

Lemma length_lines_plain b : Forall (fun l => plain l /\ l <> "") (length_lines b).
Proof.
  unfold length_lines. case_bool_decide; [constructor|]. apply Forall_singleton. split; [|done].
  unfold plain. rewrite all_chars_app. split; [done|]. apply plain_dec. lia.
Qed.

Lemma connection_line_plain c : plain (connection_line c) /\ connection_line c <> "".
Proof. by destruct c. Qed.

Lemma plain_opt (b : bool) s t : plain s -> plain t -> plain (if b then s else t).
Proof. by destruct b. Qed.

Lemma request_line_plain r :
  0 <= m_version r -> plain (m_path r) -> plain (m_query r) -> plain (m_fragment r) ->
  plain (request_line r) /\ request_line r <> "".
Proof.
  intros Hv Hp Hq Hf. split.
  - unfold request_line, plain. rewrite !all_chars_app.
    split_and!; try done; try (by apply plain_opt); [apply plain_method|by apply plain_version].
  - unfold request_line. by destruct (m_method r).
Qed.

Lemma status_line_plain r :
  0 <= r_version r -> plain (r_reason r) -> plain (status_line r) /\ status_line r <> "".
Proof.
  intros Hv Hr. split; [|done]. unfold status_line, plain. rewrite !all_chars_app.
  split_and!; try done; [by apply plain_version| |apply plain_opt; [apply plain_status|done]].
  apply plain_dec. apply Z.mod_pos_bound. done.
Qed.

(** A printed message can be read back: when its fields hold no carriage return, splitting the
    text of a request at CR LF up to the first empty line gives the request line, the connection line,
    one line for each header except "Connection", the length line if there is a body, and then exactly
    the body; a response is printed the same way with its connection line after the headers.  The
    number on the length line is the length of the body. *)
Theorem dump_framed (q : HttpRequest) (p : HttpResponse) :
  0 <= m_version q -> plain (m_path q) -> plain (m_query q) -> plain (m_fragment q) -> plain_map (m_headers q) ->
  0 <= r_version p -> plain (r_reason p) -> plain_map (r_headers p) ->
  (exists fuel, read_head fuel (dump_request q) =
    Some (([request_line q; connection_line (m_close q)] ++ header_lines ":" (m_headers q)
           ++ length_lines (m_body q))%list, m_body q)) /\
  (exists fuel, read_head fuel (dump_response p) =
    Some (([status_line p] ++ header_lines ": " (r_headers p) ++ [connection_line (r_close p)]
           ++ length_lines (r_body p))%list, r_body p)) /\
  undec (dec (Z.of_nat (String.length (m_body q)))) = Z.of_nat (String.length (m_body q)).
Proof.
  intros Hv Hp Hq Hf Hh Hv' Hr Hh'. split_and!.
  - eexists. rewrite dump_request_lines. apply read_head_lines.
    rewrite !Forall_app, !Forall_cons. split_and!; try apply connection_line_plain; try constructor;
      auto using length_lines_plain; [by apply request_line_plain..|by apply header_lines_plain].
  - eexists. rewrite dump_response_lines. apply read_head_lines.
    rewrite !Forall_app, !Forall_cons. split_and!; try apply connection_line_plain; try constructor;
      auto using length_lines_plain; [by apply status_line_plain..|by apply header_lines_plain].
  - apply dec_spec. lia.
Qed.

Lemma dump_framed_witness :
  exists fuel, read_head fuel (dump_response (set_rbody "hi" (rsetHeader "Server" "cool/1.0.0" (new_HttpResponse 17 true)))) =
    Some (["HTTP/1.1 200 OK"; "Server: cool/1.0.0"; "Connection: close"; "Content-Length: 2"], "hi").
Proof.
  apply (dump_framed (new_HttpRequest 17 true)
    (set_rbody "hi" (rsetHeader "Server" "cool/1.0.0" (new_HttpResponse 17 true)))).
  all: try done. all: repeat constructor; by vm_compute.
Defined.

(** ** Behaviour that is not intended *)

(** [delCookie] leaves the cookie and removes the parameter of the same name. *)
Example delCookie_erases_params :
  let r := setParam "id" "1" (setCookie "id" "2" (new_HttpRequest 17 true)) in
  getCookie "id" "" (delCookie "id" r) = "2" /\ getParam "id" "" (delCookie "id" r) = "".
Proof. by vm_compute. Qed.

(** [hasHeader(key)] with the default argument dereferences a null pointer when the key is there. *)
Example hasHeader_null :
  hasHeader false "Host" (setHeader "Host" "a" (new_HttpRequest 17 true)) = Fail_ Undef.
Proof. by vm_compute. Qed.

(** The request method M-SEARCH is not recognised: the preprocessor writes spaces around the dash. *)
Example msearch_unknown : string_to_http_method "M-SEARCH" = INVALID_METHOD /\
  http_method_to_chars MSEARCH = "M - SEARCH".
Proof. by vm_compute. Qed.

End Http.
