(* ===== verification/Servlet.v ===== *)
(** * HTTP servlets: src/src/http/servlet.h, src/src/http/servlet.cpp

    A servlet is an object with a virtual [handle]; here it is its name, the
    callback of a [FunctionServlet], or one of the built-in servlets.  [fnmatch]
    is a parameter: whether a pattern matches a text. *)

From stdpp Require Import prelude strings gmap.
From Stdlib Require Import ZArith Lia.
From S2P Require Import Prelude Text Http.

Module Servlet.
Import Text Http.
Local Open Scope string_scope.

Section servlets.
(** What a handler changes besides the response (the session, the program). *)
Context {W : Type}.

(** A handler returns: one that throws, or that never returns, is not modelled. *)
Definition handler : Type := HttpRequest -> HttpResponse -> W -> Z * HttpResponse * W.

Inductive Servlet :=
  | FunctionServlet (m_cb : handler)
  | NotFoundServlet
  | OtherServlet (m_name : string) (m_handle : handler).
Definition name (s : Servlet) : string :=
  match s with
  | FunctionServlet _ => "FunctionServlet"
  | NotFoundServlet => "NotFoundServlet"
  | OtherServlet n _ => n
  end.

(** [NotFoundServlet::handle] *)
Definition RSP_BODY : string :=
  "<html><head><title>404 Not Found</title></head><body>" +:+
  "<center><h1>404 Not Found</h1></center>" +:+
  "<hr><center>cool/1.0.0</center>" +:+
  "</body></html>".
Definition not_found : handler := fun _ response w =>
  let response := set_status 404 response in
  let response := rsetHeader "Server" "cool/1.0.0" response in
  let response := rsetHeader "Content-Type" "text/html" response in
  (0%Z, set_rbody RSP_BODY response, w).
Definition handle (s : Servlet) : handler :=
  match s with
  | FunctionServlet m_cb => m_cb
  | NotFoundServlet => not_found
  | OtherServlet _ f => f
  end.

(** A [Servlet::ptr] may be null. *)
Definition ptr : Type := option Servlet.

Record ServletDispatch := Dispatch {
  m_datas : gmap string ptr;
  m_globs : list (string * ptr);
  m_default : ptr
}.
Definition new_ServletDispatch : ServletDispatch := Dispatch ∅ [] (Some NotFoundServlet).

Definition add_servlet (uri : string) (slt : ptr) (d : ServletDispatch) : ServletDispatch :=
  Dispatch (<[uri := slt]> (m_datas d)) (m_globs d) (m_default d).
Definition add_servlet_cb (uri : string) (cb : handler) (d : ServletDispatch) : ServletDispatch :=
  Dispatch (<[uri := Some (FunctionServlet cb)]> (m_datas d)) (m_globs d) (m_default d).

(** Erases the first entry for [uri]. *)
Fixpoint erase_glob (uri : string) (l : list (string * ptr)) : list (string * ptr) :=
  match l with
  | [] => []
  | e :: l => if bool_decide (e.1 = uri) then l else e :: erase_glob uri l
  end.
Definition add_glob_servlet (uri : string) (slt : ptr) (d : ServletDispatch) : ServletDispatch :=
  Dispatch (m_datas d) (erase_glob uri (m_globs d) ++ [(uri, slt)])%list (m_default d).
Definition add_glob_servlet_cb (uri : string) (cb : handler) (d : ServletDispatch) : ServletDispatch :=
  add_glob_servlet uri (Some (FunctionServlet cb)) d.

Definition del_servlet (uri : string) (d : ServletDispatch) : ServletDispatch :=
  Dispatch (delete uri (m_datas d)) (m_globs d) (m_default d).
Definition del_glob_servlet (uri : string) (d : ServletDispatch) : ServletDispatch :=
  Dispatch (m_datas d) (erase_glob uri (m_globs d)) (m_default d).
Definition set_default_servlet (v : ptr) (d : ServletDispatch) : ServletDispatch :=
  Dispatch (m_datas d) (m_globs d) v.

Definition get_servlet (uri : string) (d : ServletDispatch) : ptr :=
  match m_datas d !! uri with None => None | Some s => s end.
Definition get_glob_servlet (uri : string) (d : ServletDispatch) : ptr :=
  match List.find (fun e => bool_decide (e.1 = uri)) (m_globs d) with
  | Some e => e.2
  | None => None
  end.

(** [0 == fnmatch(pattern, text, 0)] on C strings. *)
Context (fnmatch : list Z -> list Z -> bool).

Definition get_matched_servlet (uri : string) (d : ServletDispatch) : ptr :=
  match m_datas d !! uri with
  | Some s => s
  | None =>
    match List.find (fun e => fnmatch (c_str e.1) (c_str uri)) (m_globs d) with
    | Some e => e.2
    | None => m_default d
    end
  end.
Definition dispatch (d : ServletDispatch) : handler := fun request response w =>
  match get_matched_servlet (m_path request) d with
  | Some slt => let '(_, response, w) := handle slt request response w in (0%Z, response, w)
  | None => (0%Z, response, w)
  end.

(** ** Behaviour *)

(** The dispatchers a program can build. *)
Inductive built_dispatch : ServletDispatch -> Prop :=
  | bd_new : built_dispatch new_ServletDispatch
  | bd_add uri s d : built_dispatch d -> built_dispatch (add_servlet uri s d)
  | bd_add_cb uri cb d : built_dispatch d -> built_dispatch (add_servlet_cb uri cb d)
  | bd_add_glob uri s d : built_dispatch d -> built_dispatch (add_glob_servlet uri s d)
  | bd_add_glob_cb uri cb d : built_dispatch d -> built_dispatch (add_glob_servlet_cb uri cb d)
  | bd_del uri d : built_dispatch d -> built_dispatch (del_servlet uri d)
  | bd_del_glob uri d : built_dispatch d -> built_dispatch (del_glob_servlet uri d)
  | bd_default s d : built_dispatch d -> built_dispatch (set_default_servlet s d).

(** No pattern is registered twice. *)
Definition distinct (d : ServletDispatch) : Prop := NoDup (m_globs d).*1.

Lemma erase_glob_filter uri l :
  NoDup l.*1 -> erase_glob uri l = filter (fun e => e.1 <> uri) l.
Proof.
  induction l as [|e l IH]; intros H; [done|]. rewrite fmap_cons in H. apply NoDup_cons in H as [Hn H].
  cbn [erase_glob].
  case_bool_decide as E.
  - rewrite filter_cons_False by tauto. symmetry. apply filter_all.
    intros x Hx Ex. apply Hn. rewrite E, <- Ex. apply list_elem_of_fmap. by exists x.
  - rewrite filter_cons_True by done. by rewrite IH.
Qed.

Lemma erase_glob_distinct uri l : NoDup l.*1 -> NoDup (erase_glob uri l).*1 /\ uri ∉ (erase_glob uri l).*1.
Proof.
  intros H. rewrite erase_glob_filter by done. split.
  - induction l as [|e l IH]; [done|]. rewrite fmap_cons in H. apply NoDup_cons in H as [Hn H].
    rewrite filter_cons.
    case_decide; [|exact (IH H)]. rewrite fmap_cons. apply NoDup_cons. split; [|exact (IH H)].
    rewrite list_elem_of_fmap in *. intros (x & Ex & [_ Hx]%list_elem_of_filter). apply Hn. by exists x.
  - rewrite list_elem_of_fmap. intros (x & -> & [Hx _]%list_elem_of_filter). done.
Qed.

Lemma built_distinct d : built_dispatch d -> distinct d.
Proof.
  unfold distinct. induction 1 as [| | |uri s d _ IH|uri cb d _ IH| |uri d _ IH|]; try done; [constructor|..]; simpl.
  1-2: destruct (erase_glob_distinct uri _ IH) as [H1 H2]; rewrite fmap_app; apply NoDup_app; simpl;
       split_and!; [done|set_solver|apply NoDup_singleton].
  by apply erase_glob_distinct.
Qed.

(** The order of a request's candidates: the servlet registered for the path itself, then those
    registered for patterns that match, oldest first, then the default. *)
Definition candidates (uri : string) (d : ServletDispatch) : list ptr :=
  match m_datas d !! uri with Some s => [s] | None => [] end ++
  (snd <$> filter (fun e => fnmatch (c_str e.1) (c_str uri) = true) (m_globs d)) ++
  [m_default d].

Lemma find_filter (f : string * ptr -> bool) l :
  List.find f l = head (filter (fun e => f e = true) l).
Proof.
  induction l as [|e l IH]; [done|]. simpl. rewrite filter_cons. by destruct (f e).
Qed.

Lemma matched_candidate uri d : Some (get_matched_servlet uri d) = head (candidates uri d).
Proof.
  unfold get_matched_servlet, candidates. destruct (m_datas d !! uri) as [s|]; [done|].
  rewrite find_filter. by destruct (filter _ (m_globs d)).
Qed.

Lemma find_app_glob (f : string * ptr -> bool) l1 l2 :
  List.find f (l1 ++ l2)%list = match List.find f l1 with Some e => Some e | None => List.find f l2 end.
Proof. induction l1 as [|e l1 IH]; simpl; [done|]. by destruct (f e). Qed.

Lemma find_erase uri uri' l : NoDup l.*1 ->
  List.find (fun e => bool_decide (e.1 = uri')) (erase_glob uri l) =
  if decide (uri = uri') then None else List.find (fun e => bool_decide (e.1 = uri')) l.
Proof.
  intros H. rewrite erase_glob_filter by done. clear H. induction l as [|e l IH]; [by case_decide|].
  rewrite filter_cons. simpl. repeat case_decide; simpl; repeat case_bool_decide; simplify_eq; done.
Qed.

End servlets.


(** A servlet that has been set to null for a path hides the patterns and the default. *)
Example null_servlet_hides :
  get_matched_servlet (W := unit) (fun _ _ => true) "/x" (add_servlet "/x" None new_ServletDispatch) = None.
Proof. by vm_compute. Qed.

End Servlet.
