(* ===== verification/Grammar.v ===== *)
(** * Grammars of the protocol parsers: the notation of src/src/http/*.rl

    The two protocol parsers are machines that Ragel made of a grammar.  This file
    gives the expressions of these grammars a meaning, independent of any machine,
    and a procedure that decides whether a machine recognises an expression.

    An expression is built over a type of symbols, each a set of characters.  The
    operators are those the grammars use; [Guard a b] is Ragel's [a :> b]: as soon
    as what has been read is a word of [a] and the next character can begin a word
    of [b], that character begins [b] and [a] is not continued.  [Prod n a] is the
    production with number [n] and the body [a]: the number makes it cheap to see
    that two expressions are the same. *)

From stdpp Require Import prelude.
From Stdlib Require Import ZArith Lia.
From S2P Require Import Prelude.

Module Grammar.
Local Open Scope Z_scope.

Abbreviation word := (list Z).
Abbreviation language := (word -> Prop).

(** ** Languages *)
Definition concat_ (L M : language) : language := fun w => exists u v, w = u ++ v /\ L u /\ M v.
Inductive star (L : language) : language :=
  | star_nil : star L []
  | star_cons u v : L u -> star L v -> star L (u ++ v).
Definition starts (L : language) (c : Z) : Prop := exists v, L (c :: v).
(** No proper prefix in [L] is followed by a character that begins a word of [M]. *)
Definition unguarded (L M : language) (u : word) : Prop :=
  forall u1 c u2, u = u1 ++ c :: u2 -> L u1 -> ~ starts M c.
Definition guarded (L M : language) : language :=
  fun w => exists u v, w = u ++ v /\ L u /\ M v /\ unguarded L M u.
(** A word that can be completed. *)
Definition viable (L : language) (u : word) : Prop := exists v, L (u ++ v).
(** What a reader that stops at the first word it has read can find in [w]: it has not read a word yet, but
    can still; the first [k] characters are a word, the shortest; or it cannot go on behind [k] characters. *)
Definition awaited (L : language) (w : word) : Prop :=
  viable L w /\ forall j, (j <= length w)%nat -> ~ L (take j w).
Definition first_word (L : language) (w : word) (k : nat) : Prop :=
  (k <= length w)%nat /\ L (take k w) /\ forall j, (j < k)%nat -> ~ L (take j w).
Definition refused (L : language) (w : word) (k : nat) : Prop :=
  (k < length w)%nat /\ awaited L (take k w) /\ ~ viable L (take (S k) w).

(** ** Expressions *)
Inductive re (A : Type) :=
  | Eps
  | Sym (s : A)
  | Alt (a b : re A)
  | Seq (a b : re A)
  | Star (a : re A)
  | Guard (a b : re A)
  | Prod (n : Z) (a : re A).
#[global] Arguments Eps {A}.
#[global] Arguments Sym {A} s.
#[global] Arguments Alt {A} a b.
#[global] Arguments Seq {A} a b.
#[global] Arguments Star {A} a.
#[global] Arguments Guard {A} a b.
#[global] Arguments Prod {A} n a.

#[global] Instance re_eq_dec {A} `{EqDecision A} : EqDecision (re A).
Proof. solve_decision. Defined.

Section operators.
Context {A : Type}.
Implicit Types r : re A.

(** [a b c], [a | b | c], [a?], [a+], [a{n}], [a{n,m}] and [a{n,}]. *)
Fixpoint seq (l : list (re A)) : re A :=
  match l with [] => Eps | [a] => a | a :: l => Seq a (seq l) end.
Fixpoint alt (a : re A) (l : list (re A)) : re A :=
  match l with [] => a | b :: l => Alt a (alt b l) end.
Definition opt r : re A := Alt r Eps.
Definition plus r : re A := Seq r (Star r).
Definition times (n : nat) r : re A := seq (replicate n r).
Fixpoint at_most (n : nat) r : re A :=
  match n with O => Eps | S n => opt (Seq r (at_most n r)) end.
Definition between (n m : nat) r : re A := seq (replicate n r ++ [at_most (m - n) r]).
Definition at_least (n : nat) r : re A := seq (replicate n r ++ [Star r]).
End operators.

Section meaning.
Context {A : Type} `{EqDecision A} (mem : A -> Z -> bool).
Implicit Types r a b k x : re A.

Fixpoint lang r : language :=
  match r with
  | Eps => fun w => w = []
  | Sym s => fun w => exists c, w = [c] /\ mem s c = true
  | Alt a b => fun w => lang a w \/ lang b w
  | Seq a b => concat_ (lang a) (lang b)
  | Star a => star (lang a)
  | Guard a b => guarded (lang a) (lang b)
  | Prod _ a => lang a
  end.
Definition lang_any (l : list (re A)) : language := fun w => exists r, r ∈ l /\ lang r w.

(** ** Derivatives *)
(** Does the expression have the empty word? *)
Fixpoint nullable r : bool :=
  match r with
  | Eps | Star _ => true
  | Sym _ => false
  | Alt a b => if nullable a then true else nullable b
  | Seq a b | Guard a b => if nullable a then nullable b else false
  | Prod _ a => nullable a
  end.
(** Can a word begin with [c]?  (Of an expression without guards.) *)
Fixpoint first r (c : Z) : bool :=
  match r with
  | Eps => false
  | Sym s => mem s c
  | Alt a b => if first a c then true else first b c
  | Seq a b => if first a c then true else if nullable a then first b c else false
  | Star a => first a c
  | Guard a b => false
  | Prod _ a => first a c
  end.
Fixpoint cat r k : re A :=
  match r with
  | Eps => k
  | Seq a b => Seq a (cat b k)
  | _ => Seq r k
  end.
Fixpoint re_eqb (a b : re A) : bool :=
  match a, b with
  | Eps, Eps => true
  | Sym s, Sym t => bool_decide (s = t)
  | Alt a1 a2, Alt b1 b2 | Seq a1 a2, Seq b1 b2 | Guard a1 a2, Guard b1 b2 =>
    if re_eqb a1 b1 then re_eqb a2 b2 else false
  | Star a, Star b => re_eqb a b
  | Prod n _, Prod m _ => n =? m
  | _, _ => false
  end.
Fixpoint member {B} (f : B -> bool) (l : list B) : bool :=
  match l with [] => false | b :: l => if f b then true else member f l end.
Fixpoint nub (l : list (re A)) : list (re A) :=
  match l with
  | [] => []
  | a :: l => let l := nub l in if member (re_eqb a) l then l else a :: l
  end.
(** The partial derivatives: together they have the words that [r] has behind [c]. *)
Fixpoint pd (c : Z) r : list (re A) :=
  match r with
  | Eps => []
  | Sym s => if mem s c then [Eps] else []
  | Alt a b => pd c a ++ pd c b
  | Seq a b => ((fun x => cat x b) <$> pd c a) ++ (if nullable a then pd c b else [])
  | Star a => (fun x => cat x (Star a)) <$> pd c a
  | Guard a b =>
    if nullable a && first b c then pd c b
    else match nub (pd c a) with
         | [] => []
         | x :: l => [Guard (alt x l) b]
         end
  | Prod _ a => pd c a
  end.
Definition step (c : Z) (l : list (re A)) : list (re A) := nub (l ≫= pd c).

(** ** The derivative has the words it should *)
(** The symbols that occur are [good], the productions have their bodies, and a guard ends with an
    expression without guards. *)
Context (good : A -> bool) (body : Z -> re A).
Fixpoint plain r : bool :=
  match r with
  | Eps => true
  | Sym s => good s
  | Alt a b | Seq a b => plain a && plain b
  | Star a => plain a
  | Prod n a => plain a && bool_decide (a = body n)
  | Guard a b => false
  end.
Fixpoint ok r : bool :=
  match r with
  | Eps => true
  | Sym s => good s
  | Alt a b | Seq a b => ok a && ok b
  | Star a => ok a
  | Prod n a => ok a && bool_decide (a = body n)
  | Guard a b => ok a && plain b
  end.

Abbreviation oks := (Forall (fun r => ok r = true)).
Lemma plain_ok r : plain r = true -> ok r = true.
Proof. induction r; cbn; rewrite ?andb_true_iff; naive_solver. Qed.
Lemma re_eqb_refl a : re_eqb a a = true.
Proof.
  induction a; cbn; rewrite <- ?andb_lazy_alt, ?andb_true_iff; auto; [by apply bool_decide_eq_true|apply Z.eqb_refl].
Qed.
Lemma re_eqb_eq a b : ok a = true -> ok b = true -> re_eqb a b = true -> a = b.
Proof.
  revert b. induction a; intros []; cbn; try done;
    rewrite <- ?andb_lazy_alt, ?bool_decide_eq_true, ?andb_true_iff, ?bool_decide_eq_true, ?Z.eqb_eq;
    intuition (subst; f_equal; eauto using plain_ok).
Qed.
Lemma member_existsb {B} (f : B -> bool) l : member f l = existsb f l.
Proof. induction l as [|b l IH]; cbn; [done|]. by rewrite IH, <- orb_lazy_alt. Qed.
Lemma member_spec {B} (f : B -> bool) l : member f l = true <-> exists y, y ∈ l /\ f y = true.
Proof. rewrite member_existsb, existsb_exists. by setoid_rewrite list_elem_of_In. Qed.
Lemma nub_elem a l : a ∈ nub l -> a ∈ l.
Proof.
  induction l as [|b l IH]; [done|]. cbn. destruct (member _ _); rewrite !elem_of_cons; naive_solver.
Qed.
Lemma elem_of_nub a l : oks l -> a ∈ nub l <-> a ∈ l.
Proof.
  intros Hl. split; [apply nub_elem|]. induction Hl as [|b l Hb Hl IH]; [done|]. cbn.
  destruct (member _ _) eqn:E; rewrite !elem_of_cons; [|naive_solver].
  apply member_spec in E as (x & Hx & E). intros [->|]; [|naive_solver].
  enough (b = x) by congruence. apply re_eqb_eq; [done| |done].
  exact (proj1 (Forall_forall _ _) Hl x (nub_elem _ _ Hx)).
Qed.

Lemma concat_nil L M : concat_ L M [] <-> L [] /\ M [].
Proof.
  split.
  - intros (u & v & E & Hu & Hv). by destruct u, v.
  - intros [H1 H2]. by exists [], [].
Qed.
Lemma nullable_spec r : nullable r = true <-> lang r [].
Proof.
  induction r as [|s|a IHa b IHb|a IHa b IHb|a IHa|a IHa b IHb|n a IHa]; cbn; rewrite <- ?andb_lazy_alt, <- ?orb_lazy_alt.
  - done.
  - split; [done|]. by intros (c & ? & _).
  - by rewrite orb_true_iff, IHa, IHb.
  - by rewrite andb_true_iff, IHa, IHb, concat_nil.
  - split; [constructor|done].
  - rewrite andb_true_iff, IHa, IHb. split.
    + intros [Ha Hb]. exists [], []. split_and!; [done..|]. by intros [] ? ? ?.
    + intros (u & v & E & Hu & Hv & _). by destruct u, v.
  - done.
Qed.

Lemma concat_assoc L M N w : concat_ (concat_ L M) N w <-> concat_ L (concat_ M N) w.
Proof.
  split.
  - intros (? & v & -> & (u1 & u2 & -> & ? & ?) & ?). exists u1, (u2 ++ v). rewrite app_assoc. split_and!; [done..|].
    by exists u2, v.
  - intros (u & ? & -> & ? & v1 & v2 & -> & ? & ?). exists (u ++ v1), v2. rewrite app_assoc. split_and!; [done| |done].
    by exists u, v1.
Qed.
Lemma concat_ext L L' M M' : (forall w, L w <-> L' w) -> (forall w, M w <-> M' w) ->
  forall w, concat_ L M w <-> concat_ L' M' w.
Proof. intros HL HM w. unfold concat_. by setoid_rewrite HL; setoid_rewrite HM. Qed.
Lemma lang_cat r k w : lang (cat r k) w <-> concat_ (lang r) (lang k) w.
Proof.
  revert w. induction r as [|s|a IHa b IHb|a IHa b IHb|a IHa|a IHa b IHb|n a IHa]; intros w; try done.
  - cbn. split; [intros H; by exists [], w|]. by intros (u & v & -> & -> & H).
  - cbn. rewrite concat_assoc. by apply concat_ext.
Qed.

Lemma lang_any_app l1 l2 w : lang_any (l1 ++ l2) w <-> lang_any l1 w \/ lang_any l2 w.
Proof. unfold lang_any. setoid_rewrite elem_of_app. naive_solver. Qed.
Lemma lang_any_cat l k w :
  lang_any ((fun x => cat x k) <$> l) w <-> concat_ (lang_any l) (lang k) w.
Proof.
  unfold lang_any. setoid_rewrite list_elem_of_fmap. split.
  - intros (? & (x & -> & Hx) & Hw). apply lang_cat in Hw as (u & v & -> & Hu & Hv).
    exists u, v. naive_solver.
  - intros (u & v & -> & (x & Hx & Hu) & Hv). exists (cat x k). split; [by exists x|].
    apply lang_cat. by exists u, v.
Qed.
Lemma lang_any_nub l w : oks l -> lang_any (nub l) w <-> lang_any l w.
Proof. intros Hl. unfold lang_any. split; intros (r & Hr & Hw); exists r; by rewrite elem_of_nub in *. Qed.
Lemma lang_alt x l w : lang (alt x l) w <-> lang_any (x :: l) w.
Proof.
  unfold lang_any. revert x. induction l as [|y l IH]; intros x; cbn.
  - split; [intros; exists x; set_solver|]. intros (r & Hr & Hw). by apply list_elem_of_singleton in Hr as ->.
  - rewrite IH. split.
    + intros [H|(r & Hr & H)]; [exists x|exists r]; by rewrite elem_of_cons; auto.
    + intros (r & [->|Hr]%elem_of_cons & H); [by left|right; by exists r].
Qed.

(** A star from its first word that is not empty. *)
Lemma star_behind L c w : star L (c :: w) <-> concat_ (fun u => L (c :: u)) (star L) w.
Proof.
  split.
  - remember (c :: w) as cw eqn:E. intros H. revert c w E.
    induction H as [|u v Hu Hv IH]; intros c w E; [done|]. destruct u as [|c' u].
    + by apply IH.
    + injection E as -> <-. by exists u, v.
  - intros (u & v & -> & Hu & Hv). by apply (star_cons L (c :: u) v).
Qed.
Lemma concat_behind L M c w :
  concat_ L M (c :: w) <-> concat_ (fun u => L (c :: u)) M w \/ (L [] /\ M (c :: w)).
Proof.
  split.
  - intros ([|c' u] & v & E & Hu & Hv); [right; by simplify_eq/=|]. injection E as <- ->. left. by exists u, v.
  - intros [(u & v & -> & Hu & Hv)|[H1 H2]]; [by exists (c :: u), v|by exists [], (c :: w)].
Qed.
Lemma guarded_ext L L' M : (forall w, L w <-> L' w) -> forall w, guarded L M w <-> guarded L' M w.
Proof. intros HL w. unfold guarded, unguarded. by setoid_rewrite HL. Qed.
(** Behind a character that must begin [M], and behind another. *)
Lemma guarded_enter L M c w : L [] -> starts M c -> guarded L M (c :: w) <-> M (c :: w).
Proof.
  intros HL HM. split.
  - intros ([|c' u] & v & E & Hu & Hv & Hg); [by simplify_eq/=|]. injection E as <- ->.
    by destruct (Hg [] c u).
  - intros H. exists [], (c :: w). split_and!; [done..|]. by intros [] ? ? ?.
Qed.
Lemma guarded_stay L M c w : ~ (L [] /\ starts M c) -> guarded L M (c :: w) <-> guarded (fun u => L (c :: u)) M w.
Proof.
  intros Hn. split.
  - intros ([|c' u] & v & E & Hu & Hv & Hg).
    + simplify_eq/=. destruct Hn. split; [done|by exists w].
    + injection E as <- ->. exists u, v. split_and!; [done..|]. intros u1 d u2 -> H1. by apply (Hg (c :: u1) d u2).
  - intros (u & v & -> & Hu & Hv & Hg). exists (c :: u), v. split_and!; [done..|].
    intros [|c' u1] d u2 E H1 H2; injection E as <- ->; [by apply Hn|]. by apply (Hg u1 d u2).
Qed.

(** ** Derivatives of expressions over inhabited symbols *)
Context (good_inhabited : forall s, good s = true -> exists c, mem s c = true).

Lemma plain_inhabited r : plain r = true -> exists w, lang r w.
Proof.
  induction r as [|s|a IHa b IHb|a IHa b IHb|a IHa|a IHa b IHb|n a IHa]; cbn; rewrite ?andb_true_iff.
  - by exists [].
  - intros [c Hc]%good_inhabited. by exists [c], c.
  - intros [[w Hw]%IHa _]. exists w. by left.
  - intros [[u Hu]%IHa [v Hv]%IHb]. exists (u ++ v). by exists u, v.
  - exists []. constructor.
  - done.
  - intros [Ha _]. by apply IHa.
Qed.
Lemma first_spec r c : plain r = true -> first r c = true <-> starts (lang r) c.
Proof.
  unfold starts.
  induction r as [|s|a IHa b IHb|a IHa b IHb|a IHa|a IHa b IHb|n a IHa]; cbn;
    rewrite <- ?andb_lazy_alt, <- ?orb_lazy_alt, ?andb_true_iff, ?orb_true_iff; intros Hp.
  - split; [done|]. by intros [v ?].
  - split; [intros H; by exists [], c|]. intros (v & d & E & H). by simplify_eq.
  - destruct Hp as [Ha Hb]. rewrite (IHa Ha), (IHb Hb). naive_solver.
  - destruct Hp as [Ha Hb]. rewrite andb_true_iff, (IHa Ha), (IHb Hb), nullable_spec. split.
    + intros [[v Hv]|[H1 [v Hv]]].
      * destruct (plain_inhabited b Hb) as [w Hw]. exists (v ++ w). by exists (c :: v), w.
      * exists v. by exists [], (c :: v).
    + intros (v & [H|H]%concat_behind); [|naive_solver]. destruct H as (u & ? & _ & Hu & _). naive_solver.
  - rewrite (IHa Hp). split.
    + intros [v Hv]. exists v. apply star_behind. exists v, []. rewrite app_nil_r. split_and!; [done..|constructor].
    + intros (v & (u & ? & _ & Hu & _)%star_behind). by exists u.
  - done.
  - by apply IHa, Hp.
Qed.

Lemma cat_ok x k : ok x = true -> ok k = true -> ok (cat x k) = true.
Proof. revert k. induction x; cbn; intros; rewrite ?andb_true_iff in *; naive_solver. Qed.
Lemma alt_ok x l : ok x = true -> oks l -> ok (alt x l) = true.
Proof.
  intros Hx Hl. revert x Hx. induction Hl as [|y l Hy Hl IH]; intros x Hx; cbn; [done|]. by rewrite Hx, IH.
Qed.
Lemma pd_ok c r : ok r = true -> Forall (fun x => ok x = true) (pd c r).
Proof.
  induction r as [|s|a IHa b IHb|a IHa b IHb|a IHa|a IHa b IHb|n a IHa]; cbn; rewrite ?andb_true_iff; intros Ho.
  - done.
  - by destruct (mem s c); auto.
  - apply Forall_app. naive_solver.
  - destruct Ho as [Ha Hb]. apply Forall_app. split; [|destruct (nullable a); auto].
    apply Forall_fmap. eapply Forall_impl; [by apply IHa|]. intros x Hx. by apply cat_ok.
  - apply Forall_fmap. eapply Forall_impl; [by apply IHa|]. intros x Hx. by apply cat_ok.
  - destruct Ho as [Ha Hb]. destruct (nullable a && first b c); [by apply IHb, plain_ok|].
    destruct (nub (pd c a)) as [|x l] eqn:En; [done|]. constructor; [|done]. cbn. rewrite Hb, andb_true_r.
    assert (oks (x :: l)) as [??]%Forall_cons; [|by apply alt_ok].
    rewrite <- En. apply Forall_forall. intros y Hy. exact (proj1 (Forall_forall _ _) (IHa Ha) y (nub_elem _ _ Hy)).
  - by apply IHa, Ho.
Qed.
(** The partial derivatives by [c] have the words of [r] behind [c]. *)
Lemma pd_spec c r w : ok r = true -> lang_any (pd c r) w <-> lang r (c :: w).
Proof.
  revert w. induction r as [|s|a IHa b IHb|a IHa b IHb|a IHa|a IHa b IHb|n a IHa]; intros w; cbn -[lang_any];
    rewrite ?andb_true_iff; intros Ho.
  - split; [|done]. intros (r & Hr & _). by apply elem_of_nil in Hr.
  - unfold lang_any. destruct (mem s c) eqn:E.
    + setoid_rewrite list_elem_of_singleton. split; [intros (r & -> & ->); by exists c|].
      intros (d & ? & _). exists Eps. by simplify_eq.
    + setoid_rewrite elem_of_nil. split; [naive_solver|]. intros (d & Ed & Hd). injection Ed as <- ->. congruence.
  - destruct Ho as [Ha Hb]. by rewrite lang_any_app, IHa, IHb.
  - destruct Ho as [Ha Hb]. rewrite lang_any_app, lang_any_cat, concat_behind.
    rewrite (concat_ext _ _ _ _ (fun u => IHa u Ha) (fun _ => iff_refl _)). apply or_iff_compat_l.
    rewrite <- nullable_spec. destruct (nullable a); [rewrite IHb by done; naive_solver|].
    split; [|naive_solver]. intros (r & Hr & _). by apply elem_of_nil in Hr.
  - rewrite lang_any_cat, star_behind. apply (concat_ext _ _ _ _ (fun u => IHa u Ho) (fun _ => iff_refl _)).
  - destruct Ho as [Ha Hb]. destruct (nullable a && first b c) eqn:E.
    + apply andb_true_iff in E as [E1%nullable_spec E2%first_spec]; [|done].
      rewrite IHb by (by apply plain_ok). by rewrite guarded_enter.
    + rewrite guarded_stay.
      * rewrite <- (guarded_ext _ _ _ (fun u => IHa u Ha)). destruct (nub (pd c a)) as [|x l] eqn:En.
        -- split; [intros (r & Hr & _); by apply elem_of_nil in Hr|].
           intros (u & v & _ & Hu & _). apply lang_any_nub in Hu; [|by apply pd_ok]. rewrite En in Hu.
           destruct Hu as (r & Hr & _). by apply elem_of_nil in Hr.
        -- unfold lang_any at 1. setoid_rewrite list_elem_of_singleton.
           rewrite <- (guarded_ext _ _ _ (fun u => lang_any_nub (pd c a) u (pd_ok c a Ha))). rewrite En.
           rewrite <- (guarded_ext _ _ _ (lang_alt x l)). split; [by intros (r & -> & H)|]. intros H. by exists (Guard (alt x l) b).
      * intros [H1%nullable_spec H2]. apply first_spec in H2; [|done]. by rewrite H1, H2 in E.
  - by apply IHa, Ho.
Qed.
Lemma pds_ok c l : oks l -> oks (l ≫= pd c).
Proof.
  rewrite !Forall_forall. intros Hl x (r & Hx & Hr)%list_elem_of_bind.
  exact (proj1 (Forall_forall _ _) (pd_ok c r (Hl r Hr)) x Hx).
Qed.
Lemma step_spec c l w : oks l -> lang_any (step c l) w <-> lang_any l (c :: w).
Proof.
  intros Hl. unfold step. rewrite lang_any_nub by (by apply pds_ok). unfold lang_any. rewrite Forall_forall in Hl.
  setoid_rewrite list_elem_of_bind. split.
  - intros (x & (r & Hx & Hr) & Hw). exists r. split; [done|]. apply pd_spec; [by apply Hl|]. by exists x.
  - intros (r & Hr & Hw). apply pd_spec in Hw as (x & Hx & Hw); [|by apply Hl]. exists x. naive_solver.
Qed.
Lemma step_plain c l : oks l -> oks (step c l).
Proof.
  intros Hl%(pds_ok c). rewrite Forall_forall in *. intros x Hx%nub_elem. by apply Hl.
Qed.

(** A language given by an expression is decidable. *)
Lemma lang_any_dec l w : oks l -> lang_any l w \/ ~ lang_any l w.
Proof.
  revert l. induction w as [|c w IH]; intros l Hl.
  - destruct (existsb nullable l) eqn:E.
    + left. apply existsb_exists in E as (r & Hr%list_elem_of_In & Hn%nullable_spec). by exists r.
    + right. intros (r & Hr%list_elem_of_In & Hn%nullable_spec).
      assert (existsb nullable l = true) by (apply existsb_exists; eauto). congruence.
  - rewrite <- step_spec by done. by apply IH, step_plain.
Qed.
Lemma lang_dec r w : ok r = true -> lang r w \/ ~ lang r w.
Proof.
  intros Hr. destruct (lang_any_dec [r] w) as [(x & Hx & H)|H].
  - by repeat constructor.
  - apply list_elem_of_singleton in Hx as ->. by left.
  - right. intros Hw. apply H. exists r. by rewrite list_elem_of_singleton.
Qed.
(** A guarded expression has a word: one of [L], cut where [M] must begin. *)
Lemma guarded_inhabited (L M : language) :
  (forall u, L u \/ ~ L u) -> (forall c, starts M c \/ ~ starts M c) ->
  (exists u, L u) -> (exists v, M v) -> exists w, guarded L M w.
Proof.
  intros HL HM [u Hu] [v Hv]. revert L HL Hu. induction u as [|c u IH]; intros L HL Hu.
  - exists v, [], v. split_and!; [done..|]. by intros [] ? ? ?.
  - assert ((L [] /\ starts M c) \/ ~ (L [] /\ starts M c)) as [[H1 [v' H2]]|H].
    { destruct (HL []), (HM c); tauto. }
    + exists (c :: v'). apply guarded_enter; [done|by exists v'|done].
    + destruct (IH (fun u => L (c :: u))) as [w Hw]; [by intros|done|]. exists (c :: w). by apply guarded_stay.
Qed.
Lemma ok_inhabited r : ok r = true -> exists w, lang r w.
Proof.
  induction r as [|s|a IHa b IHb|a IHa b IHb|a IHa|a IHa b IHb|n a IHa]; cbn; rewrite ?andb_true_iff.
  - by exists [].
  - intros [c Hc]%good_inhabited. by exists [c], c.
  - intros [[w Hw]%IHa _]. exists w. by left.
  - intros [[u Hu]%IHa [v Hv]%IHb]. exists (u ++ v). by exists u, v.
  - exists []. constructor.
  - intros [Ha Hb]. apply guarded_inhabited; [intros u; by apply lang_dec| |by apply IHa|by apply plain_inhabited].
    intros c. rewrite <- first_spec by done. destruct (first b c); [by left|by right].
  - intros [Ha _]. by apply IHa.
Qed.

(** ** Machines *)
(** The characters, in classes: those from [lo] to [hi] are treated as [c] is. *)
Context (classes : list (Z * Z * Z)).
Definition letter (c : Z) : Prop := -128 <= c <= 127.
Definition class_of (d c : Z) : Prop := exists lo hi, (lo, hi, c) ∈ classes /\ lo <= d <= hi.
Context (classes_cover : forall d, letter d -> exists c, class_of d c).
Context (good_class : forall s d c, good s = true -> class_of d c -> mem s d = mem s c).

Lemma first_class r d c : plain r = true -> class_of d c -> first r d = first r c.
Proof.
  intros Hr Hc. induction r; cbn in *; rewrite ?andb_true_iff in *; try done; [by apply good_class|..];
    rewrite ?IHr1, ?IHr2 by naive_solver; try done; apply IHr; naive_solver.
Qed.
Lemma pd_class r d c : ok r = true -> class_of d c -> pd d r = pd c r.
Proof.
  intros Hr Hc. induction r; cbn in *; rewrite ?andb_true_iff in *; try done.
  - by rewrite (good_class _ d c).
  - by rewrite IHr1, IHr2 by naive_solver.
  - by rewrite IHr1, IHr2 by naive_solver.
  - by rewrite IHr.
  - destruct Hr as [H1 H2]. rewrite IHr1, IHr2 by auto using plain_ok. by rewrite (first_class _ d c).
  - apply IHr. naive_solver.
Qed.
Lemma step_class l d c : oks l -> class_of d c -> step d l = step c l.
Proof.
  intros Hl Hc. unfold step. f_equal. induction Hl as [|r l Hr Hl IH]; [done|]. cbn. by rewrite IH, (pd_class r d c).
Qed.

(** A machine: 0 is the state without a way out. *)
Context (next : Z -> Z -> Z) (final : Z -> bool).
Fixpoint run (n : Z) (w : word) : Z :=
  match w with
  | [] => n
  | c :: w => if next n c =? 0 then 0 else run (next n c) w
  end.

(** The pairs of a state and the expressions whose words it should accept. *)
Abbreviation pair := (Z * list (re A))%type.
Fixpoint moves (row : Z -> Z) (l : list (re A)) (cs : list (Z * Z * Z)) : option (list pair) :=
  match cs with
  | [] => Some []
  | (lo, hi, c) :: cs =>
    let m := row c in
    if forallb (fun d => row d =? m) (seqZ lo (hi - lo + 1)) then
      match moves row l cs with
      | None => None
      | Some ms =>
        match m =? 0, step c l with
        | true, [] => Some ms
        | false, x :: k => Some ((m, x :: k) :: ms)
        | _, _ => None
        end
      end
    else None
  end.
Fixpoint same_list (l k : list (re A)) : bool :=
  match l, k with
  | [], [] => true
  | a :: l, b :: k => if re_eqb a b then same_list l k else false
  | _, _ => false
  end.
Definition same_pair (p q : pair) : bool := if fst p =? fst q then same_list (snd p) (snd q) else false.
(** The pairs that are reached from those in [todo]; [None] when the machine and the expressions differ. *)
Fixpoint explore (fuel : nat) (seen todo : list pair) : option (list pair) :=
  match todo with
  | [] => Some seen
  | p :: todo =>
    match fuel with
    | O => None
    | S fuel =>
      if member (same_pair p) seen then explore fuel seen todo
      else if Bool.eqb (final (fst p)) (existsb nullable (snd p)) then
        match moves (next (fst p)) (snd p) classes with
        | Some ms => explore fuel (p :: seen) (ms ++ todo)
        | None => None
        end
      else None
    end
  end.
Definition recognises (fuel : nat) (start : Z) (r : re A) : bool :=
  ok r && match explore fuel [] [(start, [r])] with Some _ => true | None => false end.

(** ** A machine that passes recognises the expression *)
(** What a move leads to: nowhere on both sides, or to a pair in [P]. *)
Definition moves_in (P : list pair) (n : Z) (l : list (re A)) (d : Z) : Prop :=
  (next n d = 0 /\ step d l = []) \/ (next n d <> 0 /\ step d l <> [] /\ (next n d, step d l) ∈ P).
Definition closed_at (P : list pair) (p : pair) : Prop :=
  final (fst p) = existsb nullable (snd p) /\ oks (snd p) /\ forall d, letter d -> moves_in P (fst p) (snd p) d.

Lemma same_pair_eq p q : oks (snd p) -> oks (snd q) -> same_pair p q = true -> p = q.
Proof.
  destruct p as [n l], q as [m k]. unfold same_pair. cbn. intros Hl Hk. rewrite <- andb_lazy_alt.
  intros [->%Z.eqb_eq H]%andb_true_iff. f_equal. revert k Hk H.
  induction Hl as [|a l Ha Hl IH]; intros [|b k] Hk; cbn; try done.
  apply Forall_cons in Hk as [Hb Hk]. rewrite <- andb_lazy_alt. intros [E1 E2]%andb_true_iff.
  f_equal; [by apply re_eqb_eq|by apply IH].
Qed.
Lemma moves_spec n l : forall cs ms, moves (next n) l cs = Some ms ->
  (forall q, q ∈ ms -> exists c, q = (next n c, step c l)) /\
  (forall lo hi c, (lo, hi, c) ∈ cs ->
    (forall d, lo <= d <= hi -> next n d = next n c) /\ moves_in ms n l c).
Proof.
  induction cs as [|[[lo hi] c] cs IH]; intros ms; cbn.
  { intros [= <-]. split; intros; by decompose_list_elem_of || set_solver. }
  destruct (forallb _ _) eqn:Er; [|done]. destruct (moves (next n) l cs) as [ms'|]; [|done].
  destruct (IH ms' eq_refl) as [I1 I2].
  assert (forall d, lo <= d <= hi -> next n d = next n c) as Hr.
  { intros d Hd. rewrite forallb_forall in Er. apply Z.eqb_eq, Er, list_elem_of_In, elem_of_seqZ. lia. }
  destruct (next n c =? 0) eqn:E0; [apply Z.eqb_eq in E0|apply Z.eqb_neq in E0];
    destruct (step c l) as [|x k] eqn:Es; intros [= <-].
  - split; [done|]. intros lo' hi' c' [[= -> -> ->]|H]%elem_of_cons; [|by apply (I2 lo' hi')].
    split; [done|by left].
  - split.
    + intros q [->|H]%elem_of_cons; [|by apply I1]. exists c. by rewrite Es.
    + intros lo' hi' c' [[= -> -> ->]|H]%elem_of_cons.
      * split; [done|]. right. rewrite Es. split_and!; [done..|by left].
      * destruct (I2 lo' hi' c' H) as [J1 J2]. split; [done|]. destruct J2 as [?|(? & ? & ?)]; [by left|].
        right. split_and!; [done..|by right].
Qed.
(** Everything that has been seen leads to what has been seen or is to be done. *)
Lemma explore_closed fuel : forall seen todo P,
  (forall p, p ∈ seen -> closed_at (seen ++ todo) p) -> Forall (fun p => oks (snd p)) todo ->
  explore fuel seen todo = Some P -> (forall p, p ∈ P -> closed_at P p) /\ (forall p, p ∈ seen ++ todo -> p ∈ P).
Proof.
  induction fuel as [|fuel IH]; intros seen [|p todo] P Hs Ht; cbn; try done.
  { intros [= <-]. rewrite app_nil_r in Hs. rewrite app_nil_r. done. }
  { intros [= <-]. rewrite app_nil_r in Hs. rewrite app_nil_r. done. }
  apply Forall_cons in Ht as [Hp Ht]. destruct (member _ _) eqn:Em.
  - apply member_spec in Em as (q & Hq & E). apply same_pair_eq in E as <-; [|done|by apply (Hs q Hq)]. intros HP.
    assert (forall q, q ∈ seen ++ p :: todo -> q ∈ seen ++ todo) as Hin by set_solver.
    destruct (IH seen todo P) as [I1 I2]; [|done..|]; [|by split; auto].
    intros q Hq'. destruct (Hs q Hq') as (H1 & H2 & H3). split_and!; [done..|].
    intros d Hd. destruct (H3 d Hd) as [?|(? & ? & ?)]; [by left|right]. split_and!; [done..|by apply Hin].
  - destruct (Bool.eqb _ _) eqn:Ef; [|done]. apply Bool.eqb_prop in Ef.
    destruct (moves _ _ _) as [ms|] eqn:Eq; [|done]. destruct (moves_spec _ _ _ _ Eq) as [M1 M2]. intros HP.
    destruct (IH (p :: seen) (ms ++ todo) P) as [I1 I2]; [| |done|].
    + intros q [->|Hq]%elem_of_cons.
      * split_and!; [done..|]. intros d Hd. destruct (classes_cover d Hd) as (c & Hc).
        unfold moves_in. rewrite (step_class _ d c) by done. destruct Hc as (lo & hi & Hc & Hr).
        destruct (M2 lo hi c Hc) as [N1 N2]. rewrite (N1 d Hr). destruct N2 as [?|(? & ? & ?)]; [by left|right]. split_and!; [done..|]. set_solver.
      * destruct (Hs q Hq) as (H1 & H2 & H3). split_and!; [done..|].
        intros d Hd. destruct (H3 d Hd) as [?|(? & ? & ?)]; [by left|right]. split_and!; [done..|]. set_solver.
    + apply Forall_app. split; [|done]. apply Forall_forall. intros q (c & ->)%M1. cbn. by apply step_plain.
    + split; [done|]. intros q Hq. apply I2. set_solver.
Qed.

Lemma lang_any_nil w : ~ lang_any [] w.
Proof. intros (r & Hr & _). by apply elem_of_nil in Hr. Qed.
Lemma nullable_any l : existsb nullable l = true <-> lang_any l [].
Proof.
  rewrite existsb_exists. unfold lang_any. setoid_rewrite nullable_spec. by setoid_rewrite list_elem_of_In.
Qed.
(** After a word, a machine whose pairs are closed is dead, and so are the expressions, or it is at a pair
    whose expressions have exactly the continuations of the word. *)
Lemma closed_run P w : (forall p, p ∈ P -> closed_at P p) -> Forall letter w -> forall n l,
  (n, l) ∈ P -> n <> 0 -> l <> [] ->
  (run n w = 0 /\ forall v, ~ lang_any l (w ++ v)) \/
  (run n w <> 0 /\ exists l', (run n w, l') ∈ P /\ l' <> [] /\ forall v, lang_any l (w ++ v) <-> lang_any l' v).
Proof.
  intros HP Hw. induction Hw as [|c w Hc Hw IH]; intros n l Hp Hn Hl; cbn.
  - right. split; [done|]. by exists l.
  - destruct (HP _ Hp) as (_ & Ho & Hm). cbn in Ho. destruct (Hm c Hc) as [[E1 E2]|(E1 & E2 & E3)]; cbn [fst snd] in *.
    + left. rewrite E1. split; [done|]. intros v. rewrite <- step_spec, E2 by done. apply lang_any_nil.
    + apply Z.eqb_neq in E1 as E. rewrite E. pose proof (fun v => step_spec c l (w ++ v) Ho) as Hst.
      destruct (IH _ _ E3 E1 E2) as [[H1 H2]|(H1 & l' & H2 & H3 & H4)].
      * left. split; [done|]. intros v. by rewrite <- Hst.
      * right. split; [done|]. exists l'. split_and!; [done..|]. intros v. by rewrite <- Hst.
Qed.

(** The machine accepts exactly the words of the expression, and it is dead exactly when the word has no
    continuation in it. *)
Theorem recognises_spec fuel start r w :
  recognises fuel start r = true -> start <> 0 -> Forall letter w ->
  (run start w <> 0 /\ final (run start w) = true <-> lang r w) /\
  (run start w <> 0 <-> viable (lang r) w).
Proof.
  unfold recognises. intros [Ho E]%andb_true_iff Hs Hw.
  destruct (explore _ _ _) as [P|] eqn:EP; [|done].
  apply explore_closed in EP as [HP Hin]; [|intros p Hp; by apply elem_of_nil in Hp|by repeat constructor].
  assert (forall v, lang_any [r] v <-> lang r v) as Hr.
  { intros v. unfold lang_any. setoid_rewrite list_elem_of_singleton. naive_solver. }
  destruct (closed_run P w HP Hw start [r]) as [[E0 H]|[E0 (l' & H1 & H2 & H3)]]; [apply Hin; by left|done..| |].
  - rewrite E0. split; (split; [tauto|]); [|intros [v Hv]]; intros; exfalso; [eapply (H [])|eapply (H v)];
      rewrite ?app_nil_r; by apply Hr.
  - destruct (HP _ H1) as (Hf & Ho' & _). cbn in Hf, Ho'. split.
    + rewrite Hf, nullable_any, <- (H3 []), app_nil_r, Hr. tauto.
    + split; [intros _|done]. destruct l' as [|x l']; [done|]. apply Forall_cons in Ho' as [Hx _].
      destruct (ok_inhabited x Hx) as [v Hv]. exists v. apply Hr, H3. exists x. split; [by left|done].
Qed.

(** ** A machine that stops at a final state *)
(** The number of characters read, and the state then; a character without a move is not read. *)
Fixpoint scan (n : Z) (w : word) : nat * Z :=
  match w with
  | [] => (0%nat, n)
  | c :: w =>
    let m := next n c in
    if m =? 0 then (0%nat, 0)
    else if final m then (1%nat, m)
    else let '(k, m) := scan m w in (S k, m)
  end.
Lemma run_snoc u : forall n c, run n u <> 0 -> run n (u ++ [c]) = next (run n u) c.
Proof.
  induction u as [|d u IH]; intros n c; cbn.
  - intros _. by destruct (next n c =? 0) eqn:E; [apply Z.eqb_eq in E|].
  - destruct (next n d =? 0) eqn:E; [done|]. apply IH.
Qed.
Lemma awaited_snoc (L : language) u c : awaited L u -> viable L (u ++ [c]) -> ~ L (u ++ [c]) -> awaited L (u ++ [c]).
Proof.
  intros [_ Hj] Hv Hn. split; [done|]. rewrite length_app. cbn. intros j Hl.
  destruct (decide (j <= length u)%nat); [rewrite take_app_le by done; auto|].
  by rewrite take_ge by (rewrite length_app; cbn; lia).
Qed.

(** Reading on from where the word [u] has led. *)
Theorem scan_reads fuel start r w : recognises fuel start r = true -> start <> 0 -> Forall letter w -> forall u,
  Forall letter u -> run start u <> 0 -> awaited (lang r) u ->
  let '(k, m) := scan (run start u) w in
  if m =? 0 then refused (lang r) (u ++ w) (length u + k)
  else if final m then first_word (lang r) (u ++ w) (length u + k)
  else k = length w /\ m = run start (u ++ w) /\ awaited (lang r) (u ++ w).
Proof.
  intros Hr Hs Hw. induction Hw as [|c w Hc Hw IH]; intros u Hu Hn Ha; cbn [scan].
  - rewrite (proj2 (Z.eqb_neq _ _) Hn). destruct (final (run start u)) eqn:Ef; [|by rewrite app_nil_r].
    destruct (recognises_spec fuel start r u Hr Hs Hu) as [S1 _]. destruct Ha as [_ Ha].
    destruct (Ha (length u)); [done|]. rewrite take_ge by done. by apply S1.
  - pose proof (run_snoc u start c Hn) as En.
    assert (Forall letter (u ++ [c])) as Huc by (apply Forall_app; auto).
    destruct (recognises_spec fuel start r (u ++ [c]) Hr Hs Huc) as [S1 S2]. rewrite En in S1, S2.
    replace (u ++ c :: w) with ((u ++ [c]) ++ w) by (by rewrite <- app_assoc).
    destruct (next (run start u) c =? 0) eqn:E0.
    + apply Z.eqb_eq in E0. rewrite Z.eqb_refl, Nat.add_0_r. split_and!.
      * rewrite !length_app. cbn. lia.
      * by rewrite take_app_le, take_app_length by (rewrite length_app; cbn; lia).
      * rewrite take_app_le, take_ge by (rewrite length_app; cbn; lia). rewrite <- S2. tauto.
    + apply Z.eqb_neq in E0. destruct (final (next (run start u) c)) eqn:Ef.
      * rewrite (proj2 (Z.eqb_neq _ _) E0), Ef. split_and!.
        -- rewrite !length_app. cbn. lia.
        -- rewrite take_app_le, take_ge by (rewrite length_app; cbn; lia). by apply S1.
        -- intros j Hj. rewrite <- app_assoc, take_app_le by lia. apply Ha. lia.
      * assert (awaited (lang r) (u ++ [c])) as Ha'.
        { apply awaited_snoc; [done|by apply S2|]. intros H%S1. destruct H as [_ H]. congruence. }
        specialize (IH (u ++ [c]) Huc ltac:(by rewrite En) Ha'). rewrite En in IH.
        destruct (scan (next (run start u) c) w) as [k m].
        replace (length u + S k)%nat with (length (u ++ [c]) + k)%nat by (rewrite length_app; cbn; lia).
        destruct (m =? 0); [done|]. destruct (final m); [done|]. cbn. naive_solver.
Qed.
End meaning.

(** ** A machine, its grammar and the test that they agree *)
Section recogniser.
Context {A : Type} `{EqDecision A} (mem : A -> Z -> bool) (alphabet : list A) (body : Z -> re A).
Context (classes : list (Z * Z * Z)) (next : Z -> Z -> Z) (final : Z -> bool) (start : Z) (main : re A).

Definition chars : list Z := seqZ (-128) 256.
Definition good (s : A) : bool := existsb (fun t => bool_decide (s = t)) alphabet.
(** The classes cover the characters, and no symbol distinguishes the characters of a class. *)
Definition covers : bool :=
  forallb (fun d => existsb (fun '(lo, hi, _) => (lo <=? d) && (d <=? hi)) classes) chars.
Definition respects (s : A) : bool :=
  existsb (mem s) chars &&
  forallb (fun '(lo, hi, c) => forallb (fun d => Bool.eqb (mem s d) (mem s c)) (seqZ lo (hi - lo + 1))) classes.
Definition passes (fuel : nat) : bool :=
  covers && forallb respects alphabet && (1 <=? start) && negb (final start) && negb (final 0) &&
  recognises mem good body classes next final fuel start main.

Lemma good_in s : good s = true -> s ∈ alphabet.
Proof. unfold good. rewrite existsb_exists. intros (t & Ht%list_elem_of_In & H%bool_decide_eq_true). by subst. Qed.
Lemma covers_spec d : covers = true -> letter d -> exists c, class_of classes d c.
Proof.
  unfold covers. rewrite forallb_forall. intros H Hd.
  specialize (H d ltac:(apply list_elem_of_In, elem_of_seqZ; unfold letter in Hd; lia)).
  apply existsb_exists in H as ([[lo hi] c] & Hin%list_elem_of_In & H). exists c, lo, hi. split; [done|]. lia.
Qed.
Lemma respects_class s d c : respects s = true -> class_of classes d c -> mem s d = mem s c.
Proof.
  intros [_ H]%andb_true_iff (lo & hi & Hc & Hd). rewrite forallb_forall in H.
  specialize (H (lo, hi, c) ltac:(by apply list_elem_of_In)). cbn in H.
  rewrite forallb_forall in H. by apply Bool.eqb_prop, H, list_elem_of_In, elem_of_seqZ; lia.
Qed.

Context (fuel : nat) (pass : passes fuel = true).
(** What the test has shown. *)
Lemma passed :
  (forall d, letter d -> exists c, class_of classes d c) /\
  (forall s, good s = true -> exists c, mem s c = true) /\
  (forall s d c, good s = true -> class_of classes d c -> mem s d = mem s c) /\
  1 <= start /\ final start = false /\ final 0 = false /\
  recognises mem good body classes next final fuel start main = true.
Proof.
  pose proof pass as H. unfold passes in H. rewrite !andb_true_iff, !negb_true_iff, forallb_forall in H.
  destruct H as (((((Hc & Ha) & Hs) & Hf) & H0) & Hr). split_and!; [|intros s Hg|intros s d c Hg|lia|done..].
  - intros d. by apply covers_spec.
  - apply good_in, list_elem_of_In, Ha, andb_true_iff in Hg as [(c & _ & Hm)%existsb_exists _]. by exists c.
  - apply respects_class, Ha. by apply list_elem_of_In, good_in.
Qed.

(** The state after a word, and what a reader that waits for more has been given. *)
Definition state_after (u : word) : Z := run next start u.
Definition consumed (u : word) (c : Z) : Prop := Forall letter u /\ awaited (lang mem main) u /\ state_after u = c.

Lemma accepts_spec w : Forall letter w ->
  (final (state_after w) = true <-> lang mem main w) /\ (state_after w <> 0 <-> viable (lang mem main) w).
Proof.
  destruct passed as (Hc & Hi & Hd & Hs & _ & H0 & Hr). intros Hw.
  destruct (recognises_spec mem good body Hi classes Hc Hd next final fuel start main w Hr ltac:(lia) Hw) as [S1 S2].
  split; [|done]. rewrite <- S1. split; [|tauto]. intros Hf. split; [|done]. unfold state_after in Hf. intros E. congruence.
Qed.
Lemma consumed_nil : consumed [] start.
Proof.
  destruct passed as (_ & _ & _ & Hs & Hf & _). destruct (accepts_spec [] ltac:(done)) as [H1 H2]. cbn in H1, H2.
  split_and!; [done| |done]. split; [apply H2; lia|].
  intros j Hj Hw. replace (take j []) with ([] : word) in Hw by (by destruct j). apply H1 in Hw. congruence.
Qed.
Lemma consumed_state u c : consumed u c -> c <> 0 /\ final c = false.
Proof.
  intros (Hu & [Hv Hj] & <-). destruct (accepts_spec u Hu) as [H1 H2]. split; [by apply H2|].
  apply not_true_iff_false. intros Hf%H1. apply (Hj (length u)); [done|]. by rewrite take_ge by done.
Qed.
Lemma scan_outcome u w c : consumed u c -> Forall letter w ->
  let '(k, m) := scan next final c w in
  if m =? 0 then refused (lang mem main) (u ++ w) (length u + k)
  else if final m then first_word (lang mem main) (u ++ w) (length u + k)
  else k = length w /\ consumed (u ++ w) m.
Proof.
  destruct passed as (Hc & Hi & Hd & Hs & _ & _ & Hr). intros Hu Hw. destruct (consumed_state u c Hu) as [Hn _].
  destruct Hu as (Hu & Ha & <-).
  pose proof (scan_reads mem good body Hi classes Hc Hd next final fuel start main w Hr ltac:(lia) Hw u Hu Hn Ha) as H.
  unfold state_after. destruct (scan _ _ _ w) as [k m]. destruct (m =? 0); [done|]. destruct (final m); [done|].
  destruct H as (-> & -> & H). split; [done|]. split_and!; [by apply Forall_app|done|done].
Qed.

(** Words are decided by running the machine. *)
Definition letters (w : word) : bool := forallb (fun c => (-128 <=? c) && (c <=? 127)) w.
Lemma letters_spec w : letters w = true -> Forall letter w.
Proof. unfold letters. rewrite forallb_forall, Forall_forall. intros H c Hc%list_elem_of_In%H. unfold letter. lia. Qed.
Lemma in_grammar w : letters w = true -> final (state_after w) = true -> lang mem main w.
Proof. intros Hw%letters_spec Hf. by apply (accepts_spec w Hw). Qed.
Lemma not_viable w : letters w = true -> state_after w = 0 -> ~ viable (lang mem main) w.
Proof. intros Hw%letters_spec E Hv. by apply (accepts_spec w Hw) in Hv. Qed.
Lemma awaited_run w : letters w = true -> state_after w <> 0 ->
  forallb (fun j => negb (final (state_after (take j w)))) (List.seq 0 (S (length w))) = true ->
  awaited (lang mem main) w.
Proof.
  intros Hw%letters_spec Hn H. split; [by apply (accepts_spec w Hw)|]. intros j Hj Hr.
  apply (accepts_spec _ (Forall_take _ j _ Hw)) in Hr as Hf. rewrite forallb_forall in H.
  specialize (H j ltac:(apply in_seq; lia)). by rewrite Hf in H.
Qed.
End recogniser.
End Grammar.
