(* ===== verification/Http11Parser.v ===== *)
(** * The request parser's automaton: src/src/http/http11_parser.rl.cpp

    The machine that Ragel made of the grammar in http11_parser.rl, state by
    state: [case_n] is what [case n:] does with the character [*p], a jump to a
    state ([st]) or to a transition with actions ([tr]).  A character is signed. *)

From stdpp Require Import prelude.
From Stdlib Require Import ZArith.
From S2P Require Import Prelude.

Module Http11Parser.
Local Open Scope Z_scope.

Inductive label := st (n : Z) | tr (n : Z).

(** The actions of the grammar, by their names there. *)
Inductive action :=
  | mark | start_field | write_field | start_value | write_value | request_method | request_uri
  | fragment | start_query | query_string | http_version | request_path | done_ | xml | json.

Definition http_parser_start : Z := 1.
Definition http_parser_first_final : Z := 348.
Definition http_parser_error : Z := 0.

(** [switch (c) { case n: goto l; ... }] and what follows it. *)
Fixpoint switch (c : Z) (cases : list (Z * label)) (rest : label) : label :=
  match cases with
  | [] => rest
  | (n, l) :: cases => if c =? n then l else switch c cases rest
  end.
Definition range (a c b : Z) : bool := (a <=? c) && (c <=? b).

(** The characters ^ { and }, which [uri_relaxed] allows in a URI, are widened. *)
Definition widec (uri_relaxed : bool) (c : Z) : Z :=
  let wide := 128 + (c - (-128)) in
  let wide := if uri_relaxed then wide + 256 else wide in
  if c <? 123 then (if range 94 c 94 then wide else c)
  else if 123 <? c then (if range 125 c 125 then wide else c)
  else wide.

Definition case_1 (relaxed : bool) (c : Z) : label :=
  switch c [(60, tr 2); (64, tr 3)]
    (if 57 <? c then
       (if range 65 c 90 then tr 0 else st 0)
     else if 48 <=? c then tr 0 else st 0).
Definition case_2 (relaxed : bool) (c : Z) : label :=
  if c =? 32 then tr 4
  else if 57 <? c then
    (if range 65 c 90 then st 175 else st 0)
  else if 48 <=? c then st 175 else st 0.
Definition case_3 (relaxed : bool) (c : Z) : label :=
  let w := widec relaxed c in
  switch w [(32, tr 6); (33, tr 7); (35, tr 8); (37, tr 9); (47, tr 10); (59, tr 7); (61, tr 7);
    (63, tr 11); (64, tr 7); (95, tr 7); (126, tr 7); (606, tr 7); (635, tr 7); (637, tr 7)]
    (if w <? 65 then
       (if range 36 w 57 then tr 7 else st 0)
     else if 90 <? w then
       (if range 97 w 122 then tr 12 else st 0)
     else tr 12).
Definition case_4 (relaxed : bool) (c : Z) : label :=
  if c =? 72 then tr 13 else st 0.
Definition case_5 (relaxed : bool) (c : Z) : label :=
  if c =? 84 then st 6 else st 0.
Definition case_6 (relaxed : bool) (c : Z) : label :=
  if c =? 84 then st 7 else st 0.
Definition case_7 (relaxed : bool) (c : Z) : label :=
  if c =? 80 then st 8 else st 0.
Definition case_8 (relaxed : bool) (c : Z) : label :=
  if c =? 47 then st 9 else st 0.
Definition case_9 (relaxed : bool) (c : Z) : label :=
  if c =? 49 then st 10 else st 0.
Definition case_10 (relaxed : bool) (c : Z) : label :=
  if c =? 46 then st 11 else st 0.
Definition case_11 (relaxed : bool) (c : Z) : label :=
  if range 48 c 49 then st 12 else st 0.
Definition case_12 (relaxed : bool) (c : Z) : label :=
  switch c [(10, tr 21); (13, tr 22)] (st 0).
Definition case_13 (relaxed : bool) (c : Z) : label :=
  switch c [(10, tr 24); (13, tr 25); (33, tr 23); (124, tr 23); (126, tr 23)]
    (if c <? 42 then
       (if c <? 11 then
          (if range 1 c 8 then tr 23 else st 0)
        else if 31 <? c then
          (if range 35 c 39 then tr 23 else st 0)
        else tr 23)
     else if 43 <? c then
       (if c <? 48 then
          (if range 45 c 46 then tr 23 else st 0)
        else if 57 <? c then
          (if 90 <? c then
             (if range 94 c 122 then tr 23 else st 0)
           else if 65 <=? c then tr 23 else st 0)
        else tr 23)
     else tr 23).
Definition case_14 (relaxed : bool) (c : Z) : label :=
  switch c [(33, st 14); (58, tr 27); (124, st 14); (126, st 14)]
    (if c <? 42 then
       (if c <? 10 then
          (if range 1 c 8 then st 14 else st 0)
        else if 31 <? c then
          (if range 35 c 39 then st 14 else st 0)
        else st 14)
     else if 43 <? c then
       (if c <? 48 then
          (if range 45 c 46 then st 14 else st 0)
        else if 57 <? c then
          (if 90 <? c then
             (if range 94 c 122 then st 14 else st 0)
           else if 65 <=? c then st 14 else st 0)
        else st 14)
     else st 14).
Definition case_15 (relaxed : bool) (c : Z) : label :=
  switch c [(0, st 0); (9, tr 29); (10, tr 30); (13, tr 31); (32, tr 29); (127, st 0)] (tr 28).
Definition case_16 (relaxed : bool) (c : Z) : label :=
  switch c [(0, st 0); (10, tr 33); (13, tr 34); (127, st 0)] (st 16).
Definition case_17 (relaxed : bool) (c : Z) : label :=
  if c =? 10 then st 13 else st 0.
Definition case_18 (relaxed : bool) (c : Z) : label :=
  switch c [(10, tr 36); (33, st 14); (58, tr 27); (124, st 14); (126, st 14)]
    (if c <? 42 then
       (if c <? 11 then
          (if range 1 c 8 then st 14 else st 0)
        else if 31 <? c then
          (if range 35 c 39 then st 14 else st 0)
        else st 14)
     else if 43 <? c then
       (if c <? 48 then
          (if range 45 c 46 then st 14 else st 0)
        else if 57 <? c then
          (if 90 <? c then
             (if range 94 c 122 then st 14 else st 0)
           else if 65 <=? c then st 14 else st 0)
        else st 14)
     else st 14).
Definition case_19 (relaxed : bool) (c : Z) : label :=
  let w := widec relaxed c in
  switch w [(32, tr 37); (33, st 19); (35, tr 39); (37, st 24); (47, st 26); (59, st 19); (61, st 19);
    (63, tr 42); (95, st 19); (126, st 19); (606, st 19); (635, st 19); (637, st 19)]
    (if w <? 64 then
       (if range 36 w 57 then st 19 else st 0)
     else if 90 <? w then
       (if range 97 w 122 then st 19 else st 0)
     else st 19).
Definition case_20 (relaxed : bool) (c : Z) : label :=
  let w := widec relaxed c in
  switch w [(32, tr 43); (33, tr 44); (37, tr 45); (61, tr 44); (95, tr 44); (126, tr 44); (606, tr 44);
    (635, tr 44); (637, tr 44)]
    (if w <? 63 then
       (if range 36 w 59 then tr 44 else st 0)
     else if 90 <? w then
       (if range 97 w 122 then tr 44 else st 0)
     else tr 44).
Definition case_21 (relaxed : bool) (c : Z) : label :=
  let w := widec relaxed c in
  switch w [(32, tr 46); (33, st 21); (37, st 22); (61, st 21); (95, st 21); (126, st 21); (606, st 21);
    (635, st 21); (637, st 21)]
    (if w <? 63 then
       (if range 36 w 59 then st 21 else st 0)
     else if 90 <? w then
       (if range 97 w 122 then st 21 else st 0)
     else st 21).
Definition case_22 (relaxed : bool) (c : Z) : label :=
  if c <? 65 then
    (if range 48 c 57 then st 23 else st 0)
  else if 70 <? c then
    (if range 97 c 102 then st 23 else st 0)
  else st 23.
Definition case_23 (relaxed : bool) (c : Z) : label :=
  if c <? 65 then
    (if range 48 c 57 then st 21 else st 0)
  else if 70 <? c then
    (if range 97 c 102 then st 21 else st 0)
  else st 21.
Definition case_24 (relaxed : bool) (c : Z) : label :=
  if c <? 65 then
    (if range 48 c 57 then st 25 else st 0)
  else if 70 <? c then
    (if range 97 c 102 then st 25 else st 0)
  else st 25.
Definition case_25 (relaxed : bool) (c : Z) : label :=
  if c <? 65 then
    (if range 48 c 57 then st 19 else st 0)
  else if 70 <? c then
    (if range 97 c 102 then st 19 else st 0)
  else st 19.
Definition case_26 (relaxed : bool) (c : Z) : label :=
  let w := widec relaxed c in
  switch w [(32, tr 37); (33, st 26); (35, tr 39); (37, st 27); (61, st 26); (63, tr 42); (95, st 26);
    (126, st 26); (606, st 26); (635, st 26); (637, st 26)]
    (if w <? 64 then
       (if range 36 w 59 then st 26 else st 0)
     else if 90 <? w then
       (if range 97 w 122 then st 26 else st 0)
     else st 26).
Definition case_27 (relaxed : bool) (c : Z) : label :=
  if c <? 65 then
    (if range 48 c 57 then st 28 else st 0)
  else if 70 <? c then
    (if range 97 c 102 then st 28 else st 0)
  else st 28.
Definition case_28 (relaxed : bool) (c : Z) : label :=
  if c <? 65 then
    (if range 48 c 57 then st 26 else st 0)
  else if 70 <? c then
    (if range 97 c 102 then st 26 else st 0)
  else st 26.
Definition case_29 (relaxed : bool) (c : Z) : label :=
  let w := widec relaxed c in
  switch w [(32, tr 53); (33, tr 54); (35, tr 55); (37, tr 56); (61, tr 54); (95, tr 54); (126, tr 54);
    (606, tr 54); (635, tr 54); (637, tr 54)]
    (if w <? 63 then
       (if range 36 w 59 then tr 54 else st 0)
     else if 90 <? w then
       (if range 97 w 122 then tr 54 else st 0)
     else tr 54).
Definition case_30 (relaxed : bool) (c : Z) : label :=
  let w := widec relaxed c in
  switch w [(32, tr 57); (33, st 30); (35, tr 59); (37, st 31); (61, st 30); (95, st 30); (126, st 30);
    (606, st 30); (635, st 30); (637, st 30)]
    (if w <? 63 then
       (if range 36 w 59 then st 30 else st 0)
     else if 90 <? w then
       (if range 97 w 122 then st 30 else st 0)
     else st 30).
Definition case_31 (relaxed : bool) (c : Z) : label :=
  if c <? 65 then
    (if range 48 c 57 then st 32 else st 0)
  else if 70 <? c then
    (if range 97 c 102 then st 32 else st 0)
  else st 32.
Definition case_32 (relaxed : bool) (c : Z) : label :=
  if c <? 65 then
    (if range 48 c 57 then st 30 else st 0)
  else if 70 <? c then
    (if range 97 c 102 then st 30 else st 0)
  else st 30.
Definition case_33 (relaxed : bool) (c : Z) : label :=
  let w := widec relaxed c in
  switch w [(32, tr 37); (33, st 26); (35, tr 39); (37, st 27); (47, st 34); (61, st 26); (63, tr 42);
    (95, st 26); (126, st 26); (606, st 26); (635, st 26); (637, st 26)]
    (if w <? 64 then
       (if range 36 w 59 then st 26 else st 0)
     else if 90 <? w then
       (if range 97 w 122 then st 26 else st 0)
     else st 26).
Definition case_34 (relaxed : bool) (c : Z) : label :=
  let w := widec relaxed c in
  switch w [(32, tr 37); (33, st 35); (35, tr 39); (37, st 36); (47, st 26); (58, st 38); (61, st 35);
    (63, tr 42); (64, st 42); (91, st 47); (95, st 35); (126, st 35); (606, st 35); (635, st 35);
    (637, st 35)]
    (if w <? 65 then
       (if range 36 w 59 then st 35 else st 0)
     else if 90 <? w then
       (if range 97 w 122 then st 35 else st 0)
     else st 35).
Definition case_35 (relaxed : bool) (c : Z) : label :=
  let w := widec relaxed c in
  switch w [(32, tr 37); (33, st 35); (35, tr 39); (37, st 36); (47, st 26); (58, st 38); (61, st 35);
    (63, tr 42); (64, st 42); (95, st 35); (126, st 35); (606, st 35); (635, st 35); (637, st 35)]
    (if w <? 65 then
       (if range 36 w 59 then st 35 else st 0)
     else if 90 <? w then
       (if range 97 w 122 then st 35 else st 0)
     else st 35).
Definition case_36 (relaxed : bool) (c : Z) : label :=
  if c <? 65 then
    (if range 48 c 57 then st 37 else st 0)
  else if 70 <? c then
    (if range 97 c 102 then st 37 else st 0)
  else st 37.
Definition case_37 (relaxed : bool) (c : Z) : label :=
  if c <? 65 then
    (if range 48 c 57 then st 35 else st 0)
  else if 70 <? c then
    (if range 97 c 102 then st 35 else st 0)
  else st 35.
Definition case_38 (relaxed : bool) (c : Z) : label :=
  let w := widec relaxed c in
  switch w [(32, tr 37); (33, st 39); (35, tr 39); (37, st 40); (47, st 26); (61, st 39); (63, tr 42);
    (64, st 42); (95, st 39); (126, st 39); (606, st 39); (635, st 39); (637, st 39)]
    (if w <? 58 then
       (if 46 <? w then
          (if range 48 w 57 then st 38 else st 0)
        else if 36 <=? w then st 39 else st 0)
     else if 59 <? w then
       (if 90 <? w then
          (if range 97 w 122 then st 39 else st 0)
        else if 65 <=? w then st 39 else st 0)
     else st 39).
Definition case_39 (relaxed : bool) (c : Z) : label :=
  let w := widec relaxed c in
  switch w [(33, st 39); (37, st 40); (61, st 39); (64, st 42); (95, st 39); (126, st 39); (606, st 39);
    (635, st 39); (637, st 39)]
    (if w <? 48 then
       (if range 36 w 46 then st 39 else st 0)
     else if 59 <? w then
       (if 90 <? w then
          (if range 97 w 122 then st 39 else st 0)
        else if 65 <=? w then st 39 else st 0)
     else st 39).
Definition case_40 (relaxed : bool) (c : Z) : label :=
  if c <? 65 then
    (if range 48 c 57 then st 41 else st 0)
  else if 70 <? c then
    (if range 97 c 102 then st 41 else st 0)
  else st 41.
Definition case_41 (relaxed : bool) (c : Z) : label :=
  if c <? 65 then
    (if range 48 c 57 then st 39 else st 0)
  else if 70 <? c then
    (if range 97 c 102 then st 39 else st 0)
  else st 39.
Definition case_42 (relaxed : bool) (c : Z) : label :=
  let w := widec relaxed c in
  switch w [(32, tr 37); (33, st 43); (35, tr 39); (37, st 44); (47, st 26); (58, st 46); (61, st 43);
    (63, tr 42); (91, st 47); (95, st 43); (126, st 43); (606, st 43); (635, st 43); (637, st 43)]
    (if w <? 65 then
       (if range 36 w 59 then st 43 else st 0)
     else if 90 <? w then
       (if range 97 w 122 then st 43 else st 0)
     else st 43).
Definition case_43 (relaxed : bool) (c : Z) : label :=
  let w := widec relaxed c in
  switch w [(32, tr 37); (33, st 43); (35, tr 39); (37, st 44); (47, st 26); (58, st 46); (61, st 43);
    (63, tr 42); (95, st 43); (126, st 43); (606, st 43); (635, st 43); (637, st 43)]
    (if w <? 65 then
       (if range 36 w 59 then st 43 else st 0)
     else if 90 <? w then
       (if range 97 w 122 then st 43 else st 0)
     else st 43).
Definition case_44 (relaxed : bool) (c : Z) : label :=
  if c <? 65 then
    (if range 48 c 57 then st 45 else st 0)
  else if 70 <? c then
    (if range 97 c 102 then st 45 else st 0)
  else st 45.
Definition case_45 (relaxed : bool) (c : Z) : label :=
  if c <? 65 then
    (if range 48 c 57 then st 43 else st 0)
  else if 70 <? c then
    (if range 97 c 102 then st 43 else st 0)
  else st 43.
Definition case_46 (relaxed : bool) (c : Z) : label :=
  switch c [(32, tr 37); (35, tr 39); (47, st 26); (63, tr 42)]
    (if range 48 c 57 then st 46 else st 0).
Definition case_47 (relaxed : bool) (c : Z) : label :=
  switch c [(6, st 48); (58, st 167); (118, st 169)]
    (if c <? 65 then
       (if range 48 c 57 then st 91 else st 0)
     else if 70 <? c then
       (if range 97 c 102 then st 91 else st 0)
     else st 91).
Definition case_48 (relaxed : bool) (c : Z) : label :=
  if c <? 65 then
    (if range 48 c 57 then st 49 else st 0)
  else if 70 <? c then
    (if range 97 c 102 then st 49 else st 0)
  else st 49.
Definition case_49 (relaxed : bool) (c : Z) : label :=
  if c =? 58 then st 53
  else if c <? 65 then
    (if range 48 c 57 then st 50 else st 0)
  else if 70 <? c then
    (if range 97 c 102 then st 50 else st 0)
  else st 50.
Definition case_50 (relaxed : bool) (c : Z) : label :=
  if c =? 58 then st 53
  else if c <? 65 then
    (if range 48 c 57 then st 51 else st 0)
  else if 70 <? c then
    (if range 97 c 102 then st 51 else st 0)
  else st 51.
Definition case_51 (relaxed : bool) (c : Z) : label :=
  if c =? 58 then st 53
  else if c <? 65 then
    (if range 48 c 57 then st 52 else st 0)
  else if 70 <? c then
    (if range 97 c 102 then st 52 else st 0)
  else st 52.
Definition case_52 (relaxed : bool) (c : Z) : label :=
  if c =? 58 then st 53 else st 0.
Definition case_53 (relaxed : bool) (c : Z) : label :=
  switch c [(49, st 84); (50, st 87)]
    (if c <? 65 then
       (if range 48 c 57 then st 54 else st 0)
     else if 70 <? c then
       (if range 97 c 102 then st 90 else st 0)
     else st 90).
Definition case_54 (relaxed : bool) (c : Z) : label :=
  switch c [(46, st 55); (58, st 80)]
    (if c <? 65 then
       (if range 48 c 57 then st 77 else st 0)
     else if 70 <? c then
       (if range 97 c 102 then st 77 else st 0)
     else st 77).
Definition case_55 (relaxed : bool) (c : Z) : label :=
  switch c [(49, st 72); (50, st 74)]
    (if range 48 c 57 then st 56 else st 0).
Definition case_56 (relaxed : bool) (c : Z) : label :=
  if c =? 46 then st 57 else st 0.
Definition case_57 (relaxed : bool) (c : Z) : label :=
  switch c [(49, st 67); (50, st 69)]
    (if range 48 c 57 then st 58 else st 0).
Definition case_58 (relaxed : bool) (c : Z) : label :=
  if c =? 46 then st 59 else st 0.
Definition case_59 (relaxed : bool) (c : Z) : label :=
  switch c [(49, st 62); (50, st 64)]
    (if range 48 c 57 then st 60 else st 0).
Definition case_60 (relaxed : bool) (c : Z) : label :=
  if c =? 93 then st 61 else st 0.
Definition case_61 (relaxed : bool) (c : Z) : label :=
  switch c [(32, tr 37); (35, tr 39); (47, st 26); (58, st 46); (63, tr 42)] (st 0).
Definition case_62 (relaxed : bool) (c : Z) : label :=
  if c =? 93 then st 61
  else if range 48 c 57 then st 63 else st 0.
Definition case_63 (relaxed : bool) (c : Z) : label :=
  if c =? 93 then st 61
  else if range 48 c 57 then st 60 else st 0.
Definition case_64 (relaxed : bool) (c : Z) : label :=
  switch c [(48, st 65); (53, st 66); (93, st 61)] (st 0).
Definition case_65 (relaxed : bool) (c : Z) : label :=
  if range 48 c 57 then st 60 else st 0.
Definition case_66 (relaxed : bool) (c : Z) : label :=
  if c =? 48 then st 60 else st 0.
Definition case_67 (relaxed : bool) (c : Z) : label :=
  if c =? 46 then st 59
  else if range 48 c 57 then st 68 else st 0.
Definition case_68 (relaxed : bool) (c : Z) : label :=
  if c =? 46 then st 59
  else if range 48 c 57 then st 58 else st 0.
Definition case_69 (relaxed : bool) (c : Z) : label :=
  switch c [(46, st 59); (48, st 70); (53, st 71)] (st 0).
Definition case_70 (relaxed : bool) (c : Z) : label :=
  if range 48 c 57 then st 58 else st 0.
Definition case_71 (relaxed : bool) (c : Z) : label :=
  if c =? 48 then st 58 else st 0.
Definition case_72 (relaxed : bool) (c : Z) : label :=
  if c =? 46 then st 57
  else if range 48 c 57 then st 73 else st 0.
Definition case_73 (relaxed : bool) (c : Z) : label :=
  if c =? 46 then st 57
  else if range 48 c 57 then st 56 else st 0.
Definition case_74 (relaxed : bool) (c : Z) : label :=
  switch c [(46, st 57); (48, st 75); (53, st 76)] (st 0).
Definition case_75 (relaxed : bool) (c : Z) : label :=
  if range 48 c 57 then st 56 else st 0.
Definition case_76 (relaxed : bool) (c : Z) : label :=
  if c =? 48 then st 56 else st 0.
Definition case_77 (relaxed : bool) (c : Z) : label :=
  if c =? 58 then st 80
  else if c <? 65 then
    (if range 48 c 57 then st 78 else st 0)
  else if 70 <? c then
    (if range 97 c 102 then st 78 else st 0)
  else st 78.
Definition case_78 (relaxed : bool) (c : Z) : label :=
  if c =? 58 then st 80
  else if c <? 65 then
    (if range 48 c 57 then st 79 else st 0)
  else if 70 <? c then
    (if range 97 c 102 then st 79 else st 0)
  else st 79.
Definition case_79 (relaxed : bool) (c : Z) : label :=
  if c =? 58 then st 80 else st 0.
Definition case_80 (relaxed : bool) (c : Z) : label :=
  if c <? 65 then
    (if range 48 c 57 then st 81 else st 0)
  else if 70 <? c then
    (if range 97 c 102 then st 81 else st 0)
  else st 81.
Definition case_81 (relaxed : bool) (c : Z) : label :=
  if c =? 93 then st 61
  else if c <? 65 then
    (if range 48 c 57 then st 82 else st 0)
  else if 70 <? c then
    (if range 97 c 102 then st 82 else st 0)
  else st 82.
Definition case_82 (relaxed : bool) (c : Z) : label :=
  if c =? 93 then st 61
  else if c <? 65 then
    (if range 48 c 57 then st 83 else st 0)
  else if 70 <? c then
    (if range 97 c 102 then st 83 else st 0)
  else st 83.
Definition case_83 (relaxed : bool) (c : Z) : label :=
  if c =? 93 then st 61
  else if c <? 65 then
    (if range 48 c 57 then st 60 else st 0)
  else if 70 <? c then
    (if range 97 c 102 then st 60 else st 0)
  else st 60.
Definition case_84 (relaxed : bool) (c : Z) : label :=
  switch c [(46, st 55); (58, st 80)]
    (if c <? 65 then
       (if range 48 c 57 then st 85 else st 0)
     else if 70 <? c then
       (if range 97 c 102 then st 77 else st 0)
     else st 77).
Definition case_85 (relaxed : bool) (c : Z) : label :=
  switch c [(46, st 55); (58, st 80)]
    (if c <? 65 then
       (if range 48 c 57 then st 86 else st 0)
     else if 70 <? c then
       (if range 97 c 102 then st 78 else st 0)
     else st 78).
Definition case_86 (relaxed : bool) (c : Z) : label :=
  switch c [(46, st 55); (58, st 80)]
    (if c <? 65 then
       (if range 48 c 57 then st 79 else st 0)
     else if 70 <? c then
       (if range 97 c 102 then st 79 else st 0)
     else st 79).
Definition case_87 (relaxed : bool) (c : Z) : label :=
  switch c [(46, st 55); (48, st 88); (53, st 89); (58, st 80)]
    (if c <? 65 then
       (if range 49 c 57 then st 77 else st 0)
     else if 70 <? c then
       (if range 97 c 102 then st 77 else st 0)
     else st 77).
Definition case_88 (relaxed : bool) (c : Z) : label :=
  if c =? 58 then st 80
  else if c <? 65 then
    (if range 48 c 57 then st 86 else st 0)
  else if 70 <? c then
    (if range 97 c 102 then st 78 else st 0)
  else st 78.
Definition case_89 (relaxed : bool) (c : Z) : label :=
  switch c [(48, st 86); (58, st 80)]
    (if c <? 65 then
       (if range 49 c 57 then st 78 else st 0)
     else if 70 <? c then
       (if range 97 c 102 then st 78 else st 0)
     else st 78).
Definition case_90 (relaxed : bool) (c : Z) : label :=
  if c =? 58 then st 80
  else if c <? 65 then
    (if range 48 c 57 then st 77 else st 0)
  else if 70 <? c then
    (if range 97 c 102 then st 77 else st 0)
  else st 77.
Definition case_91 (relaxed : bool) (c : Z) : label :=
  if c =? 58 then st 95
  else if c <? 65 then
    (if range 48 c 57 then st 92 else st 0)
  else if 70 <? c then
    (if range 97 c 102 then st 92 else st 0)
  else st 92.
Definition case_92 (relaxed : bool) (c : Z) : label :=
  if c =? 58 then st 95
  else if c <? 65 then
    (if range 48 c 57 then st 93 else st 0)
  else if 70 <? c then
    (if range 97 c 102 then st 93 else st 0)
  else st 93.
Definition case_93 (relaxed : bool) (c : Z) : label :=
  if c =? 58 then st 95
  else if c <? 65 then
    (if range 48 c 57 then st 94 else st 0)
  else if 70 <? c then
    (if range 97 c 102 then st 94 else st 0)
  else st 94.
Definition case_94 (relaxed : bool) (c : Z) : label :=
  if c =? 58 then st 95 else st 0.
Definition case_95 (relaxed : bool) (c : Z) : label :=
  if c =? 58 then st 166
  else if c <? 65 then
    (if range 48 c 57 then st 96 else st 0)
  else if 70 <? c then
    (if range 97 c 102 then st 96 else st 0)
  else st 96.
Definition case_96 (relaxed : bool) (c : Z) : label :=
  if c =? 58 then st 100
  else if c <? 65 then
    (if range 48 c 57 then st 97 else st 0)
  else if 70 <? c then
    (if range 97 c 102 then st 97 else st 0)
  else st 97.
Definition case_97 (relaxed : bool) (c : Z) : label :=
  if c =? 58 then st 100
  else if c <? 65 then
    (if range 48 c 57 then st 98 else st 0)
  else if 70 <? c then
    (if range 97 c 102 then st 98 else st 0)
  else st 98.
Definition case_98 (relaxed : bool) (c : Z) : label :=
  if c =? 58 then st 100
  else if c <? 65 then
    (if range 48 c 57 then st 99 else st 0)
  else if 70 <? c then
    (if range 97 c 102 then st 99 else st 0)
  else st 99.
Definition case_99 (relaxed : bool) (c : Z) : label :=
  if c =? 58 then st 100 else st 0.
Definition case_100 (relaxed : bool) (c : Z) : label :=
  if c =? 58 then st 165
  else if c <? 65 then
    (if range 48 c 57 then st 101 else st 0)
  else if 70 <? c then
    (if range 97 c 102 then st 101 else st 0)
  else st 101.
Definition case_101 (relaxed : bool) (c : Z) : label :=
  if c =? 58 then st 105
  else if c <? 65 then
    (if range 48 c 57 then st 102 else st 0)
  else if 70 <? c then
    (if range 97 c 102 then st 102 else st 0)
  else st 102.
Definition case_102 (relaxed : bool) (c : Z) : label :=
  if c =? 58 then st 105
  else if c <? 65 then
    (if range 48 c 57 then st 103 else st 0)
  else if 70 <? c then
    (if range 97 c 102 then st 103 else st 0)
  else st 103.
Definition case_103 (relaxed : bool) (c : Z) : label :=
  if c =? 58 then st 105
  else if c <? 65 then
    (if range 48 c 57 then st 104 else st 0)
  else if 70 <? c then
    (if range 97 c 102 then st 104 else st 0)
  else st 104.
Definition case_104 (relaxed : bool) (c : Z) : label :=
  if c =? 58 then st 105 else st 0.
Definition case_105 (relaxed : bool) (c : Z) : label :=
  if c =? 58 then st 164
  else if c <? 65 then
    (if range 48 c 57 then st 106 else st 0)
  else if 70 <? c then
    (if range 97 c 102 then st 106 else st 0)
  else st 106.
Definition case_106 (relaxed : bool) (c : Z) : label :=
  if c =? 58 then st 110
  else if c <? 65 then
    (if range 48 c 57 then st 107 else st 0)
  else if 70 <? c then
    (if range 97 c 102 then st 107 else st 0)
  else st 107.
Definition case_107 (relaxed : bool) (c : Z) : label :=
  if c =? 58 then st 110
  else if c <? 65 then
    (if range 48 c 57 then st 108 else st 0)
  else if 70 <? c then
    (if range 97 c 102 then st 108 else st 0)
  else st 108.
Definition case_108 (relaxed : bool) (c : Z) : label :=
  if c =? 58 then st 110
  else if c <? 65 then
    (if range 48 c 57 then st 109 else st 0)
  else if 70 <? c then
    (if range 97 c 102 then st 109 else st 0)
  else st 109.
Definition case_109 (relaxed : bool) (c : Z) : label :=
  if c =? 58 then st 110 else st 0.
Definition case_110 (relaxed : bool) (c : Z) : label :=
  if c =? 58 then st 163
  else if c <? 65 then
    (if range 48 c 57 then st 111 else st 0)
  else if 70 <? c then
    (if range 97 c 102 then st 111 else st 0)
  else st 111.
Definition case_111 (relaxed : bool) (c : Z) : label :=
  if c =? 58 then st 115
  else if c <? 65 then
    (if range 48 c 57 then st 112 else st 0)
  else if 70 <? c then
    (if range 97 c 102 then st 112 else st 0)
  else st 112.
Definition case_112 (relaxed : bool) (c : Z) : label :=
  if c =? 58 then st 115
  else if c <? 65 then
    (if range 48 c 57 then st 113 else st 0)
  else if 70 <? c then
    (if range 97 c 102 then st 113 else st 0)
  else st 113.
Definition case_113 (relaxed : bool) (c : Z) : label :=
  if c =? 58 then st 115
  else if c <? 65 then
    (if range 48 c 57 then st 114 else st 0)
  else if 70 <? c then
    (if range 97 c 102 then st 114 else st 0)
  else st 114.
Definition case_114 (relaxed : bool) (c : Z) : label :=
  if c =? 58 then st 115 else st 0.
Definition case_115 (relaxed : bool) (c : Z) : label :=
  if c =? 58 then st 151
  else if c <? 65 then
    (if range 48 c 57 then st 116 else st 0)
  else if 70 <? c then
    (if range 97 c 102 then st 116 else st 0)
  else st 116.
Definition case_116 (relaxed : bool) (c : Z) : label :=
  if c =? 58 then st 120
  else if c <? 65 then
    (if range 48 c 57 then st 117 else st 0)
  else if 70 <? c then
    (if range 97 c 102 then st 117 else st 0)
  else st 117.
Definition case_117 (relaxed : bool) (c : Z) : label :=
  if c =? 58 then st 120
  else if c <? 65 then
    (if range 48 c 57 then st 118 else st 0)
  else if 70 <? c then
    (if range 97 c 102 then st 118 else st 0)
  else st 118.
Definition case_118 (relaxed : bool) (c : Z) : label :=
  if c =? 58 then st 120
  else if c <? 65 then
    (if range 48 c 57 then st 119 else st 0)
  else if 70 <? c then
    (if range 97 c 102 then st 119 else st 0)
  else st 119.
Definition case_119 (relaxed : bool) (c : Z) : label :=
  if c =? 58 then st 120 else st 0.
Definition case_120 (relaxed : bool) (c : Z) : label :=
  if c =? 58 then st 150
  else if c <? 65 then
    (if range 48 c 57 then st 121 else st 0)
  else if 70 <? c then
    (if range 97 c 102 then st 121 else st 0)
  else st 121.
Definition case_121 (relaxed : bool) (c : Z) : label :=
  if c =? 58 then st 125
  else if c <? 65 then
    (if range 48 c 57 then st 122 else st 0)
  else if 70 <? c then
    (if range 97 c 102 then st 122 else st 0)
  else st 122.
Definition case_122 (relaxed : bool) (c : Z) : label :=
  if c =? 58 then st 125
  else if c <? 65 then
    (if range 48 c 57 then st 123 else st 0)
  else if 70 <? c then
    (if range 97 c 102 then st 123 else st 0)
  else st 123.
Definition case_123 (relaxed : bool) (c : Z) : label :=
  if c =? 58 then st 125
  else if c <? 65 then
    (if range 48 c 57 then st 124 else st 0)
  else if 70 <? c then
    (if range 97 c 102 then st 124 else st 0)
  else st 124.
Definition case_124 (relaxed : bool) (c : Z) : label :=
  if c =? 58 then st 125 else st 0.
Definition case_125 (relaxed : bool) (c : Z) : label :=
  if c =? 58 then st 126
  else if c <? 65 then
    (if range 48 c 57 then st 121 else st 0)
  else if 70 <? c then
    (if range 97 c 102 then st 121 else st 0)
  else st 121.
Definition case_126 (relaxed : bool) (c : Z) : label :=
  switch c [(49, st 143); (50, st 146); (93, st 61)]
    (if c <? 48 then
       (if range 2 c 3 then st 48 else st 0)
     else if 57 <? c then
       (if 70 <? c then
          (if range 97 c 102 then st 149 else st 0)
        else if 65 <=? c then st 149 else st 0)
     else st 127).
Definition case_127 (relaxed : bool) (c : Z) : label :=
  switch c [(46, st 55); (58, st 131); (93, st 61)]
    (if c <? 65 then
       (if range 48 c 57 then st 128 else st 0)
     else if 70 <? c then
       (if range 97 c 102 then st 128 else st 0)
     else st 128).
Definition case_128 (relaxed : bool) (c : Z) : label :=
  switch c [(58, st 131); (93, st 61)]
    (if c <? 65 then
       (if range 48 c 57 then st 129 else st 0)
     else if 70 <? c then
       (if range 97 c 102 then st 129 else st 0)
     else st 129).
Definition case_129 (relaxed : bool) (c : Z) : label :=
  switch c [(58, st 131); (93, st 61)]
    (if c <? 65 then
       (if range 48 c 57 then st 130 else st 0)
     else if 70 <? c then
       (if range 97 c 102 then st 130 else st 0)
     else st 130).
Definition case_130 (relaxed : bool) (c : Z) : label :=
  switch c [(58, st 131); (93, st 61)] (st 0).
Definition case_131 (relaxed : bool) (c : Z) : label :=
  switch c [(49, st 136); (50, st 139)]
    (if c <? 65 then
       (if range 48 c 57 then st 132 else st 0)
     else if 70 <? c then
       (if range 97 c 102 then st 142 else st 0)
     else st 142).
Definition case_132 (relaxed : bool) (c : Z) : label :=
  switch c [(46, st 55); (58, st 80); (93, st 61)]
    (if c <? 65 then
       (if range 48 c 57 then st 133 else st 0)
     else if 70 <? c then
       (if range 97 c 102 then st 133 else st 0)
     else st 133).
Definition case_133 (relaxed : bool) (c : Z) : label :=
  switch c [(58, st 80); (93, st 61)]
    (if c <? 65 then
       (if range 48 c 57 then st 134 else st 0)
     else if 70 <? c then
       (if range 97 c 102 then st 134 else st 0)
     else st 134).
Definition case_134 (relaxed : bool) (c : Z) : label :=
  switch c [(58, st 80); (93, st 61)]
    (if c <? 65 then
       (if range 48 c 57 then st 135 else st 0)
     else if 70 <? c then
       (if range 97 c 102 then st 135 else st 0)
     else st 135).
Definition case_135 (relaxed : bool) (c : Z) : label :=
  switch c [(58, st 80); (93, st 61)] (st 0).
Definition case_136 (relaxed : bool) (c : Z) : label :=
  switch c [(46, st 55); (58, st 80); (93, st 61)]
    (if c <? 65 then
       (if range 48 c 57 then st 137 else st 0)
     else if 70 <? c then
       (if range 97 c 102 then st 133 else st 0)
     else st 133).
Definition case_137 (relaxed : bool) (c : Z) : label :=
  switch c [(46, st 55); (58, st 80); (93, st 61)]
    (if c <? 65 then
       (if range 48 c 57 then st 138 else st 0)
     else if 70 <? c then
       (if range 97 c 102 then st 134 else st 0)
     else st 134).
Definition case_138 (relaxed : bool) (c : Z) : label :=
  switch c [(46, st 55); (58, st 80); (93, st 61)]
    (if c <? 65 then
       (if range 48 c 57 then st 135 else st 0)
     else if 70 <? c then
       (if range 97 c 102 then st 135 else st 0)
     else st 135).
Definition case_139 (relaxed : bool) (c : Z) : label :=
  switch c [(46, st 55); (48, st 140); (53, st 141); (58, st 80); (93, st 61)]
    (if c <? 65 then
       (if range 49 c 57 then st 133 else st 0)
     else if 70 <? c then
       (if range 97 c 102 then st 133 else st 0)
     else st 133).
Definition case_140 (relaxed : bool) (c : Z) : label :=
  switch c [(58, st 80); (93, st 61)]
    (if c <? 65 then
       (if range 48 c 57 then st 138 else st 0)
     else if 70 <? c then
       (if range 97 c 102 then st 134 else st 0)
     else st 134).
Definition case_141 (relaxed : bool) (c : Z) : label :=
  switch c [(48, st 138); (58, st 80); (93, st 61)]
    (if c <? 65 then
       (if range 49 c 57 then st 134 else st 0)
     else if 70 <? c then
       (if range 97 c 102 then st 134 else st 0)
     else st 134).
Definition case_142 (relaxed : bool) (c : Z) : label :=
  switch c [(58, st 80); (93, st 61)]
    (if c <? 65 then
       (if range 48 c 57 then st 133 else st 0)
     else if 70 <? c then
       (if range 97 c 102 then st 133 else st 0)
     else st 133).
Definition case_143 (relaxed : bool) (c : Z) : label :=
  switch c [(46, st 55); (58, st 131); (93, st 61)]
    (if c <? 65 then
       (if range 48 c 57 then st 144 else st 0)
     else if 70 <? c then
       (if range 97 c 102 then st 128 else st 0)
     else st 128).
Definition case_144 (relaxed : bool) (c : Z) : label :=
  switch c [(46, st 55); (58, st 131); (93, st 61)]
    (if c <? 65 then
       (if range 48 c 57 then st 145 else st 0)
     else if 70 <? c then
       (if range 97 c 102 then st 129 else st 0)
     else st 129).
Definition case_145 (relaxed : bool) (c : Z) : label :=
  switch c [(46, st 55); (58, st 131); (93, st 61)]
    (if c <? 65 then
       (if range 48 c 57 then st 130 else st 0)
     else if 70 <? c then
       (if range 97 c 102 then st 130 else st 0)
     else st 130).
Definition case_146 (relaxed : bool) (c : Z) : label :=
  switch c [(46, st 55); (48, st 147); (53, st 148); (58, st 131); (93, st 61)]
    (if c <? 65 then
       (if range 49 c 57 then st 128 else st 0)
     else if 70 <? c then
       (if range 97 c 102 then st 128 else st 0)
     else st 128).
Definition case_147 (relaxed : bool) (c : Z) : label :=
  switch c [(58, st 131); (93, st 61)]
    (if c <? 65 then
       (if range 48 c 57 then st 145 else st 0)
     else if 70 <? c then
       (if range 97 c 102 then st 129 else st 0)
     else st 129).
Definition case_148 (relaxed : bool) (c : Z) : label :=
  switch c [(48, st 145); (58, st 131); (93, st 61)]
    (if c <? 65 then
       (if range 49 c 57 then st 129 else st 0)
     else if 70 <? c then
       (if range 97 c 102 then st 129 else st 0)
     else st 129).
Definition case_149 (relaxed : bool) (c : Z) : label :=
  switch c [(58, st 131); (93, st 61)]
    (if c <? 65 then
       (if range 48 c 57 then st 128 else st 0)
     else if 70 <? c then
       (if range 97 c 102 then st 128 else st 0)
     else st 128).
Definition case_150 (relaxed : bool) (c : Z) : label :=
  switch c [(49, st 143); (50, st 146)]
    (if c <? 48 then
       (if range 2 c 3 then st 48 else st 0)
     else if 57 <? c then
       (if 70 <? c then
          (if range 97 c 102 then st 149 else st 0)
        else if 65 <=? c then st 149 else st 0)
     else st 127).
Definition case_151 (relaxed : bool) (c : Z) : label :=
  switch c [(49, st 156); (50, st 159)]
    (if c <? 48 then
       (if range 2 c 3 then st 48 else st 0)
     else if 57 <? c then
       (if 70 <? c then
          (if range 97 c 102 then st 162 else st 0)
        else if 65 <=? c then st 162 else st 0)
     else st 152).
Definition case_152 (relaxed : bool) (c : Z) : label :=
  switch c [(46, st 55); (58, st 131)]
    (if c <? 65 then
       (if range 48 c 57 then st 153 else st 0)
     else if 70 <? c then
       (if range 97 c 102 then st 153 else st 0)
     else st 153).
Definition case_153 (relaxed : bool) (c : Z) : label :=
  if c =? 58 then st 131
  else if c <? 65 then
    (if range 48 c 57 then st 154 else st 0)
  else if 70 <? c then
    (if range 97 c 102 then st 154 else st 0)
  else st 154.
Definition case_154 (relaxed : bool) (c : Z) : label :=
  if c =? 58 then st 131
  else if c <? 65 then
    (if range 48 c 57 then st 155 else st 0)
  else if 70 <? c then
    (if range 97 c 102 then st 155 else st 0)
  else st 155.
Definition case_155 (relaxed : bool) (c : Z) : label :=
  if c =? 58 then st 131 else st 0.
Definition case_156 (relaxed : bool) (c : Z) : label :=
  switch c [(46, st 55); (58, st 131)]
    (if c <? 65 then
       (if range 48 c 57 then st 157 else st 0)
     else if 70 <? c then
       (if range 97 c 102 then st 153 else st 0)
     else st 153).
Definition case_157 (relaxed : bool) (c : Z) : label :=
  switch c [(46, st 55); (58, st 131)]
    (if c <? 65 then
       (if range 48 c 57 then st 158 else st 0)
     else if 70 <? c then
       (if range 97 c 102 then st 154 else st 0)
     else st 154).
Definition case_158 (relaxed : bool) (c : Z) : label :=
  switch c [(46, st 55); (58, st 131)]
    (if c <? 65 then
       (if range 48 c 57 then st 155 else st 0)
     else if 70 <? c then
       (if range 97 c 102 then st 155 else st 0)
     else st 155).
Definition case_159 (relaxed : bool) (c : Z) : label :=
  switch c [(46, st 55); (48, st 160); (53, st 161); (58, st 131)]
    (if c <? 65 then
       (if range 49 c 57 then st 153 else st 0)
     else if 70 <? c then
       (if range 97 c 102 then st 153 else st 0)
     else st 153).
Definition case_160 (relaxed : bool) (c : Z) : label :=
  if c =? 58 then st 131
  else if c <? 65 then
    (if range 48 c 57 then st 158 else st 0)
  else if 70 <? c then
    (if range 97 c 102 then st 154 else st 0)
  else st 154.
Definition case_161 (relaxed : bool) (c : Z) : label :=
  switch c [(48, st 158); (58, st 131)]
    (if c <? 65 then
       (if range 49 c 57 then st 154 else st 0)
     else if 70 <? c then
       (if range 97 c 102 then st 154 else st 0)
     else st 154).
Definition case_162 (relaxed : bool) (c : Z) : label :=
  if c =? 58 then st 131
  else if c <? 65 then
    (if range 48 c 57 then st 153 else st 0)
  else if 70 <? c then
    (if range 97 c 102 then st 153 else st 0)
  else st 153.
Definition case_163 (relaxed : bool) (c : Z) : label :=
  if c <? 48 then
    (if range 2 c 3 then st 48 else st 0)
  else if 57 <? c then
    (if 70 <? c then
       (if range 97 c 102 then st 49 else st 0)
     else if 65 <=? c then st 49 else st 0)
  else st 49.
Definition case_164 (relaxed : bool) (c : Z) : label :=
  if range 2 c 3 then st 48 else st 0.
Definition case_165 (relaxed : bool) (c : Z) : label :=
  if c =? 3 then st 48 else st 0.
Definition case_166 (relaxed : bool) (c : Z) : label :=
  if c =? 4 then st 48 else st 0.
Definition case_167 (relaxed : bool) (c : Z) : label :=
  if c =? 58 then st 168 else st 0.
Definition case_168 (relaxed : bool) (c : Z) : label :=
  switch c [(49, st 143); (50, st 146); (93, st 61)]
    (if c <? 48 then
       (if range 2 c 5 then st 48 else st 0)
     else if 57 <? c then
       (if 70 <? c then
          (if range 97 c 102 then st 149 else st 0)
        else if 65 <=? c then st 149 else st 0)
     else st 127).
Definition case_169 (relaxed : bool) (c : Z) : label :=
  if c <? 65 then
    (if range 48 c 57 then st 170 else st 0)
  else if 70 <? c then
    (if range 97 c 102 then st 170 else st 0)
  else st 170.
Definition case_170 (relaxed : bool) (c : Z) : label :=
  if c =? 46 then st 171
  else if c <? 65 then
    (if range 48 c 57 then st 170 else st 0)
  else if 70 <? c then
    (if range 97 c 102 then st 170 else st 0)
  else st 170.
Definition case_171 (relaxed : bool) (c : Z) : label :=
  let w := widec relaxed c in
  switch w [(33, st 172); (36, st 172); (61, st 172); (95, st 172); (126, st 172); (606, st 172);
    (635, st 172); (637, st 172)]
    (if w <? 48 then
       (if range 38 w 46 then st 172 else st 0)
     else if 59 <? w then
       (if 90 <? w then
          (if range 97 w 122 then st 172 else st 0)
        else if 65 <=? w then st 172 else st 0)
     else st 172).
Definition case_172 (relaxed : bool) (c : Z) : label :=
  let w := widec relaxed c in
  switch w [(33, st 172); (36, st 172); (61, st 172); (93, st 61); (95, st 172); (126, st 172);
    (606, st 172); (635, st 172); (637, st 172)]
    (if w <? 48 then
       (if range 38 w 46 then st 172 else st 0)
     else if 59 <? w then
       (if 90 <? w then
          (if range 97 w 122 then st 172 else st 0)
        else if 65 <=? w then st 172 else st 0)
     else st 172).
Definition case_173 (relaxed : bool) (c : Z) : label :=
  let w := widec relaxed c in
  switch w [(32, tr 37); (33, st 19); (35, tr 39); (37, st 24); (43, st 173); (47, st 26); (58, st 174);
    (59, st 19); (61, st 19); (63, tr 42); (64, st 19); (95, st 19); (126, st 19); (606, st 19);
    (635, st 19); (637, st 19)]
    (if w <? 45 then
       (if range 36 w 44 then st 19 else st 0)
     else if 57 <? w then
       (if 90 <? w then
          (if range 97 w 122 then st 173 else st 0)
        else if 65 <=? w then st 173 else st 0)
     else st 173).
Definition case_174 (relaxed : bool) (c : Z) : label :=
  let w := widec relaxed c in
  switch w [(32, tr 6); (33, tr 203); (35, tr 8); (37, tr 204); (47, tr 10); (61, tr 203); (63, tr 11);
    (95, tr 203); (126, tr 203); (606, tr 203); (635, tr 203); (637, tr 203)]
    (if w <? 64 then
       (if range 36 w 59 then tr 203 else st 0)
     else if 90 <? w then
       (if range 97 w 122 then tr 203 else st 0)
     else tr 203).
Definition case_175 (relaxed : bool) (c : Z) : label :=
  if c =? 32 then tr 4
  else if 57 <? c then
    (if range 65 c 90 then st 176 else st 0)
  else if 48 <=? c then st 176 else st 0.
Definition case_176 (relaxed : bool) (c : Z) : label :=
  if c =? 32 then tr 4
  else if 57 <? c then
    (if range 65 c 90 then st 177 else st 0)
  else if 48 <=? c then st 177 else st 0.
Definition case_177 (relaxed : bool) (c : Z) : label :=
  if c =? 32 then tr 4
  else if 57 <? c then
    (if range 65 c 90 then st 178 else st 0)
  else if 48 <=? c then st 178 else st 0.
Definition case_178 (relaxed : bool) (c : Z) : label :=
  if c =? 32 then tr 4
  else if 57 <? c then
    (if range 65 c 90 then st 179 else st 0)
  else if 48 <=? c then st 179 else st 0.
Definition case_179 (relaxed : bool) (c : Z) : label :=
  if c =? 32 then tr 4
  else if 57 <? c then
    (if range 65 c 90 then st 180 else st 0)
  else if 48 <=? c then st 180 else st 0.
Definition case_180 (relaxed : bool) (c : Z) : label :=
  if c =? 32 then tr 4
  else if 57 <? c then
    (if range 65 c 90 then st 181 else st 0)
  else if 48 <=? c then st 181 else st 0.
Definition case_181 (relaxed : bool) (c : Z) : label :=
  if c =? 32 then tr 4
  else if 57 <? c then
    (if range 65 c 90 then st 182 else st 0)
  else if 48 <=? c then st 182 else st 0.
Definition case_182 (relaxed : bool) (c : Z) : label :=
  if c =? 32 then tr 4
  else if 57 <? c then
    (if range 65 c 90 then st 183 else st 0)
  else if 48 <=? c then st 183 else st 0.
Definition case_183 (relaxed : bool) (c : Z) : label :=
  if c =? 32 then tr 4
  else if 57 <? c then
    (if range 65 c 90 then st 184 else st 0)
  else if 48 <=? c then st 184 else st 0.
Definition case_184 (relaxed : bool) (c : Z) : label :=
  if c =? 32 then tr 4
  else if 57 <? c then
    (if range 65 c 90 then st 185 else st 0)
  else if 48 <=? c then st 185 else st 0.
Definition case_185 (relaxed : bool) (c : Z) : label :=
  if c =? 32 then tr 4
  else if 57 <? c then
    (if range 65 c 90 then st 186 else st 0)
  else if 48 <=? c then st 186 else st 0.
Definition case_186 (relaxed : bool) (c : Z) : label :=
  if c =? 32 then tr 4
  else if 57 <? c then
    (if range 65 c 90 then st 187 else st 0)
  else if 48 <=? c then st 187 else st 0.
Definition case_187 (relaxed : bool) (c : Z) : label :=
  if c =? 32 then tr 4
  else if 57 <? c then
    (if range 65 c 90 then st 188 else st 0)
  else if 48 <=? c then st 188 else st 0.
Definition case_188 (relaxed : bool) (c : Z) : label :=
  if c =? 32 then tr 4
  else if 57 <? c then
    (if range 65 c 90 then st 189 else st 0)
  else if 48 <=? c then st 189 else st 0.
Definition case_189 (relaxed : bool) (c : Z) : label :=
  if c =? 32 then tr 4
  else if 57 <? c then
    (if range 65 c 90 then st 190 else st 0)
  else if 48 <=? c then st 190 else st 0.
Definition case_190 (relaxed : bool) (c : Z) : label :=
  if c =? 32 then tr 4
  else if 57 <? c then
    (if range 65 c 90 then st 191 else st 0)
  else if 48 <=? c then st 191 else st 0.
Definition case_191 (relaxed : bool) (c : Z) : label :=
  if c =? 32 then tr 4
  else if 57 <? c then
    (if range 65 c 90 then st 192 else st 0)
  else if 48 <=? c then st 192 else st 0.
Definition case_192 (relaxed : bool) (c : Z) : label :=
  if c =? 32 then tr 4
  else if 57 <? c then
    (if range 65 c 90 then st 193 else st 0)
  else if 48 <=? c then st 193 else st 0.
Definition case_193 (relaxed : bool) (c : Z) : label :=
  if c =? 32 then tr 4 else st 0.
Definition case_194 (relaxed : bool) (c : Z) : label :=
  if c <? 48 then
    (if range 45 c 46 then st 195 else st 0)
  else if 57 <? c then
    (if 90 <? c then
       (if range 97 c 122 then st 195 else st 0)
     else if 65 <=? c then st 195 else st 0)
  else st 195.
Definition case_195 (relaxed : bool) (c : Z) : label :=
  switch c [(32, tr 224); (47, tr 224); (62, tr 224)]
    (if c <? 45 then
       (if range 9 c 13 then tr 224 else st 0)
     else if 57 <? c then
       (if 90 <? c then
          (if range 97 c 122 then st 195 else st 0)
        else if 65 <=? c then st 195 else st 0)
     else st 195).
Definition case_196 (relaxed : bool) (c : Z) : label :=
  if c =? 62 then st 197 else st 196.
Definition case_197 (relaxed : bool) (c : Z) : label :=
  switch c [(0, tr 227); (62, st 197)] (st 196).
Definition case_198 (relaxed : bool) (c : Z) : label :=
  let w := widec relaxed c in
  switch w [(32, tr 228); (33, st 202); (37, st 203); (47, st 208); (59, st 202); (61, st 202);
    (95, st 202); (126, st 202); (606, st 202); (635, st 202); (637, st 202)]
    (if w <? 64 then
       (if range 36 w 57 then st 202 else st 0)
     else if 90 <? w then
       (if range 97 w 122 then st 202 else st 0)
     else st 202).
Definition case_199 (relaxed : bool) (c : Z) : label :=
  if c =? 123 then tr 232 else st 0.
Definition case_200 (relaxed : bool) (c : Z) : label :=
  if c =? 125 then st 201 else st 200.
Definition case_201 (relaxed : bool) (c : Z) : label :=
  switch c [(0, tr 235); (125, st 201)] (st 200).
Definition case_202 (relaxed : bool) (c : Z) : label :=
  let w := widec relaxed c in
  switch w [(32, tr 228); (33, st 202); (37, st 203); (47, st 205); (59, st 202); (61, st 202);
    (95, st 202); (126, st 202); (606, st 202); (635, st 202); (637, st 202)]
    (if w <? 64 then
       (if range 36 w 57 then st 202 else st 0)
     else if 90 <? w then
       (if range 97 w 122 then st 202 else st 0)
     else st 202).
Definition case_203 (relaxed : bool) (c : Z) : label :=
  if c <? 65 then
    (if range 48 c 57 then st 204 else st 0)
  else if 70 <? c then
    (if range 97 c 102 then st 204 else st 0)
  else st 204.
Definition case_204 (relaxed : bool) (c : Z) : label :=
  if c <? 65 then
    (if range 48 c 57 then st 202 else st 0)
  else if 70 <? c then
    (if range 97 c 102 then st 202 else st 0)
  else st 202.
Definition case_205 (relaxed : bool) (c : Z) : label :=
  let w := widec relaxed c in
  switch w [(32, tr 228); (33, st 205); (37, st 206); (61, st 205); (95, st 205); (126, st 205);
    (606, st 205); (635, st 205); (637, st 205)]
    (if w <? 64 then
       (if range 36 w 59 then st 205 else st 0)
     else if 90 <? w then
       (if range 97 w 122 then st 205 else st 0)
     else st 205).
Definition case_206 (relaxed : bool) (c : Z) : label :=
  if c <? 65 then
    (if range 48 c 57 then st 207 else st 0)
  else if 70 <? c then
    (if range 97 c 102 then st 207 else st 0)
  else st 207.
Definition case_207 (relaxed : bool) (c : Z) : label :=
  if c <? 65 then
    (if range 48 c 57 then st 205 else st 0)
  else if 70 <? c then
    (if range 97 c 102 then st 205 else st 0)
  else st 205.
Definition case_208 (relaxed : bool) (c : Z) : label :=
  let w := widec relaxed c in
  switch w [(32, tr 228); (33, st 205); (37, st 206); (47, st 209); (61, st 205); (95, st 205);
    (126, st 205); (606, st 205); (635, st 205); (637, st 205)]
    (if w <? 64 then
       (if range 36 w 59 then st 205 else st 0)
     else if 90 <? w then
       (if range 97 w 122 then st 205 else st 0)
     else st 205).
Definition case_209 (relaxed : bool) (c : Z) : label :=
  let w := widec relaxed c in
  switch w [(32, tr 228); (33, st 210); (37, st 211); (47, st 205); (58, st 213); (61, st 210);
    (64, st 217); (91, st 222); (95, st 210); (126, st 210); (606, st 210); (635, st 210); (637, st 210)]
    (if w <? 65 then
       (if range 36 w 59 then st 210 else st 0)
     else if 90 <? w then
       (if range 97 w 122 then st 210 else st 0)
     else st 210).
Definition case_210 (relaxed : bool) (c : Z) : label :=
  let w := widec relaxed c in
  switch w [(32, tr 228); (33, st 210); (37, st 211); (47, st 205); (58, st 213); (61, st 210);
    (64, st 217); (95, st 210); (126, st 210); (606, st 210); (635, st 210); (637, st 210)]
    (if w <? 65 then
       (if range 36 w 59 then st 210 else st 0)
     else if 90 <? w then
       (if range 97 w 122 then st 210 else st 0)
     else st 210).
Definition case_211 (relaxed : bool) (c : Z) : label :=
  if c <? 65 then
    (if range 48 c 57 then st 212 else st 0)
  else if 70 <? c then
    (if range 97 c 102 then st 212 else st 0)
  else st 212.
Definition case_212 (relaxed : bool) (c : Z) : label :=
  if c <? 65 then
    (if range 48 c 57 then st 210 else st 0)
  else if 70 <? c then
    (if range 97 c 102 then st 210 else st 0)
  else st 210.
Definition case_213 (relaxed : bool) (c : Z) : label :=
  let w := widec relaxed c in
  switch w [(32, tr 228); (33, st 214); (37, st 215); (47, st 205); (61, st 214); (64, st 217);
    (95, st 214); (126, st 214); (606, st 214); (635, st 214); (637, st 214)]
    (if w <? 58 then
       (if 46 <? w then
          (if range 48 w 57 then st 213 else st 0)
        else if 36 <=? w then st 214 else st 0)
     else if 59 <? w then
       (if 90 <? w then
          (if range 97 w 122 then st 214 else st 0)
        else if 65 <=? w then st 214 else st 0)
     else st 214).
Definition case_214 (relaxed : bool) (c : Z) : label :=
  let w := widec relaxed c in
  switch w [(33, st 214); (37, st 215); (61, st 214); (64, st 217); (95, st 214); (126, st 214);
    (606, st 214); (635, st 214); (637, st 214)]
    (if w <? 48 then
       (if range 36 w 46 then st 214 else st 0)
     else if 59 <? w then
       (if 90 <? w then
          (if range 97 w 122 then st 214 else st 0)
        else if 65 <=? w then st 214 else st 0)
     else st 214).
Definition case_215 (relaxed : bool) (c : Z) : label :=
  if c <? 65 then
    (if range 48 c 57 then st 216 else st 0)
  else if 70 <? c then
    (if range 97 c 102 then st 216 else st 0)
  else st 216.
Definition case_216 (relaxed : bool) (c : Z) : label :=
  if c <? 65 then
    (if range 48 c 57 then st 214 else st 0)
  else if 70 <? c then
    (if range 97 c 102 then st 214 else st 0)
  else st 214.
Definition case_217 (relaxed : bool) (c : Z) : label :=
  let w := widec relaxed c in
  switch w [(32, tr 228); (33, st 218); (37, st 219); (47, st 205); (58, st 221); (61, st 218);
    (91, st 222); (95, st 218); (126, st 218); (606, st 218); (635, st 218); (637, st 218)]
    (if w <? 65 then
       (if range 36 w 59 then st 218 else st 0)
     else if 90 <? w then
       (if range 97 w 122 then st 218 else st 0)
     else st 218).
Definition case_218 (relaxed : bool) (c : Z) : label :=
  let w := widec relaxed c in
  switch w [(32, tr 228); (33, st 218); (37, st 219); (47, st 205); (58, st 221); (61, st 218);
    (95, st 218); (126, st 218); (606, st 218); (635, st 218); (637, st 218)]
    (if w <? 65 then
       (if range 36 w 59 then st 218 else st 0)
     else if 90 <? w then
       (if range 97 w 122 then st 218 else st 0)
     else st 218).
Definition case_219 (relaxed : bool) (c : Z) : label :=
  if c <? 65 then
    (if range 48 c 57 then st 220 else st 0)
  else if 70 <? c then
    (if range 97 c 102 then st 220 else st 0)
  else st 220.
Definition case_220 (relaxed : bool) (c : Z) : label :=
  if c <? 65 then
    (if range 48 c 57 then st 218 else st 0)
  else if 70 <? c then
    (if range 97 c 102 then st 218 else st 0)
  else st 218.
Definition case_221 (relaxed : bool) (c : Z) : label :=
  switch c [(32, tr 228); (47, st 205)]
    (if range 48 c 57 then st 221 else st 0).
Definition case_222 (relaxed : bool) (c : Z) : label :=
  switch c [(6, st 223); (58, st 342); (118, st 344)]
    (if c <? 65 then
       (if range 48 c 57 then st 266 else st 0)
     else if 70 <? c then
       (if range 97 c 102 then st 266 else st 0)
     else st 266).
Definition case_223 (relaxed : bool) (c : Z) : label :=
  if c <? 65 then
    (if range 48 c 57 then st 224 else st 0)
  else if 70 <? c then
    (if range 97 c 102 then st 224 else st 0)
  else st 224.
Definition case_224 (relaxed : bool) (c : Z) : label :=
  if c =? 58 then st 228
  else if c <? 65 then
    (if range 48 c 57 then st 225 else st 0)
  else if 70 <? c then
    (if range 97 c 102 then st 225 else st 0)
  else st 225.
Definition case_225 (relaxed : bool) (c : Z) : label :=
  if c =? 58 then st 228
  else if c <? 65 then
    (if range 48 c 57 then st 226 else st 0)
  else if 70 <? c then
    (if range 97 c 102 then st 226 else st 0)
  else st 226.
Definition case_226 (relaxed : bool) (c : Z) : label :=
  if c =? 58 then st 228
  else if c <? 65 then
    (if range 48 c 57 then st 227 else st 0)
  else if 70 <? c then
    (if range 97 c 102 then st 227 else st 0)
  else st 227.
Definition case_227 (relaxed : bool) (c : Z) : label :=
  if c =? 58 then st 228 else st 0.
Definition case_228 (relaxed : bool) (c : Z) : label :=
  switch c [(49, st 259); (50, st 262)]
    (if c <? 65 then
       (if range 48 c 57 then st 229 else st 0)
     else if 70 <? c then
       (if range 97 c 102 then st 265 else st 0)
     else st 265).
Definition case_229 (relaxed : bool) (c : Z) : label :=
  switch c [(46, st 230); (58, st 255)]
    (if c <? 65 then
       (if range 48 c 57 then st 252 else st 0)
     else if 70 <? c then
       (if range 97 c 102 then st 252 else st 0)
     else st 252).
Definition case_230 (relaxed : bool) (c : Z) : label :=
  switch c [(49, st 247); (50, st 249)]
    (if range 48 c 57 then st 231 else st 0).
Definition case_231 (relaxed : bool) (c : Z) : label :=
  if c =? 46 then st 232 else st 0.
Definition case_232 (relaxed : bool) (c : Z) : label :=
  switch c [(49, st 242); (50, st 244)]
    (if range 48 c 57 then st 233 else st 0).
Definition case_233 (relaxed : bool) (c : Z) : label :=
  if c =? 46 then st 234 else st 0.
Definition case_234 (relaxed : bool) (c : Z) : label :=
  switch c [(49, st 237); (50, st 239)]
    (if range 48 c 57 then st 235 else st 0).
Definition case_235 (relaxed : bool) (c : Z) : label :=
  if c =? 93 then st 236 else st 0.
Definition case_236 (relaxed : bool) (c : Z) : label :=
  switch c [(32, tr 228); (47, st 205); (58, st 221)] (st 0).
Definition case_237 (relaxed : bool) (c : Z) : label :=
  if c =? 93 then st 236
  else if range 48 c 57 then st 238 else st 0.
Definition case_238 (relaxed : bool) (c : Z) : label :=
  if c =? 93 then st 236
  else if range 48 c 57 then st 235 else st 0.
Definition case_239 (relaxed : bool) (c : Z) : label :=
  switch c [(48, st 240); (53, st 241); (93, st 236)] (st 0).
Definition case_240 (relaxed : bool) (c : Z) : label :=
  if range 48 c 57 then st 235 else st 0.
Definition case_241 (relaxed : bool) (c : Z) : label :=
  if c =? 48 then st 235 else st 0.
Definition case_242 (relaxed : bool) (c : Z) : label :=
  if c =? 46 then st 234
  else if range 48 c 57 then st 243 else st 0.
Definition case_243 (relaxed : bool) (c : Z) : label :=
  if c =? 46 then st 234
  else if range 48 c 57 then st 233 else st 0.
Definition case_244 (relaxed : bool) (c : Z) : label :=
  switch c [(46, st 234); (48, st 245); (53, st 246)] (st 0).
Definition case_245 (relaxed : bool) (c : Z) : label :=
  if range 48 c 57 then st 233 else st 0.
Definition case_246 (relaxed : bool) (c : Z) : label :=
  if c =? 48 then st 233 else st 0.
Definition case_247 (relaxed : bool) (c : Z) : label :=
  if c =? 46 then st 232
  else if range 48 c 57 then st 248 else st 0.
Definition case_248 (relaxed : bool) (c : Z) : label :=
  if c =? 46 then st 232
  else if range 48 c 57 then st 231 else st 0.
Definition case_249 (relaxed : bool) (c : Z) : label :=
  switch c [(46, st 232); (48, st 250); (53, st 251)] (st 0).
Definition case_250 (relaxed : bool) (c : Z) : label :=
  if range 48 c 57 then st 231 else st 0.
Definition case_251 (relaxed : bool) (c : Z) : label :=
  if c =? 48 then st 231 else st 0.
Definition case_252 (relaxed : bool) (c : Z) : label :=
  if c =? 58 then st 255
  else if c <? 65 then
    (if range 48 c 57 then st 253 else st 0)
  else if 70 <? c then
    (if range 97 c 102 then st 253 else st 0)
  else st 253.
Definition case_253 (relaxed : bool) (c : Z) : label :=
  if c =? 58 then st 255
  else if c <? 65 then
    (if range 48 c 57 then st 254 else st 0)
  else if 70 <? c then
    (if range 97 c 102 then st 254 else st 0)
  else st 254.
Definition case_254 (relaxed : bool) (c : Z) : label :=
  if c =? 58 then st 255 else st 0.
Definition case_255 (relaxed : bool) (c : Z) : label :=
  if c <? 65 then
    (if range 48 c 57 then st 256 else st 0)
  else if 70 <? c then
    (if range 97 c 102 then st 256 else st 0)
  else st 256.
Definition case_256 (relaxed : bool) (c : Z) : label :=
  if c =? 93 then st 236
  else if c <? 65 then
    (if range 48 c 57 then st 257 else st 0)
  else if 70 <? c then
    (if range 97 c 102 then st 257 else st 0)
  else st 257.
Definition case_257 (relaxed : bool) (c : Z) : label :=
  if c =? 93 then st 236
  else if c <? 65 then
    (if range 48 c 57 then st 258 else st 0)
  else if 70 <? c then
    (if range 97 c 102 then st 258 else st 0)
  else st 258.
Definition case_258 (relaxed : bool) (c : Z) : label :=
  if c =? 93 then st 236
  else if c <? 65 then
    (if range 48 c 57 then st 235 else st 0)
  else if 70 <? c then
    (if range 97 c 102 then st 235 else st 0)
  else st 235.
Definition case_259 (relaxed : bool) (c : Z) : label :=
  switch c [(46, st 230); (58, st 255)]
    (if c <? 65 then
       (if range 48 c 57 then st 260 else st 0)
     else if 70 <? c then
       (if range 97 c 102 then st 252 else st 0)
     else st 252).
Definition case_260 (relaxed : bool) (c : Z) : label :=
  switch c [(46, st 230); (58, st 255)]
    (if c <? 65 then
       (if range 48 c 57 then st 261 else st 0)
     else if 70 <? c then
       (if range 97 c 102 then st 253 else st 0)
     else st 253).
Definition case_261 (relaxed : bool) (c : Z) : label :=
  switch c [(46, st 230); (58, st 255)]
    (if c <? 65 then
       (if range 48 c 57 then st 254 else st 0)
     else if 70 <? c then
       (if range 97 c 102 then st 254 else st 0)
     else st 254).
Definition case_262 (relaxed : bool) (c : Z) : label :=
  switch c [(46, st 230); (48, st 263); (53, st 264); (58, st 255)]
    (if c <? 65 then
       (if range 49 c 57 then st 252 else st 0)
     else if 70 <? c then
       (if range 97 c 102 then st 252 else st 0)
     else st 252).
Definition case_263 (relaxed : bool) (c : Z) : label :=
  if c =? 58 then st 255
  else if c <? 65 then
    (if range 48 c 57 then st 261 else st 0)
  else if 70 <? c then
    (if range 97 c 102 then st 253 else st 0)
  else st 253.
Definition case_264 (relaxed : bool) (c : Z) : label :=
  switch c [(48, st 261); (58, st 255)]
    (if c <? 65 then
       (if range 49 c 57 then st 253 else st 0)
     else if 70 <? c then
       (if range 97 c 102 then st 253 else st 0)
     else st 253).
Definition case_265 (relaxed : bool) (c : Z) : label :=
  if c =? 58 then st 255
  else if c <? 65 then
    (if range 48 c 57 then st 252 else st 0)
  else if 70 <? c then
    (if range 97 c 102 then st 252 else st 0)
  else st 252.
Definition case_266 (relaxed : bool) (c : Z) : label :=
  if c =? 58 then st 270
  else if c <? 65 then
    (if range 48 c 57 then st 267 else st 0)
  else if 70 <? c then
    (if range 97 c 102 then st 267 else st 0)
  else st 267.
Definition case_267 (relaxed : bool) (c : Z) : label :=
  if c =? 58 then st 270
  else if c <? 65 then
    (if range 48 c 57 then st 268 else st 0)
  else if 70 <? c then
    (if range 97 c 102 then st 268 else st 0)
  else st 268.
Definition case_268 (relaxed : bool) (c : Z) : label :=
  if c =? 58 then st 270
  else if c <? 65 then
    (if range 48 c 57 then st 269 else st 0)
  else if 70 <? c then
    (if range 97 c 102 then st 269 else st 0)
  else st 269.
Definition case_269 (relaxed : bool) (c : Z) : label :=
  if c =? 58 then st 270 else st 0.
Definition case_270 (relaxed : bool) (c : Z) : label :=
  if c =? 58 then st 341
  else if c <? 65 then
    (if range 48 c 57 then st 271 else st 0)
  else if 70 <? c then
    (if range 97 c 102 then st 271 else st 0)
  else st 271.
Definition case_271 (relaxed : bool) (c : Z) : label :=
  if c =? 58 then st 275
  else if c <? 65 then
    (if range 48 c 57 then st 272 else st 0)
  else if 70 <? c then
    (if range 97 c 102 then st 272 else st 0)
  else st 272.
Definition case_272 (relaxed : bool) (c : Z) : label :=
  if c =? 58 then st 275
  else if c <? 65 then
    (if range 48 c 57 then st 273 else st 0)
  else if 70 <? c then
    (if range 97 c 102 then st 273 else st 0)
  else st 273.
Definition case_273 (relaxed : bool) (c : Z) : label :=
  if c =? 58 then st 275
  else if c <? 65 then
    (if range 48 c 57 then st 274 else st 0)
  else if 70 <? c then
    (if range 97 c 102 then st 274 else st 0)
  else st 274.
Definition case_274 (relaxed : bool) (c : Z) : label :=
  if c =? 58 then st 275 else st 0.
Definition case_275 (relaxed : bool) (c : Z) : label :=
  if c =? 58 then st 340
  else if c <? 65 then
    (if range 48 c 57 then st 276 else st 0)
  else if 70 <? c then
    (if range 97 c 102 then st 276 else st 0)
  else st 276.
Definition case_276 (relaxed : bool) (c : Z) : label :=
  if c =? 58 then st 280
  else if c <? 65 then
    (if range 48 c 57 then st 277 else st 0)
  else if 70 <? c then
    (if range 97 c 102 then st 277 else st 0)
  else st 277.
Definition case_277 (relaxed : bool) (c : Z) : label :=
  if c =? 58 then st 280
  else if c <? 65 then
    (if range 48 c 57 then st 278 else st 0)
  else if 70 <? c then
    (if range 97 c 102 then st 278 else st 0)
  else st 278.
Definition case_278 (relaxed : bool) (c : Z) : label :=
  if c =? 58 then st 280
  else if c <? 65 then
    (if range 48 c 57 then st 279 else st 0)
  else if 70 <? c then
    (if range 97 c 102 then st 279 else st 0)
  else st 279.
Definition case_279 (relaxed : bool) (c : Z) : label :=
  if c =? 58 then st 280 else st 0.
Definition case_280 (relaxed : bool) (c : Z) : label :=
  if c =? 58 then st 339
  else if c <? 65 then
    (if range 48 c 57 then st 281 else st 0)
  else if 70 <? c then
    (if range 97 c 102 then st 281 else st 0)
  else st 281.
Definition case_281 (relaxed : bool) (c : Z) : label :=
  if c =? 58 then st 285
  else if c <? 65 then
    (if range 48 c 57 then st 282 else st 0)
  else if 70 <? c then
    (if range 97 c 102 then st 282 else st 0)
  else st 282.
Definition case_282 (relaxed : bool) (c : Z) : label :=
  if c =? 58 then st 285
  else if c <? 65 then
    (if range 48 c 57 then st 283 else st 0)
  else if 70 <? c then
    (if range 97 c 102 then st 283 else st 0)
  else st 283.
Definition case_283 (relaxed : bool) (c : Z) : label :=
  if c =? 58 then st 285
  else if c <? 65 then
    (if range 48 c 57 then st 284 else st 0)
  else if 70 <? c then
    (if range 97 c 102 then st 284 else st 0)
  else st 284.
Definition case_284 (relaxed : bool) (c : Z) : label :=
  if c =? 58 then st 285 else st 0.
Definition case_285 (relaxed : bool) (c : Z) : label :=
  if c =? 58 then st 338
  else if c <? 65 then
    (if range 48 c 57 then st 286 else st 0)
  else if 70 <? c then
    (if range 97 c 102 then st 286 else st 0)
  else st 286.
Definition case_286 (relaxed : bool) (c : Z) : label :=
  if c =? 58 then st 290
  else if c <? 65 then
    (if range 48 c 57 then st 287 else st 0)
  else if 70 <? c then
    (if range 97 c 102 then st 287 else st 0)
  else st 287.
Definition case_287 (relaxed : bool) (c : Z) : label :=
  if c =? 58 then st 290
  else if c <? 65 then
    (if range 48 c 57 then st 288 else st 0)
  else if 70 <? c then
    (if range 97 c 102 then st 288 else st 0)
  else st 288.
Definition case_288 (relaxed : bool) (c : Z) : label :=
  if c =? 58 then st 290
  else if c <? 65 then
    (if range 48 c 57 then st 289 else st 0)
  else if 70 <? c then
    (if range 97 c 102 then st 289 else st 0)
  else st 289.
Definition case_289 (relaxed : bool) (c : Z) : label :=
  if c =? 58 then st 290 else st 0.
Definition case_290 (relaxed : bool) (c : Z) : label :=
  if c =? 58 then st 326
  else if c <? 65 then
    (if range 48 c 57 then st 291 else st 0)
  else if 70 <? c then
    (if range 97 c 102 then st 291 else st 0)
  else st 291.
Definition case_291 (relaxed : bool) (c : Z) : label :=
  if c =? 58 then st 295
  else if c <? 65 then
    (if range 48 c 57 then st 292 else st 0)
  else if 70 <? c then
    (if range 97 c 102 then st 292 else st 0)
  else st 292.
Definition case_292 (relaxed : bool) (c : Z) : label :=
  if c =? 58 then st 295
  else if c <? 65 then
    (if range 48 c 57 then st 293 else st 0)
  else if 70 <? c then
    (if range 97 c 102 then st 293 else st 0)
  else st 293.
Definition case_293 (relaxed : bool) (c : Z) : label :=
  if c =? 58 then st 295
  else if c <? 65 then
    (if range 48 c 57 then st 294 else st 0)
  else if 70 <? c then
    (if range 97 c 102 then st 294 else st 0)
  else st 294.
Definition case_294 (relaxed : bool) (c : Z) : label :=
  if c =? 58 then st 295 else st 0.
Definition case_295 (relaxed : bool) (c : Z) : label :=
  if c =? 58 then st 325
  else if c <? 65 then
    (if range 48 c 57 then st 296 else st 0)
  else if 70 <? c then
    (if range 97 c 102 then st 296 else st 0)
  else st 296.
Definition case_296 (relaxed : bool) (c : Z) : label :=
  if c =? 58 then st 300
  else if c <? 65 then
    (if range 48 c 57 then st 297 else st 0)
  else if 70 <? c then
    (if range 97 c 102 then st 297 else st 0)
  else st 297.
Definition case_297 (relaxed : bool) (c : Z) : label :=
  if c =? 58 then st 300
  else if c <? 65 then
    (if range 48 c 57 then st 298 else st 0)
  else if 70 <? c then
    (if range 97 c 102 then st 298 else st 0)
  else st 298.
Definition case_298 (relaxed : bool) (c : Z) : label :=
  if c =? 58 then st 300
  else if c <? 65 then
    (if range 48 c 57 then st 299 else st 0)
  else if 70 <? c then
    (if range 97 c 102 then st 299 else st 0)
  else st 299.
Definition case_299 (relaxed : bool) (c : Z) : label :=
  if c =? 58 then st 300 else st 0.
Definition case_300 (relaxed : bool) (c : Z) : label :=
  if c =? 58 then st 301
  else if c <? 65 then
    (if range 48 c 57 then st 296 else st 0)
  else if 70 <? c then
    (if range 97 c 102 then st 296 else st 0)
  else st 296.
Definition case_301 (relaxed : bool) (c : Z) : label :=
  switch c [(49, st 318); (50, st 321); (93, st 236)]
    (if c <? 48 then
       (if range 2 c 3 then st 223 else st 0)
     else if 57 <? c then
       (if 70 <? c then
          (if range 97 c 102 then st 324 else st 0)
        else if 65 <=? c then st 324 else st 0)
     else st 302).
Definition case_302 (relaxed : bool) (c : Z) : label :=
  switch c [(46, st 230); (58, st 306); (93, st 236)]
    (if c <? 65 then
       (if range 48 c 57 then st 303 else st 0)
     else if 70 <? c then
       (if range 97 c 102 then st 303 else st 0)
     else st 303).
Definition case_303 (relaxed : bool) (c : Z) : label :=
  switch c [(58, st 306); (93, st 236)]
    (if c <? 65 then
       (if range 48 c 57 then st 304 else st 0)
     else if 70 <? c then
       (if range 97 c 102 then st 304 else st 0)
     else st 304).
Definition case_304 (relaxed : bool) (c : Z) : label :=
  switch c [(58, st 306); (93, st 236)]
    (if c <? 65 then
       (if range 48 c 57 then st 305 else st 0)
     else if 70 <? c then
       (if range 97 c 102 then st 305 else st 0)
     else st 305).
Definition case_305 (relaxed : bool) (c : Z) : label :=
  switch c [(58, st 306); (93, st 236)] (st 0).
Definition case_306 (relaxed : bool) (c : Z) : label :=
  switch c [(49, st 311); (50, st 314)]
    (if c <? 65 then
       (if range 48 c 57 then st 307 else st 0)
     else if 70 <? c then
       (if range 97 c 102 then st 317 else st 0)
     else st 317).
Definition case_307 (relaxed : bool) (c : Z) : label :=
  switch c [(46, st 230); (58, st 255); (93, st 236)]
    (if c <? 65 then
       (if range 48 c 57 then st 308 else st 0)
     else if 70 <? c then
       (if range 97 c 102 then st 308 else st 0)
     else st 308).
Definition case_308 (relaxed : bool) (c : Z) : label :=
  switch c [(58, st 255); (93, st 236)]
    (if c <? 65 then
       (if range 48 c 57 then st 309 else st 0)
     else if 70 <? c then
       (if range 97 c 102 then st 309 else st 0)
     else st 309).
Definition case_309 (relaxed : bool) (c : Z) : label :=
  switch c [(58, st 255); (93, st 236)]
    (if c <? 65 then
       (if range 48 c 57 then st 310 else st 0)
     else if 70 <? c then
       (if range 97 c 102 then st 310 else st 0)
     else st 310).
Definition case_310 (relaxed : bool) (c : Z) : label :=
  switch c [(58, st 255); (93, st 236)] (st 0).
Definition case_311 (relaxed : bool) (c : Z) : label :=
  switch c [(46, st 230); (58, st 255); (93, st 236)]
    (if c <? 65 then
       (if range 48 c 57 then st 312 else st 0)
     else if 70 <? c then
       (if range 97 c 102 then st 308 else st 0)
     else st 308).
Definition case_312 (relaxed : bool) (c : Z) : label :=
  switch c [(46, st 230); (58, st 255); (93, st 236)]
    (if c <? 65 then
       (if range 48 c 57 then st 313 else st 0)
     else if 70 <? c then
       (if range 97 c 102 then st 309 else st 0)
     else st 309).
Definition case_313 (relaxed : bool) (c : Z) : label :=
  switch c [(46, st 230); (58, st 255); (93, st 236)]
    (if c <? 65 then
       (if range 48 c 57 then st 310 else st 0)
     else if 70 <? c then
       (if range 97 c 102 then st 310 else st 0)
     else st 310).
Definition case_314 (relaxed : bool) (c : Z) : label :=
  switch c [(46, st 230); (48, st 315); (53, st 316); (58, st 255); (93, st 236)]
    (if c <? 65 then
       (if range 49 c 57 then st 308 else st 0)
     else if 70 <? c then
       (if range 97 c 102 then st 308 else st 0)
     else st 308).
Definition case_315 (relaxed : bool) (c : Z) : label :=
  switch c [(58, st 255); (93, st 236)]
    (if c <? 65 then
       (if range 48 c 57 then st 313 else st 0)
     else if 70 <? c then
       (if range 97 c 102 then st 309 else st 0)
     else st 309).
Definition case_316 (relaxed : bool) (c : Z) : label :=
  switch c [(48, st 313); (58, st 255); (93, st 236)]
    (if c <? 65 then
       (if range 49 c 57 then st 309 else st 0)
     else if 70 <? c then
       (if range 97 c 102 then st 309 else st 0)
     else st 309).
Definition case_317 (relaxed : bool) (c : Z) : label :=
  switch c [(58, st 255); (93, st 236)]
    (if c <? 65 then
       (if range 48 c 57 then st 308 else st 0)
     else if 70 <? c then
       (if range 97 c 102 then st 308 else st 0)
     else st 308).
Definition case_318 (relaxed : bool) (c : Z) : label :=
  switch c [(46, st 230); (58, st 306); (93, st 236)]
    (if c <? 65 then
       (if range 48 c 57 then st 319 else st 0)
     else if 70 <? c then
       (if range 97 c 102 then st 303 else st 0)
     else st 303).
Definition case_319 (relaxed : bool) (c : Z) : label :=
  switch c [(46, st 230); (58, st 306); (93, st 236)]
    (if c <? 65 then
       (if range 48 c 57 then st 320 else st 0)
     else if 70 <? c then
       (if range 97 c 102 then st 304 else st 0)
     else st 304).
Definition case_320 (relaxed : bool) (c : Z) : label :=
  switch c [(46, st 230); (58, st 306); (93, st 236)]
    (if c <? 65 then
       (if range 48 c 57 then st 305 else st 0)
     else if 70 <? c then
       (if range 97 c 102 then st 305 else st 0)
     else st 305).
Definition case_321 (relaxed : bool) (c : Z) : label :=
  switch c [(46, st 230); (48, st 322); (53, st 323); (58, st 306); (93, st 236)]
    (if c <? 65 then
       (if range 49 c 57 then st 303 else st 0)
     else if 70 <? c then
       (if range 97 c 102 then st 303 else st 0)
     else st 303).
Definition case_322 (relaxed : bool) (c : Z) : label :=
  switch c [(58, st 306); (93, st 236)]
    (if c <? 65 then
       (if range 48 c 57 then st 320 else st 0)
     else if 70 <? c then
       (if range 97 c 102 then st 304 else st 0)
     else st 304).
Definition case_323 (relaxed : bool) (c : Z) : label :=
  switch c [(48, st 320); (58, st 306); (93, st 236)]
    (if c <? 65 then
       (if range 49 c 57 then st 304 else st 0)
     else if 70 <? c then
       (if range 97 c 102 then st 304 else st 0)
     else st 304).
Definition case_324 (relaxed : bool) (c : Z) : label :=
  switch c [(58, st 306); (93, st 236)]
    (if c <? 65 then
       (if range 48 c 57 then st 303 else st 0)
     else if 70 <? c then
       (if range 97 c 102 then st 303 else st 0)
     else st 303).
Definition case_325 (relaxed : bool) (c : Z) : label :=
  switch c [(49, st 318); (50, st 321)]
    (if c <? 48 then
       (if range 2 c 3 then st 223 else st 0)
     else if 57 <? c then
       (if 70 <? c then
          (if range 97 c 102 then st 324 else st 0)
        else if 65 <=? c then st 324 else st 0)
     else st 302).
Definition case_326 (relaxed : bool) (c : Z) : label :=
  switch c [(49, st 331); (50, st 334)]
    (if c <? 48 then
       (if range 2 c 3 then st 223 else st 0)
     else if 57 <? c then
       (if 70 <? c then
          (if range 97 c 102 then st 337 else st 0)
        else if 65 <=? c then st 337 else st 0)
     else st 327).
Definition case_327 (relaxed : bool) (c : Z) : label :=
  switch c [(46, st 230); (58, st 306)]
    (if c <? 65 then
       (if range 48 c 57 then st 328 else st 0)
     else if 70 <? c then
       (if range 97 c 102 then st 328 else st 0)
     else st 328).
Definition case_328 (relaxed : bool) (c : Z) : label :=
  if c =? 58 then st 306
  else if c <? 65 then
    (if range 48 c 57 then st 329 else st 0)
  else if 70 <? c then
    (if range 97 c 102 then st 329 else st 0)
  else st 329.
Definition case_329 (relaxed : bool) (c : Z) : label :=
  if c =? 58 then st 306
  else if c <? 65 then
    (if range 48 c 57 then st 330 else st 0)
  else if 70 <? c then
    (if range 97 c 102 then st 330 else st 0)
  else st 330.
Definition case_330 (relaxed : bool) (c : Z) : label :=
  if c =? 58 then st 306 else st 0.
Definition case_331 (relaxed : bool) (c : Z) : label :=
  switch c [(46, st 230); (58, st 306)]
    (if c <? 65 then
       (if range 48 c 57 then st 332 else st 0)
     else if 70 <? c then
       (if range 97 c 102 then st 328 else st 0)
     else st 328).
Definition case_332 (relaxed : bool) (c : Z) : label :=
  switch c [(46, st 230); (58, st 306)]
    (if c <? 65 then
       (if range 48 c 57 then st 333 else st 0)
     else if 70 <? c then
       (if range 97 c 102 then st 329 else st 0)
     else st 329).
Definition case_333 (relaxed : bool) (c : Z) : label :=
  switch c [(46, st 230); (58, st 306)]
    (if c <? 65 then
       (if range 48 c 57 then st 330 else st 0)
     else if 70 <? c then
       (if range 97 c 102 then st 330 else st 0)
     else st 330).
Definition case_334 (relaxed : bool) (c : Z) : label :=
  switch c [(46, st 230); (48, st 335); (53, st 336); (58, st 306)]
    (if c <? 65 then
       (if range 49 c 57 then st 328 else st 0)
     else if 70 <? c then
       (if range 97 c 102 then st 328 else st 0)
     else st 328).
Definition case_335 (relaxed : bool) (c : Z) : label :=
  if c =? 58 then st 306
  else if c <? 65 then
    (if range 48 c 57 then st 333 else st 0)
  else if 70 <? c then
    (if range 97 c 102 then st 329 else st 0)
  else st 329.
Definition case_336 (relaxed : bool) (c : Z) : label :=
  switch c [(48, st 333); (58, st 306)]
    (if c <? 65 then
       (if range 49 c 57 then st 329 else st 0)
     else if 70 <? c then
       (if range 97 c 102 then st 329 else st 0)
     else st 329).
Definition case_337 (relaxed : bool) (c : Z) : label :=
  if c =? 58 then st 306
  else if c <? 65 then
    (if range 48 c 57 then st 328 else st 0)
  else if 70 <? c then
    (if range 97 c 102 then st 328 else st 0)
  else st 328.
Definition case_338 (relaxed : bool) (c : Z) : label :=
  if c <? 48 then
    (if range 2 c 3 then st 223 else st 0)
  else if 57 <? c then
    (if 70 <? c then
       (if range 97 c 102 then st 224 else st 0)
     else if 65 <=? c then st 224 else st 0)
  else st 224.
Definition case_339 (relaxed : bool) (c : Z) : label :=
  if range 2 c 3 then st 223 else st 0.
Definition case_340 (relaxed : bool) (c : Z) : label :=
  if c =? 3 then st 223 else st 0.
Definition case_341 (relaxed : bool) (c : Z) : label :=
  if c =? 4 then st 223 else st 0.
Definition case_342 (relaxed : bool) (c : Z) : label :=
  if c =? 58 then st 343 else st 0.
Definition case_343 (relaxed : bool) (c : Z) : label :=
  switch c [(49, st 318); (50, st 321); (93, st 236)]
    (if c <? 48 then
       (if range 2 c 5 then st 223 else st 0)
     else if 57 <? c then
       (if 70 <? c then
          (if range 97 c 102 then st 324 else st 0)
        else if 65 <=? c then st 324 else st 0)
     else st 302).
Definition case_344 (relaxed : bool) (c : Z) : label :=
  if c <? 65 then
    (if range 48 c 57 then st 345 else st 0)
  else if 70 <? c then
    (if range 97 c 102 then st 345 else st 0)
  else st 345.
Definition case_345 (relaxed : bool) (c : Z) : label :=
  if c =? 46 then st 346
  else if c <? 65 then
    (if range 48 c 57 then st 345 else st 0)
  else if 70 <? c then
    (if range 97 c 102 then st 345 else st 0)
  else st 345.
Definition case_346 (relaxed : bool) (c : Z) : label :=
  let w := widec relaxed c in
  switch w [(33, st 347); (36, st 347); (61, st 347); (95, st 347); (126, st 347); (606, st 347);
    (635, st 347); (637, st 347)]
    (if w <? 48 then
       (if range 38 w 46 then st 347 else st 0)
     else if 59 <? w then
       (if 90 <? w then
          (if range 97 w 122 then st 347 else st 0)
        else if 65 <=? w then st 347 else st 0)
     else st 347).
Definition case_347 (relaxed : bool) (c : Z) : label :=
  let w := widec relaxed c in
  switch w [(33, st 347); (36, st 347); (61, st 347); (93, st 236); (95, st 347); (126, st 347);
    (606, st 347); (635, st 347); (637, st 347)]
    (if w <? 48 then
       (if range 38 w 46 then st 347 else st 0)
     else if 59 <? w then
       (if 90 <? w then
          (if range 97 w 122 then st 347 else st 0)
        else if 65 <=? w then st 347 else st 0)
     else st 347).
Definition case_348 (relaxed : bool) (c : Z) : label :=
  switch c [(33, st 14); (58, tr 27); (124, st 14); (126, st 14)]
    (if c <? 42 then
       (if c <? 10 then
          (if range 1 c 8 then st 14 else st 0)
        else if 31 <? c then
          (if range 35 c 39 then st 14 else st 0)
        else st 14)
     else if 43 <? c then
       (if c <? 48 then
          (if range 45 c 46 then st 14 else st 0)
        else if 57 <? c then
          (if 90 <? c then
             (if range 94 c 122 then st 14 else st 0)
           else if 65 <=? c then st 14 else st 0)
        else st 14)
     else st 14).
Definition case_349 (relaxed : bool) (c : Z) : label :=
  st 0.

(** The states from 1 on. *)
Definition states : list (bool -> Z -> label) :=
  [case_1; case_2; case_3; case_4; case_5; case_6; case_7; case_8; case_9; case_10; case_11; case_12;
   case_13; case_14; case_15; case_16; case_17; case_18; case_19; case_20; case_21; case_22; case_23;
   case_24; case_25; case_26; case_27; case_28; case_29; case_30; case_31; case_32; case_33; case_34;
   case_35; case_36; case_37; case_38; case_39; case_40; case_41; case_42; case_43; case_44; case_45;
   case_46; case_47; case_48; case_49; case_50; case_51; case_52; case_53; case_54; case_55; case_56;
   case_57; case_58; case_59; case_60; case_61; case_62; case_63; case_64; case_65; case_66; case_67;
   case_68; case_69; case_70; case_71; case_72; case_73; case_74; case_75; case_76; case_77; case_78;
   case_79; case_80; case_81; case_82; case_83; case_84; case_85; case_86; case_87; case_88; case_89;
   case_90; case_91; case_92; case_93; case_94; case_95; case_96; case_97; case_98; case_99; case_100;
   case_101; case_102; case_103; case_104; case_105; case_106; case_107; case_108; case_109; case_110;
   case_111; case_112; case_113; case_114; case_115; case_116; case_117; case_118; case_119; case_120;
   case_121; case_122; case_123; case_124; case_125; case_126; case_127; case_128; case_129; case_130;
   case_131; case_132; case_133; case_134; case_135; case_136; case_137; case_138; case_139; case_140;
   case_141; case_142; case_143; case_144; case_145; case_146; case_147; case_148; case_149; case_150;
   case_151; case_152; case_153; case_154; case_155; case_156; case_157; case_158; case_159; case_160;
   case_161; case_162; case_163; case_164; case_165; case_166; case_167; case_168; case_169; case_170;
   case_171; case_172; case_173; case_174; case_175; case_176; case_177; case_178; case_179; case_180;
   case_181; case_182; case_183; case_184; case_185; case_186; case_187; case_188; case_189; case_190;
   case_191; case_192; case_193; case_194; case_195; case_196; case_197; case_198; case_199; case_200;
   case_201; case_202; case_203; case_204; case_205; case_206; case_207; case_208; case_209; case_210;
   case_211; case_212; case_213; case_214; case_215; case_216; case_217; case_218; case_219; case_220;
   case_221; case_222; case_223; case_224; case_225; case_226; case_227; case_228; case_229; case_230;
   case_231; case_232; case_233; case_234; case_235; case_236; case_237; case_238; case_239; case_240;
   case_241; case_242; case_243; case_244; case_245; case_246; case_247; case_248; case_249; case_250;
   case_251; case_252; case_253; case_254; case_255; case_256; case_257; case_258; case_259; case_260;
   case_261; case_262; case_263; case_264; case_265; case_266; case_267; case_268; case_269; case_270;
   case_271; case_272; case_273; case_274; case_275; case_276; case_277; case_278; case_279; case_280;
   case_281; case_282; case_283; case_284; case_285; case_286; case_287; case_288; case_289; case_290;
   case_291; case_292; case_293; case_294; case_295; case_296; case_297; case_298; case_299; case_300;
   case_301; case_302; case_303; case_304; case_305; case_306; case_307; case_308; case_309; case_310;
   case_311; case_312; case_313; case_314; case_315; case_316; case_317; case_318; case_319; case_320;
   case_321; case_322; case_323; case_324; case_325; case_326; case_327; case_328; case_329; case_330;
   case_331; case_332; case_333; case_334; case_335; case_336; case_337; case_338; case_339; case_340;
   case_341; case_342; case_343; case_344; case_345; case_346; case_347; case_348; case_349].

(** The transitions with actions: the actions in order, and the state entered. *)
Definition tr_0 : list action * Z := ([mark], 2).
Definition tr_2 : list action * Z := ([mark], 194).
Definition tr_3 : list action * Z := ([mark], 198).
Definition tr_4 : list action * Z := ([request_method], 3).
Definition tr_6 : list action * Z := ([mark; request_path; request_uri], 4).
Definition tr_7 : list action * Z := ([mark], 19).
Definition tr_8 : list action * Z := ([mark; request_path; request_uri], 20).
Definition tr_9 : list action * Z := ([mark], 24).
Definition tr_10 : list action * Z := ([mark], 33).
Definition tr_11 : list action * Z := ([mark; request_path], 29).
Definition tr_12 : list action * Z := ([mark], 173).
Definition tr_13 : list action * Z := ([mark], 5).
Definition tr_21 : list action * Z := ([http_version], 13).
Definition tr_22 : list action * Z := ([http_version], 17).
Definition tr_23 : list action * Z := ([start_field], 14).
Definition tr_24 : list action * Z := ([start_field; done_], 348).
Definition tr_25 : list action * Z := ([start_field], 18).
Definition tr_27 : list action * Z := ([write_field], 15).
Definition tr_28 : list action * Z := ([start_value], 16).
Definition tr_29 : list action * Z := ([start_value], 15).
Definition tr_30 : list action * Z := ([start_value; write_value], 13).
Definition tr_31 : list action * Z := ([start_value; write_value], 17).
Definition tr_33 : list action * Z := ([write_value], 13).
Definition tr_34 : list action * Z := ([write_value], 17).
Definition tr_36 : list action * Z := ([done_], 348).
Definition tr_37 : list action * Z := ([request_path; request_uri], 4).
Definition tr_39 : list action * Z := ([request_path; request_uri], 20).
Definition tr_42 : list action * Z := ([request_path], 29).
Definition tr_43 : list action * Z := ([mark; fragment], 4).
Definition tr_44 : list action * Z := ([mark], 21).
Definition tr_45 : list action * Z := ([mark], 22).
Definition tr_46 : list action * Z := ([fragment], 4).
Definition tr_53 : list action * Z := ([start_query; query_string; request_uri], 4).
Definition tr_54 : list action * Z := ([start_query], 30).
Definition tr_55 : list action * Z := ([start_query; query_string; request_uri], 20).
Definition tr_56 : list action * Z := ([start_query], 31).
Definition tr_57 : list action * Z := ([query_string; request_uri], 4).
Definition tr_59 : list action * Z := ([query_string; request_uri], 20).
Definition tr_203 : list action * Z := ([mark], 26).
Definition tr_204 : list action * Z := ([mark], 27).
Definition tr_224 : list action * Z := ([request_path], 196).
Definition tr_227 : list action * Z := ([xml; done_], 349).
Definition tr_228 : list action * Z := ([request_path], 199).
Definition tr_232 : list action * Z := ([mark], 200).
Definition tr_235 : list action * Z := ([json; done_], 349).
Definition transitions : list (Z * (list action * Z)) :=
  [(0, tr_0); (2, tr_2); (3, tr_3); (4, tr_4); (6, tr_6); (7, tr_7); (8, tr_8); (9, tr_9); (10, tr_10);
   (11, tr_11); (12, tr_12); (13, tr_13); (21, tr_21); (22, tr_22); (23, tr_23); (24, tr_24); (25, tr_25);
   (27, tr_27); (28, tr_28); (29, tr_29); (30, tr_30); (31, tr_31); (33, tr_33); (34, tr_34); (36, tr_36);
   (37, tr_37); (39, tr_39); (42, tr_42); (43, tr_43); (44, tr_44); (45, tr_45); (46, tr_46); (53, tr_53);
   (54, tr_54); (55, tr_55); (56, tr_56); (57, tr_57); (59, tr_59); (203, tr_203); (204, tr_204);
   (224, tr_224); (227, tr_227); (228, tr_228); (232, tr_232); (235, tr_235)].

End Http11Parser.
