(* ===== verification/HttpParser.v ===== *)
(** * The HTTP request parser: src/src/http/http11_parser.h, http11_parser.rl.cpp
    (everything but the automaton), src/src/http/http_parser.h, http_parser.cpp

    The parser runs over a block of bytes [mem], the first [len] of which are the
    data received; a pointer into the block is an offset.  The callbacks get such
    pointers.  [boost::lexical_cast] is a parameter. *)

From stdpp Require Import prelude strings.
From Stdlib Require Import ZArith Lia Ascii.
From S2P Require Import Prelude Text Http Http11Parser.

Module HttpParser.
Import Text Http.
Local Open Scope Z_scope.

(** [struct http_parser], without the callbacks, which the constructor of
    [HttpRequestParser] sets. *)
Record http_parser := Parser {
  cs : Z;
  body_start : Z;
  content_len : Z;
  nread : Z;
  mark : Z;
  field_start : Z;
  field_len : Z;
  query_start : Z;
  xml_sent : bool;
  json_sent : bool;
  uri_relaxed : bool
}.
Definition set_cs v q := Parser v (body_start q) (content_len q) (nread q) (mark q) (field_start q) (field_len q)
  (query_start q) (xml_sent q) (json_sent q) (uri_relaxed q).
Definition set_body_start v q := Parser (cs q) v (content_len q) (nread q) (mark q) (field_start q) (field_len q)
  (query_start q) (xml_sent q) (json_sent q) (uri_relaxed q).
Definition set_content_len v q := Parser (cs q) (body_start q) v (nread q) (mark q) (field_start q) (field_len q)
  (query_start q) (xml_sent q) (json_sent q) (uri_relaxed q).
Definition set_nread v q := Parser (cs q) (body_start q) (content_len q) v (mark q) (field_start q) (field_len q)
  (query_start q) (xml_sent q) (json_sent q) (uri_relaxed q).
Definition set_mark v q := Parser (cs q) (body_start q) (content_len q) (nread q) v (field_start q) (field_len q)
  (query_start q) (xml_sent q) (json_sent q) (uri_relaxed q).
Definition set_field_start v q := Parser (cs q) (body_start q) (content_len q) (nread q) (mark q) v (field_len q)
  (query_start q) (xml_sent q) (json_sent q) (uri_relaxed q).
Definition set_field_len v q := Parser (cs q) (body_start q) (content_len q) (nread q) (mark q) (field_start q) v
  (query_start q) (xml_sent q) (json_sent q) (uri_relaxed q).
Definition set_query_start v q := Parser (cs q) (body_start q) (content_len q) (nread q) (mark q) (field_start q)
  (field_len q) v (xml_sent q) (json_sent q) (uri_relaxed q).
Definition set_xml_sent v q := Parser (cs q) (body_start q) (content_len q) (nread q) (mark q) (field_start q)
  (field_len q) (query_start q) v (json_sent q) (uri_relaxed q).
Definition set_json_sent v q := Parser (cs q) (body_start q) (content_len q) (nread q) (mark q) (field_start q)
  (field_len q) (query_start q) (xml_sent q) v (uri_relaxed q).

(** [http_parser_init]: [query_start] and [uri_relaxed] keep what the memory held. *)
Definition http_parser_init (q : http_parser) : http_parser :=
  Parser Http11Parser.http_parser_start 0 0 0 0 0 0 (query_start q) false false (uri_relaxed q).
Definition http_parser_has_error (q : http_parser) : bool := cs q =? Http11Parser.http_parser_error.
Definition http_parser_is_finished (q : http_parser) : bool := Http11Parser.http_parser_first_final <=? cs q.
Definition http_parser_finish (q : http_parser) : Z :=
  if http_parser_has_error q then -1 else if http_parser_is_finished q then 1 else 0.

Record HttpRequestParser := RequestParser {
  m_error : Z;
  m_data : HttpRequest;
  m_parser : http_parser
}.
(** The constructor; [q] is the memory of [m_parser] before. *)
Definition new_HttpRequestParser (q : http_parser) : HttpRequestParser :=
  RequestParser 0 (new_HttpRequest 17 true) (http_parser_init q).

Abbreviation cmd := (Prelude.cmd HttpRequestParser).
Definition on_parser (f : http_parser -> http_parser) : cmd unit :=
  modify (fun s => RequestParser (m_error s) (m_data s) (f (m_parser s))).
Definition on_data (f : HttpRequest -> HttpRequest) : cmd unit :=
  modify (fun s => RequestParser (m_error s) (f (m_data s)) (m_parser s)).
Definition set_error (v : Z) : cmd unit :=
  modify (fun s => RequestParser v (m_data s) (m_parser s)).

(** ** Callbacks *)

Section memory.
Context (mem : list Z).

(** [std::string(at, length)]: more than [max_size()] throws. *)
Definition max_size : Z := 2 ^ 62 - 1.
Definition string_at {S} (at_ length_ : Z) : Prelude.cmd S string :=
  if max_size <? length_ then throw length_error
  else
    require (bool_decide (0 <= at_) && bool_decide (at_ + length_ <= Z.of_nat (length mem))) ;;;
    ret (to_text (take (Z.to_nat length_) (drop (Z.to_nat at_) mem))).

(** [strncmp(text, at, n) == 0] for a text without NUL, the bytes at [at] being [m];
    [None] when it reads past the block. *)
Fixpoint strncmp_mem (text : list Z) (m : list Z) (n : Z) : option bool :=
  if n =? 0 then Some true
  else match m with
       | [] => None
       | b :: m => match text with
                   | [] => Some (b =? 0)
                   | x :: text => if x =? b then strncmp_mem text m (n - 1) else Some false
                   end
       end.
Definition bytes_at (at_ : Z) : list Z := drop (Z.to_nat at_) mem.

Fixpoint find_method (l : list (Z * http_method * string)) (m : list Z) : option http_method :=
  match l with
  | [] => Some INVALID_METHOD
  | e :: l =>
    match strncmp_mem (bytes_of (method_text e)) m (Z.of_nat (String.length (method_text e))) with
    | None => None
    | Some true => Some (method_of e)
    | Some false => find_method l m
    end
  end.
Definition or_undef {S A} (o : option A) : Prelude.cmd S A :=
  match o with Some a => ret a | None => fail Undef end.

Definition on_request_method (at_ length_ : Z) : cmd unit :=
  let* m := or_undef (find_method HTTP_METHOD_MAP (bytes_at at_)) in
  if bool_decide (m = INVALID_METHOD) then
    let* _ := string_at at_ length_ in set_error 1000
  else on_data (set_method m).
Definition on_request_uri (_ _ : Z) : cmd unit := ret tt.
Definition on_request_fragment (at_ length_ : Z) : cmd unit :=
  let* s := string_at at_ length_ in on_data (set_fragment s).
Definition on_request_path (at_ length_ : Z) : cmd unit :=
  let* s := string_at at_ length_ in on_data (set_path s).
Definition on_request_query (at_ length_ : Z) : cmd unit :=
  let* s := string_at at_ length_ in on_data (set_query s).
Definition on_request_version (at_ length_ : Z) : cmd unit :=
  let* is11 := or_undef (strncmp_mem (bytes_of "HTTP/1.1") (bytes_at at_) length_) in
  if is11 : bool then on_data (set_version 17)
  else
    let* is10 := or_undef (strncmp_mem (bytes_of "HTTP/1.0") (bytes_at at_) length_) in
    if is10 : bool then on_data (set_version 16)
    else let* _ := string_at at_ length_ in set_error 1001.
Definition on_request_header_done (_ _ : Z) : cmd unit := ret tt.
Definition on_request_http_field (field flen value vlen : Z) : cmd unit :=
  if flen =? 0 then ret tt
  else
    let* k := string_at field flen in
    let* v := string_at value vlen in
    on_data (setHeader k v).

(** ** The machine *)

(** [LEN(AT, FPC)] for [p = buffer + pos]. *)
Definition LEN (start pos : Z) : Z := u64 (pos - start).

(** An action of the grammar at position [pos]; [true]: [fbreak], which leaves the
    machine in the target state of the transition. *)
Definition act (pe : Z) (a : Http11Parser.action) (pos : Z) : cmd bool :=
  let* q := gets m_parser in
  match a with
  | Http11Parser.mark => on_parser (set_mark pos) ;;; ret false
  | Http11Parser.start_field => on_parser (set_field_start pos) ;;; ret false
  | Http11Parser.write_field => on_parser (set_field_len (LEN (field_start q) pos)) ;;; ret false
  | Http11Parser.start_value => on_parser (set_mark pos) ;;; ret false
  | Http11Parser.write_value =>
    on_request_http_field (field_start q) (field_len q) (mark q) (LEN (mark q) pos) ;;; ret false
  | Http11Parser.request_method => on_request_method (mark q) (LEN (mark q) pos) ;;; ret false
  | Http11Parser.request_uri => on_request_uri (mark q) (LEN (mark q) pos) ;;; ret false
  | Http11Parser.fragment => on_request_fragment (mark q) (LEN (mark q) pos) ;;; ret false
  | Http11Parser.start_query => on_parser (set_query_start pos) ;;; ret false
  | Http11Parser.query_string => on_request_query (query_start q) (LEN (query_start q) pos) ;;; ret false
  | Http11Parser.http_version => on_request_version (mark q) (LEN (mark q) pos) ;;; ret false
  | Http11Parser.request_path => on_request_path (mark q) (LEN (mark q) pos) ;;; ret false
  | Http11Parser.done_ =>
    (if xml_sent q || json_sent q then
       on_parser (set_body_start (mark q)) ;;;
       on_parser (set_content_len (s32 (pos - mark q + 1)))
     else
       on_parser (set_body_start (pos + 1)) ;;;
       on_request_header_done (pos + 1) (u64 (pe - pos - 1))) ;;;
    ret true
  | Http11Parser.xml => on_parser (set_xml_sent true) ;;; ret false
  | Http11Parser.json => on_parser (set_json_sent true) ;;; ret false
  end.
Fixpoint acts (pe : Z) (l : list Http11Parser.action) (pos : Z) : cmd bool :=
  match l with
  | [] => ret false
  | a :: l => let* stop := act pe a pos in if stop : bool then ret true else acts pe l pos
  end.

Definition schar (b : Z) : Z := if b <? 128 then b else b - 256.
Definition lookup_tr (n : Z) : list Http11Parser.action * Z :=
  match List.find (fun e => fst e =? n) Http11Parser.transitions with
  | Some e => snd e
  | None => ([], 0)
  end.
(** [switch (cs)]; without a case for [cs] control goes on after the statement, to
    the line that sets [cs] to 2. *)
Definition case_of (c : Z) : option (bool -> Z -> Http11Parser.label) :=
  if c <=? 0 then None else Http11Parser.states !! Z.to_nat (c - 1).

(** The machine from [p = buffer + pos] on with the bytes [rest]: the position and
    the state at the end. *)
Fixpoint machine (pe : Z) (rest : list Z) (pos c : Z) : cmd (Z * Z) :=
  match rest with
  | [] => ret (pos, c)
  | b :: rest =>
    match case_of c with
    | None => ret (pos, 2)
    | Some f =>
      let* q := gets m_parser in
      match f (uri_relaxed q) (schar b) with
      | Http11Parser.st 0 => ret (pos, 0)
      | Http11Parser.st n => machine pe rest (pos + 1) n
      | Http11Parser.tr n =>
        let '(l, target) := lookup_tr n in
        let* stop := acts pe l pos in
        if stop : bool then ret (pos + 1, target) else machine pe rest (pos + 1) target
      end
    end
  end.

(** What [http_parser_execute] does when the machine has stopped. *)
Definition after_machine (len off p c : Z) : cmd Z :=
  assert_ (p <=? len) ;;;
  let* q := gets m_parser in
  (if negb (http_parser_has_error q) then on_parser (set_cs c) else ret tt) ;;;
  on_parser (fun q => set_nread (u64 (nread q + (p - off))) q) ;;;
  let* q := gets m_parser in
  assert_ (nread q <=? len) ;;;
  assert_ (body_start q <=? len) ;;;
  assert_ (mark q <? len) ;;;
  assert_ (field_len q <=? len) ;;;
  assert_ (field_start q <? len) ;;;
  ret (nread q).
Definition http_parser_execute (len off : Z) : cmd Z :=
  if len =? 0 then ret 0
  else
    on_parser (set_nread 0) ;;;
    on_parser (set_mark 0) ;;;
    on_parser (set_field_len 0) ;;;
    on_parser (set_field_start 0) ;;;
    let* q := gets m_parser in
    assert_ (off <=? len) ;;;
    assert_ (len - off =? s32 (s32 len - s32 off)) ;;;
    let* r := machine len (drop (Z.to_nat off) (take (Z.to_nat len) mem)) off (cs q) in
    let '(p, c) := r in
    after_machine len off p c.

(** ** HttpRequestParser *)

(** [execute(data, len)]: the result, and the block after [memmove]. *)
Definition execute (len : Z) : cmd (Z * list Z) :=
  let* offset := http_parser_execute len 0 in
  let n := Z.to_nat (len - offset) in
  require (bool_decide (len <= Z.of_nat (length mem))) ;;;
  ret (offset, splice 0 (slice (Z.to_nat offset) n mem) mem).
End memory.

Definition isFinished (s : HttpRequestParser) : Z := http_parser_finish (m_parser s).
Definition hasError (s : HttpRequestParser) : bool :=
  negb (m_error s =? 0) || http_parser_has_error (m_parser s).
Definition content_length (lexical_cast : string -> option Z) (s : HttpRequestParser) : Z :=
  getHeaderAs lexical_cast "content-length" 0 (m_data s).

(** The parser of a request that arrives in one piece. *)
Definition ex_memory : http_parser := Parser 0 0 0 0 0 0 0 0 false false false.
Definition parse (text : string) : res HttpRequestParser (Z * list Z) :=
  let mem := bytes_of text in
  execute mem (Z.of_nat (length mem)) (new_HttpRequestParser ex_memory).


(** ** Safety

    No callback gets a range outside the data, whatever bytes arrive, and no
    assertion of [http_parser_execute] fails.  Two facts about the automaton are
    needed, and checked on all its states and bytes: [query_string] only happens
    where [start_query] has happened, and [write_value] only where [write_field]
    has followed the last [start_field]. *)

(** The states inside a query, and those inside a field name. *)
Definition in_query (c : Z) : bool := bool_decide (c ∈ [30; 31; 32]).
Definition in_field (c : Z) : bool := bool_decide (c ∈ [14; 18]).

(** The two facts along a list of actions: whether the query has been started, and the field name
    is complete; [None] when an action comes too early. *)
Definition track1 (a : Http11Parser.action) (x : bool * bool) : option (bool * bool) :=
  match a with
  | Http11Parser.start_query => Some (true, snd x)
  | Http11Parser.query_string => if fst x then Some x else None
  | Http11Parser.start_field => Some (fst x, false)
  | Http11Parser.write_field => Some (fst x, true)
  | Http11Parser.write_value => if snd x then Some x else None
  | _ => Some x
  end.
Fixpoint track (l : list Http11Parser.action) (x : bool * bool) : option (bool * bool) :=
  match l with
  | [] => Some x
  | a :: l => match track1 a x with Some x => track l x | None => None end
  end.
(** What must hold on entering state [n]. *)
Definition enters (n : Z) (x : bool * bool) : bool :=
  implb (in_query n) (fst x) && (in_field n || snd x).
Definition start_facts (c : Z) : bool * bool := (in_query c, negb (in_field c)).
#[global] Instance action_eq_dec : EqDecision Http11Parser.action.
Proof. solve_decision. Defined.
Definition safe_label (c : Z) (l : Http11Parser.label) : bool :=
  match l with
  | Http11Parser.st n => (n =? 0) || (Http11Parser.range 1 n 349 && enters n (start_facts c))
  | Http11Parser.tr k =>
    let '(l, n) := lookup_tr k in
    match track l (start_facts c) with
    | Some x => Http11Parser.range 1 n 349 &&
                (if bool_decide (Http11Parser.done_ ∈ l) then 348 <=? n else enters n x)
    | None => false
    end
  end.
Definition safe_state (c : Z) : bool :=
  match case_of c with
  | None => false
  | Some f => forallb (fun b => safe_label c (f false (schar b)) && safe_label c (f true (schar b))) (seqZ 0 256)
  end.
Lemma safe_automaton : forallb safe_state (seqZ 1 349) = true.
Proof. vm_compute. reflexivity. Qed.

Lemma case_of_safe c b relaxed :
  1 <= c <= 349 -> 0 <= b < 256 ->
  exists f, case_of c = Some f /\ safe_label c (f relaxed (schar b)) = true.
Proof.
  intros Hc Hb. pose proof safe_automaton as H. rewrite forallb_forall in H.
  specialize (H c). unfold safe_state in H. destruct (case_of c) as [f|].
  - exists f. split; [done|]. rewrite forallb_forall in H.
    specialize (H ltac:(apply list_elem_of_In, elem_of_seqZ; lia) b ltac:(apply list_elem_of_In, elem_of_seqZ; lia)).
    apply andb_true_iff in H as [H1 H2]. by destruct relaxed.
  - discriminate H. apply list_elem_of_In, elem_of_seqZ. lia.
Qed.

(** The result is a value with [P], or the exception of a string that is too long. *)
Definition safely {A} (r : res HttpRequestParser A) (P : A -> HttpRequestParser -> Prop) : Prop :=
  match r with Ok a s => P a s | Throw e _ => e = length_error | Fail_ _ => False end.

Lemma safely_bind {A B} (m : cmd A) (k : A -> cmd B) s P :
  safely (m s) (fun a s' => safely (k a s') P) -> safely (bind m k s) P.
Proof. unfold bind, safely. by destruct (m s). Qed.

Lemma strncmp_mem_some text : forall m n, 0 <= n <= Z.of_nat (length m) -> is_Some (strncmp_mem text m n).
Proof.
  induction text as [|x text IH]; intros m n Hn; cbn [strncmp_mem];
    destruct (Z.eqb_spec n 0) as [|Hne]; try (by eexists); destruct m as [|b m]; simpl in Hn; try lia; try (by eexists).
  destruct (x =? b); [|by eexists]. apply IH. lia.
Qed.

Section safety.
Context (mem : list Z) (len : Z).
(** The block goes on behind the data for at least the longest method name. *)
Context (Hmem : len + 11 <= Z.of_nat (length mem)) (Hlen : 0 < len < 2 ^ 31).
(** The state the parser was in when it was called. *)
Context (c0 : Z).
Definition kept (q : http_parser) : Prop := cs q = c0 /\ nread q = 0.

(** The offsets of the parser at position [pos], with the facts [x]. *)
Record conc (x : bool * bool) (pos : Z) (q : http_parser) : Prop := {
  c_mark : 0 <= mark q <= pos;
  c_field_start : 0 <= field_start q <= pos;
  c_field_len : 0 <= field_len q <= pos;
  c_field : snd x = true -> field_start q + field_len q <= pos;
  c_query : fst x = true -> 0 <= query_start q < 2 ^ 31;
  c_body : body_start q = 0;
  c_kept : kept q
}.

Lemma string_at_ok {S} at_ n (s : S) :
  0 <= at_ -> 0 <= n -> at_ + n <= len -> exists w, string_at mem at_ n s = Ok w s.
Proof.
  intros H1 H2 H3. unfold string_at, max_size. rewrite (proj2 (Z.ltb_ge _ _)) by lia.
  rewrite !bool_decide_eq_true_2 by lia. by eexists.
Qed.

Lemma find_method_some l at_ : 0 <= at_ < len ->
  Forall (fun e => (String.length (method_text e) <= 11)%nat) l ->
  is_Some (find_method l (bytes_at mem at_)).
Proof.
  intros Ha. induction 1 as [|e l He _ IH]; simpl; [by eexists|].
  destruct (strncmp_mem_some (bytes_of (method_text e)) (bytes_at mem at_) (Z.of_nat (String.length (method_text e))))
    as [[] ->]; [|by eexists|done]. unfold bytes_at. rewrite length_drop. lia.
Qed.

Lemma method_lengths : Forall (fun e => (String.length (method_text e) <= 11)%nat) HTTP_METHOD_MAP.
Proof. eapply bool_decide_unpack. vm_compute. exact I. Qed.

(** A callback that returns, and only changes the request and the error. *)
Definition quiet (m : cmd unit) : Prop := forall s, exists s', m s = Ok tt s' /\ m_parser s' = m_parser s.

Lemma quiet_on_data f : quiet (on_data f).
Proof. intros s. by eexists. Qed.
Lemma quiet_set_error v : quiet (set_error v).
Proof. intros s. by eexists. Qed.
Lemma quiet_string at_ n (k : string -> cmd unit) :
  0 <= at_ -> 0 <= n -> at_ + n <= len -> (forall w, quiet (k w)) -> quiet (bind (string_at mem at_ n) k).
Proof.
  intros H1 H2 H3 Hk s. destruct (string_at_ok at_ n s H1 H2 H3) as [w E]. unfold bind. rewrite E. apply Hk.
Qed.
#[local] Hint Resolve quiet_on_data quiet_set_error : core.

Lemma quiet_method at_ n : 0 <= at_ < len -> 0 <= n -> at_ + n <= len -> quiet (on_request_method mem at_ n).
Proof.
  intros H1 H2 H3 s. unfold on_request_method, bind at 1, or_undef.
  destruct (find_method_some HTTP_METHOD_MAP at_ H1 method_lengths) as [m ->]. unfold ret.
  case_bool_decide; [|apply quiet_on_data]. apply quiet_string; auto; lia.
Qed.

Lemma quiet_version at_ n : 0 <= at_ -> 0 <= n -> at_ + n <= len -> quiet (on_request_version mem at_ n).
Proof.
  intros H1 H2 H3 s. unfold on_request_version, bind at 1, or_undef.
  assert (0 <= n <= Z.of_nat (length (bytes_at mem at_))) as Hn by (unfold bytes_at; rewrite length_drop; lia).
  destruct (strncmp_mem_some (bytes_of "HTTP/1.1") _ n Hn) as [[] ->]; unfold ret; [apply quiet_on_data|].
  unfold bind at 1. destruct (strncmp_mem_some (bytes_of "HTTP/1.0") _ n Hn) as [[] ->]; [apply quiet_on_data|].
  apply quiet_string; auto; lia.
Qed.

Lemma quiet_field f fl v vl : 0 <= f -> 0 <= fl -> f + fl <= len -> 0 <= v -> 0 <= vl -> v + vl <= len ->
  quiet (on_request_http_field mem f fl v vl).
Proof.
  intros. unfold on_request_http_field. destruct (fl =? 0); [intros s; by eexists|].
  apply quiet_string; auto. intros w. apply quiet_string; auto.
Qed.

(** A quiet callback keeps the offsets. *)
Lemma safely_quiet (m : cmd unit) s x pos :
  quiet m -> conc x pos (m_parser s) ->
  safely ((m ;;; ret false) s) (fun stop s' => stop = false /\ conc x pos (m_parser s')).
Proof. intros Hm Hc. unfold bind. destruct (Hm s) as (s' & -> & E). simpl. by rewrite E. Qed.

Definition after_act (a : Http11Parser.action) (x : bool * bool) (pos : Z) (stop : bool) (s' : HttpRequestParser) : Prop :=
  let q := m_parser s' in
  if stop then a = Http11Parser.done_ /\ 0 <= mark q <= pos /\ 0 <= field_start q <= pos /\ 0 <= field_len q <= pos /\
               0 <= body_start q <= pos + 1 /\ kept q
  else a <> Http11Parser.done_ /\ conc x pos q.

Lemma act_safe a x x' pos s :
  0 <= pos < len -> conc x pos (m_parser s) -> track1 a x = Some x' ->
  safely (act mem len a pos s) (after_act a x' pos).
Proof.
  intros Hp Hc Ht. pose proof Hc as [Hm Hfs Hfl Hf Hq Hb Hcs].
  assert (LEN (mark (m_parser s)) pos = pos - mark (m_parser s)) as Em by (apply wrap_id; unfold in_u; lia).
  assert (LEN (field_start (m_parser s)) pos = pos - field_start (m_parser s)) as Ef by (apply wrap_id; unfold in_u; lia).
  unfold act, bind at 1, gets.
  assert (forall m, a <> Http11Parser.done_ -> x = x' -> quiet m ->
    safely ((m ;;; ret false) s) (after_act a x' pos)) as Hquiet.
  { intros m Ha <- Hq'. pose proof (safely_quiet m s x pos Hq' Hc) as H. unfold safely in *.
    destruct ((m ;;; ret false) s); [|done..]. unfold after_act. destruct H as [-> H]. done. }
  destruct a; simpl in Ht; try (injection Ht as <-);
    try (apply Hquiet; [done|done|]; rewrite ?Em; unfold on_request_uri, on_request_fragment, on_request_path;
         solve [intros ?; by eexists | apply quiet_string; auto; lia | apply quiet_version; lia | apply quiet_method; lia]);
    try (unfold bind, on_parser, modify, ret, safely, after_act; simpl; split; [done|];
         constructor; simpl; intros; rewrite ?Ef; auto; lia).
  - destruct (snd x) eqn:Es; [|done]. injection Ht as <-. specialize (Hf eq_refl).
    apply Hquiet; [done|done|]. rewrite Em. apply quiet_field; lia.
  - destruct (fst x) eqn:Es; [|done]. injection Ht as <-. specialize (Hq eq_refl).
    destruct (Z.le_gt_cases (query_start (m_parser s)) pos) as [Hle|Hgt].
    + apply Hquiet; [done|done|]. unfold on_request_query.
      assert (LEN (query_start (m_parser s)) pos = pos - query_start (m_parser s)) as ->
        by (apply wrap_id; unfold in_u; lia). apply quiet_string; auto; lia.
    + unfold on_request_query, bind, string_at.
      assert (LEN (query_start (m_parser s)) pos = pos - query_start (m_parser s) + 2 ^ 64) as ->.
      { unfold LEN, wrap. rewrite <- (Z.mod_add _ 1) by lia. rewrite Z.mod_small by lia. lia. }
      unfold max_size. rewrite (proj2 (Z.ltb_lt _ _)) by lia. done.
  - unfold bind, on_parser, modify, ret, safely, after_act, on_request_header_done.
    destruct (_ || _); simpl; split_and!; try done; lia.
Qed.

Lemma conc_mono x pos pos' q : conc x pos q -> pos <= pos' -> conc x pos' q.
Proof. intros [? ? ? ? ? ? ?] H. constructor; auto; try lia. intros E. specialize (c_field0 E). lia. Qed.

Lemma acts_safe l : forall x x' pos s,
  0 <= pos < len -> conc x pos (m_parser s) -> track l x = Some x' ->
  safely (acts mem len l pos s) (fun stop s' =>
    let q := m_parser s' in
    if stop then Http11Parser.done_ ∈ l /\ 0 <= mark q <= pos /\ 0 <= field_start q <= pos /\
                 0 <= field_len q <= pos /\ 0 <= body_start q <= pos + 1 /\ kept q
    else Http11Parser.done_ ∉ l /\ conc x' pos q).
Proof.
  induction l as [|a l IH]; intros x x' pos s Hp Hc Ht.
  { injection Ht as <-. simpl. split; [set_solver|done]. }
  cbn [track] in Ht. destruct (track1 a x) as [y|] eqn:E; [|done]. cbn [acts]. apply safely_bind.
  pose proof (act_safe a x y pos s Hp Hc E) as H. unfold safely in *. destruct (act mem len a pos s) as [stop s1| |]; [|done..].
  unfold after_act in H. destruct stop.
  - simpl. destruct H as [-> H]. split; [set_solver|done].
  - destruct H as [Hne H]. specialize (IH y x' pos s1 Hp H Ht). destruct (acts mem len l pos s1) as [stop s2| |]; [|done..].
    simpl in *. destruct stop; destruct IH as [IH1 IH2]; (split; [set_solver|done]).
Qed.

(** The offsets at the end of a run. *)
Definition final_ok (p c : Z) (q : http_parser) : Prop :=
  0 <= p <= len /\ 0 <= c <= 349 /\ 0 <= mark q < len /\ 0 <= field_start q < len /\ 0 <= field_len q <= len /\
  0 <= body_start q <= len /\ (c < 348 -> body_start q = 0) /\ kept q /\ (in_query c = true -> 0 <= query_start q < 2 ^ 31).

Lemma conc_final c pos p q : conc (start_facts c) (Z.max 0 (pos - 1)) q -> 0 <= pos <= len -> 0 <= c <= 349 ->
  0 <= p <= len -> final_ok p c q.
Proof. intros [? ? ? ? ? Hb Hcs] H H' Hp. unfold final_ok. rewrite Hb. split_and!; auto; lia. Qed.

Lemma conc_enters n x pos q : enters n x = true -> conc x pos q -> conc (start_facts n) pos q.
Proof.
  intros [H1 H2]%andb_true_iff [? ? ? Hf Hq ? ?]. constructor; try done; simpl.
  - intros Hn%negb_true_iff. rewrite Hn in H2. auto.
  - intros Hn. rewrite Hn in H1. auto.
Qed.

(** ** The ranges the callbacks get

    A range is an offset in the block and a length; one that is longer than a string can be makes
    the callback throw before it reads. *)
Definition inside (r : Z * Z) : Prop :=
  max_size < snd r \/ (0 <= fst r /\ 0 <= snd r /\ fst r + snd r <= len).
Definition ranges (a : Http11Parser.action) (pos : Z) (q : http_parser) : list (Z * Z) :=
  match a with
  | Http11Parser.write_value => [(field_start q, field_len q); (mark q, LEN (mark q) pos)]
  | Http11Parser.request_method | Http11Parser.request_uri | Http11Parser.fragment
  | Http11Parser.http_version | Http11Parser.request_path => [(mark q, LEN (mark q) pos)]
  | Http11Parser.query_string => [(query_start q, LEN (query_start q) pos)]
  | Http11Parser.done_ => if xml_sent q || json_sent q then [] else [(pos + 1, u64 (len - pos - 1))]
  | _ => []
  end.
(** Those of a list of actions, and those of a run of the machine, in order. *)
Fixpoint acts_ranges (l : list Http11Parser.action) (pos : Z) (s : HttpRequestParser) : list (Z * Z) :=
  match l with
  | [] => []
  | a :: l =>
    ranges a pos (m_parser s) ++
    match act mem len a pos s with Ok false s' => acts_ranges l pos s' | _ => [] end
  end.
Fixpoint machine_ranges (rest : list Z) (pos c : Z) (s : HttpRequestParser) : list (Z * Z) :=
  match rest with
  | [] => []
  | b :: rest =>
    match case_of c with
    | None => []
    | Some f =>
      match f (uri_relaxed (m_parser s)) (schar b) with
      | Http11Parser.st 0 => []
      | Http11Parser.st n => machine_ranges rest (pos + 1) n s
      | Http11Parser.tr n =>
        let '(l, target) := lookup_tr n in
        acts_ranges l pos s ++
        match acts mem len l pos s with Ok false s' => machine_ranges rest (pos + 1) target s' | _ => [] end
      end
    end
  end.

Lemma ranges_inside a x x' pos s :
  0 <= pos < len -> conc x pos (m_parser s) -> track1 a x = Some x' -> Forall inside (ranges a pos (m_parser s)).
Proof.
  intros Hp [Hm Hfs Hfl Hf Hq Hb Hcs] Ht.
  assert (LEN (mark (m_parser s)) pos = pos - mark (m_parser s)) as Em by (apply wrap_id; unfold in_u; lia).
  destruct a; cbn [ranges]; rewrite ?Em; cbn [track1] in Ht; try apply Forall_nil_2;
    try (apply Forall_singleton; right; simpl; lia).
  - destruct (snd x); [|done]. specialize (Hf eq_refl). apply Forall_cons. split; [|apply Forall_singleton]; right; simpl; lia.
  - destruct (fst x); [|done]. specialize (Hq eq_refl). apply Forall_singleton.
    destruct (Z.le_gt_cases (query_start (m_parser s)) pos) as [Hle|Hgt]; [right|left]; simpl.
    + assert (LEN (query_start (m_parser s)) pos = pos - query_start (m_parser s)) as ->
        by (apply wrap_id; unfold in_u; lia). lia.
    + assert (LEN (query_start (m_parser s)) pos = pos - query_start (m_parser s) + 2 ^ 64) as ->.
      { unfold LEN, wrap. rewrite <- (Z.mod_add _ 1) by lia. rewrite Z.mod_small by lia. lia. }
      unfold max_size. lia.
  - destruct (_ || _); [apply Forall_nil_2|]. apply Forall_singleton. right. simpl.
    rewrite (wrap_id 64) by (unfold in_u; lia). lia.
Qed.

Lemma acts_inside l : forall x x' pos s,
  0 <= pos < len -> conc x pos (m_parser s) -> track l x = Some x' -> Forall inside (acts_ranges l pos s).
Proof.
  induction l as [|a l IH]; intros x x' pos s Hp Hc Ht; [apply Forall_nil_2|].
  cbn [track] in Ht. destruct (track1 a x) as [y|] eqn:E; [|done]. cbn [acts_ranges].
  apply Forall_app. split; [by eapply ranges_inside|].
  pose proof (act_safe a x y pos s Hp Hc E) as H. unfold safely, after_act in H.
  destruct (act mem len a pos s) as [[] s1| |]; try apply Forall_nil_2. destruct H as [_ H]. by eapply IH.
Qed.

Lemma machine_inside rest : forall pos c s,
  Forall (fun b => 0 <= b < 256) rest -> 0 <= pos -> pos + Z.of_nat (length rest) = len ->
  1 <= c <= 349 -> conc (start_facts c) (Z.max 0 (pos - 1)) (m_parser s) ->
  Forall inside (machine_ranges rest pos c s).
Proof.
  induction rest as [|b rest IH]; intros pos c s Hb Hp El Hc Hi; [apply Forall_nil_2|].
  apply Forall_cons in Hb as [Hb Hrest]. simpl in El. cbn [machine_ranges].
  destruct (case_of_safe c b (uri_relaxed (m_parser s)) Hc Hb) as (f & -> & Hs).
  destruct (f (uri_relaxed (m_parser s)) (schar b)) as [n|k]; unfold safe_label in Hs.
  - destruct (Z.eq_dec n 0) as [->|Hn]; [apply Forall_nil_2|].
    rewrite (proj2 (Z.eqb_neq n 0)) in Hs by done. simpl in Hs. apply andb_true_iff in Hs as [Hr He].
    unfold Http11Parser.range in Hr. assert (Forall inside (machine_ranges rest (pos + 1) n s)); [|by destruct n].
    apply IH; [done|lia|lia|lia|]. eapply conc_enters; [exact He|]. eapply conc_mono; [exact Hi|lia].
  - destruct (lookup_tr k) as [l n]. destruct (track l (start_facts c)) as [x|] eqn:Et; [|done].
    apply andb_true_iff in Hs as [Hr He]. unfold Http11Parser.range in Hr.
    assert (conc (start_facts c) pos (m_parser s)) as Hi' by (eapply conc_mono; [exact Hi|lia]).
    apply Forall_app. split; [by eapply (acts_inside l); [lia|exact Hi'|exact Et]|].
    pose proof (acts_safe l (start_facts c) x pos s ltac:(lia) Hi' Et) as Ha. unfold safely in Ha.
    destruct (acts mem len l pos s) as [[] s1| |]; try apply Forall_nil_2. destruct Ha as [Hd Ha].
    rewrite bool_decide_eq_false_2 in He by done.
    apply IH; [done|lia|lia|lia|]. eapply conc_enters; [exact He|]. eapply conc_mono; [exact Ha|lia].
Qed.

Lemma machine_safe rest : forall pos c s,
  Forall (fun b => 0 <= b < 256) rest -> 0 <= pos -> pos + Z.of_nat (length rest) = len ->
  1 <= c <= 349 -> conc (start_facts c) (Z.max 0 (pos - 1)) (m_parser s) ->
  safely (machine mem len rest pos c s) (fun r s' => final_ok (fst r) (snd r) (m_parser s')).
Proof.
  induction rest as [|b rest IH]; intros pos c s Hb Hp El Hc Hi.
  { simpl in *. eapply conc_final; eauto; lia. }
  apply Forall_cons in Hb as [Hb Hrest]. simpl in El. cbn [machine].
  destruct (case_of_safe c b (uri_relaxed (m_parser s)) Hc Hb) as (f & -> & Hs).
  unfold bind at 1, gets. destruct (f (uri_relaxed (m_parser s)) (schar b)) as [n|k]; unfold safe_label in Hs.
  - destruct (Z.eq_dec n 0) as [En|Hn].
    + subst n. destruct Hi as [? ? ? _ _ Hbody ?]. unfold final_ok. simpl. rewrite Hbody. split_and!; done || lia.
    + rewrite (proj2 (Z.eqb_neq n 0)) in Hs by done. simpl in Hs. apply andb_true_iff in Hs as [Hr He]. unfold Http11Parser.range in Hr.
      assert (1 <= n <= 349) by lia. replace (match n with 0 => ret (pos, 0) | _ => machine mem len rest (pos + 1) n end)
        with (machine mem len rest (pos + 1) n) by (by destruct n).
      apply IH; [done|lia|lia|done|]. eapply conc_enters; [exact He|]. eapply conc_mono; [exact Hi|lia].
  - destruct (lookup_tr k) as [l n]. destruct (track l (start_facts c)) as [x|] eqn:Et; [|done].
    apply andb_true_iff in Hs as [Hr He]. unfold Http11Parser.range in Hr. assert (1 <= n <= 349) by lia.
    apply safely_bind.
    pose proof (acts_safe l (start_facts c) x pos s ltac:(lia) (conc_mono _ _ pos _ Hi ltac:(lia)) Et) as Ha.
    unfold safely in Ha |- * at 1. destruct (acts mem len l pos s) as [stop s1| |]; [|done..]. simpl in Ha. destruct stop.
    + destruct Ha as (Hd & ? & ? & ? & ? & Hk). rewrite bool_decide_eq_true_2 in He by done.
      simpl. unfold final_ok. split_and!; try lia; try apply Hk.
      unfold in_query. rewrite bool_decide_eq_true. intros Hq. set_solver by lia.
    + destruct Ha as [Hd Ha]. rewrite bool_decide_eq_false_2 in He by done.
      apply IH; [done|lia|lia|done|]. eapply conc_enters; [exact He|]. eapply conc_mono; [exact Ha|lia].
Qed.
End safety.

(** What holds of a parser between two calls. *)
Definition wf_parser (q : http_parser) : Prop :=
  0 <= cs q <= 349 /\ (cs q < 348 -> body_start q = 0) /\ (in_query (cs q) = true -> 0 <= query_start q < 2 ^ 31).

Lemma init_wf q : wf_parser (http_parser_init q).
Proof. unfold wf_parser. simpl. split_and!; done || lia. Qed.

(** The parser as the machine finds it. *)
Definition called (s : HttpRequestParser) : HttpRequestParser :=
  RequestParser (m_error s) (m_data s) (set_field_start 0 (set_field_len 0 (set_mark 0 (set_nread 0 (m_parser s))))).

(** A call of [execute] is a run of the machine. *)
Lemma execute_run (mem : list Z) (len : Z) (s : HttpRequestParser) :
  Forall (fun b => 0 <= b < 256) mem -> 0 < len < 2 ^ 31 -> len + 11 <= Z.of_nat (length mem) ->
  wf_parser (m_parser s) -> 1 <= cs (m_parser s) < 348 ->
  match machine mem len (take (Z.to_nat len) mem) 0 (cs (m_parser s)) (called s) with
  | Ok (p, c) s1 =>
    execute mem len s = Ok (p, splice 0 (slice (Z.to_nat p) (Z.to_nat (len - p)) mem) mem)
      (RequestParser (m_error s1) (m_data s1) (set_nread p (set_cs c (m_parser s1)))) /\
    final_ok len (cs (m_parser s)) p c (m_parser s1)
  | Throw e s1 => execute mem len s = Throw e s1 /\ e = length_error
  | Fail_ _ => False
  end.
Proof.
  intros Hb Hlen Hmem (_ & Hbody & Hquery) Hcs. specialize (Hbody ltac:(lia)).
  assert (safely (machine mem len (take (Z.to_nat len) mem) 0 (cs (m_parser s)) (called s))
    (fun r s' => final_ok len (cs (m_parser s)) (fst r) (snd r) (m_parser s'))) as Hm.
  { apply machine_safe; try done; try lia.
    - by apply Forall_take.
    - rewrite length_take. lia. }
  unfold execute, http_parser_execute. rewrite (proj2 (Z.eqb_neq len 0)) by lia.
  unfold after_machine, bind, on_parser, modify, gets, ret, assert_, require, fail. cbn [m_parser m_error m_data].
  rewrite (proj2 (Z.leb_le 0 len)) by lia.
  assert (forall z, 0 <= z < 2 ^ 31 -> s32 z = z) as Hs32
    by (intros z ?; apply swrap_id; [lia|]; unfold in_s; change (2 ^ (32 - 1)) with (2 ^ 31); lia).
  rewrite (Hs32 len), (Hs32 0), Z.sub_0_r, (Hs32 len), Z.eqb_refl by lia. cbv beta iota.
  change (drop (Z.to_nat 0) (take (Z.to_nat len) mem)) with (take (Z.to_nat len) mem).
  unfold ret. cbv beta iota. unfold called in *. unfold safely in Hm. cbn [cs set_field_start set_field_len set_mark set_nread].
  destruct (machine mem len _ 0 _ _) as [[p c] s1| |]; [|by split|done].
  destruct Hm as (Hp & Hc & Hma & Hfs & Hfl & Hbs & Hb0 & [Ecs Enr] & Hq). simpl in Hp, Hc, Hb0, Hq.
  rewrite (proj2 (Z.leb_le p len)) by lia. simpl.
  unfold http_parser_has_error, Http11Parser.http_parser_error. rewrite Ecs.
  rewrite (proj2 (Z.eqb_neq (cs (m_parser s)) 0)) by lia. simpl.
  rewrite Enr, Z.add_0_l, Z.sub_0_r. replace (u64 p) with p by (symmetry; apply wrap_id; unfold in_u; lia).
  rewrite (proj2 (Z.leb_le p len)), (proj2 (Z.leb_le (body_start _) len)), (proj2 (Z.ltb_lt (mark _) len)),
    (proj2 (Z.leb_le (field_len _) len)), (proj2 (Z.ltb_lt (field_start _) len)) by lia.
  rewrite bool_decide_eq_true_2 by lia. by split.
Qed.

Lemma called_inside (mem : list Z) (len : Z) (s : HttpRequestParser) :
  Forall (fun b => 0 <= b < 256) mem -> 0 < len < 2 ^ 31 -> len + 11 <= Z.of_nat (length mem) ->
  wf_parser (m_parser s) -> 1 <= cs (m_parser s) < 348 ->
  Forall (inside len) (machine_ranges mem len (take (Z.to_nat len) mem) 0 (cs (m_parser s)) (called s)).
Proof.
  intros Hb Hlen Hmem (_ & Hbody & Hquery) Hcs. specialize (Hbody ltac:(lia)).
  apply (machine_inside mem len Hmem Hlen (cs (m_parser s))); try done; try lia; [by apply Forall_take|].
  rewrite length_take. lia.
Qed.

(** C5: the request parser is safe on every input: whatever bytes arrive, in whatever pieces, a call of
    [execute] with fewer than 2^31 of them, in a block that goes on for eleven bytes behind them (the
    search for the method compares so many, see [method_overread]), on a parser that has neither
    finished nor failed, fails no assertion, reads no byte outside the block, consumes at most the data,
    keeps the rest of it at the front of the block, and leaves a parser with the same invariant; every
    range it hands a callback lies inside the data, but for one that is longer than a string can be, for
    which the callback throws, the only exception there is. *)
Theorem execute_safe (mem : list Z) (len : Z) (s : HttpRequestParser) :
  Forall (fun b => 0 <= b < 256) mem -> 0 < len < 2 ^ 31 -> len + 11 <= Z.of_nat (length mem) ->
  wf_parser (m_parser s) -> 1 <= cs (m_parser s) < 348 ->
  match execute mem len s with
  | Ok (n, mem') s' =>
    0 <= n <= len /\ wf_parser (m_parser s') /\ length mem' = length mem /\
    take (Z.to_nat (len - n)) mem' = slice (Z.to_nat n) (Z.to_nat (len - n)) mem
  | Throw e _ => e = length_error
  | Fail_ _ => False
  end /\
  Forall (inside len) (machine_ranges mem len (take (Z.to_nat len) mem) 0 (cs (m_parser s)) (called s)).
Proof.
  intros Hb Hlen Hmem Hw Hcs. split; [|by apply called_inside]. pose proof (execute_run mem len s Hb Hlen Hmem Hw Hcs) as H.
  destruct (machine _ _ _ _ _ _) as [[p c] s1| |]; [|by destruct H as [-> ->]|done].
  destruct H as [-> (Hp & Hc & Hma & Hfs & Hfl & Hbs & Hb0 & _ & Hq)].
  set (d := slice (Z.to_nat p) (Z.to_nat (len - p)) mem).
  assert (length d = Z.to_nat (len - p)) as Ed by (unfold d, slice; rewrite length_take, length_drop; lia).
  split_and!; try lia; try done.
  - apply length_splice. lia.
  - rewrite <- Ed. apply (slice_splice 0). lia.
Qed.

(** The memory of a fresh parser, a request and the block behind it. *)
Definition ex_text : string := "GET /?a=1 HTTP/1.1" ++ String "013" (String "010" (String "013" (String "010" "rest"))).
Lemma execute_safe_witness :
  (match execute (bytes_of ex_text ++ replicate 11 0) 26 (new_HttpRequestParser ex_memory) with
  | Ok (n, mem') s' =>
    0 <= n <= 26 /\ wf_parser (m_parser s') /\ length mem' = length (bytes_of ex_text ++ replicate 11 0) /\
    take (Z.to_nat (26 - n)) mem' = slice (Z.to_nat n) (Z.to_nat (26 - n)) (bytes_of ex_text ++ replicate 11 0)
  | Throw e _ => e = length_error
  | Fail_ _ => False
  end) /\
  Forall (inside 26) (machine_ranges (bytes_of ex_text ++ replicate 11 0) 26
    (take (Z.to_nat 26) (bytes_of ex_text ++ replicate 11 0)) 0 1 (called (new_HttpRequestParser ex_memory))).
Proof.
  apply (execute_safe (bytes_of ex_text ++ replicate 11 0) 26 (new_HttpRequestParser ex_memory)).
  - apply (bool_decide_unpack _). vm_compute. exact I.
  - lia.
  - vm_compute. discriminate.
  - apply init_wf.
  - vm_compute. split; [discriminate|reflexivity].
Defined.

(** ** Behaviour that is not intended *)

(** The name of M-SEARCH is "M - SEARCH" ([msearch_unknown]), whose second character is the blank behind
    the method M: the comparison goes on behind the data, here behind the block. *)
Example method_overread :
  let text := bytes_of "M " in execute text 2 (new_HttpRequestParser ex_memory) = Fail_ Undef.
Proof. by vm_compute. Qed.
End HttpParser.
