(* ===== verification/RequestGrammar.v ===== *)
(** * The grammar of requests: src/src/http/http11_parser.rl

    The productions of the grammar, by their names there, and the proof that the
    machine in http11_parser.rl.cpp recognises exactly the words of the grammar. *)

From stdpp Require Import prelude strings.
From Stdlib Require Import ZArith Lia Ascii.
From S2P Require Import Prelude Text Grammar Http11Parser HttpParser.

Module RequestGrammar.
Import Text Grammar.
Local Open Scope Z_scope.

(** ** Symbols
    The productions that are sets of characters.  In Ragel a number is the
    character with that code, and [x - y] is a difference, not a range:
    [Less x y] is the production ["x" - "y"]. *)
Inductive sym :=
  | Ch (c : Z)
  | Less (x y : Z)
  | any | alpha | digit | xdigit | upper_digit | unreserved | sub_delims | token | text_char | blank | space | xml_char.
#[global] Instance sym_eq_dec : EqDecision sym.
Proof. solve_decision. Defined.

Definition between_ (a c b : Z) : bool := (a <=? c) && (c <=? b).
Definition one_of (l : list Z) (c : Z) : bool := existsb (Z.eqb c) l.
Definition is_digit (c : Z) : bool := between_ 48 c 57.
Definition is_upper (c : Z) : bool := between_ 65 c 90.
Definition is_alpha (c : Z) : bool := is_upper c || between_ 97 c 122.
Definition less (x y c : Z) : bool := (c =? x) && negb (c =? y).
(** { } ^ when [parser->uri_relaxed] *)
Definition more_delims (relaxed : bool) (c : Z) : bool := relaxed && one_of [123; 125; 94] c.
(** ! $ & ' ( ) * + , ; = and [more_delims] *)
Definition is_sub_delim (relaxed : bool) (c : Z) : bool :=
  one_of [33; 36; 38; 39; 40; 41; 42; 43; 44; 59; 61] c || more_delims relaxed c.
(** letters, digits and - . _ ~ *)
Definition is_unreserved (c : Z) : bool := is_alpha c || is_digit c || one_of [45; 46; 95; 126] c.
(** [(0 - 31) | 127] *)
Definition HTTP_CTL (c : Z) : bool := less 0 31 c || (c =? 127).
(** ( ) < > @ , ; : \ and the quote, / [ ] ? = { } and space and tab *)
Definition HTTP_separator (c : Z) : bool :=
  one_of [40; 41; 60; 62; 64; 44; 59; 58; 92; 34; 47; 91; 93; 63; 61; 123; 125; 32; 9] c.

Definition mem (relaxed : bool) (s : sym) (c : Z) : bool :=
  match s with
  | Ch x => c =? x
  | Less x y => less x y c
  | any => between_ (-128) c 127
  | alpha => is_alpha c
  | digit => is_digit c
  | xdigit => is_digit c || between_ 65 c 70 || between_ 97 c 102
  | upper_digit => is_upper c || is_digit c
  | unreserved => is_unreserved c
  | sub_delims => is_sub_delim relaxed c
  | token => between_ 0 c 127 && negb (HTTP_CTL c || HTTP_separator c)
  | text_char => between_ (-128) c 127 && negb (HTTP_CTL c)
  | blank => one_of [32; 9] c
  | space => one_of [9; 10; 11; 12; 13; 32] c
  | xml_char => is_alpha c || is_digit c || one_of [45; 46] c
  end.

(** ** Productions *)
Abbreviation exp := (re sym).
Definition ch (c : Z) : exp := Sym (Ch c).
Definition text (s : string) : exp := seq (ch <$> bytes_of s).
Definition of_sym (s : sym) : exp := Sym s.
Coercion of_sym : sym >-> re.

Definition CRLF : exp := Prod 1 (alt (seq [ch 13; ch 10]) [ch 10]).
Definition pct_encoded : exp := Prod 2 (seq [ch 37; Sym xdigit; Sym xdigit]).
Definition pchar : exp := Prod 3 (alt unreserved [pct_encoded; Sym sub_delims; ch 58; ch 64]).
Definition fragment : exp := Prod 4 (Star (alt pchar [ch 47; ch 63])).
Definition query : exp := Prod 5 (Star (alt pchar [ch 47; ch 63])).
Definition segment_nz_nc : exp := Prod 6 (plus (alt unreserved [pct_encoded; Sym sub_delims; ch 64])).
Definition segment_nz : exp := Prod 7 (plus pchar).
Definition segment : exp := Prod 8 (Star pchar).
Definition path_empty : exp := Prod 9 (times 0 pchar).
Definition segments : exp := Prod 10 (Star (seq [ch 47; segment])).
Definition path_rootless : exp := Prod 11 (seq [segment_nz; segments]).
Definition path_noscheme : exp := Prod 12 (seq [segment_nz_nc; segments]).
Definition path_absolute : exp := Prod 13 (seq [ch 47; opt (seq [segment_nz; segments])]).
Definition path_abempty : exp := Prod 14 (segments).
Definition reg_name : exp := Prod 15 (Star (alt unreserved [pct_encoded; Sym sub_delims])).
Definition dec_octet : exp := Prod 16
  (alt digit [seq [Sym (Less 49 57); Sym digit];
             seq [ch 49; times 2 digit];
             seq [ch 50; Sym (Less 48 52); Sym digit];
             seq [text "25"; Sym (Less 48 53)]]).
Definition IPv4address : exp := Prod 17 (seq [dec_octet; ch 46; dec_octet; ch 46; dec_octet; ch 46; dec_octet]).
Definition h16 : exp := Prod 18 (between 1 4 xdigit).
Definition ls32 : exp := Prod 19 (alt (seq [h16; ch 58; h16]) [IPv4address]).
Definition h16_colon : exp := Prod 20 (seq [h16; ch 58]).
(** [6( h16 ":" )] is the character 6 and one [h16 ":"]. *)
Definition IPv6address : exp := Prod 21
  (alt (seq [ch 6; h16_colon; ls32])
    [seq [text "::"; ch 5; h16_colon; ls32];
     seq [opt h16; text "::"; ch 4; h16_colon; ls32];
     seq [opt (seq [at_least 1 h16_colon; h16]); text "::"; ch 3; h16_colon; ls32];
     seq [opt (seq [at_least 2 h16_colon; h16]); text "::"; ch 2; h16_colon; ls32];
     seq [opt (seq [at_least 3 h16_colon; h16]); text "::"; h16; ch 58; ls32];
     seq [opt (seq [at_least 4 h16_colon; h16]); text "::"; ls32];
     seq [opt (seq [at_least 5 h16_colon; h16]); text "::"; h16];
     seq [opt (seq [at_least 6 h16_colon; h16]); text "::"]]).
Definition IPvFuture : exp := Prod 22 (seq [ch 118; plus xdigit; ch 46; plus (alt unreserved [Sym sub_delims; ch 58])]).
Definition IP_literal : exp := Prod 23 (seq [ch 91; alt IPv6address [IPvFuture]; ch 93]).
Definition port : exp := Prod 24 (Star digit).
Definition host : exp := Prod 25 (alt IP_literal [IPv4address; reg_name]).
Definition userinfo : exp := Prod 26 (Star (alt unreserved [pct_encoded; Sym sub_delims; ch 58])).
Definition authority : exp := Prod 27 (seq [opt (seq [userinfo; ch 64]); host; opt (seq [ch 58; port])]).
Definition scheme : exp := Prod 28 (seq [Sym alpha; Star (alt alpha [Sym digit; ch 43; ch 45; ch 46])]).
Definition relative_part : exp := Prod 29 (alt (seq [text "//"; authority; path_abempty]) [path_absolute; path_noscheme; path_empty]).
Definition hier_part : exp := Prod 30 (alt (seq [text "//"; authority; path_abempty]) [path_absolute; path_rootless; path_empty]).
Definition relative_ref : exp := Prod 31 (seq [relative_part; opt (seq [ch 63; query]); opt (seq [ch 35; fragment])]).
Definition URI : exp := Prod 32 (seq [scheme; ch 58; hier_part; opt (seq [ch 63; query]); opt (seq [ch 35; fragment])]).
Definition URI_reference : exp := Prod 33 (alt URI [relative_ref]).
Definition Method : exp := Prod 34 (between 1 20 upper_digit).
Definition http_number : exp := Prod 35 (seq [text "1."; alt (ch 48) [ch 49]]).
Definition HTTP_Version : exp := Prod 36 (seq [text "HTTP/"; http_number]).
Definition Request_Line : exp := Prod 37 (seq [Method; ch 32; URI_reference; ch 32; HTTP_Version; CRLF]).
Definition lws : exp := Prod 38 (seq [opt CRLF; plus blank]).
Definition content : exp := Prod 39 (alt text_char [lws]).
Definition field_name : exp := Prod 40 (plus token).
Definition field_value : exp := Prod 41 (Star content).
Definition message_header : exp := Prod 42 (Guard (seq [field_name; ch 58; Star lws; field_value]) CRLF).
Definition Request : exp := Prod 43 (seq [Request_Line; Star message_header; CRLF]).
Definition SocketJSONStart : exp := Prod 44 (seq [ch 64; relative_part]).
Definition SocketJSONData : exp := Prod 45 (Guard (seq [ch 123; Star any; ch 125]) (ch 0)).
Definition SocketXMLData : exp := Prod 46 (Guard (seq [ch 60; plus xml_char; alt (ch 47) [Sym space; ch 62]; Star any; ch 62]) (ch 0)).
Definition SocketJSON : exp := Prod 47 (seq [SocketJSONStart; ch 32; SocketJSONData]).
Definition SocketXML : exp := Prod 48 (SocketXMLData).
Definition SocketRequest : exp := Prod 49 (alt SocketXML [SocketJSON]).
Definition main : exp := Prod 50 (alt Request [SocketRequest]).

(** The productions by their numbers. *)
Definition productions : list exp :=
  [CRLF; pct_encoded; pchar; fragment; query; segment_nz_nc; segment_nz; segment; path_empty; segments;
   path_rootless; path_noscheme; path_absolute; path_abempty; reg_name; dec_octet; IPv4address; h16; ls32;
   h16_colon; IPv6address; IPvFuture; IP_literal; port; host; userinfo; authority; scheme; relative_part;
   hier_part; relative_ref; URI; URI_reference; Method; http_number; HTTP_Version; Request_Line; lws; content;
   field_name; field_value; message_header; Request; SocketJSONStart; SocketJSONData; SocketXMLData;
   SocketJSON; SocketXML; SocketRequest; main].
Definition body (n : Z) : exp :=
  match productions !! Z.to_nat (n - 1) with Some (Prod _ a) => a | _ => Eps end.

(** ** The machine *)
Definition target (l : Http11Parser.label) : Z :=
  match l with
  | Http11Parser.st m => m
  | Http11Parser.tr k => snd (HttpParser.lookup_tr k)
  end.
Definition next (relaxed : bool) (n : Z) : Z -> Z :=
  match HttpParser.case_of n with
  | None => fun _ => 0
  | Some f => fun c => target (f relaxed c)
  end.
Definition final (n : Z) : bool := Http11Parser.http_parser_first_final <=? n.

(** The characters neither the grammar nor the machine distinguishes. *)
Definition classes : list (Z * Z * Z) :=
  [(-128, -1, -128); (0, 0, 0); (1, 1, 1); (2, 2, 2); (3, 3, 3); (4, 4, 4); (5, 5, 5); (6, 6, 6); (7, 8, 1);
   (9, 9, 9); (10, 10, 10); (11, 12, 11); (13, 13, 13); (14, 31, 1); (32, 32, 32); (33, 33, 33); (34, 34, -128);
   (35, 35, 35); (36, 36, 33); (37, 37, 37); (38, 39, 33); (40, 41, 40); (42, 42, 33); (43, 43, 43); (44, 44, 40);
   (45, 45, 45); (46, 46, 46); (47, 47, 47); (48, 48, 48); (49, 49, 49); (50, 50, 50); (51, 52, 51); (53, 53, 53);
   (54, 57, 51); (58, 58, 58); (59, 59, 40); (60, 60, 60); (61, 61, 40); (62, 62, 62); (63, 63, 63); (64, 64, 64);
   (65, 70, 65); (71, 71, 71); (72, 72, 72); (73, 79, 71); (80, 80, 80); (81, 83, 71); (84, 84, 84); (85, 90, 71);
   (91, 91, 91); (92, 92, -128); (93, 93, 93); (94, 94, 94); (95, 95, 95); (96, 96, 1); (97, 102, 97);
   (103, 117, 103); (118, 118, 118); (119, 122, 103); (123, 123, 123); (124, 124, 1); (125, 125, 125);
   (126, 126, 95); (127, 127, 127)].
Definition alphabet : list sym :=
  (Ch <$> [0; 2; 3; 4; 5; 6; 10; 13; 32; 35; 37; 43; 45; 46; 47; 48; 49; 50; 53; 58; 60; 62; 63; 64; 72; 80; 84; 91; 93; 118; 123; 125]) ++
  [Less 49 57; Less 48 52; Less 48 53; any; alpha; digit; xdigit; upper_digit; unreserved; sub_delims; token; text_char; blank; space; xml_char].

(** ** The machine recognises the grammar *)
Definition requests (relaxed : bool) : language := lang (mem relaxed) main.
(** A bound for the moves between the states of the machine and the expressions they stand for. *)
Definition enough : nat := Z.to_nat 9000.
Lemma recognised relaxed :
  passes (mem relaxed) alphabet body classes (next relaxed) final Http11Parser.http_parser_start main enough = true.
Proof. destruct relaxed; vm_cast_no_check (eq_refl true). Qed.
(** A parser that has been given [u] and waits for more is in state [c]. *)
Definition consumed (relaxed : bool) (u : word) (c : Z) : Prop :=
  Grammar.consumed (mem relaxed) (next relaxed) Http11Parser.http_parser_start main u c.
Abbreviation state_after relaxed := (state_after (next relaxed) Http11Parser.http_parser_start).

(** ** The parser *)
(** A final state is only entered by a transition with the action [done], and no other has it. *)
Definition stops_right (l : Http11Parser.label) : bool :=
  match l with
  | Http11Parser.st n => (0 <=? n) && negb (final n)
  | Http11Parser.tr k =>
    let '(l, n) := HttpParser.lookup_tr k in
    Bool.eqb (bool_decide (Http11Parser.done_ ∈ l)) (final n) && (1 <=? n)
  end.
Lemma stops_automaton : forallb (fun n =>
  match HttpParser.case_of n with
  | None => false
  | Some f => forallb (fun c => stops_right (f false c) && stops_right (f true c)) chars
  end) (seqZ 1 347) = true.
Proof. vm_cast_no_check (eq_refl true). Qed.
Lemma case_stops n c relaxed : 1 <= n < 348 -> letter c ->
  exists f, HttpParser.case_of n = Some f /\ stops_right (f relaxed c) = true.
Proof.
  intros Hn Hc. pose proof stops_automaton as H. rewrite forallb_forall in H.
  specialize (H n ltac:(apply list_elem_of_In, elem_of_seqZ; lia)). destruct (HttpParser.case_of n) as [f|]; [|done].
  exists f. split; [done|]. rewrite forallb_forall in H.
  specialize (H c ltac:(apply list_elem_of_In, elem_of_seqZ; unfold letter in Hc; lia)).
  apply andb_true_iff in H as [H1 H2]. by destruct relaxed.
Qed.
Lemma schar_letter b : 0 <= b < 256 -> letter (HttpParser.schar b).
Proof. unfold HttpParser.schar, letter. intros H. destruct (b <? 128) eqn:E; lia. Qed.

Section parser.
Context (data : list Z) (pe : Z).
(** The actions leave [uri_relaxed] alone, and only [done] stops the machine. *)
Definition relaxes (relaxed : bool) (s : HttpParser.HttpRequestParser) : Prop :=
  HttpParser.uri_relaxed (HttpParser.m_parser s) = relaxed.
Lemma relaxes_on_data relaxed f : keeps (relaxes relaxed) (HttpParser.on_data f).
Proof. by intros s Hs. Qed.
Lemma relaxes_set_error relaxed v : keeps (relaxes relaxed) (HttpParser.set_error v).
Proof. by intros s Hs. Qed.
Lemma relaxes_string_at relaxed at_ n : keeps (relaxes relaxed) (HttpParser.string_at data at_ n).
Proof. unfold HttpParser.string_at. destruct (_ <? n); auto with keeps. Qed.
Lemma relaxes_or_undef {A} relaxed (o : option A) : keeps (relaxes relaxed) (HttpParser.or_undef o).
Proof. destruct o; cbn; auto with keeps. Qed.
Lemma relaxes_on_parser relaxed f : (forall q, HttpParser.uri_relaxed (f q) = HttpParser.uri_relaxed q) ->
  keeps (relaxes relaxed) (HttpParser.on_parser f).
Proof. intros Hf s Hs. unfold relaxes. cbn. by rewrite Hf. Qed.
#[local] Hint Resolve relaxes_on_data relaxes_set_error relaxes_string_at relaxes_or_undef : keeps.
#[local] Hint Extern 2 (keeps _ (HttpParser.on_parser _)) => apply relaxes_on_parser; done : keeps.
#[local] Hint Extern 3 (keeps _ (if _ then _ else _)) => case_match : keeps.
Lemma act_relaxes relaxed a pos : keeps (relaxes relaxed) (HttpParser.act data pe a pos).
Proof.
  unfold HttpParser.act. apply keeps_bind; [auto with keeps|]. intros q.
  destruct a; unfold HttpParser.on_request_http_field, HttpParser.on_request_method, HttpParser.on_request_uri,
    HttpParser.on_request_fragment, HttpParser.on_request_query, HttpParser.on_request_version,
    HttpParser.on_request_path, HttpParser.on_request_header_done; eauto 12 with keeps.
Qed.
Lemma then_ret {S A B} (m : cmd S A) (b : B) s x s' : (m ;;; ret b) s = Ok x s' -> x = b.
Proof. intros H. inv_bind H. by injection H. Qed.
Lemma act_stop a pos s stop s' :
  HttpParser.act data pe a pos s = Ok stop s' -> stop = bool_decide (a = Http11Parser.done_).
Proof. unfold HttpParser.act. intros H. inv_bind H. by destruct a; apply then_ret in H. Qed.
Lemma acts_stop l pos : forall s stop s',
  HttpParser.acts data pe l pos s = Ok stop s' -> stop = bool_decide (Http11Parser.done_ ∈ l).
Proof.
  induction l as [|a l IH]; intros s stop s' H; cbn in H.
  - by injection H as <- _.
  - inv_bind H. apply act_stop in H0 as ->. destruct (decide (a = Http11Parser.done_)) as [->|Hn].
    + rewrite bool_decide_eq_true_2 in H by done. injection H as <- _. symmetry. apply bool_decide_eq_true. by left.
    + rewrite bool_decide_eq_false_2 in H by done. apply IH in H as ->. apply bool_decide_ext. set_solver.
Qed.
Lemma acts_relaxes relaxed l pos : keeps (relaxes relaxed) (HttpParser.acts data pe l pos).
Proof.
  induction l as [|a l IH]; cbn; [auto with keeps|]. apply keeps_bind; [apply act_relaxes|]. intros []; auto with keeps.
Qed.

(** The machine with its actions reads as the automaton that stops at a final state does. *)
Lemma machine_scan relaxed rest : forall pos c s p c' s',
  Forall (fun b => 0 <= b < 256) rest -> 1 <= c < 348 -> relaxes relaxed s ->
  HttpParser.machine data pe rest pos c s = Ok (p, c') s' ->
  let '(k, m) := scan (next relaxed) final c (HttpParser.schar <$> rest) in p = pos + Z.of_nat k /\ c' = m.
Proof.
  induction rest as [|b rest IH]; intros pos c s p c' s' Hb Hc Hr H.
  { cbn in H |- *. injection H as <- <- _. lia. }
  apply Forall_cons in Hb as [Hb Hrest]. cbn [HttpParser.machine] in H.
  destruct (case_stops c (HttpParser.schar b) relaxed Hc (schar_letter b Hb)) as (f & Ef & Hs).
  rewrite Ef in H. inv_bind H. injection H0 as <- <-. rewrite Hr in H.
  assert (next relaxed c (HttpParser.schar b) = target (f relaxed (HttpParser.schar b))) as En
    by (unfold next; by rewrite Ef).
  cbn [fmap list_fmap scan]. rewrite En.
  destruct (f relaxed (HttpParser.schar b)) as [n|t]; cbn [target stops_right] in *.
  - destruct (Z.eq_dec n 0) as [->|Hn].
    + injection H as <- <- _. cbn. lia.
    + apply andb_true_iff in Hs as [Hs Hf%negb_true_iff]. rewrite (proj2 (Z.eqb_neq n 0) Hn), Hf.
      assert (1 <= n < 348) as Hn' by (unfold final, Http11Parser.http_parser_first_final in Hf; lia).
      replace (match n with 0 => ret (pos, 0) | _ => HttpParser.machine data pe rest (pos + 1) n end)
        with (HttpParser.machine data pe rest (pos + 1) n) in H by (by destruct n).
      specialize (IH _ _ _ _ _ _ Hrest Hn' Hr H). destruct (scan _ _ n _) as [k m]. lia.
  - destruct (HttpParser.lookup_tr t) as [l n]. cbn [snd]. apply andb_true_iff in Hs as [Hd%Bool.eqb_prop Hn].
    rewrite (proj2 (Z.eqb_neq n 0)) by lia. inv_bind H. pose proof (acts_relaxes relaxed l pos s Hr) as Hr'.
    rewrite H0 in Hr'. apply acts_stop in H0 as ->. rewrite Hd in H. destruct (final n) eqn:Hf.
    + injection H as <- <- _. lia.
    + assert (1 <= n < 348) as Hn' by (unfold final, Http11Parser.http_parser_first_final in Hf; lia).
      specialize (IH _ _ _ _ _ _ Hrest Hn' Hr' H). destruct (scan _ _ n _) as [k m]. lia.
Qed.
End parser.

Lemma consumed_range relaxed u c : consumed relaxed u c -> 0 <= c -> 1 <= c < 348.
Proof.
  intros Hu Hc. apply (consumed_state _ _ _ _ _ _ _ _ _ (recognised relaxed)) in Hu as [Hn Hf].
  unfold final, Http11Parser.http_parser_first_final in Hf. lia.
Qed.
Lemma finish_spec q : 0 <= HttpParser.cs q ->
  HttpParser.http_parser_finish q = if HttpParser.cs q =? 0 then -1 else if final (HttpParser.cs q) then 1 else 0.
Proof. done. Qed.

(** C2: the generated request parser recognises exactly the grammar it was generated from.  Whatever bytes a
    request arrives in, and in whatever pieces ([u] is what earlier calls have consumed), each piece with eleven bytes behind it
    in its block: [execute] reports
    the end of a request exactly when a word of the grammar in http11_parser.rl has arrived, and has then
    consumed the shortest such word and nothing behind it; it reports an error exactly when what has arrived
    cannot be continued to a word of the grammar, and stops in front of the first byte that cannot be
    part of one; otherwise it has consumed everything and waits for more.
    The only other outcome is the [length_error] of a callback whose token was cut by the end of a piece. *)
Theorem request_grammar (data : list Z) (len : Z) (s : HttpParser.HttpRequestParser) (u : word) :
  Forall (fun b => 0 <= b < 256) data -> 0 < len < 2 ^ 31 -> len + 11 <= Z.of_nat (length data) ->
  HttpParser.wf_parser (HttpParser.m_parser s) ->
  let relaxed := HttpParser.uri_relaxed (HttpParser.m_parser s) in
  consumed relaxed u (HttpParser.cs (HttpParser.m_parser s)) ->
  let w := u ++ (HttpParser.schar <$> take (Z.to_nat len) data) in
  match HttpParser.execute data len s with
  | Ok (n, _) s' =>
    let k := (length u + Z.to_nat n)%nat in
    if HttpParser.isFinished s' =? 1 then first_word (requests relaxed) w k
    else if HttpParser.isFinished s' =? -1 then refused (requests relaxed) w k
    else n = len /\ consumed relaxed w (HttpParser.cs (HttpParser.m_parser s'))
  | Throw e _ => e = length_error
  | Fail_ _ => False
  end.
Proof.
  intros Hb Hlen Hmem Hwf relaxed Hu w. pose proof (consumed_range _ _ _ Hu (proj1 (proj1 Hwf))) as Hc.
  pose proof (HttpParser.execute_run data len s Hb Hlen Hmem Hwf Hc) as H.
  destruct (HttpParser.machine _ _ _ _ _ _) as [[p c] s1|e s1|] eqn:Em; [|by destruct H as [-> ?]|done].
  destruct H as [-> (Hp & Hc' & _)].
  pose proof (machine_scan data len relaxed _ _ _ (HttpParser.called s) _ _ _ (Forall_take _ _ _ Hb) Hc eq_refl Em) as Hs.
  assert (Forall letter (HttpParser.schar <$> take (Z.to_nat len) data)) as Hl.
  { apply Forall_fmap. eapply Forall_impl; [by apply Forall_take|]. exact schar_letter. }
  pose proof (scan_outcome _ _ _ _ _ _ _ _ _ (recognised relaxed) u _ _ Hu Hl) as Ho. destruct (scan _ _ _ _) as [k m]. destruct Hs as [-> ->].
  unfold HttpParser.isFinished. cbn [HttpParser.m_parser]. rewrite finish_spec by (cbn; lia).
  cbn [HttpParser.cs HttpParser.set_cs HttpParser.set_nread]. rewrite Z.add_0_l, Nat2Z.id. destruct (m =? 0) eqn:E0; [done|].
  destruct (final m); [done|]. cbn. destruct Ho as [-> Ho]. split; [|done]. rewrite length_fmap, length_take. lia.
Qed.

(** ** Examples *)
Definition word_of (t : string) : word := HttpParser.schar <$> bytes_of t.
Definition crlf2 : string := String "013" (String "010" (String "013" (String "010" ""))).
Definition ex_first : string := "GET /a".
Definition ex_second : list Z := bytes_of ("?b HTTP/1.1" +:+ crlf2) ++ replicate 11 0.
(** A parser that has been given the first part of a request. *)
Definition ex_parser : HttpParser.HttpRequestParser :=
  match HttpParser.execute (bytes_of ex_first ++ replicate 11 0) 6 (HttpParser.new_HttpRequestParser HttpParser.ex_memory) with
  | Ok _ s => s
  | _ => HttpParser.new_HttpRequestParser HttpParser.ex_memory
  end.
Lemma in_requests relaxed w : letters w = true -> final (state_after relaxed w) = true -> requests relaxed w.
Proof. apply (in_grammar _ _ _ _ _ _ _ _ _ (recognised relaxed)). Qed.
Lemma not_request relaxed w : letters w = true -> state_after relaxed w = 0 -> ~ viable (requests relaxed) w.
Proof. apply (not_viable _ _ _ _ _ _ _ _ _ (recognised relaxed)). Qed.

Lemma request_grammar_witness : exists n mem' s',
  HttpParser.execute ex_second 15 ex_parser = Ok (n, mem') s' /\ n = 15 /\
  first_word (requests false) (word_of ex_first ++ (HttpParser.schar <$> take 15 ex_second)) 21.
Proof.
  assert (consumed false (word_of ex_first) (HttpParser.cs (HttpParser.m_parser ex_parser))) as Hc.
  { split_and!; [apply letters_spec|apply (awaited_run _ _ _ _ _ _ _ _ _ (recognised false))|]; vm_compute; done. }
  pose proof (request_grammar ex_second 15 ex_parser (word_of ex_first)
    ltac:(apply (bool_decide_unpack _); vm_compute; exact I) ltac:(lia) ltac:(vm_compute; done)
    ltac:(split_and!; [by vm_compute|by vm_compute..]) Hc) as H.
  destruct (HttpParser.execute ex_second 15 ex_parser) as [[n mem'] s'| |] eqn:E; [|vm_compute in E; done..].
  exists n, mem', s'. vm_compute in E. injection E as <- <- <-. split; [done|]. split; [done|]. exact H.
Defined.

(** ** Behaviour that is not intended *)
Definition get (uri : string) : string := "GET " +:+ uri +:+ " HTTP/1.1" +:+ crlf2.
(** [6( h16 ":" )] means six groups in RFC 3986; in Ragel it is the character 6 and one group.  An address
    with all its groups is no word of the grammar, and one that begins with the byte 6 is. *)
Example ipv6_refused : ~ viable (requests false) (word_of "GET http://[2001:db8:0:0:0:0:0:1]").
Proof. apply not_request; vm_compute; done. Qed.
Example ipv6_byte_six : requests false (word_of (get ("http://[" +:+ String "006" "1:2:3]/"))).
Proof. apply in_requests; vm_compute; done. Qed.
(** ["1" - "9"] is a difference: of the two-digit octets only those from 10 to 19 are left. *)
Example octet_refused :
  ~ viable (requests false) (word_of "GET http://[::1.2.3.45]") /\
  requests false (word_of (get "http://[::1.2.3.15]/")).
Proof. split; [apply not_request|apply in_requests]; vm_compute; done. Qed.
(** A line that begins with a space continues a header field in the grammar's [lws]; behind [:>] it cannot. *)
Example folding_refused :
  ~ viable (requests false) (word_of ("GET / HTTP/1.1" +:+ String "013" (String "010" ("a: b" +:+ String "013" (String "010" " c"))))).
Proof. apply not_request; vm_compute; done. Qed.
End RequestGrammar.
