(* ===== verification/HttpRoundtrip.v ===== *)
(** * Printing a request and parsing it

    The automaton run on the text of a request as a client may write it, its header
    lines in any order ([message]), and in particular on the text that
    [HttpRequest::dump] writes. *)

From stdpp Require Import prelude strings.
From Stdlib Require Import ZArith Lia Ascii Sorted.
From S2P Require Import Prelude Text Http Http11Parser HttpParser.

Module HttpRoundtrip.
Import Text Http HttpParser.
Local Open Scope Z_scope.

(** ** Bytes *)

Definition alnum (b : Z) : bool :=
  Http11Parser.range 48 b 57 || Http11Parser.range 65 b 90 || Http11Parser.range 97 b 122.
(** unreserved, sub-delims, ':' and '@' of RFC 3986. *)
Definition pchar (b : Z) : bool := alnum b || bool_decide (b ∈ [45; 46; 95; 126; 33; 36; 38; 39; 40; 41; 42; 43; 44; 59; 61; 58; 64]).
Definition path_char (b : Z) : bool := pchar b || (b =? 47).
Definition query_char (b : Z) : bool := pchar b || (b =? 47) || (b =? 63).
Definition token_char (b : Z) : bool :=
  alnum b || bool_decide (b ∈ [33; 35; 36; 37; 38; 39; 42; 43; 45; 46; 94; 95; 96; 124; 126]).
Definition value_char (b : Z) : bool := Http11Parser.range 0 b 255 && negb (bool_decide (b ∈ [0; 10; 13; 127])).

Definition xdigit (b : Z) : bool :=
  Http11Parser.range 48 b 57 || Http11Parser.range 65 b 70 || Http11Parser.range 97 b 102.
(** Characters of a class and percent-encoded bytes, '%' and two hexadecimal digits. *)
Fixpoint encoded (C : Z -> bool) (w : list Z) : bool :=
  match w with
  | [] => true
  | b :: w =>
    if b =? 37 then match w with h :: l :: u => xdigit h && xdigit l && encoded C u | _ => false end
    else C b && encoded C w
  end.

(** A path: a slash, and behind it nothing or a segment that does not begin with a slash. *)
Definition path_ok (w : list Z) : bool :=
  match w with
  | b0 :: w => (b0 =? 47) && match w with [] => true | b :: _ => negb (b =? 47) && encoded path_char w end
  | [] => false
  end.
Definition text_ok (C : Z -> bool) (s : string) : Prop := forallb C (bytes_of s) = true.

Definition all_bytes : list Z := seqZ 0 256.

Lemma byte_cases (P : Z -> bool) b :
  0 <= b < 256 -> forallb P all_bytes = true -> P b = true.
Proof.
  intros Hb H. rewrite forallb_forall in H. apply H, list_elem_of_In, elem_of_seqZ. lia.
Qed.

Lemma bytes_range s : Forall (fun b => 0 <= b < 256) (bytes_of s).
Proof. induction s as [|c s IH]; constructor; [apply code_range|done]. Qed.
Lemma class_Forall C w : Forall (fun b => 0 <= b < 256) w -> forallb C w = true ->
  Forall (fun b => 0 <= b < 256 /\ C b = true) w.
Proof. intros H1 H2. rewrite forallb_forall in H2. rewrite Forall_forall in *. intros b Hb. split; [auto|]. by apply H2, list_elem_of_In. Qed.

(** ** Steps of the machine *)

Definition label_of (relaxed : bool) (c b : Z) : option Http11Parser.label :=
  match case_of c with Some f => Some (f relaxed (schar b)) | None => None end.
Definition goes_to (c b n : Z) : bool :=
  forallb (fun r => match label_of r c b with Some (Http11Parser.st m) => (m =? n) && negb (n =? 0) | _ => false end)
    [false; true].
Definition takes (c b k : Z) : bool :=
  forallb (fun r => match label_of r c b with Some (Http11Parser.tr m) => m =? k | _ => false end) [false; true].

Section run.
Context (mem : list Z) (pe : Z).

(** [goes l pos c s pos' c' s']: reading [l] takes the machine from state [c] to [c']. *)
Definition goes (l : list Z) (pos c : Z) (s : HttpRequestParser) (c' : Z) (s' : HttpRequestParser) : Prop :=
  forall rest, machine mem pe (l ++ rest) pos c s = machine mem pe rest (pos + Z.of_nat (length l)) c' s'.

Lemma goes_nil pos c s : goes [] pos c s c s.
Proof. intros rest. by rewrite Z.add_0_r. Qed.

Lemma goes_app l1 l2 pos c1 s1 c2 s2 c3 s3 :
  goes l1 pos c1 s1 c2 s2 -> goes l2 (pos + Z.of_nat (length l1)) c2 s2 c3 s3 ->
  goes (l1 ++ l2) pos c1 s1 c3 s3.
Proof.
  intros H1 H2 rest. rewrite <- app_assoc, H1, H2, length_app. f_equal. lia.
Qed.

Lemma goes_st b pos c n s : goes_to c b n = true -> goes [b] pos c s n s.
Proof.
  intros H rest. unfold goes_to, label_of in H. simpl in H. cbn [app machine].
  destruct (case_of c) as [f|]; [|done]. unfold bind at 1, gets.
  destruct (uri_relaxed (m_parser s)); [destruct (f true _) as [m|]|destruct (f false _) as [m|]];
    simpl in H; rewrite ?andb_false_r in H; try done;
    apply andb_true_iff in H as [H1 H2]; rewrite ?andb_true_r in *;
    repeat match goal with H : _ && _ = true |- _ => apply andb_true_iff in H as [? ?] end;
    repeat match goal with H : (_ =? _) = true |- _ => apply Z.eqb_eq in H; subst end;
    destruct n; done.
Qed.

Lemma goes_tr b pos c k l n s s' :
  takes c b k = true -> lookup_tr k = (l, n) ->
  acts mem pe l pos s = Ok false s' ->
  goes [b] pos c s n s'.
Proof.
  intros H Hl Ha rest. unfold takes, label_of in H. simpl in H. cbn [app machine].
  destruct (case_of c) as [f|]; [|done]. unfold bind at 1, gets.
  assert (f (uri_relaxed (m_parser s)) (schar b) = Http11Parser.tr k) as ->.
  { destruct (uri_relaxed (m_parser s)); [destruct (f true _)|destruct (f false _)];
      rewrite ?andb_false_r in H; try done;
      repeat match goal with H : _ && _ = true |- _ => apply andb_true_iff in H as [? ?] end;
      repeat match goal with H : (_ =? _) = true |- _ => apply Z.eqb_eq in H; subst end; done. }
  rewrite Hl. unfold bind. by rewrite Ha.
Qed.

(** A loop in one state. *)
Lemma goes_loop C c w pos s :
  forallb (fun b => implb (C b) (goes_to c b c)) all_bytes = true ->
  Forall (fun b => 0 <= b < 256 /\ C b = true) w -> goes w pos c s c s.
Proof.
  intros Hc Hw. revert pos. induction Hw as [|b w [Hb HC] _ IH]; intros pos; [apply goes_nil|].
  apply (goes_app [b] w _ _ _ c s); [|apply IH]. apply goes_st.
  pose proof (byte_cases _ b Hb Hc) as H. simpl in H. by rewrite HC in H.
Qed.

(** A state that plain characters of [C] keep and percent-encoded bytes come back to over [p1] and [p2]. *)
Definition decodes (C : Z -> bool) (c p1 p2 : Z) : bool :=
  forallb (fun b => implb (negb (b =? 37) && C b) (goes_to c b c)) all_bytes && goes_to c 37 p1 &&
  forallb (fun b => implb (xdigit b) (goes_to p1 b p2)) all_bytes &&
  forallb (fun b => implb (xdigit b) (goes_to p2 b c)) all_bytes.

Lemma class_goes_to C c b n :
  forallb (fun b => implb (C b) (goes_to c b n)) all_bytes = true -> 0 <= b < 256 -> C b = true -> goes_to c b n = true.
Proof. intros H Hb HC. pose proof (byte_cases _ b Hb H) as E. simpl in E. by rewrite HC in E. Qed.

Lemma goes_digits C c p1 p2 h l pos s :
  decodes C c p1 p2 = true -> 0 <= h < 256 -> 0 <= l < 256 -> xdigit h = true -> xdigit l = true ->
  goes [h; l] pos p1 s c s.
Proof.
  unfold decodes. rewrite !andb_true_iff. intros (((_ & _) & H1) & H2) Hh Hl Xh Xl.
  apply (goes_app [h] [l] _ _ _ p2 s); apply goes_st; by eapply (class_goes_to xdigit).
Qed.

Lemma goes_encoded C c p1 p2 s : decodes C c p1 p2 = true -> forall n w pos,
  (length w <= n)%nat -> Forall (fun b => 0 <= b < 256) w -> encoded C w = true -> goes w pos c s c s.
Proof.
  intros HD. pose proof HD as HD'. unfold decodes in HD'. rewrite !andb_true_iff in HD'. destruct HD' as (((HC & H37) & _) & _).
  induction n as [|n IH]; intros [|b w] pos Hn Hr Hw; simpl in Hn; [apply goes_nil|lia|apply goes_nil|].
  apply Forall_cons in Hr as [Hb Hr]. cbn [encoded] in Hw. apply (goes_app [b] w _ _ _ (if b =? 37 then p1 else c) s).
  - apply goes_st. destruct (Z.eqb_spec b 37) as [->|Hne]; [done|]. apply andb_true_iff in Hw as [Hw _].
    apply (class_goes_to (fun b => negb (b =? 37) && C b)); [done|done|]. by rewrite (proj2 (Z.eqb_neq b 37)).
  - destruct (b =? 37); [|apply andb_true_iff in Hw as [_ Hw]; apply IH; [lia|done|done]].
    destruct w as [|h [|l w]]; [done..|]. rewrite !andb_true_iff in Hw. destruct Hw as [[Xh Xl] Hw].
    apply Forall_cons in Hr as [Hh Hr]. apply Forall_cons in Hr as [Hl Hr]. simpl in Hn.
    apply (goes_app [h; l] w _ _ _ c s); [by eapply goes_digits|apply IH; [lia|done|done]].
Qed.

(** States passed without actions, computed. *)
Fixpoint walk (w : list Z) (c : Z) : option Z :=
  match w with
  | [] => Some c
  | b :: w =>
    match label_of false c b with
    | Some (Http11Parser.st n) => if goes_to c b n then walk w n else None
    | _ => None
    end
  end.
Lemma goes_walk w : forall pos c n s, walk w c = Some n -> goes w pos c s n s.
Proof.
  induction w as [|b w IH]; intros pos c n s H; simpl in H; [injection H as ->; apply goes_nil|].
  destruct (label_of false c b) as [[m|]|]; [|done..]. destruct (goes_to c b m) eqn:E; [|done].
  apply (goes_app [b] w _ _ _ m s); [by apply goes_st|by apply IH].
Qed.
End run.

(** ** Strings of the block *)

Lemma string_at_mid {S} (a w b : list Z) at_ n (s : S) :
  at_ = Z.of_nat (length a) -> n = Z.of_nat (length w) -> n < 2 ^ 31 ->
  string_at (a ++ w ++ b) at_ n s = Ok (to_text w) s.
Proof.
  intros -> -> Hn. unfold string_at, max_size. rewrite (proj2 (Z.ltb_ge _ _)) by lia.
  rewrite !bool_decide_eq_true_2 by (rewrite ?length_app; lia). unfold bind, require, ret. simpl.
  rewrite !Nat2Z.id, drop_app_length, take_app_length. done.
Qed.

Lemma LEN_small start pos : 0 <= start <= pos -> pos < 2 ^ 31 -> LEN start pos = pos - start.
Proof. intros H H'. apply wrap_id. unfold in_u. lia. Qed.

(** ** Segments of a request

    [leads w c d c' d']: wherever the block holds [w], the machine goes from state [c] with the
    request [d] to state [c'] with the request [d'] while it reads [w]. *)

Section segments.
Context (mem : list Z) (pe : Z).

Definition clean (q : http_parser) : Prop := xml_sent q = false /\ json_sent q = false.
Definition holds (pos : Z) (w : list Z) : Prop :=
  exists pre post, mem = pre ++ w ++ post /\ pos = Z.of_nat (length pre).
Definition leads (w : list Z) (c : Z) (d : HttpRequest) (c' : Z) (d' : HttpRequest) : Prop :=
  forall pos e q, pos + Z.of_nat (length w) < 2 ^ 31 -> holds pos w -> clean q ->
  exists q', clean q' /\ goes mem pe w pos c (RequestParser e d q) c' (RequestParser e d' q').

Lemma holds_nonneg pos w : holds pos w -> 0 <= pos.
Proof. intros (pre & post & _ & ->). lia. Qed.

Lemma holds_app pos w1 w2 :
  holds pos (w1 ++ w2) -> holds pos w1 /\ holds (pos + Z.of_nat (length w1)) w2.
Proof.
  intros (pre & post & E & ->). rewrite <- app_assoc in E. split.
  - by exists pre, (w2 ++ post).
  - exists (pre ++ w1), post. rewrite <- app_assoc, length_app. split; [done|lia].
Qed.

Lemma leads_app w1 w2 c1 d1 c2 d2 c3 d3 :
  leads w1 c1 d1 c2 d2 -> leads w2 c2 d2 c3 d3 -> leads (w1 ++ w2) c1 d1 c3 d3.
Proof.
  intros H1 H2 pos e q Hl Hh Hq. rewrite length_app in Hl. apply holds_app in Hh as [Hh1 Hh2].
  destruct (H1 pos e q) as (q1 & Hq1 & G1); try done; [lia|].
  destruct (H2 (pos + Z.of_nat (length w1)) e q1) as (q2 & Hq2 & G2); try done; [lia|].
  exists q2. split; [done|]. by eapply goes_app.
Qed.

Lemma leads_nil c d : leads [] c d c d.
Proof. intros pos e q _ _ Hq. exists q. split; [done|apply goes_nil]. Qed.

(** A string the block holds, from a mark to the current position. *)
Lemma string_at_holds {S} pos w pos' (s : S) :
  holds pos w -> pos' = pos + Z.of_nat (length w) -> pos' < 2 ^ 31 ->
  string_at mem pos (LEN pos pos') s = Ok (to_text w) s.
Proof.
  intros (pre & post & E & ->) -> Hl. rewrite LEN_small, E by lia. apply string_at_mid; lia.
Qed.

(** A span of text: its first character starts it, the character behind it ends it. *)
Definition begins (a : Http11Parser.action) (pos : Z) (q : http_parser) : http_parser :=
  match a with
  | Http11Parser.start_query => set_query_start pos q
  | _ => set_mark pos q
  end.
Definition captures (a : Http11Parser.action) (l : list Http11Parser.action) (w : list Z) (d d' : HttpRequest) : Prop :=
  forall pos e q, holds pos w -> pos + Z.of_nat (length w) < 2 ^ 31 ->
  acts mem pe l (pos + Z.of_nat (length w)) (RequestParser e d (begins a pos q)) =
    Ok false (RequestParser e d' (begins a pos q)).

Lemma leads_span b u x c c1 c2 c3 k1 k2 a l d d' :
  takes c b k1 = true -> lookup_tr k1 = ([a], c1) -> a ∈ [Http11Parser.mark; Http11Parser.start_query] ->
  (forall pos s, goes mem pe u pos c1 s c2 s) ->
  takes c2 x k2 = true -> lookup_tr k2 = (l, c3) ->
  captures a l (b :: u) d d' -> leads ((b :: u) ++ [x]) c d c3 d'.
Proof.
  intros H1 L1 Ha Hu H2 L2 Hc pos e q Hl Hh Hq. rewrite length_app in Hl. simpl in Hl.
  apply holds_app in Hh as [Hh _]. exists (begins a pos q). split; [by destruct a|].
  eapply goes_app; [eapply (goes_app mem pe [b] u)|].
  - eapply goes_tr; [exact H1|exact L1|]. instantiate (1 := RequestParser e d (begins a pos q)).
    apply elem_of_cons in Ha as [->|Ha]; [done|]. by apply list_elem_of_singleton in Ha as ->.
  - apply Hu.
  - eapply goes_tr; [exact H2|exact L2|]. apply Hc; [done|simpl; lia].
Qed.

Lemma captures_path l w d : l = [Http11Parser.request_path] \/ l = [Http11Parser.request_path; Http11Parser.request_uri] ->
  captures Http11Parser.mark l w d (set_path (to_text w) d).
Proof.
  intros Hl pos e q Hh Hb. destruct Hl as [->| ->]; unfold acts, act, on_request_path, bind, gets; cbn [m_parser begins mark set_mark];
    by rewrite (string_at_holds pos w) by done.
Qed.
Lemma captures_query w d :
  captures Http11Parser.start_query [Http11Parser.query_string; Http11Parser.request_uri] w d (set_query (to_text w) d).
Proof.
  intros pos e q Hh Hb. unfold acts, act, on_request_query, bind, gets. cbn [m_parser begins query_start set_query_start].
  by rewrite (string_at_holds pos w) by done.
Qed.
Lemma captures_fragment w d :
  captures Http11Parser.mark [Http11Parser.fragment] w d (set_fragment (to_text w) d).
Proof.
  intros pos e q Hh Hb. unfold acts, act, on_request_fragment, bind, gets. cbn [m_parser begins mark set_mark].
  by rewrite (string_at_holds pos w) by done.
Qed.

(** ** The request line *)

Lemma class_takes C c b k :
  forallb (fun b => implb (C b) (takes c b k)) all_bytes = true -> 0 <= b < 256 -> C b = true -> takes c b k = true.
Proof. intros H Hb HC. pose proof (byte_cases _ b Hb H) as E. simpl in E. by rewrite HC in E. Qed.
(** A span of encoded text; its first character may be a percent sign, which takes the transition [k']. *)
Lemma leads_encoded C w x c c1 p1 p2 c3 k k' k2 a l d d' :
  w <> [] -> Forall (fun b => 0 <= b < 256) w -> encoded C w = true -> decodes C c1 p1 p2 = true ->
  forallb (fun b => implb (negb (b =? 37) && C b) (takes c b k)) all_bytes = true -> takes c 37 k' = true ->
  lookup_tr k = ([a], c1) -> lookup_tr k' = ([a], p1) -> a ∈ [Http11Parser.mark; Http11Parser.start_query] ->
  takes c1 x k2 = true -> lookup_tr k2 = (l, c3) -> captures a l w d d' -> leads (w ++ [x]) c d c3 d'.
Proof.
  intros Hne Hr Hw HD Hk Hk' L L' Ha Hx L2 Hcap. destruct w as [|b u]; [done|].
  apply Forall_cons in Hr as [Hb Hr]. cbn [encoded] in Hw. destruct (Z.eqb_spec b 37) as [->|Hb37].
  - destruct u as [|h [|g u]]; [discriminate Hw..|]. rewrite !andb_true_iff in Hw. destruct Hw as [[Xh Xg] Hw].
    apply Forall_cons in Hr as [Hh Hr]. apply Forall_cons in Hr as [Hg Hr].
    eapply (leads_span 37 (h :: g :: u) x c p1 c1 c3 k' k2 a l); try done.
    intros pos s. apply (goes_app mem pe [h; g] u _ _ _ c1 s); [by eapply goes_digits|by eapply goes_encoded].
  - apply andb_true_iff in Hw as [Hc Hw]. eapply (leads_span b u x c c1 c1 c3 k k2 a l); try done.
    + apply (class_takes (fun b => negb (b =? 37) && C b)); [done|done|]. by rewrite (proj2 (Z.eqb_neq b 37)).
    + intros pos s. by eapply goes_encoded.
Qed.

(** Where the machine goes at the character behind a path, a query or a fragment. *)
Definition behind_path (x : Z) : option (Z * Z) :=
  if x =? 32 then Some (37, 4) else if x =? 35 then Some (39, 20) else if x =? 63 then Some (42, 29) else None.
Definition behind_query (x : Z) : option (Z * Z) :=
  if x =? 32 then Some (57, 4) else if x =? 35 then Some (59, 20) else None.

Lemma behind_path_spec x k c : behind_path x = Some (k, c) ->
  takes 33 x k = true /\ takes 26 x k = true /\ exists l, lookup_tr k = (l, c) /\
  (l = [Http11Parser.request_path] \/ l = [Http11Parser.request_path; Http11Parser.request_uri]).
Proof.
  unfold behind_path. destruct (Z.eqb_spec x 32) as [->|]; [|destruct (Z.eqb_spec x 35) as [->|]];
    [| |destruct (Z.eqb_spec x 63) as [->|]; [|done]]; intros [= <- <-]; split_and!; try (by vm_compute); eexists;
    (split; [vm_compute; reflexivity|auto]).
Qed.
Lemma behind_query_spec x k c : behind_query x = Some (k, c) ->
  takes 30 x k = true /\ lookup_tr k = ([Http11Parser.query_string; Http11Parser.request_uri], c).
Proof.
  unfold behind_query. destruct (Z.eqb_spec x 32) as [->|]; [|destruct (Z.eqb_spec x 35) as [->|]; [|done]];
    intros [= <- <-]; by vm_compute.
Qed.

(** The first segment of a path. *)
Lemma goes_segment b u pos s : (b =? 47) = false -> 0 <= b < 256 -> Forall (fun b => 0 <= b < 256) u ->
  encoded path_char (b :: u) = true -> goes mem pe (b :: u) pos 33 s 26 s.
Proof.
  intros Hb Hbr Hr Hw. assert (decodes path_char 26 27 28 = true) as HD by by vm_compute.
  cbn [encoded] in Hw. destruct (Z.eqb_spec b 37) as [->|Hne].
  - destruct u as [|h [|g u]]; [discriminate Hw..|]. rewrite !andb_true_iff in Hw. destruct Hw as [[Xh Xg] Hw].
    apply Forall_cons in Hr as [Hh Hr]. apply Forall_cons in Hr as [Hg Hr].
    apply (goes_app mem pe [37] (h :: g :: u) pos 33 s 27 s); [apply goes_st; by vm_compute|].
    apply (goes_app mem pe [h; g] u _ _ _ 26 s); [by eapply goes_digits|by eapply goes_encoded].
  - apply andb_true_iff in Hw as [Hc Hw]. apply (goes_app mem pe [b] u pos 33 s 26 s); [|by eapply goes_encoded].
    apply goes_st, (class_goes_to pchar); [by vm_compute|done|]. unfold path_char in Hc. by rewrite Hb, orb_false_r in Hc.
Qed.

Lemma leads_path path x k c d :
  path_ok (bytes_of path) = true -> behind_path x = Some (k, c) ->
  leads (bytes_of path ++ [x]) 3 d c (set_path path d).
Proof.
  intros Hp (T1 & T2 & l & Hl & Hls)%behind_path_spec. pose proof (bytes_range path) as Hr.
  pose proof (to_text_bytes path) as E.
  destruct (bytes_of path) as [|b0 u]; [done|]. simpl in Hp. apply andb_true_iff in Hp as [->%Z.eqb_eq Hp].
  rewrite <- E. apply Forall_cons in Hr as [_ Hr].
  assert (exists c2, takes c2 x k = true /\ forall pos s, goes mem pe u pos 33 s c2 s) as (c2 & Hc2 & Hu).
  { destruct u as [|b u]; [exists 33; split; [done|intros; apply goes_nil]|].
    apply andb_true_iff in Hp as [Hb%negb_true_iff Hp]. apply Forall_cons in Hr as [Hbr Hr].
    exists 26. split; [done|]. intros pos s. by apply goes_segment. }
  apply (leads_span 47 u x 3 33 c2 c 10 k Http11Parser.mark l); try done; [set_solver|by apply captures_path].
Qed.

Lemma leads_query query x k c d :
  query <> "" -> encoded query_char (bytes_of query) = true -> behind_query x = Some (k, c) ->
  leads (bytes_of query ++ [x]) 29 d c (set_query query d).
Proof.
  intros Hne Hq (T & Hl)%behind_query_spec. pose proof (bytes_range query) as Hr.
  pose proof (captures_query (bytes_of query) d) as Hc. rewrite to_text_bytes in Hc.
  apply (leads_encoded query_char _ x 29 30 31 32 c 54 56 k Http11Parser.start_query
    [Http11Parser.query_string; Http11Parser.request_uri]);
    [by destruct query|exact Hr|exact Hq|by vm_compute..|set_solver|exact T|exact Hl|exact Hc].
Qed.

Lemma leads_fragment frag d :
  frag <> "" -> encoded query_char (bytes_of frag) = true -> leads (bytes_of frag ++ [32]) 20 d 4 (set_fragment frag d).
Proof.
  intros Hne Hq. pose proof (bytes_range frag) as Hr. pose proof (captures_fragment (bytes_of frag) d) as Hc. rewrite to_text_bytes in Hc.
  apply (leads_encoded query_char _ 32 20 21 22 23 4 44 45 46 Http11Parser.mark [Http11Parser.fragment]);
    [by destruct frag|exact Hr|exact Hq|by vm_compute..|set_solver|by vm_compute|by vm_compute|exact Hc].
Qed.

Lemma leads_st b c n d : goes_to c b n = true -> leads [b] c d n d.
Proof. intros H pos e q _ _ Hq. exists q. split; [done|by apply goes_st]. Qed.

Lemma bytes_at_holds pos w : holds pos w -> exists post, bytes_at mem pos = w ++ post.
Proof.
  intros (pre & post & E & ->). exists post. unfold bytes_at. by rewrite E, Nat2Z.id, drop_app_length.
Qed.

(** The machine on the text of each method. *)
Definition method_runs (m : http_method) : bool :=
  match bytes_of (http_method_to_chars m) with
  | b :: u => takes 1 b 0 && match walk u 2 with Some n => takes n 32 4 | None => false end
  | [] => false
  end.
Lemma methods_run m : m <> INVALID_METHOD -> m <> MSEARCH -> method_runs m = true.
Proof. intros H1 H2. by destruct m; try done; vm_compute. Qed.
Lemma find_method_name m post : m <> INVALID_METHOD -> 
  find_method HTTP_METHOD_MAP (bytes_of (http_method_to_chars m) ++ post) = Some m.
Proof. intros H. by destruct m. Qed.

Lemma leads_method m d : m <> INVALID_METHOD -> m <> MSEARCH ->
  leads (bytes_of (http_method_to_chars m) ++ [32]) 1 d 3 (set_method m d).
Proof.
  intros H1 H2. pose proof (methods_run m H1 H2) as H. unfold method_runs in H.
  pose proof (find_method_name m) as Hf. destruct (bytes_of (http_method_to_chars m)) as [|b u]; [done|].
  apply andb_true_iff in H as [Hb H]. destruct (walk u 2) as [n|] eqn:Ew; [|done].
  apply (leads_span b u 32 1 2 n 3 0 4 Http11Parser.mark [Http11Parser.request_method]); try done; [set_solver| |].
  - intros pos s. by apply goes_walk.
  - intros pos e q [post E]%bytes_at_holds Hl. unfold acts, act, on_request_method, or_undef, bind, gets.
    cbn [m_parser begins mark set_mark]. rewrite E, Hf by done. simpl. by rewrite bool_decide_eq_false_2.
Qed.

Lemma leads_version v d : v = 16 \/ v = 17 ->
  leads (bytes_of (version_text v) ++ [13; 10]) 4 d 13 (set_version v d).
Proof.
  intros Hv. change [13; 10] with ([13] ++ [10])%list. rewrite app_assoc. eapply leads_app; [|by apply (leads_st 10 17 13)].
  assert (exists u, bytes_of (version_text v) = 72 :: u /\ walk u 5 = Some 12) as (u & E & Hw)
    by (exists (tail (bytes_of (version_text v))); by destruct Hv as [->| ->]; vm_compute).
  rewrite E. apply (leads_span 72 u 13 4 5 12 17 13 22 Http11Parser.mark [Http11Parser.http_version]); try done; [set_solver| |].
  - intros pos s. by apply goes_walk.
  - intros pos e q Hh Hl. rewrite <- E in Hh, Hl |- *. pose proof (holds_nonneg _ _ Hh) as Hp.
    apply bytes_at_holds in Hh as [post Eb].
    unfold acts, act, on_request_version, or_undef, bind, gets. cbn [m_parser begins mark set_mark].
    rewrite LEN_small, Z.add_simpl_l, Eb by lia. by destruct Hv as [->| ->].
Qed.

(** ** Header lines *)

(** The bytes of a field name have been read, its colon is the next. *)
Definition named (k : string) (q : http_parser) : Prop :=
  clean q /\ holds (field_start q) (bytes_of k) /\ field_len q = Z.of_nat (length (bytes_of k)) /\
  field_start q + field_len q < 2 ^ 31.

Lemma write_value_acts k v pos e d q :
  k <> "" -> named k q -> holds (mark q) (bytes_of v) -> pos = mark q + Z.of_nat (length (bytes_of v)) -> pos < 2 ^ 31 ->
  acts mem pe [Http11Parser.write_value] pos (RequestParser e d q) = Ok false (RequestParser e (setHeader k v d) q).
Proof.
  intros Hk (_ & Hkh & El & Hkl) Hv Ep Hp. unfold acts, act, on_request_http_field, bind, gets. cbn [m_parser].
  rewrite El in Hkl. rewrite El. destruct (Z.eqb_spec (Z.of_nat (length (bytes_of k))) 0) as [E0|_].
  { destruct k; [done|]. simpl in E0. lia. }
  pose proof (holds_nonneg _ _ Hkh) as Hf.
  pose proof (string_at_holds (S := HttpRequestParser) (field_start q) (bytes_of k) _ (RequestParser e d q) Hkh eq_refl Hkl) as Ek.
  rewrite LEN_small, Z.add_simpl_l in Ek by lia. rewrite Ek.
  rewrite (string_at_holds (mark q) (bytes_of v)) by done. by rewrite !to_text_bytes.
Qed.

(** The name and the colon. *)
Lemma goes_name k pos e d q :
  k <> "" -> text_ok token_char k -> holds pos (bytes_of k) -> pos + Z.of_nat (length (bytes_of k)) < 2 ^ 31 -> clean q ->
  exists q', named k q' /\ goes mem pe (bytes_of k ++ [58]) pos 13 (RequestParser e d q) 15 (RequestParser e d q').
Proof.
  intros Hk Ht Hh Hl Hq. pose proof (holds_nonneg _ _ Hh) as Hp.
  set (n := Z.of_nat (length (bytes_of k))) in *.
  exists (set_field_len n (set_field_start pos q)). split; [done|].
  pose proof (bytes_range k) as Hr. unfold text_ok in Ht. destruct (bytes_of k) as [|b u] eqn:Ek; [by destruct k|].
  apply andb_true_iff in Ht as [Hb Hu]. apply Forall_cons in Hr as [Hbr Hr].
  eapply goes_app; [eapply (goes_app mem pe [b] u)|].
  - eapply (goes_tr mem pe b pos 13 23); [apply (class_takes token_char); [by vm_compute|done..]|by vm_compute|done].
  - apply (goes_loop mem pe token_char); [by vm_compute|by apply class_Forall].
  - eapply (goes_tr mem pe 58 _ 14 27); [by vm_compute|by vm_compute|].
    cbn [app] in *. unfold n in *. unfold acts, act, bind, gets, on_parser, modify, ret. simpl.
    rewrite LEN_small by (simpl in Hl; lia). do 4 f_equal. simpl. lia.
Qed.

Lemma named_mark k x q : named k q -> named k (set_mark x q).
Proof. done. Qed.

(** Spaces and tabs behind the colon. *)
Definition blank (b : Z) : Prop := b = 32 \/ b = 9.
Lemma goes_spaces k ws : Forall blank ws -> forall pos e d q, named k q ->
  exists q', named k q' /\ goes mem pe ws pos 15 (RequestParser e d q) 15 (RequestParser e d q').
Proof.
  induction 1 as [|b ws Hb _ IH]; intros pos e d q Hq; [exists q; split; [done|apply goes_nil]|].
  destruct (IH (pos + 1) e d (set_mark pos q)) as (q' & Hq' & G); [by apply named_mark|].
  exists q'. split; [done|]. apply (goes_app mem pe [b] _ pos 15 _ 15 (RequestParser e d (set_mark pos q))); [|exact G].
  eapply (goes_tr mem pe b pos 15 29); [by destruct Hb as [->| ->]; vm_compute|by vm_compute|done].
Qed.

Definition value_ok (v : string) : Prop :=
  text_ok value_char v /\ match bytes_of v with b :: _ => b <> 32 /\ b <> 9 | [] => True end.

(** The value and the end of the line. *)
Lemma goes_value k v pos e d q :
  k <> "" -> value_ok v -> named k q -> holds pos (bytes_of v) -> pos + Z.of_nat (length (bytes_of v)) < 2 ^ 31 ->
  goes mem pe (bytes_of v ++ [13]) pos 15 (RequestParser e d q) 17 (RequestParser e (setHeader k v d) (set_mark pos q)).
Proof.
  intros Hk [Ht Hs] Hq Hh Hl. unfold text_ok in Ht. pose proof (bytes_range v) as Hr.
  pose proof (fun pos' => write_value_acts k v pos' e d (set_mark pos q) Hk (named_mark k pos q Hq) Hh) as Hw.
  destruct (bytes_of v) as [|b u] eqn:Ev.
  - eapply (goes_tr mem pe 13 pos 15 31 [Http11Parser.start_value; Http11Parser.write_value]); [by vm_compute|by vm_compute|].
    cbn [acts]. unfold bind at 1. unfold act at 1. cbn [bind gets on_parser modify ret]. apply Hw; [simpl; lia|simpl in *; lia].
  - apply andb_true_iff in Ht as [Hb Ht]. apply Forall_cons in Hr as [Hbr Hr]. cbn [length] in *.
    eapply goes_app; [eapply (goes_app mem pe [b] u)|].
    + eapply (goes_tr mem pe b pos 15 28).
      * apply (class_takes (fun b => value_char b && negb (bool_decide (b ∈ [32; 9])))); [by vm_compute|done|].
        rewrite Hb. apply negb_true_iff, bool_decide_eq_false. set_solver.
      * by vm_compute.
      * done.
    + apply (goes_loop mem pe value_char); [by vm_compute|by apply class_Forall].
    + eapply (goes_tr mem pe 13 _ 16 34); [by vm_compute|by vm_compute|]. apply Hw; cbn [length]; [done|lia].
Qed.

Lemma leads_header k ws v d : k <> "" -> text_ok token_char k -> Forall blank ws -> value_ok v ->
  leads (((bytes_of k ++ [58]) ++ ws) ++ (bytes_of v ++ [13]) ++ [10]) 13 d 13 (setHeader k v d).
Proof.
  intros Hk Ht Hws Hv pos e q Hl Hh Hq. rewrite !length_app in Hl. simpl in Hl.
  apply holds_app in Hh as [Hh1 Hh2]. apply holds_app in Hh1 as [Hh1 _]. apply holds_app in Hh1 as [Hh1 _].
  apply holds_app in Hh2 as [Hh2 _]. apply holds_app in Hh2 as [Hh2 _].
  destruct (goes_name k pos e d q) as (q1 & Hq1 & G1); try done; [lia|].
  destruct (goes_spaces k ws Hws (pos + Z.of_nat (length (bytes_of k ++ [58]))) e d q1) as (q2 & Hq2 & G2); [done|].
  eexists. split; [|eapply goes_app; [eapply goes_app; [exact G1|exact G2]|eapply goes_app]].
  - instantiate (1 := set_mark _ q2). apply Hq2.
  - apply (goes_value k v); try done. rewrite !length_app. simpl. lia.
  - by apply goes_st.
Qed.

(** ** The whole head *)

Lemma bytes_of_if (b : bool) s : bytes_of (if b then "" else s) = if b then [] else bytes_of s.
Proof. by destruct b. Qed.

Definition uri_text (path query fragment : string) : list Z :=
  bytes_of path ++ (if bool_decide (query = "") then [] else [63]) ++ bytes_of query ++
  (if bool_decide (fragment = "") then [] else [35]) ++ bytes_of fragment ++ [32].

Lemma leads_uri path query fragment d :
  path_ok (bytes_of path) = true -> encoded query_char (bytes_of query) = true ->
  encoded query_char (bytes_of fragment) = true ->
  m_query d = "" -> m_fragment d = "" ->
  leads (uri_text path query fragment) 3 d 4 (set_fragment fragment (set_query query (set_path path d))).
Proof.
  intros Hp Hq Hf Eq Ef. unfold uri_text.
  assert (forall d, m_fragment d = "" -> set_fragment "" d = d) as Hsf by (intros []; simpl; by intros ->).
  assert (forall d, m_query d = "" -> set_query "" d = d) as Hsq by (intros []; simpl; by intros ->).
  case_bool_decide as E1; case_bool_decide as E2; subst; cbn [bytes_of app].
  - rewrite Hsf, Hsq by done. by eapply leads_path.
  - rewrite Hsq by done. change (35 :: bytes_of fragment ++ [32]) with ([35] ++ bytes_of fragment ++ [32]). rewrite app_assoc.
    eapply leads_app; [by eapply leads_path|by apply leads_fragment].
  - rewrite Hsf by done. change (63 :: bytes_of query ++ [32]) with ([63] ++ bytes_of query ++ [32]). rewrite app_assoc.
    eapply leads_app; [by eapply leads_path|by eapply leads_query].
  - change (63 :: bytes_of query ++ 35 :: bytes_of fragment ++ [32])
      with ([63] ++ bytes_of query ++ [35] ++ bytes_of fragment ++ [32]). rewrite app_assoc, (app_assoc (bytes_of query)).
    eapply leads_app; [by eapply leads_path|]. eapply leads_app; [by eapply leads_query|by apply leads_fragment].
Qed.

Definition header_ok (e : string * string) : Prop := e.1 <> "" /\ text_ok token_char e.1 /\ value_ok e.2.
(** A header line with the blanks [ws], or with [n] spaces, behind the colon. *)
Definition field_line (l : list Z * (string * string)) : list Z :=
  ((bytes_of l.2.1 ++ [58]) ++ l.1) ++ (bytes_of l.2.2 ++ [13]) ++ [10].
Definition line_bytes (n : nat) (e : string * string) : list Z := field_line (replicate n 32, e).
Definition add_header (d : HttpRequest) (e : string * string) : HttpRequest := setHeader e.1 e.2 d.

Lemma leads_lines l : forall d, Forall (fun x => Forall blank x.1 /\ header_ok x.2) l ->
  leads (l ≫= field_line) 13 d 13 (foldl add_header d (snd <$> l)).
Proof.
  induction l as [|[ws e] l IH]; intros d Hl; [apply leads_nil|].
  apply Forall_cons in Hl as [(H0 & H1 & H2 & H3) Hl]. cbn [mbind list_bind foldl fmap list_fmap].
  eapply leads_app; [by apply leads_header|by apply IH].
Qed.

Lemma machine_end pos rest e d q : clean q ->
  exists q', machine mem pe ([13; 10] ++ rest) pos 13 (RequestParser e d q) = Ok (pos + 2, 348) (RequestParser e d q').
Proof.
  intros [Hx Hj]. exists (set_body_start (pos + 1 + 1) (set_field_start pos q)).
  assert (goes mem pe [13] pos 13 (RequestParser e d q) 18 (RequestParser e d (set_field_start pos q))) as G
    by (eapply (goes_tr mem pe 13 pos 13 25); [by vm_compute|by vm_compute|done]).
  change ([13; 10] ++ rest) with ([13] ++ 10 :: rest). rewrite G. cbn [machine length].
  assert (case_of 18 = Some Http11Parser.case_18) as -> by by vm_compute. unfold bind at 1, gets.
  assert (Http11Parser.case_18 (uri_relaxed (set_field_start pos q)) (schar 10) = Http11Parser.tr 36) as Et by by vm_compute.
  cbn [m_parser]. rewrite Et. assert (lookup_tr 36 = ([Http11Parser.done_], 348)) as -> by by vm_compute.
  unfold acts, act, bind, gets, on_parser, modify, ret. simpl. rewrite Hx, Hj. simpl.
  replace (pos + Z.of_nat 1 + 1) with (pos + 1 + 1) by lia. by replace (pos + 1 + 1) with (pos + 2) by lia.
Qed.
End segments.

(** ** A request as a client may write it

    Any order of the header lines, any blanks behind their colons. *)
Record message := Message {
  g_method : http_method;
  g_path : string;
  g_query : string;
  g_fragment : string;
  g_version : Z;
  g_lines : list (list Z * (string * string));
  g_body : list Z
}.

Definition head_bytes (g : message) : list Z :=
  (((bytes_of (http_method_to_chars (g_method g)) ++ [32]) ++ uri_text (g_path g) (g_query g) (g_fragment g)) ++
   (bytes_of (version_text (g_version g)) ++ [13; 10])) ++ (g_lines g ≫= field_line).
Definition message_bytes (g : message) : list Z := head_bytes g ++ [13; 10] ++ g_body g.

Record well_formed (g : message) : Prop := {
  w_method : g_method g <> INVALID_METHOD /\ g_method g <> MSEARCH;
  w_path : path_ok (bytes_of (g_path g)) = true;
  w_query : encoded query_char (bytes_of (g_query g)) = true;
  w_fragment : encoded query_char (bytes_of (g_fragment g)) = true;
  w_version : g_version g = 16 \/ g_version g = 17;
  w_lines : Forall (fun x => Forall blank x.1 /\ header_ok x.2) (g_lines g);
  w_body : Forall (fun b => 0 <= b < 256) (g_body g)
}.

(** What the parser has read at the end of the head. *)
Definition parsed (g : message) : HttpRequest :=
  foldl add_header (set_version (g_version g) (set_fragment (g_fragment g) (set_query (g_query g) (set_path (g_path g)
    (set_method (g_method g) (new_HttpRequest 17 true)))))) (snd <$> g_lines g).

Lemma leads_head mem pe g : well_formed g -> leads mem pe (head_bytes g) 1 (new_HttpRequest 17 true) 13 (parsed g).
Proof.
  intros [[Hm1 Hm2] Hp Hq Hf Hv Hl _]. unfold head_bytes, parsed.
  eapply leads_app; [|by apply leads_lines].
  eapply leads_app; [eapply leads_app; [by apply leads_method|by apply leads_uri]|by apply leads_version].
Qed.

Lemma blank_byte b : blank b -> 0 <= b < 256.
Proof. unfold blank. lia. Qed.
Lemma field_line_range x : Forall blank x.1 -> Forall (fun b => 0 <= b < 256) (field_line x).
Proof.
  intros Hb. unfold field_line. rewrite !Forall_app, !Forall_singleton. split_and!; try lia; try apply bytes_range.
  eapply Forall_impl; [exact Hb|apply blank_byte].
Qed.
Lemma uri_range path query fragment : Forall (fun b => 0 <= b < 256) (uri_text path query fragment).
Proof.
  unfold uri_text. rewrite !Forall_app. repeat case_bool_decide; split_and!; try apply bytes_range; repeat constructor; lia.
Qed.
Lemma message_range g : well_formed g -> Forall (fun b => 0 <= b < 256) (message_bytes g).
Proof.
  intros [_ _ _ _ _ Hl Hb]. unfold message_bytes, head_bytes. rewrite !Forall_app.
  split_and!; try done; try apply bytes_range; try apply uri_range; try (repeat constructor; lia).
  induction Hl as [|x l [Hx _] _ IH]; [constructor|]. cbn [mbind list_bind]. apply Forall_app. split; [by apply field_line_range|exact IH].
Qed.

(** The machine and the parser on a message. *)
Lemma machine_message g q slack len :
  well_formed g -> len < 2 ^ 31 -> len = Z.of_nat (length (message_bytes g)) ->
  exists q', machine (message_bytes g ++ slack) len (message_bytes g) 0 1 (called (new_HttpRequestParser q)) =
    Ok (len - Z.of_nat (length (g_body g)), 348) (RequestParser 0 (parsed g) q').
Proof.
  intros Hg Hlen El. unfold message_bytes in *. set (mem := (head_bytes g ++ _) ++ slack).
  rewrite !length_app in El. simpl in El.
  destruct (leads_head mem len g Hg 0 0 (m_parser (called (new_HttpRequestParser q))))
    as (q1 & Hq1 & G); [lia|exists [], ([13; 10] ++ g_body g ++ slack); unfold mem; by rewrite <- !app_assoc|done|].
  unfold called. cbn [new_HttpRequestParser m_error m_data m_parser] in *. rewrite G.
  destruct (machine_end mem len (0 + Z.of_nat (length (head_bytes g))) (g_body g) 0 (parsed g) q1 Hq1) as (q2 & ->).
  exists q2. do 2 f_equal. lia.
Qed.

Lemma execute_message g q slack len :
  well_formed g -> len = Z.of_nat (length (message_bytes g)) -> len < 2 ^ 31 ->
  Forall (fun b => 0 <= b < 256) slack -> (11 <= length slack)%nat ->
  exists mem' q',
    execute (message_bytes g ++ slack) len (new_HttpRequestParser q) =
      Ok (len - Z.of_nat (length (g_body g)), mem') (RequestParser 0 (parsed g) q') /\
    cs q' = 348 /\ take (length (g_body g)) mem' = g_body g /\
    Z.of_nat (length (g_body g)) + 2 <= len /\ length mem' = length (message_bytes g ++ slack).
Proof.
  intros Hg El Hlen Hs Hsl. destruct (machine_message g q slack len Hg Hlen El) as [q' Hm].
  pose proof (execute_run (message_bytes g ++ slack) len (new_HttpRequestParser q)) as H.
  rewrite El, Nat2Z.id, take_app_length, <- El in H. change (cs (m_parser (new_HttpRequestParser q))) with 1 in H. rewrite Hm in H.
  set (n := length (g_body g)) in *.
  assert (Z.of_nat n + 2 <= len) as Hb by (rewrite El; unfold message_bytes; rewrite !length_app; cbn [length]; lia).
  destruct H as [-> _]; try lia; [by apply Forall_app; split; [apply message_range|]|rewrite length_app; lia|apply init_wf|].
  eexists _, _. split; [reflexivity|]. split; [done|].
  replace (len - (len - Z.of_nat n)) with (Z.of_nat n) by lia. rewrite Nat2Z.id.
  assert (slice (Z.to_nat (len - Z.of_nat n)) n (message_bytes g ++ slack) = g_body g) as Eb.
  { rewrite El. unfold message_bytes. rewrite (app_assoc (head_bytes g)). unfold slice.
    replace (Z.to_nat _) with (length (head_bytes g ++ [13; 10])) by (rewrite !length_app; unfold n; lia).
    rewrite <- app_assoc, drop_app_length. apply take_app_length. }
  rewrite Eb. split; [apply (slice_splice 0); lia|]. split; [done|].
  apply length_splice. fold n. rewrite length_app. lia.
Qed.

(** ** A request *)

Definition others (m : MapType) : MapType := filter (fun kv => strcasecmp kv.1 "Connection" <> 0) m.
Definition connection (close : bool) : string * string := ("Connection", if close then "close" else "keep-alive").
Definition body_length (body : string) : MapType :=
  if bool_decide (body = "") then [] else [("Content-Length", dec (Z.of_nat (String.length body)))].

(** The message that [dump] writes. *)
Definition message_of (r : HttpRequest) : message :=
  Message (m_method r) (m_path r) (m_query r) (m_fragment r) (m_version r)
    ((pair [32] <$> [connection (m_close r)]) ++ (pair [] <$> others (m_headers r)) ++ (pair [32] <$> body_length (m_body r)))
    (bytes_of (m_body r)).
Lemma bind_pair (n : nat) l : (pair (replicate n 32) <$> l) ≫= field_line = l ≫= line_bytes n.
Proof. induction l as [|e l IH]; [done|]. cbn [fmap list_fmap mbind list_bind]. f_equal. exact IH. Qed.

Lemma lines_bytes l :
  bytes_of (lines ((fun '(k, v) => k +:+ ":" +:+ v) <$> l)) = l ≫= line_bytes 0.
Proof.
  induction l as [|[k v] l IH]; [done|]. cbn [fmap list_fmap lines mbind list_bind]. unfold line_bytes, field_line, CRLF, CR, LF.
  rewrite !bytes_of_app. cbn [replicate fst snd]. rewrite app_nil_r, <- !app_assoc. cbn [bytes_of app].
  do 4 f_equal. cbn [app]. do 2 f_equal. exact IH.
Qed.

Lemma connection_bytes close : [connection close] ≫= line_bytes 1 =
  bytes_of "Connection: " ++ bytes_of (if close then "close" else "keep-alive") ++ bytes_of CRLF.
Proof. by destruct close. Qed.

Lemma tail_bytes body : bytes_of (tail_text body) = (body_length body ≫= line_bytes 1) ++ [13; 10] ++ bytes_of body.
Proof.
  unfold tail_text, body_length. case_bool_decide as E; [by rewrite E|].
  rewrite !bytes_of_app. cbn [mbind list_bind]. unfold line_bytes, field_line. rewrite app_nil_r, <- !app_assoc. reflexivity.
Qed.

Lemma dump_bytes r : bytes_of (dump_request r) = message_bytes (message_of r).
Proof.
  unfold dump_request, message_bytes, head_bytes, message_of, uri_text, header_lines. cbn [g_method g_path g_query g_fragment g_version g_lines g_body].
  rewrite !bind_app, (bind_pair 1), (bind_pair 0), (bind_pair 1).
  rewrite !bytes_of_app, lines_bytes, !bytes_of_if, tail_bytes, connection_bytes. fold (others (m_headers r)).
  rewrite <- !app_assoc. reflexivity.
Qed.

Lemma is_digit_value s : s <> "" -> all_chars is_digit s -> value_ok s.
Proof.
  assert (forall s, all_chars is_digit s -> text_ok value_char s) as H.
  { unfold text_ok. clear s. induction s as [|c s IH]; [done|]. intros [Hc Hs]. cbn [bytes_of forallb].
    rewrite IH by done. unfold is_digit in Hc. unfold value_char, Http11Parser.range.
    rewrite bool_decide_eq_false_2 by set_solver by lia. lia. }
  intros Hne Hs. split; [by apply H|]. destruct s as [|c s]; [done|]. destruct Hs as [Hc _]. unfold is_digit in Hc. simpl. lia.
Qed.

Lemma body_length_ok body : Forall header_ok (body_length body).
Proof.
  unfold body_length. case_bool_decide; [constructor|]. apply Forall_singleton.
  split; [done|]. split; [by vm_compute|]. apply is_digit_value; [apply dec_nonempty|apply dec_spec; lia].
Qed.

(** What the parser has read at the end of the head. *)
Definition reads_as (r d : HttpRequest) : HttpRequest :=
  foldl add_header (foldl add_header (foldl add_header
    (set_version (m_version r) (set_fragment (m_fragment r) (set_query (m_query r) (set_path (m_path r)
      (set_method (m_method r) d))))) [connection (m_close r)]) (others (m_headers r))) (body_length (m_body r)).
Lemma parsed_reads_as r : parsed (message_of r) = reads_as r (new_HttpRequest 17 true).
Proof.
  assert (forall (ws : list Z) (l : MapType), snd <$> (pair ws <$> l) = l) as E
    by (intros ws l; induction l as [|e l IH]; [done|]; cbn [fmap list_fmap]; f_equal; exact IH).
  unfold parsed, message_of, reads_as. cbn [g_method g_path g_query g_fragment g_version g_lines g_body].
  by rewrite !fmap_app, !E, !foldl_app.
Qed.

(** A request whose text is one of the grammar. *)
Record printable (r : HttpRequest) : Prop := {
  p_method : m_method r <> INVALID_METHOD /\ m_method r <> MSEARCH;
  p_version : m_version r = 16 \/ m_version r = 17;
  p_path : path_ok (bytes_of (m_path r)) = true;
  p_query : encoded query_char (bytes_of (m_query r)) = true;
  p_fragment : encoded query_char (bytes_of (m_fragment r)) = true;
  p_headers : Forall header_ok (m_headers r)
}.

Lemma printable_message r : printable r -> well_formed (message_of r).
Proof.
  intros [Hm Hv Hp Hq Hf Hh].
  assert (forall ws (l : MapType), Forall blank ws -> Forall header_ok l ->
    Forall (fun x => Forall blank x.1 /\ header_ok x.2) (pair ws <$> l)) as L
    by (intros ws l Hw Hl; apply Forall_fmap; eapply Forall_impl; [exact Hl|done]).
  assert (Forall blank [32]) as Hw by (repeat constructor).
  split; try done; [|apply bytes_range]. cbn [message_of g_lines]. rewrite !Forall_app. split_and!; apply L; try done.
  - apply Forall_singleton. unfold connection. destruct (m_close r); repeat split; by vm_compute.
  - unfold others. rewrite Forall_forall in Hh |- *. intros e [_ He]%list_elem_of_filter. auto.
  - apply body_length_ok.
Qed.

(** ** The headers that are read *)

Lemma add_headers l : forall d, foldl add_header d l =
  Request (m_method d) (m_version d) (m_close d) (m_path d) (m_query d) (m_fragment d) (m_body d)
    (foldl (fun m e => map_set e.1 e.2 m) (m_headers d) l) (m_params d) (m_cookies d).
Proof. induction l as [|e l IH]; intros d; [by destruct d|]. cbn [foldl]. by rewrite IH. Qed.

Lemma foldl_set_ordered l : forall m, ordered m -> ordered (foldl (fun m e => map_set e.1 e.2 m) m l).
Proof. induction l as [|e l IH]; intros m Hm; [done|]. by apply IH, map_set_ordered. Qed.

Lemma find_foldl_set l k : forall m, ordered l -> ordered m ->
  map_find k (foldl (fun m e => map_set e.1 e.2 m) m l) =
  match cfind (canon k) l with Some v => Some v | None => map_find k m end.
Proof.
  induction l as [|[x v] l IH]; intros m Hl Hm; [done|]. cbn [foldl cfind fst snd].
  pose proof Hl as [Hl' Hx]%StronglySorted_inv. rewrite IH, map_find_set by (done || by apply map_set_ordered).
  case_decide as E; [|done]. rewrite cfind_None; [done|]. intros e He Ee. rewrite Forall_forall in Hx.
  specialize (Hx e He). apply less_canon in Hx. simpl in Hx. congruence.
Qed.

Lemma strcasecmp_canon a b : strcasecmp a b = 0 <-> canon a = canon b.
Proof. unfold strcasecmp. rewrite casecmp_lexc. apply (lexc_eq (canon a) (canon b)); apply canon_pos. Qed.

Lemma others_ordered m : ordered m -> ordered (others m).
Proof.
  unfold others. induction 1 as [|e l Hl IH He]; [constructor|]. cbn [filter list_filter]. case_decide; [|done].
  constructor; [done|]. rewrite Forall_forall in He |- *. intros x [_ Hx]%list_elem_of_filter. auto.
Qed.

Lemma cfind_others m k : canon k <> canon "Connection" -> cfind (canon k) (others m) = cfind (canon k) m.
Proof.
  intros Hk. unfold others. induction m as [|[x v] l IH]; [done|]. cbn [filter list_filter].
  case_decide as E; cbn [cfind]; [case_decide; [done|exact IH]|]. simpl in E. rewrite decide_False; [exact IH|].
  destruct (decide (strcasecmp x "Connection" = 0)) as [E'|]; [|tauto]. apply strcasecmp_canon in E'. congruence.
Qed.
Lemma cfind_connection m : cfind (canon "Connection") (others m) = None.
Proof. apply cfind_None. intros e [He _]%list_elem_of_filter E. by apply He, strcasecmp_canon. Qed.

Lemma cfind_body_length body k :
  cfind (canon k) (body_length body) =
  if decide (body <> "" /\ canon k = canon "Content-Length") then Some (dec (Z.of_nat (String.length body))) else None.
Proof. unfold body_length. case_bool_decide; cbn [cfind]; repeat case_decide; try done; naive_solver. Qed.
Lemma body_length_ordered body : ordered (body_length body).
Proof. unfold body_length. case_bool_decide; repeat constructor. Qed.

(** The value of the last line with a name, spelled anyhow. *)
Definition last_value (key : string) (l : list (string * string)) : option string :=
  foldl (fun o e => if decide (canon e.1 = canon key) then Some e.2 else o) None l.
Lemma last_value_from key l : forall o,
  foldl (fun o e => if decide (canon e.1 = canon key) then Some e.2 else o) o l =
  match last_value key l with Some v => Some v | None => o end.
Proof.
  unfold last_value. induction l as [|e l IH]; intros o; [done|]. cbn [foldl].
  rewrite IH, (IH (if decide _ then _ else _)). by case_decide; destruct (foldl _ None l).
Qed.
Lemma last_value_cons key e l :
  last_value key (e :: l) =
  match last_value key l with Some v => Some v | None => if decide (canon e.1 = canon key) then Some e.2 else None end.
Proof. exact (last_value_from key l _). Qed.
Lemma find_foldl_last l k : forall m, ordered m ->
  map_find k (foldl (fun m e => map_set e.1 e.2 m) m l) =
  match last_value k l with Some v => Some v | None => map_find k m end.
Proof.
  induction l as [|e l IH]; intros m Hm; [done|]. cbn [foldl].
  rewrite IH, map_find_set by (done || by apply map_set_ordered). rewrite last_value_cons.
  destruct (last_value k l); [done|]. by case_decide.
Qed.
Lemma parsed_find g key : map_find key (m_headers (parsed g)) = last_value key (snd <$> g_lines g).
Proof.
  unfold parsed. rewrite add_headers. cbn [m_headers]. rewrite find_foldl_last by constructor. by destruct (last_value _ _).
Qed.
Lemma parsed_line g :
  m_method (parsed g) = g_method g /\ m_version (parsed g) = g_version g /\ m_path (parsed g) = g_path g /\
  m_query (parsed g) = g_query g /\ m_fragment (parsed g) = g_fragment g /\ m_close (parsed g) = true /\
  m_body (parsed g) = "".
Proof. unfold parsed. by rewrite add_headers. Qed.

(** Reading a header of the request that has been read. *)
Lemma reads_as_find r d key : ordered (m_headers r) -> m_headers d = [] ->
  map_find key (m_headers (reads_as r d)) =
  if decide (m_body r <> "" /\ canon key = canon "Content-Length") then Some (dec (Z.of_nat (String.length (m_body r))))
  else if decide (canon key = canon "Connection") then Some (snd (connection (m_close r)))
  else map_find key (m_headers r).
Proof.
  intros Ho Ed. unfold reads_as. rewrite !add_headers. cbn [m_headers].
  change (m_headers (set_version _ _)) with (m_headers d). rewrite Ed.
  pose proof (others_ordered _ Ho) as Ho'. assert (ordered [connection (m_close r)]) as Hc by repeat constructor.
  pose proof (body_length_ordered (m_body r)) as Hb. assert (ordered []) as Hn by constructor.
  rewrite !find_foldl_set by auto using foldl_set_ordered. cbn [map_find].
  rewrite map_find_cfind, cfind_body_length by done.
  case_decide as E1; [done|]. unfold connection at 1. cbn [cfind].
  rewrite (decide_ext (canon "Connection" = canon key) (canon key = canon "Connection")) by done.
  case_decide as E2; [by rewrite E2, cfind_connection|]. rewrite cfind_others by done. by destruct (cfind _ _).
Qed.
Lemma reads_as_getHeader r d key def : ordered (m_headers r) -> m_headers d = [] ->
  getHeader key def (reads_as r d) =
  if decide (m_body r <> "" /\ canon key = canon "Content-Length") then dec (Z.of_nat (String.length (m_body r)))
  else if decide (canon key = canon "Connection") then snd (connection (m_close r))
  else getHeader key def r.
Proof. intros Ho Ed. unfold getHeader, get_or. rewrite reads_as_find by done. by repeat case_decide. Qed.

Lemma reads_as_line r d :
  m_method (reads_as r d) = m_method r /\ m_version (reads_as r d) = m_version r /\ m_path (reads_as r d) = m_path r /\
  m_query (reads_as r d) = m_query r /\ m_fragment (reads_as r d) = m_fragment r /\
  m_close (reads_as r d) = m_close d /\ m_body (reads_as r d) = m_body d.
Proof. unfold reads_as. by rewrite !add_headers. Qed.

(** The parser on the text of a request. *)
Lemma execute_dump r q slack len :
  printable r -> len = Z.of_nat (String.length (dump_request r)) -> len < 2 ^ 31 ->
  Forall (fun b => 0 <= b < 256) slack -> (11 <= length slack)%nat ->
  exists mem' q',
    execute (bytes_of (dump_request r) ++ slack) len (new_HttpRequestParser q) =
      Ok (len - Z.of_nat (String.length (m_body r)), mem')
         (RequestParser 0 (reads_as r (new_HttpRequest 17 true)) q') /\
    cs q' = 348 /\ take (String.length (m_body r)) mem' = bytes_of (m_body r).
Proof.
  intros Hr%printable_message El Hlen Hs Hsl. rewrite <- length_bytes_of, dump_bytes in El.
  destruct (execute_message (message_of r) q slack len Hr El Hlen Hs Hsl) as (mem' & q' & E & Hcs & Ht & _).
  exists mem', q'. rewrite dump_bytes, <- parsed_reads_as, <- (length_bytes_of (m_body r)). done.
Qed.

(** C3: a request that is printed and parsed comes back: for every request the program can build with a
    method of the table other than M-SEARCH, version 1.0 or 1.1, an absolute path that does not begin
    with two slashes, path, query and fragment of the characters of RFC 3986 and percent-encoded bytes,
    and header names that are tokens, header values without leading blanks, NUL, CR, LF and DEL (a
    leading blank is dropped by the parser), [execute] of a fresh parser on the text of [dump], with
    eleven bytes behind it in the block, stops right behind the head, finished and without error, with
    the same method, version, path, query and fragment, every header under every spelling of its name
    (Connection and Content-Length as [dump] wrote them), and the body at the front of the block. *)
Theorem request_roundtrip (r : HttpRequest) (q : http_parser) (slack : list Z) (len : Z) :
  built r -> printable r ->
  len = Z.of_nat (String.length (dump_request r)) -> len < 2 ^ 31 ->
  Forall (fun b => 0 <= b < 256) slack -> (11 <= length slack)%nat ->
  exists mem' s',
    execute (bytes_of (dump_request r) ++ slack) len (new_HttpRequestParser q) =
      Ok (len - Z.of_nat (String.length (m_body r)), mem') s' /\
    isFinished s' = 1 /\ hasError s' = false /\
    take (String.length (m_body r)) mem' = bytes_of (m_body r) /\
    m_method (m_data s') = m_method r /\ m_version (m_data s') = m_version r /\ m_path (m_data s') = m_path r /\
    m_query (m_data s') = m_query r /\ m_fragment (m_data s') = m_fragment r /\ m_body (m_data s') = "" /\
    forall key def, getHeader key def (m_data s') =
      if decide (m_body r <> "" /\ canon key = canon "Content-Length") then dec (Z.of_nat (String.length (m_body r)))
      else if decide (canon key = canon "Connection") then (if m_close r then "close" else "keep-alive")
      else getHeader key def r.
Proof.
  intros (Ho & _ & _)%built_wf Hr El Hlen Hs Hsl.
  destruct (execute_dump r q slack len Hr El Hlen Hs Hsl) as (mem' & q' & E & Hcs & Hb).
  eexists _, _. split; [exact E|]. destruct (reads_as_line r (new_HttpRequest 17 true)) as (? & ? & ? & ? & ? & _ & ?).
  unfold isFinished, hasError, http_parser_finish, http_parser_is_finished, http_parser_has_error. cbn [m_parser m_error m_data].
  rewrite Hcs. split_and!; try done. intros key def. by rewrite reads_as_getHeader.
Qed.

Definition ex_request : HttpRequest :=
  set_body "hi" (setHeader "Host" "a.b:80" (set_fragment "top" (set_query "x=%31&y=2" (set_path "/a%20/b.html"
    (set_method POST (new_HttpRequest 17 false)))))).

Lemma request_roundtrip_witness :
  exists mem' s',
    execute (bytes_of (dump_request ex_request) ++ replicate 11 0) 102 (new_HttpRequestParser ex_memory) = Ok (100, mem') s' /\
    m_path (m_data s') = "/a%20/b.html" /\ getHeader "HOST" "" (m_data s') = "a.b:80".
Proof.
  destruct (request_roundtrip ex_request ex_memory (replicate 11 0) 102)
    as (mem' & s' & H1 & _ & _ & _ & _ & _ & H2 & _ & _ & _ & H3).
  - repeat constructor.
  - constructor; try (by vm_compute); [by right|]. repeat constructor; by vm_compute.
  - by vm_compute.
  - lia.
  - repeat constructor; lia.
  - simpl. lia.
  - exists mem', s'. split; [exact H1|]. split; [exact H2|]. rewrite H3. by vm_compute.
Defined.

(** ** Behaviour that is not intended *)

Definition text_of (l : list string) : string := foldr (fun x y => x +:+ CRLF +:+ y) "" l.

(** A request that arrives in two pieces, cut inside its path: the offset of the mark is reset but
    the bytes before it are gone, and the parser has only the second part of the path. *)
Definition first_piece : list Z := bytes_of "GET /index".
Definition second_piece : list Z := bytes_of (text_of [".html HTTP/1.1"; ""]).
Example split_path_truncated :
  match execute (first_piece ++ replicate 11 0) 10 (new_HttpRequestParser ex_memory) with
  | Ok (n, _) s =>
    n = 10 /\
    match execute (second_piece ++ replicate 11 0) (Z.of_nat (length second_piece)) s with
    | Ok _ s' => isFinished s' = 1 /\ hasError s' = false /\ m_path (m_data s') = ".html"
    | _ => False
    end
  | _ => False
  end.
Proof. by vm_compute. Qed.

(** Cut inside its query, the length is computed from an offset of the first piece and wraps around. *)
Definition first_query : list Z := bytes_of "GET /index.html?a=1".
Definition second_query : list Z := bytes_of (text_of ["&b=2 HTTP/1.1"; ""]).
Example split_query_throws :
  match execute (first_query ++ replicate 11 0) (Z.of_nat (length first_query)) (new_HttpRequestParser ex_memory) with
  | Ok _ s =>
    match execute (second_query ++ replicate 11 0) (Z.of_nat (length second_query)) s with
    | Throw e _ => e = length_error
    | _ => False
    end
  | _ => False
  end.
Proof. by vm_compute. Qed.

(** The grammar takes control characters for parts of a header name: [0 - 31] is a difference of
    two sets in Ragel, not a range. *)
Example control_in_name :
  match parse (text_of ["GET / HTTP/1.1"; String "027" "x:y"; ""] +:+ "12345678901") with
  | Ok _ s => isFinished s = 1 /\ hasError s = false
  | _ => False
  end.
Proof. by vm_compute. Qed.

End HttpRoundtrip.
