(* ===== verification/HttpClientParser.v ===== *)
(** * The response parser's automaton: src/src/http/httpclient_parser.rl.cpp

    The machine that Ragel made of the grammar in httpclient_parser.rl, in the
    form of the request parser's. *)

From stdpp Require Import prelude.
From Stdlib Require Import ZArith.
From S2P Require Import Prelude Http11Parser.

Module HttpClientParser.
Import Http11Parser(label(..), switch, range).
Local Open Scope Z_scope.

(** The actions of the grammar, by their names there. *)
Inductive action :=
  | mark | start_field | write_field | start_value | write_content_len | write_connection_close | write_value
  | reason_phrase | status_code | http_version | chunk_size | trans_chunked | done_.

Definition httpclient_parser_start : Z := 1.
Definition httpclient_parser_first_final : Z := 120.
Definition httpclient_parser_error : Z := 0.

Definition case_1 (c : Z) : label :=
  if c =? 72 then tr 2
  else if c <? 65 then
    (if range 48 c 57 then tr 0 else st 0)
  else if 70 <? c then
    (if range 97 c 102 then tr 0 else st 0)
  else tr 0.
Definition case_2 (c : Z) : label :=
  switch c [(10, tr 3); (13, tr 4); (59, tr 6)]
    (if c <? 65 then
       (if range 48 c 57 then st 2 else st 0)
     else if 70 <? c then
       (if range 97 c 102 then st 2 else st 0)
     else st 2).
Definition case_3 (c : Z) : label :=
  if c =? 10 then tr 7 else st 0.
Definition case_4 (c : Z) : label :=
  switch c [(33, tr 8); (124, tr 8); (126, tr 8)]
    (if c <? 45 then
       (if 39 <? c then
          (if range 42 c 43 then tr 8 else st 0)
        else if 35 <=? c then tr 8 else st 0)
     else if 46 <? c then
       (if c <? 65 then
          (if range 48 c 57 then tr 8 else st 0)
        else if 90 <? c then
          (if range 94 c 122 then tr 8 else st 0)
        else tr 8)
     else tr 8).
Definition case_5 (c : Z) : label :=
  switch c [(10, tr 9); (13, tr 10); (33, st 5); (59, tr 12); (61, tr 13); (124, st 5); (126, st 5)]
    (if c <? 45 then
       (if 39 <? c then
          (if range 42 c 43 then st 5 else st 0)
        else if 35 <=? c then st 5 else st 0)
     else if 46 <? c then
       (if c <? 65 then
          (if range 48 c 57 then st 5 else st 0)
        else if 90 <? c then
          (if range 94 c 122 then st 5 else st 0)
        else st 5)
     else st 5).
Definition case_6 (c : Z) : label :=
  switch c [(33, tr 14); (124, tr 14); (126, tr 14)]
    (if c <? 45 then
       (if 39 <? c then
          (if range 42 c 43 then tr 14 else st 0)
        else if 35 <=? c then tr 14 else st 0)
     else if 46 <? c then
       (if c <? 65 then
          (if range 48 c 57 then tr 14 else st 0)
        else if 90 <? c then
          (if range 94 c 122 then tr 14 else st 0)
        else tr 14)
     else tr 14).
Definition case_7 (c : Z) : label :=
  switch c [(10, tr 15); (13, tr 16); (33, st 7); (59, tr 18); (124, st 7); (126, st 7)]
    (if c <? 45 then
       (if 39 <? c then
          (if range 42 c 43 then st 7 else st 0)
        else if 35 <=? c then st 7 else st 0)
     else if 46 <? c then
       (if c <? 65 then
          (if range 48 c 57 then st 7 else st 0)
        else if 90 <? c then
          (if range 94 c 122 then st 7 else st 0)
        else st 7)
     else st 7).
Definition case_8 (c : Z) : label :=
  if c =? 84 then st 9 else st 0.
Definition case_9 (c : Z) : label :=
  if c =? 84 then st 10 else st 0.
Definition case_10 (c : Z) : label :=
  if c =? 80 then st 11 else st 0.
Definition case_11 (c : Z) : label :=
  if c =? 47 then st 12 else st 0.
Definition case_12 (c : Z) : label :=
  if range 48 c 57 then st 13 else st 0.
Definition case_13 (c : Z) : label :=
  if c =? 46 then st 14
  else if range 48 c 57 then st 13 else st 0.
Definition case_14 (c : Z) : label :=
  if range 48 c 57 then st 15 else st 0.
Definition case_15 (c : Z) : label :=
  if c =? 32 then tr 26
  else if range 48 c 57 then st 15 else st 0.
Definition case_16 (c : Z) : label :=
  if range 48 c 57 then tr 27 else st 0.
Definition case_17 (c : Z) : label :=
  if c =? 32 then tr 28
  else if range 48 c 57 then st 17 else st 0.
Definition case_18 (c : Z) : label :=
  if c =? 10 then st 0 else tr 30.
Definition case_19 (c : Z) : label :=
  switch c [(10, tr 32); (13, tr 33)] (st 19).
Definition case_20 (c : Z) : label :=
  switch c [(10, tr 7); (13, st 3); (33, tr 35); (67, tr 36); (84, tr 37); (99, tr 36); (116, tr 37);
    (124, tr 35); (126, tr 35)]
    (if c <? 45 then
       (if 39 <? c then
          (if range 42 c 43 then tr 35 else st 0)
        else if 35 <=? c then tr 35 else st 0)
     else if 46 <? c then
       (if c <? 65 then
          (if range 48 c 57 then tr 35 else st 0)
        else if 90 <? c then
          (if range 94 c 122 then tr 35 else st 0)
        else tr 35)
     else tr 35).
Definition case_21 (c : Z) : label :=
  switch c [(33, st 21); (58, tr 39); (124, st 21); (126, st 21)]
    (if c <? 45 then
       (if 39 <? c then
          (if range 42 c 43 then st 21 else st 0)
        else if 35 <=? c then st 21 else st 0)
     else if 46 <? c then
       (if c <? 65 then
          (if range 48 c 57 then st 21 else st 0)
        else if 90 <? c then
          (if range 94 c 122 then st 21 else st 0)
        else st 21)
     else st 21).
Definition case_22 (c : Z) : label :=
  switch c [(10, tr 42); (13, tr 43); (32, tr 41)]
    (if range 9 c 12 then tr 41 else tr 40).
Definition case_23 (c : Z) : label :=
  switch c [(10, tr 45); (13, tr 46)] (st 23).
Definition case_24 (c : Z) : label :=
  if c =? 10 then st 20 else st 0.
Definition case_25 (c : Z) : label :=
  switch c [(33, st 21); (58, tr 39); (79, st 26); (111, st 26); (124, st 21); (126, st 21)]
    (if c <? 45 then
       (if 39 <? c then
          (if range 42 c 43 then st 21 else st 0)
        else if 35 <=? c then st 21 else st 0)
     else if 46 <? c then
       (if c <? 65 then
          (if range 48 c 57 then st 21 else st 0)
        else if 90 <? c then
          (if range 94 c 122 then st 21 else st 0)
        else st 21)
     else st 21).
Definition case_26 (c : Z) : label :=
  switch c [(33, st 21); (58, tr 39); (78, st 27); (110, st 27); (124, st 21); (126, st 21)]
    (if c <? 45 then
       (if 39 <? c then
          (if range 42 c 43 then st 21 else st 0)
        else if 35 <=? c then st 21 else st 0)
     else if 46 <? c then
       (if c <? 65 then
          (if range 48 c 57 then st 21 else st 0)
        else if 90 <? c then
          (if range 94 c 122 then st 21 else st 0)
        else st 21)
     else st 21).
Definition case_27 (c : Z) : label :=
  switch c [(33, st 21); (58, tr 39); (78, st 28); (84, st 101); (110, st 28); (116, st 101);
    (124, st 21); (126, st 21)]
    (if c <? 45 then
       (if 39 <? c then
          (if range 42 c 43 then st 21 else st 0)
        else if 35 <=? c then st 21 else st 0)
     else if 46 <? c then
       (if c <? 65 then
          (if range 48 c 57 then st 21 else st 0)
        else if 90 <? c then
          (if range 94 c 122 then st 21 else st 0)
        else st 21)
     else st 21).
Definition case_28 (c : Z) : label :=
  switch c [(33, st 21); (58, tr 39); (69, st 29); (101, st 29); (124, st 21); (126, st 21)]
    (if c <? 45 then
       (if 39 <? c then
          (if range 42 c 43 then st 21 else st 0)
        else if 35 <=? c then st 21 else st 0)
     else if 46 <? c then
       (if c <? 65 then
          (if range 48 c 57 then st 21 else st 0)
        else if 90 <? c then
          (if range 94 c 122 then st 21 else st 0)
        else st 21)
     else st 21).
Definition case_29 (c : Z) : label :=
  switch c [(33, st 21); (58, tr 39); (67, st 30); (99, st 30); (124, st 21); (126, st 21)]
    (if c <? 45 then
       (if 39 <? c then
          (if range 42 c 43 then st 21 else st 0)
        else if 35 <=? c then st 21 else st 0)
     else if 46 <? c then
       (if c <? 65 then
          (if range 48 c 57 then st 21 else st 0)
        else if 90 <? c then
          (if range 94 c 122 then st 21 else st 0)
        else st 21)
     else st 21).
Definition case_30 (c : Z) : label :=
  switch c [(33, st 21); (58, tr 39); (84, st 31); (116, st 31); (124, st 21); (126, st 21)]
    (if c <? 45 then
       (if 39 <? c then
          (if range 42 c 43 then st 21 else st 0)
        else if 35 <=? c then st 21 else st 0)
     else if 46 <? c then
       (if c <? 65 then
          (if range 48 c 57 then st 21 else st 0)
        else if 90 <? c then
          (if range 94 c 122 then st 21 else st 0)
        else st 21)
     else st 21).
Definition case_31 (c : Z) : label :=
  switch c [(33, st 21); (58, tr 39); (73, st 32); (105, st 32); (124, st 21); (126, st 21)]
    (if c <? 45 then
       (if 39 <? c then
          (if range 42 c 43 then st 21 else st 0)
        else if 35 <=? c then st 21 else st 0)
     else if 46 <? c then
       (if c <? 65 then
          (if range 48 c 57 then st 21 else st 0)
        else if 90 <? c then
          (if range 94 c 122 then st 21 else st 0)
        else st 21)
     else st 21).
Definition case_32 (c : Z) : label :=
  switch c [(33, st 21); (58, tr 39); (79, st 33); (111, st 33); (124, st 21); (126, st 21)]
    (if c <? 45 then
       (if 39 <? c then
          (if range 42 c 43 then st 21 else st 0)
        else if 35 <=? c then st 21 else st 0)
     else if 46 <? c then
       (if c <? 65 then
          (if range 48 c 57 then st 21 else st 0)
        else if 90 <? c then
          (if range 94 c 122 then st 21 else st 0)
        else st 21)
     else st 21).
Definition case_33 (c : Z) : label :=
  switch c [(33, st 21); (58, tr 39); (78, st 34); (110, st 34); (124, st 21); (126, st 21)]
    (if c <? 45 then
       (if 39 <? c then
          (if range 42 c 43 then st 21 else st 0)
        else if 35 <=? c then st 21 else st 0)
     else if 46 <? c then
       (if c <? 65 then
          (if range 48 c 57 then st 21 else st 0)
        else if 90 <? c then
          (if range 94 c 122 then st 21 else st 0)
        else st 21)
     else st 21).
Definition case_34 (c : Z) : label :=
  switch c [(33, st 21); (58, tr 58); (124, st 21); (126, st 21)]
    (if c <? 45 then
       (if 39 <? c then
          (if range 42 c 43 then st 21 else st 0)
        else if 35 <=? c then st 21 else st 0)
     else if 46 <? c then
       (if c <? 65 then
          (if range 48 c 57 then st 21 else st 0)
        else if 90 <? c then
          (if range 94 c 122 then st 21 else st 0)
        else st 21)
     else st 21).
Definition case_35 (c : Z) : label :=
  switch c [(10, tr 60); (13, tr 61); (32, tr 59); (67, tr 62); (99, tr 62)]
    (if range 9 c 12 then tr 59 else tr 40).
Definition case_36 (c : Z) : label :=
  switch c [(10, tr 64); (13, st 89); (32, st 37); (33, tr 35); (67, tr 66); (84, tr 37); (99, tr 66);
    (116, tr 37); (124, tr 35); (126, tr 35)]
    (if c <? 45 then
       (if c <? 35 then
          (if range 9 c 12 then st 37 else st 0)
        else if 39 <? c then
          (if range 42 c 43 then tr 35 else st 0)
        else tr 35)
     else if 46 <? c then
       (if c <? 65 then
          (if range 48 c 57 then tr 35 else st 0)
        else if 90 <? c then
          (if range 94 c 122 then tr 35 else st 0)
        else tr 35)
     else tr 35).
Definition case_37 (c : Z) : label :=
  switch c [(32, st 37); (67, st 38); (99, st 38)]
    (if range 9 c 13 then st 37 else st 0).
Definition case_38 (c : Z) : label :=
  switch c [(76, st 39); (108, st 39)] (st 0).
Definition case_39 (c : Z) : label :=
  switch c [(79, st 40); (111, st 40)] (st 0).
Definition case_40 (c : Z) : label :=
  switch c [(83, st 41); (115, st 41)] (st 0).
Definition case_41 (c : Z) : label :=
  switch c [(69, st 42); (101, st 42)] (st 0).
Definition case_42 (c : Z) : label :=
  switch c [(10, st 43); (13, st 88)] (st 0).
Definition case_43 (c : Z) : label :=
  switch c [(10, tr 74); (13, tr 75); (33, tr 76); (67, tr 77); (84, tr 78); (99, tr 77); (116, tr 78);
    (124, tr 76); (126, tr 76)]
    (if c <? 45 then
       (if 39 <? c then
          (if range 42 c 43 then tr 76 else st 0)
        else if 35 <=? c then tr 76 else st 0)
     else if 46 <? c then
       (if c <? 65 then
          (if range 48 c 57 then tr 76 else st 0)
        else if 90 <? c then
          (if range 94 c 122 then tr 76 else st 0)
        else tr 76)
     else tr 76).
Definition case_44 (c : Z) : label :=
  switch c [(33, st 21); (58, tr 39); (82, st 45); (114, st 45); (124, st 21); (126, st 21)]
    (if c <? 45 then
       (if 39 <? c then
          (if range 42 c 43 then st 21 else st 0)
        else if 35 <=? c then st 21 else st 0)
     else if 46 <? c then
       (if c <? 65 then
          (if range 48 c 57 then st 21 else st 0)
        else if 90 <? c then
          (if range 94 c 122 then st 21 else st 0)
        else st 21)
     else st 21).
Definition case_45 (c : Z) : label :=
  switch c [(33, st 21); (58, tr 39); (65, st 46); (97, st 46); (124, st 21); (126, st 21)]
    (if c <? 45 then
       (if 39 <? c then
          (if range 42 c 43 then st 21 else st 0)
        else if 35 <=? c then st 21 else st 0)
     else if 46 <? c then
       (if c <? 66 then
          (if range 48 c 57 then st 21 else st 0)
        else if 90 <? c then
          (if range 94 c 122 then st 21 else st 0)
        else st 21)
     else st 21).
Definition case_46 (c : Z) : label :=
  switch c [(33, st 21); (58, tr 39); (78, st 47); (110, st 47); (124, st 21); (126, st 21)]
    (if c <? 45 then
       (if 39 <? c then
          (if range 42 c 43 then st 21 else st 0)
        else if 35 <=? c then st 21 else st 0)
     else if 46 <? c then
       (if c <? 65 then
          (if range 48 c 57 then st 21 else st 0)
        else if 90 <? c then
          (if range 94 c 122 then st 21 else st 0)
        else st 21)
     else st 21).
Definition case_47 (c : Z) : label :=
  switch c [(33, st 21); (58, tr 39); (83, st 48); (115, st 48); (124, st 21); (126, st 21)]
    (if c <? 45 then
       (if 39 <? c then
          (if range 42 c 43 then st 21 else st 0)
        else if 35 <=? c then st 21 else st 0)
     else if 46 <? c then
       (if c <? 65 then
          (if range 48 c 57 then st 21 else st 0)
        else if 90 <? c then
          (if range 94 c 122 then st 21 else st 0)
        else st 21)
     else st 21).
Definition case_48 (c : Z) : label :=
  switch c [(33, st 21); (58, tr 39); (70, st 49); (102, st 49); (124, st 21); (126, st 21)]
    (if c <? 45 then
       (if 39 <? c then
          (if range 42 c 43 then st 21 else st 0)
        else if 35 <=? c then st 21 else st 0)
     else if 46 <? c then
       (if c <? 65 then
          (if range 48 c 57 then st 21 else st 0)
        else if 90 <? c then
          (if range 94 c 122 then st 21 else st 0)
        else st 21)
     else st 21).
Definition case_49 (c : Z) : label :=
  switch c [(33, st 21); (58, tr 39); (69, st 50); (101, st 50); (124, st 21); (126, st 21)]
    (if c <? 45 then
       (if 39 <? c then
          (if range 42 c 43 then st 21 else st 0)
        else if 35 <=? c then st 21 else st 0)
     else if 46 <? c then
       (if c <? 65 then
          (if range 48 c 57 then st 21 else st 0)
        else if 90 <? c then
          (if range 94 c 122 then st 21 else st 0)
        else st 21)
     else st 21).
Definition case_50 (c : Z) : label :=
  switch c [(33, st 21); (58, tr 39); (82, st 51); (114, st 51); (124, st 21); (126, st 21)]
    (if c <? 45 then
       (if 39 <? c then
          (if range 42 c 43 then st 21 else st 0)
        else if 35 <=? c then st 21 else st 0)
     else if 46 <? c then
       (if c <? 65 then
          (if range 48 c 57 then st 21 else st 0)
        else if 90 <? c then
          (if range 94 c 122 then st 21 else st 0)
        else st 21)
     else st 21).
Definition case_51 (c : Z) : label :=
  switch c [(33, st 21); (45, st 52); (46, st 21); (58, tr 39); (124, st 21); (126, st 21)]
    (if c <? 48 then
       (if 39 <? c then
          (if range 42 c 43 then st 21 else st 0)
        else if 35 <=? c then st 21 else st 0)
     else if 57 <? c then
       (if 90 <? c then
          (if range 94 c 122 then st 21 else st 0)
        else if 65 <=? c then st 21 else st 0)
     else st 21).
Definition case_52 (c : Z) : label :=
  switch c [(33, st 21); (58, tr 39); (69, st 53); (101, st 53); (124, st 21); (126, st 21)]
    (if c <? 45 then
       (if 39 <? c then
          (if range 42 c 43 then st 21 else st 0)
        else if 35 <=? c then st 21 else st 0)
     else if 46 <? c then
       (if c <? 65 then
          (if range 48 c 57 then st 21 else st 0)
        else if 90 <? c then
          (if range 94 c 122 then st 21 else st 0)
        else st 21)
     else st 21).
Definition case_53 (c : Z) : label :=
  switch c [(33, st 21); (58, tr 39); (78, st 54); (110, st 54); (124, st 21); (126, st 21)]
    (if c <? 45 then
       (if 39 <? c then
          (if range 42 c 43 then st 21 else st 0)
        else if 35 <=? c then st 21 else st 0)
     else if 46 <? c then
       (if c <? 65 then
          (if range 48 c 57 then st 21 else st 0)
        else if 90 <? c then
          (if range 94 c 122 then st 21 else st 0)
        else st 21)
     else st 21).
Definition case_54 (c : Z) : label :=
  switch c [(33, st 21); (58, tr 39); (67, st 55); (99, st 55); (124, st 21); (126, st 21)]
    (if c <? 45 then
       (if 39 <? c then
          (if range 42 c 43 then st 21 else st 0)
        else if 35 <=? c then st 21 else st 0)
     else if 46 <? c then
       (if c <? 65 then
          (if range 48 c 57 then st 21 else st 0)
        else if 90 <? c then
          (if range 94 c 122 then st 21 else st 0)
        else st 21)
     else st 21).
Definition case_55 (c : Z) : label :=
  switch c [(33, st 21); (58, tr 39); (79, st 56); (111, st 56); (124, st 21); (126, st 21)]
    (if c <? 45 then
       (if 39 <? c then
          (if range 42 c 43 then st 21 else st 0)
        else if 35 <=? c then st 21 else st 0)
     else if 46 <? c then
       (if c <? 65 then
          (if range 48 c 57 then st 21 else st 0)
        else if 90 <? c then
          (if range 94 c 122 then st 21 else st 0)
        else st 21)
     else st 21).
Definition case_56 (c : Z) : label :=
  switch c [(33, st 21); (58, tr 39); (68, st 57); (100, st 57); (124, st 21); (126, st 21)]
    (if c <? 45 then
       (if 39 <? c then
          (if range 42 c 43 then st 21 else st 0)
        else if 35 <=? c then st 21 else st 0)
     else if 46 <? c then
       (if c <? 65 then
          (if range 48 c 57 then st 21 else st 0)
        else if 90 <? c then
          (if range 94 c 122 then st 21 else st 0)
        else st 21)
     else st 21).
Definition case_57 (c : Z) : label :=
  switch c [(33, st 21); (58, tr 39); (73, st 58); (105, st 58); (124, st 21); (126, st 21)]
    (if c <? 45 then
       (if 39 <? c then
          (if range 42 c 43 then st 21 else st 0)
        else if 35 <=? c then st 21 else st 0)
     else if 46 <? c then
       (if c <? 65 then
          (if range 48 c 57 then st 21 else st 0)
        else if 90 <? c then
          (if range 94 c 122 then st 21 else st 0)
        else st 21)
     else st 21).
Definition case_58 (c : Z) : label :=
  switch c [(33, st 21); (58, tr 39); (78, st 59); (110, st 59); (124, st 21); (126, st 21)]
    (if c <? 45 then
       (if 39 <? c then
          (if range 42 c 43 then st 21 else st 0)
        else if 35 <=? c then st 21 else st 0)
     else if 46 <? c then
       (if c <? 65 then
          (if range 48 c 57 then st 21 else st 0)
        else if 90 <? c then
          (if range 94 c 122 then st 21 else st 0)
        else st 21)
     else st 21).
Definition case_59 (c : Z) : label :=
  switch c [(33, st 21); (58, tr 39); (71, st 60); (103, st 60); (124, st 21); (126, st 21)]
    (if c <? 45 then
       (if 39 <? c then
          (if range 42 c 43 then st 21 else st 0)
        else if 35 <=? c then st 21 else st 0)
     else if 46 <? c then
       (if c <? 65 then
          (if range 48 c 57 then st 21 else st 0)
        else if 90 <? c then
          (if range 94 c 122 then st 21 else st 0)
        else st 21)
     else st 21).
Definition case_60 (c : Z) : label :=
  switch c [(33, st 21); (58, tr 95); (124, st 21); (126, st 21)]
    (if c <? 45 then
       (if 39 <? c then
          (if range 42 c 43 then st 21 else st 0)
        else if 35 <=? c then st 21 else st 0)
     else if 46 <? c then
       (if c <? 65 then
          (if range 48 c 57 then st 21 else st 0)
        else if 90 <? c then
          (if range 94 c 122 then st 21 else st 0)
        else st 21)
     else st 21).
Definition case_61 (c : Z) : label :=
  switch c [(10, tr 97); (13, tr 98); (32, tr 96); (67, tr 99); (99, tr 99)]
    (if range 9 c 12 then tr 96 else tr 40).
Definition case_62 (c : Z) : label :=
  switch c [(10, tr 101); (13, st 72); (32, st 63); (33, tr 35); (67, tr 103); (84, tr 37);
    (99, tr 103); (116, tr 37); (124, tr 35); (126, tr 35)]
    (if c <? 45 then
       (if c <? 35 then
          (if range 9 c 12 then st 63 else st 0)
        else if 39 <? c then
          (if range 42 c 43 then tr 35 else st 0)
        else tr 35)
     else if 46 <? c then
       (if c <? 65 then
          (if range 48 c 57 then tr 35 else st 0)
        else if 90 <? c then
          (if range 94 c 122 then tr 35 else st 0)
        else tr 35)
     else tr 35).
Definition case_63 (c : Z) : label :=
  switch c [(32, st 63); (67, tr 104); (99, tr 104)]
    (if range 9 c 13 then st 63 else st 0).
Definition case_64 (c : Z) : label :=
  switch c [(72, st 65); (104, st 65)] (st 0).
Definition case_65 (c : Z) : label :=
  switch c [(85, st 66); (117, st 66)] (st 0).
Definition case_66 (c : Z) : label :=
  switch c [(78, st 67); (110, st 67)] (st 0).
Definition case_67 (c : Z) : label :=
  switch c [(75, st 68); (107, st 68)] (st 0).
Definition case_68 (c : Z) : label :=
  switch c [(69, st 69); (101, st 69)] (st 0).
Definition case_69 (c : Z) : label :=
  switch c [(68, st 70); (100, st 70)] (st 0).
Definition case_70 (c : Z) : label :=
  switch c [(10, tr 111); (13, tr 112)] (st 0).
Definition case_71 (c : Z) : label :=
  if c =? 10 then tr 113 else st 0.
Definition case_72 (c : Z) : label :=
  switch c [(10, tr 101); (32, st 63); (67, tr 104); (99, tr 104)]
    (if range 9 c 13 then st 63 else st 0).
Definition case_73 (c : Z) : label :=
  switch c [(33, st 21); (58, tr 39); (72, st 74); (79, st 26); (104, st 74); (111, st 26);
    (124, st 21); (126, st 21)]
    (if c <? 45 then
       (if 39 <? c then
          (if range 42 c 43 then st 21 else st 0)
        else if 35 <=? c then st 21 else st 0)
     else if 46 <? c then
       (if c <? 65 then
          (if range 48 c 57 then st 21 else st 0)
        else if 90 <? c then
          (if range 94 c 122 then st 21 else st 0)
        else st 21)
     else st 21).
Definition case_74 (c : Z) : label :=
  switch c [(33, st 21); (58, tr 39); (85, st 75); (117, st 75); (124, st 21); (126, st 21)]
    (if c <? 45 then
       (if 39 <? c then
          (if range 42 c 43 then st 21 else st 0)
        else if 35 <=? c then st 21 else st 0)
     else if 46 <? c then
       (if c <? 65 then
          (if range 48 c 57 then st 21 else st 0)
        else if 90 <? c then
          (if range 94 c 122 then st 21 else st 0)
        else st 21)
     else st 21).
Definition case_75 (c : Z) : label :=
  switch c [(33, st 21); (58, tr 39); (78, st 76); (110, st 76); (124, st 21); (126, st 21)]
    (if c <? 45 then
       (if 39 <? c then
          (if range 42 c 43 then st 21 else st 0)
        else if 35 <=? c then st 21 else st 0)
     else if 46 <? c then
       (if c <? 65 then
          (if range 48 c 57 then st 21 else st 0)
        else if 90 <? c then
          (if range 94 c 122 then st 21 else st 0)
        else st 21)
     else st 21).
Definition case_76 (c : Z) : label :=
  switch c [(33, st 21); (58, tr 39); (75, st 77); (107, st 77); (124, st 21); (126, st 21)]
    (if c <? 45 then
       (if 39 <? c then
          (if range 42 c 43 then st 21 else st 0)
        else if 35 <=? c then st 21 else st 0)
     else if 46 <? c then
       (if c <? 65 then
          (if range 48 c 57 then st 21 else st 0)
        else if 90 <? c then
          (if range 94 c 122 then st 21 else st 0)
        else st 21)
     else st 21).
Definition case_77 (c : Z) : label :=
  switch c [(33, st 21); (58, tr 39); (69, st 78); (101, st 78); (124, st 21); (126, st 21)]
    (if c <? 45 then
       (if 39 <? c then
          (if range 42 c 43 then st 21 else st 0)
        else if 35 <=? c then st 21 else st 0)
     else if 46 <? c then
       (if c <? 65 then
          (if range 48 c 57 then st 21 else st 0)
        else if 90 <? c then
          (if range 94 c 122 then st 21 else st 0)
        else st 21)
     else st 21).
Definition case_78 (c : Z) : label :=
  switch c [(33, st 21); (58, tr 39); (68, st 79); (100, st 79); (124, st 21); (126, st 21)]
    (if c <? 45 then
       (if 39 <? c then
          (if range 42 c 43 then st 21 else st 0)
        else if 35 <=? c then st 21 else st 0)
     else if 46 <? c then
       (if c <? 65 then
          (if range 48 c 57 then st 21 else st 0)
        else if 90 <? c then
          (if range 94 c 122 then st 21 else st 0)
        else st 21)
     else st 21).
Definition case_79 (c : Z) : label :=
  switch c [(10, tr 111); (13, tr 112); (33, st 21); (58, tr 39); (124, st 21); (126, st 21)]
    (if c <? 45 then
       (if 39 <? c then
          (if range 42 c 43 then st 21 else st 0)
        else if 35 <=? c then st 21 else st 0)
     else if 46 <? c then
       (if c <? 65 then
          (if range 48 c 57 then st 21 else st 0)
        else if 90 <? c then
          (if range 94 c 122 then st 21 else st 0)
        else st 21)
     else st 21).
Definition case_80 (c : Z) : label :=
  switch c [(10, st 62); (32, st 63); (67, tr 104); (99, tr 104)]
    (if range 9 c 13 then st 63 else st 0).
Definition case_81 (c : Z) : label :=
  switch c [(10, tr 45); (13, tr 46); (72, st 82); (104, st 82)] (st 23).
Definition case_82 (c : Z) : label :=
  switch c [(10, tr 45); (13, tr 46); (85, st 83); (117, st 83)] (st 23).
Definition case_83 (c : Z) : label :=
  switch c [(10, tr 45); (13, tr 46); (78, st 84); (110, st 84)] (st 23).
Definition case_84 (c : Z) : label :=
  switch c [(10, tr 45); (13, tr 46); (75, st 85); (107, st 85)] (st 23).
Definition case_85 (c : Z) : label :=
  switch c [(10, tr 45); (13, tr 46); (69, st 86); (101, st 86)] (st 23).
Definition case_86 (c : Z) : label :=
  switch c [(10, tr 45); (13, tr 46); (68, st 87); (100, st 87)] (st 23).
Definition case_87 (c : Z) : label :=
  switch c [(10, tr 111); (13, tr 112)] (st 23).
Definition case_88 (c : Z) : label :=
  if c =? 10 then st 43 else st 0.
Definition case_89 (c : Z) : label :=
  switch c [(10, tr 64); (32, st 37); (67, st 38); (99, st 38)]
    (if range 9 c 13 then st 37 else st 0).
Definition case_90 (c : Z) : label :=
  switch c [(33, st 21); (58, tr 39); (76, st 91); (79, st 26); (108, st 91); (111, st 26);
    (124, st 21); (126, st 21)]
    (if c <? 45 then
       (if 39 <? c then
          (if range 42 c 43 then st 21 else st 0)
        else if 35 <=? c then st 21 else st 0)
     else if 46 <? c then
       (if c <? 65 then
          (if range 48 c 57 then st 21 else st 0)
        else if 90 <? c then
          (if range 94 c 122 then st 21 else st 0)
        else st 21)
     else st 21).
Definition case_91 (c : Z) : label :=
  switch c [(33, st 21); (58, tr 39); (79, st 92); (111, st 92); (124, st 21); (126, st 21)]
    (if c <? 45 then
       (if 39 <? c then
          (if range 42 c 43 then st 21 else st 0)
        else if 35 <=? c then st 21 else st 0)
     else if 46 <? c then
       (if c <? 65 then
          (if range 48 c 57 then st 21 else st 0)
        else if 90 <? c then
          (if range 94 c 122 then st 21 else st 0)
        else st 21)
     else st 21).
Definition case_92 (c : Z) : label :=
  switch c [(33, st 21); (58, tr 39); (83, st 93); (115, st 93); (124, st 21); (126, st 21)]
    (if c <? 45 then
       (if 39 <? c then
          (if range 42 c 43 then st 21 else st 0)
        else if 35 <=? c then st 21 else st 0)
     else if 46 <? c then
       (if c <? 65 then
          (if range 48 c 57 then st 21 else st 0)
        else if 90 <? c then
          (if range 94 c 122 then st 21 else st 0)
        else st 21)
     else st 21).
Definition case_93 (c : Z) : label :=
  switch c [(33, st 21); (58, tr 39); (69, st 94); (101, st 94); (124, st 21); (126, st 21)]
    (if c <? 45 then
       (if 39 <? c then
          (if range 42 c 43 then st 21 else st 0)
        else if 35 <=? c then st 21 else st 0)
     else if 46 <? c then
       (if c <? 65 then
          (if range 48 c 57 then st 21 else st 0)
        else if 90 <? c then
          (if range 94 c 122 then st 21 else st 0)
        else st 21)
     else st 21).
Definition case_94 (c : Z) : label :=
  switch c [(10, st 43); (13, st 88); (33, st 21); (58, tr 39); (124, st 21); (126, st 21)]
    (if c <? 45 then
       (if 39 <? c then
          (if range 42 c 43 then st 21 else st 0)
        else if 35 <=? c then st 21 else st 0)
     else if 46 <? c then
       (if c <? 65 then
          (if range 48 c 57 then st 21 else st 0)
        else if 90 <? c then
          (if range 94 c 122 then st 21 else st 0)
        else st 21)
     else st 21).
Definition case_95 (c : Z) : label :=
  switch c [(10, st 36); (32, st 37); (67, st 38); (99, st 38)]
    (if range 9 c 13 then st 37 else st 0).
Definition case_96 (c : Z) : label :=
  switch c [(10, tr 45); (13, tr 46); (76, st 97); (108, st 97)] (st 23).
Definition case_97 (c : Z) : label :=
  switch c [(10, tr 45); (13, tr 46); (79, st 98); (111, st 98)] (st 23).
Definition case_98 (c : Z) : label :=
  switch c [(10, tr 45); (13, tr 46); (83, st 99); (115, st 99)] (st 23).
Definition case_99 (c : Z) : label :=
  switch c [(10, tr 45); (13, tr 46); (69, st 100); (101, st 100)] (st 23).
Definition case_100 (c : Z) : label :=
  switch c [(10, tr 136); (13, tr 137)] (st 23).
Definition case_101 (c : Z) : label :=
  switch c [(33, st 21); (58, tr 39); (69, st 102); (101, st 102); (124, st 21); (126, st 21)]
    (if c <? 45 then
       (if 39 <? c then
          (if range 42 c 43 then st 21 else st 0)
        else if 35 <=? c then st 21 else st 0)
     else if 46 <? c then
       (if c <? 65 then
          (if range 48 c 57 then st 21 else st 0)
        else if 90 <? c then
          (if range 94 c 122 then st 21 else st 0)
        else st 21)
     else st 21).
Definition case_102 (c : Z) : label :=
  switch c [(33, st 21); (58, tr 39); (78, st 103); (110, st 103); (124, st 21); (126, st 21)]
    (if c <? 45 then
       (if 39 <? c then
          (if range 42 c 43 then st 21 else st 0)
        else if 35 <=? c then st 21 else st 0)
     else if 46 <? c then
       (if c <? 65 then
          (if range 48 c 57 then st 21 else st 0)
        else if 90 <? c then
          (if range 94 c 122 then st 21 else st 0)
        else st 21)
     else st 21).
Definition case_103 (c : Z) : label :=
  switch c [(33, st 21); (58, tr 39); (84, st 104); (116, st 104); (124, st 21); (126, st 21)]
    (if c <? 45 then
       (if 39 <? c then
          (if range 42 c 43 then st 21 else st 0)
        else if 35 <=? c then st 21 else st 0)
     else if 46 <? c then
       (if c <? 65 then
          (if range 48 c 57 then st 21 else st 0)
        else if 90 <? c then
          (if range 94 c 122 then st 21 else st 0)
        else st 21)
     else st 21).
Definition case_104 (c : Z) : label :=
  switch c [(33, st 21); (45, st 105); (46, st 21); (58, tr 39); (124, st 21); (126, st 21)]
    (if c <? 48 then
       (if 39 <? c then
          (if range 42 c 43 then st 21 else st 0)
        else if 35 <=? c then st 21 else st 0)
     else if 57 <? c then
       (if 90 <? c then
          (if range 94 c 122 then st 21 else st 0)
        else if 65 <=? c then st 21 else st 0)
     else st 21).
Definition case_105 (c : Z) : label :=
  switch c [(33, st 21); (58, tr 39); (76, st 106); (108, st 106); (124, st 21); (126, st 21)]
    (if c <? 45 then
       (if 39 <? c then
          (if range 42 c 43 then st 21 else st 0)
        else if 35 <=? c then st 21 else st 0)
     else if 46 <? c then
       (if c <? 65 then
          (if range 48 c 57 then st 21 else st 0)
        else if 90 <? c then
          (if range 94 c 122 then st 21 else st 0)
        else st 21)
     else st 21).
Definition case_106 (c : Z) : label :=
  switch c [(33, st 21); (58, tr 39); (69, st 107); (101, st 107); (124, st 21); (126, st 21)]
    (if c <? 45 then
       (if 39 <? c then
          (if range 42 c 43 then st 21 else st 0)
        else if 35 <=? c then st 21 else st 0)
     else if 46 <? c then
       (if c <? 65 then
          (if range 48 c 57 then st 21 else st 0)
        else if 90 <? c then
          (if range 94 c 122 then st 21 else st 0)
        else st 21)
     else st 21).
Definition case_107 (c : Z) : label :=
  switch c [(33, st 21); (58, tr 39); (78, st 108); (110, st 108); (124, st 21); (126, st 21)]
    (if c <? 45 then
       (if 39 <? c then
          (if range 42 c 43 then st 21 else st 0)
        else if 35 <=? c then st 21 else st 0)
     else if 46 <? c then
       (if c <? 65 then
          (if range 48 c 57 then st 21 else st 0)
        else if 90 <? c then
          (if range 94 c 122 then st 21 else st 0)
        else st 21)
     else st 21).
Definition case_108 (c : Z) : label :=
  switch c [(33, st 21); (58, tr 39); (71, st 109); (103, st 109); (124, st 21); (126, st 21)]
    (if c <? 45 then
       (if 39 <? c then
          (if range 42 c 43 then st 21 else st 0)
        else if 35 <=? c then st 21 else st 0)
     else if 46 <? c then
       (if c <? 65 then
          (if range 48 c 57 then st 21 else st 0)
        else if 90 <? c then
          (if range 94 c 122 then st 21 else st 0)
        else st 21)
     else st 21).
Definition case_109 (c : Z) : label :=
  switch c [(33, st 21); (58, tr 39); (84, st 110); (116, st 110); (124, st 21); (126, st 21)]
    (if c <? 45 then
       (if 39 <? c then
          (if range 42 c 43 then st 21 else st 0)
        else if 35 <=? c then st 21 else st 0)
     else if 46 <? c then
       (if c <? 65 then
          (if range 48 c 57 then st 21 else st 0)
        else if 90 <? c then
          (if range 94 c 122 then st 21 else st 0)
        else st 21)
     else st 21).
Definition case_110 (c : Z) : label :=
  switch c [(33, st 21); (58, tr 39); (72, st 111); (104, st 111); (124, st 21); (126, st 21)]
    (if c <? 45 then
       (if 39 <? c then
          (if range 42 c 43 then st 21 else st 0)
        else if 35 <=? c then st 21 else st 0)
     else if 46 <? c then
       (if c <? 65 then
          (if range 48 c 57 then st 21 else st 0)
        else if 90 <? c then
          (if range 94 c 122 then st 21 else st 0)
        else st 21)
     else st 21).
Definition case_111 (c : Z) : label :=
  switch c [(33, st 21); (58, tr 148); (124, st 21); (126, st 21)]
    (if c <? 45 then
       (if 39 <? c then
          (if range 42 c 43 then st 21 else st 0)
        else if 35 <=? c then st 21 else st 0)
     else if 46 <? c then
       (if c <? 65 then
          (if range 48 c 57 then st 21 else st 0)
        else if 90 <? c then
          (if range 94 c 122 then st 21 else st 0)
        else st 21)
     else st 21).
Definition case_112 (c : Z) : label :=
  switch c [(10, tr 150); (13, tr 151); (32, tr 149)]
    (if 12 <? c then
       (if range 48 c 57 then tr 152 else tr 40)
     else if 9 <=? c then tr 149 else tr 40).
Definition case_113 (c : Z) : label :=
  switch c [(10, tr 154); (13, st 116); (32, st 114); (33, tr 35); (67, tr 36); (84, tr 37);
    (99, tr 36); (116, tr 37); (124, tr 35); (126, tr 35)]
    (if c <? 45 then
       (if c <? 35 then
          (if range 9 c 12 then st 114 else st 0)
        else if 39 <? c then
          (if range 42 c 43 then tr 35 else st 0)
        else tr 35)
     else if 46 <? c then
       (if c <? 65 then
          (if range 48 c 57 then tr 156 else st 0)
        else if 90 <? c then
          (if range 94 c 122 then tr 35 else st 0)
        else tr 35)
     else tr 35).
Definition case_114 (c : Z) : label :=
  if c =? 32 then st 114
  else if 13 <? c then
    (if range 48 c 57 then tr 157 else st 0)
  else if 9 <=? c then st 114 else st 0.
Definition case_115 (c : Z) : label :=
  switch c [(10, tr 158); (13, tr 159)]
    (if range 48 c 57 then st 115 else st 0).
Definition case_116 (c : Z) : label :=
  switch c [(10, tr 154); (32, st 114)]
    (if 13 <? c then
       (if range 48 c 57 then tr 157 else st 0)
     else if 9 <=? c then st 114 else st 0).
Definition case_117 (c : Z) : label :=
  switch c [(10, tr 158); (13, tr 159); (33, st 21); (58, tr 39); (124, st 21); (126, st 21)]
    (if c <? 45 then
       (if 39 <? c then
          (if range 42 c 43 then st 21 else st 0)
        else if 35 <=? c then st 21 else st 0)
     else if 46 <? c then
       (if c <? 65 then
          (if range 48 c 57 then st 117 else st 0)
        else if 90 <? c then
          (if range 94 c 122 then st 21 else st 0)
        else st 21)
     else st 21).
Definition case_118 (c : Z) : label :=
  switch c [(10, st 113); (32, st 114)]
    (if 13 <? c then
       (if range 48 c 57 then tr 157 else st 0)
     else if 9 <=? c then st 114 else st 0).
Definition case_119 (c : Z) : label :=
  switch c [(10, tr 158); (13, tr 159)]
    (if range 48 c 57 then st 119 else st 23).
Definition case_120 (c : Z) : label :=
  st 0.
Definition case_121 (c : Z) : label :=
  switch c [(32, st 63); (67, tr 104); (99, tr 104)]
    (if range 9 c 13 then st 63 else st 0).
Definition case_122 (c : Z) : label :=
  switch c [(32, st 37); (67, st 38); (99, st 38)]
    (if range 9 c 13 then st 37 else st 0).
Definition case_123 (c : Z) : label :=
  if c =? 32 then st 114
  else if 13 <? c then
    (if range 48 c 57 then tr 157 else st 0)
  else if 9 <=? c then st 114 else st 0.

(** The states from 1 on. *)
Definition states : list (Z -> label) :=
  [case_1; case_2; case_3; case_4; case_5; case_6; case_7; case_8; case_9; case_10; case_11; case_12;
   case_13; case_14; case_15; case_16; case_17; case_18; case_19; case_20; case_21; case_22; case_23;
   case_24; case_25; case_26; case_27; case_28; case_29; case_30; case_31; case_32; case_33; case_34;
   case_35; case_36; case_37; case_38; case_39; case_40; case_41; case_42; case_43; case_44; case_45;
   case_46; case_47; case_48; case_49; case_50; case_51; case_52; case_53; case_54; case_55; case_56;
   case_57; case_58; case_59; case_60; case_61; case_62; case_63; case_64; case_65; case_66; case_67;
   case_68; case_69; case_70; case_71; case_72; case_73; case_74; case_75; case_76; case_77; case_78;
   case_79; case_80; case_81; case_82; case_83; case_84; case_85; case_86; case_87; case_88; case_89;
   case_90; case_91; case_92; case_93; case_94; case_95; case_96; case_97; case_98; case_99; case_100;
   case_101; case_102; case_103; case_104; case_105; case_106; case_107; case_108; case_109; case_110;
   case_111; case_112; case_113; case_114; case_115; case_116; case_117; case_118; case_119; case_120;
   case_121; case_122; case_123].

(** The transitions with actions: the actions in order, and the state entered. *)
Definition tr_0 : list action * Z := ([mark], 2).
Definition tr_2 : list action * Z := ([mark], 8).
Definition tr_3 : list action * Z := ([chunk_size; done_], 120).
Definition tr_4 : list action * Z := ([chunk_size], 3).
Definition tr_6 : list action * Z := ([chunk_size], 4).
Definition tr_7 : list action * Z := ([done_], 120).
Definition tr_8 : list action * Z := ([start_field], 5).
Definition tr_9 : list action * Z := ([write_field; start_value; write_value; done_], 120).
Definition tr_10 : list action * Z := ([write_field; start_value; write_value], 3).
Definition tr_12 : list action * Z := ([write_field; start_value; write_value], 4).
Definition tr_13 : list action * Z := ([write_field; start_value], 6).
Definition tr_14 : list action * Z := ([start_value], 7).
Definition tr_15 : list action * Z := ([write_value; done_], 120).
Definition tr_16 : list action * Z := ([write_value], 3).
Definition tr_18 : list action * Z := ([write_value], 4).
Definition tr_26 : list action * Z := ([http_version], 16).
Definition tr_27 : list action * Z := ([mark], 17).
Definition tr_28 : list action * Z := ([status_code], 18).
Definition tr_30 : list action * Z := ([mark], 19).
Definition tr_32 : list action * Z := ([reason_phrase], 20).
Definition tr_33 : list action * Z := ([reason_phrase], 24).
Definition tr_35 : list action * Z := ([start_field], 21).
Definition tr_36 : list action * Z := ([start_field], 25).
Definition tr_37 : list action * Z := ([start_field], 44).
Definition tr_39 : list action * Z := ([write_field], 22).
Definition tr_40 : list action * Z := ([start_value], 23).
Definition tr_41 : list action * Z := ([start_value], 22).
Definition tr_42 : list action * Z := ([start_value; write_value], 20).
Definition tr_43 : list action * Z := ([start_value; write_value], 24).
Definition tr_45 : list action * Z := ([write_value], 20).
Definition tr_46 : list action * Z := ([write_value], 24).
Definition tr_58 : list action * Z := ([write_field], 35).
Definition tr_59 : list action * Z := ([start_value], 35).
Definition tr_60 : list action * Z := ([start_value; write_value], 36).
Definition tr_61 : list action * Z := ([start_value; write_value], 95).
Definition tr_62 : list action * Z := ([start_value], 96).
Definition tr_64 : list action * Z := ([done_], 122).
Definition tr_66 : list action * Z := ([start_field], 90).
Definition tr_74 : list action * Z := ([write_connection_close; done_], 120).
Definition tr_75 : list action * Z := ([write_connection_close], 3).
Definition tr_76 : list action * Z := ([write_connection_close; start_field], 21).
Definition tr_77 : list action * Z := ([write_connection_close; start_field], 25).
Definition tr_78 : list action * Z := ([write_connection_close; start_field], 44).
Definition tr_95 : list action * Z := ([write_field], 61).
Definition tr_96 : list action * Z := ([start_value], 61).
Definition tr_97 : list action * Z := ([start_value; write_value], 62).
Definition tr_98 : list action * Z := ([start_value; write_value], 80).
Definition tr_99 : list action * Z := ([start_value], 81).
Definition tr_101 : list action * Z := ([done_], 121).
Definition tr_103 : list action * Z := ([start_value; start_field], 73).
Definition tr_104 : list action * Z := ([start_value], 64).
Definition tr_111 : list action * Z := ([write_value; trans_chunked], 20).
Definition tr_112 : list action * Z := ([write_value], 71).
Definition tr_113 : list action * Z := ([trans_chunked], 20).
Definition tr_136 : list action * Z := ([write_value], 43).
Definition tr_137 : list action * Z := ([write_value], 88).
Definition tr_148 : list action * Z := ([write_field], 112).
Definition tr_149 : list action * Z := ([start_value], 112).
Definition tr_150 : list action * Z := ([start_value; write_value], 113).
Definition tr_151 : list action * Z := ([start_value; write_value], 118).
Definition tr_152 : list action * Z := ([start_value], 119).
Definition tr_154 : list action * Z := ([done_], 123).
Definition tr_156 : list action * Z := ([start_value; start_field], 117).
Definition tr_157 : list action * Z := ([start_value], 115).
Definition tr_158 : list action * Z := ([write_content_len; write_value], 20).
Definition tr_159 : list action * Z := ([write_content_len; write_value], 24).
Definition transitions : list (Z * (list action * Z)) :=
  [(0, tr_0); (2, tr_2); (3, tr_3); (4, tr_4); (6, tr_6); (7, tr_7); (8, tr_8); (9, tr_9); (10, tr_10);
   (12, tr_12); (13, tr_13); (14, tr_14); (15, tr_15); (16, tr_16); (18, tr_18); (26, tr_26); (27, tr_27);
   (28, tr_28); (30, tr_30); (32, tr_32); (33, tr_33); (35, tr_35); (36, tr_36); (37, tr_37); (39, tr_39);
   (40, tr_40); (41, tr_41); (42, tr_42); (43, tr_43); (45, tr_45); (46, tr_46); (58, tr_58); (59, tr_59);
   (60, tr_60); (61, tr_61); (62, tr_62); (64, tr_64); (66, tr_66); (74, tr_74); (75, tr_75); (76, tr_76);
   (77, tr_77); (78, tr_78); (95, tr_95); (96, tr_96); (97, tr_97); (98, tr_98); (99, tr_99);
   (101, tr_101); (103, tr_103); (104, tr_104); (111, tr_111); (112, tr_112); (113, tr_113); (136, tr_136);
   (137, tr_137); (148, tr_148); (149, tr_149); (150, tr_150); (151, tr_151); (152, tr_152); (154, tr_154);
   (156, tr_156); (157, tr_157); (158, tr_158); (159, tr_159)].

End HttpClientParser.
