(* ===== verification/ResponseParser.v ===== *)
(** * The HTTP response parser: src/src/http/httpclient_parser.h, httpclient_parser.rl.cpp
    (everything but the automaton), src/src/http/http_parser.cpp (HttpResponseParser)

    As in [HttpParser], a block of bytes [mem] holds the data, a pointer is an
    offset into it, and [boost::lexical_cast] is a parameter. *)

From stdpp Require Import prelude strings.
From Stdlib Require Import ZArith Lia Ascii.
From S2P Require Import Prelude Text Http Http11Parser HttpParser HttpClientParser.

Module ResponseParser.
Import Text Http.
Import HttpParser(string_at, strncmp_mem, bytes_at, or_undef, LEN, schar).
Local Open Scope Z_scope.

(** [struct httpclient_parser], without the callbacks, which the constructor sets. *)
Record httpclient_parser := Client {
  cs : Z;
  body_start : Z;
  content_len : Z;
  status : Z;
  chunked : Z;
  chunks_done : Z;
  close : Z;
  nread : Z;
  mark : Z;
  field_start : Z;
  field_len : Z
}.
Definition set_cs v q := Client v (body_start q) (content_len q) (status q) (chunked q) (chunks_done q) (close q)
  (nread q) (mark q) (field_start q) (field_len q).
Definition set_body_start v q := Client (cs q) v (content_len q) (status q) (chunked q) (chunks_done q) (close q)
  (nread q) (mark q) (field_start q) (field_len q).
Definition set_content_len v q := Client (cs q) (body_start q) v (status q) (chunked q) (chunks_done q) (close q)
  (nread q) (mark q) (field_start q) (field_len q).
Definition set_pstatus v q := Client (cs q) (body_start q) (content_len q) v (chunked q) (chunks_done q) (close q)
  (nread q) (mark q) (field_start q) (field_len q).
Definition set_chunked v q := Client (cs q) (body_start q) (content_len q) (status q) v (chunks_done q) (close q)
  (nread q) (mark q) (field_start q) (field_len q).
Definition set_chunks_done v q := Client (cs q) (body_start q) (content_len q) (status q) (chunked q) v (close q)
  (nread q) (mark q) (field_start q) (field_len q).
Definition set_close v q := Client (cs q) (body_start q) (content_len q) (status q) (chunked q) (chunks_done q) v
  (nread q) (mark q) (field_start q) (field_len q).
Definition set_nread v q := Client (cs q) (body_start q) (content_len q) (status q) (chunked q) (chunks_done q) (close q)
  v (mark q) (field_start q) (field_len q).
Definition set_mark v q := Client (cs q) (body_start q) (content_len q) (status q) (chunked q) (chunks_done q) (close q)
  (nread q) v (field_start q) (field_len q).
Definition set_field_start v q := Client (cs q) (body_start q) (content_len q) (status q) (chunked q) (chunks_done q)
  (close q) (nread q) (mark q) v (field_len q).
Definition set_field_len v q := Client (cs q) (body_start q) (content_len q) (status q) (chunked q) (chunks_done q)
  (close q) (nread q) (mark q) (field_start q) v.

(** [httpclient_parser_init]: [status] keeps what the memory held. *)
Definition httpclient_parser_init (q : httpclient_parser) : httpclient_parser :=
  Client HttpClientParser.httpclient_parser_start 0 (-1) (status q) 0 0 0 0 0 0 0.
Definition httpclient_parser_has_error (q : httpclient_parser) : bool :=
  cs q =? HttpClientParser.httpclient_parser_error.
Definition httpclient_parser_is_finished (q : httpclient_parser) : bool :=
  cs q =? HttpClientParser.httpclient_parser_first_final.
Definition httpclient_parser_finish (q : httpclient_parser) : Z :=
  if httpclient_parser_has_error q then -1 else if httpclient_parser_is_finished q then 1 else 0.

Record HttpResponseParser := RespParser {
  m_data : HttpResponse;
  m_error : Z;
  m_parser : httpclient_parser
}.
(** The constructor; [q] is the memory of [m_parser] before. *)
Definition new_HttpResponseParser (q : httpclient_parser) : HttpResponseParser :=
  RespParser (new_HttpResponse 17 true) 0 (httpclient_parser_init q).

Abbreviation cmd := (Prelude.cmd HttpResponseParser).
Definition on_parser (f : httpclient_parser -> httpclient_parser) : cmd unit :=
  modify (fun s => RespParser (m_data s) (m_error s) (f (m_parser s))).
Definition on_data (f : HttpResponse -> HttpResponse) : cmd unit :=
  modify (fun s => RespParser (f (m_data s)) (m_error s) (m_parser s)).
Definition set_error (v : Z) : cmd unit :=
  modify (fun s => RespParser (m_data s) v (m_parser s)).

(** ** [strtol] and [atoi]

    On the bytes from a pointer to the end of its block; [None]: the number is not
    ended inside the block. *)

Definition is_space (b : Z) : bool := (b =? 32) || ((9 <=? b) && (b <=? 13)).
Definition digit_value (b : Z) : Z :=
  if (48 <=? b) && (b <=? 57) then b - 48
  else if (97 <=? b) && (b <=? 122) then b - 87
  else if (65 <=? b) && (b <=? 90) then b - 55
  else 36.
Fixpoint strtol_digits (base acc : Z) (l : list Z) : option Z :=
  match l with
  | [] => None
  | b :: l => if digit_value b <? base then strtol_digits base (acc * base + digit_value b) l else Some acc
  end.
Definition strtol_prefix (base : Z) (l : list Z) : list Z :=
  match l with
  | z :: x :: d :: _ =>
    if (base =? 16) && (z =? 48) && ((x =? 120) || (x =? 88)) && (digit_value d <? 16) then drop 2 l else l
  | _ => l
  end.
Definition strtol_sign (base : Z) (l : list Z) : option Z :=
  match l with
  | [] => None
  | b :: r =>
    if b =? 45 then Z.opp <$> strtol_digits base 0 (strtol_prefix base r)
    else strtol_digits base 0 (strtol_prefix base (if b =? 43 then r else l))
  end.
Fixpoint strtol (base : Z) (l : list Z) : option Z :=
  match l with
  | [] => None
  | b :: r =>
    if is_space b then strtol base r
    else (fun n => Z.max (- 2 ^ 63) (Z.min n (2 ^ 63 - 1))) <$> strtol_sign base l
  end.
Definition atoi (l : list Z) : option Z := s32 <$> strtol 10 l.

(** ** Callbacks *)

Section memory.
Context (mem : list Z).

Definition on_response_reason (at_ length_ : Z) : cmd unit :=
  let* s := string_at mem at_ length_ in on_data (set_reason s).
Definition on_response_status (at_ _ : Z) : cmd unit :=
  let* v := or_undef (atoi (bytes_at mem at_)) in on_data (set_status v).
Definition on_response_chunk (_ _ : Z) : cmd unit := ret tt.
Definition on_response_version (at_ length_ : Z) : cmd unit :=
  let* is11 := or_undef (strncmp_mem (bytes_of "HTTP/1.1") (bytes_at mem at_) length_) in
  if is11 : bool then on_data (set_rversion 17)
  else
    let* is10 := or_undef (strncmp_mem (bytes_of "HTTP/1.0") (bytes_at mem at_) length_) in
    if is10 : bool then on_data (set_rversion 16)
    else let* _ := string_at mem at_ length_ in set_error 1001.
Definition on_response_header_done (_ _ : Z) : cmd unit := ret tt.
Definition on_response_last_chunk (_ _ : Z) : cmd unit := ret tt.
Definition on_response_http_field (field flen value vlen : Z) : cmd unit :=
  if flen =? 0 then set_error 1002
  else
    let* k := string_at mem field flen in
    let* v := string_at mem value vlen in
    on_data (rsetHeader k v).

(** ** The machine *)

(** An action of the grammar at position [pos]; [true]: [fbreak], which leaves the
    machine in the target state of the transition. *)
Definition act (pe : Z) (a : HttpClientParser.action) (pos : Z) : cmd bool :=
  let* q := gets m_parser in
  match a with
  | HttpClientParser.mark => on_parser (set_mark pos) ;;; ret false
  | HttpClientParser.start_field => on_parser (set_field_start pos) ;;; ret false
  | HttpClientParser.write_field => on_parser (set_field_len (LEN (field_start q) pos)) ;;; ret false
  | HttpClientParser.start_value => on_parser (set_mark pos) ;;; ret false
  | HttpClientParser.write_content_len =>
    let* n := or_undef (strtol 10 (bytes_at mem (mark q))) in
    on_parser (set_content_len (s32 n)) ;;; ret false
  | HttpClientParser.write_connection_close => on_parser (set_close 1) ;;; ret false
  | HttpClientParser.write_value =>
    on_response_http_field (field_start q) (field_len q) (mark q) (LEN (mark q) pos) ;;; ret false
  | HttpClientParser.reason_phrase => on_response_reason (mark q) (LEN (mark q) pos) ;;; ret false
  | HttpClientParser.status_code =>
    let* n := or_undef (strtol 10 (bytes_at mem (mark q))) in
    on_parser (set_pstatus (s32 n)) ;;;
    on_response_status (mark q) (LEN (mark q) pos) ;;; ret false
  | HttpClientParser.http_version => on_response_version (mark q) (LEN (mark q) pos) ;;; ret false
  | HttpClientParser.chunk_size =>
    on_parser (set_chunked 1) ;;;
    let* n := or_undef (strtol 16 (bytes_at mem (mark q))) in
    on_parser (set_content_len (s32 n)) ;;;
    on_parser (set_chunks_done (Z.b2z (s32 n <=? 0))) ;;;
    (if s32 n <=? 0 then on_response_last_chunk (mark q) (LEN (mark q) pos)
     else on_response_chunk (mark q) (LEN (mark q) pos)) ;;;
    ret false
  | HttpClientParser.trans_chunked => on_parser (set_chunked 1) ;;; ret false
  | HttpClientParser.done_ =>
    on_parser (set_body_start (pos + 1)) ;;;
    on_response_header_done (pos + 1) (u64 (pe - pos - 1)) ;;;
    ret true
  end.
Fixpoint acts (pe : Z) (l : list HttpClientParser.action) (pos : Z) : cmd bool :=
  match l with
  | [] => ret false
  | a :: l => let* stop := act pe a pos in if stop : bool then ret true else acts pe l pos
  end.

Definition lookup_tr (n : Z) : list HttpClientParser.action * Z :=
  match List.find (fun e => fst e =? n) HttpClientParser.transitions with
  | Some e => snd e
  | None => ([], 0)
  end.
(** [switch (cs)]; without a case for [cs] control goes on after the statement, to
    the line that sets [cs] to 2. *)
Definition case_of (c : Z) : option (Z -> Http11Parser.label) :=
  if c <=? 0 then None else HttpClientParser.states !! Z.to_nat (c - 1).

Fixpoint machine (pe : Z) (rest : list Z) (pos c : Z) : cmd (Z * Z) :=
  match rest with
  | [] => ret (pos, c)
  | b :: rest =>
    match case_of c with
    | None => ret (pos, 2)
    | Some f =>
      match f (schar b) with
      | Http11Parser.st 0 => ret (pos, 0)
      | Http11Parser.st n => machine pe rest (pos + 1) n
      | Http11Parser.tr n =>
        let '(l, target) := lookup_tr n in
        let* stop := acts pe l pos in
        if stop : bool then ret (pos + 1, target) else machine pe rest (pos + 1) target
      end
    end
  end.

(** What [httpclient_parser_execute] does when the machine has stopped: [check] returns -1. *)
Definition after_machine (len off p c : Z) : cmd Z :=
  on_parser (set_cs c) ;;;
  on_parser (fun q => set_nread (u64 (nread q + (p - off))) q) ;;;
  let* q := gets m_parser in
  assert_ (p <=? len) ;;;
  assert_ (nread q <=? len) ;;;
  assert_ (body_start q <=? len) ;;;
  if negb (mark q <? len) then ret (-1)
  else if negb (field_len q <=? len) then ret (-1)
  else if negb (field_start q <? len) then ret (-1)
  else ret (s32 (nread q)).
Definition httpclient_parser_execute (len off : Z) : cmd Z :=
  let* q := gets m_parser in
  assert_ (off <=? len) ;;;
  let* nul := or_undef (head (bytes_at mem len)) in
  assert_ (nul =? 0) ;;;
  assert_ (len - off =? s32 (s32 len - s32 off)) ;;;
  let* r := machine len (drop (Z.to_nat off) (take (Z.to_nat len) mem)) off (cs q) in
  let '(p, c) := r in
  after_machine len off p c.

(** [execute(data, len)]: the result, and the block after [memmove]; the [int] becomes a [size_t]. *)
Definition execute (len : Z) : cmd (Z * list Z) :=
  let* r := httpclient_parser_execute len 0 in
  let offset := u64 r in
  require (bool_decide (offset <= len) && bool_decide (len <= Z.of_nat (length mem))) ;;;
  ret (offset, splice 0 (slice (Z.to_nat offset) (Z.to_nat (len - offset)) mem) mem).
End memory.

Definition isFinished (s : HttpResponseParser) : Z := httpclient_parser_finish (m_parser s).
Definition hasError (s : HttpResponseParser) : bool :=
  negb (m_error s =? 0) || httpclient_parser_has_error (m_parser s).
Definition content_length (lexical_cast : string -> option Z) (s : HttpResponseParser) : Z :=
  rgetHeaderAs lexical_cast "content-length" 0 (m_data s).

(** The parser of a response that arrives in one piece, with the NUL behind it. *)
Definition ex_memory : httpclient_parser := Client 0 0 0 0 0 0 0 0 0 0 0.
Definition parse (text : string) : res HttpResponseParser (Z * list Z) :=
  let mem := bytes_of text in
  execute (mem ++ [0]) (Z.of_nat (length mem)) (new_HttpResponseParser ex_memory).

(** ** Numbers *)

Lemma digit_code c : is_digit c -> digit_value (code c) = code c - 48.
Proof. unfold is_digit, digit_value. intros H. rewrite (proj2 (Z.leb_le 48 _)), (proj2 (Z.leb_le _ 57)) by lia. done. Qed.

Lemma strtol_digits_undec s x rest : forall acc, all_chars is_digit s -> 10 <= digit_value x ->
  strtol_digits 10 acc (bytes_of s ++ x :: rest) = Some (undec_go acc s).
Proof.
  induction s as [|c s IH]; intros acc Hs Hx; cbn [bytes_of app strtol_digits undec_go].
  - by rewrite (proj2 (Z.ltb_ge _ _)).
  - destruct Hs as [Hc Hs]. rewrite digit_code by done. unfold is_digit in Hc.
    rewrite (proj2 (Z.ltb_lt _ _)) by lia. rewrite IH by done. do 2 f_equal. lia.
Qed.

Lemma strtol_prefix_10 l : strtol_prefix 10 l = l.
Proof. by destruct l as [|? [|? [|? ?]]]. Qed.

(** [strtol] reads a printed number. *)
Lemma strtol_dec n x rest : 0 <= n < 2 ^ 63 -> 10 <= digit_value x ->
  strtol 10 (bytes_of (dec n) ++ x :: rest) = Some n.
Proof.
  intros Hn Hx. pose proof (dec_nonempty n) as Hne. destruct (dec_spec n) as [E Hd]; [lia|]. pose proof (strtol_digits_undec (dec n) x rest 0 Hd Hx) as H.
  unfold undec in E. rewrite E in H. destruct (dec n) as [|c s]; [done|]. destruct Hd as [Hc _]. unfold is_digit in Hc.
  cbn [bytes_of app strtol] in *. unfold is_space. rewrite (proj2 (Z.eqb_neq _ 32)), (proj2 (Z.leb_gt (code c) 13)), andb_false_r by lia.
  cbn [orb]. unfold strtol_sign. rewrite (proj2 (Z.eqb_neq _ 45)), (proj2 (Z.eqb_neq _ 43)) by lia.
  rewrite strtol_prefix_10, H. simpl. f_equal. lia.
Qed.

(** It ends at a zero byte at the latest. *)
Lemma strtol_digits_some l : forall acc, 0 ∈ l -> is_Some (strtol_digits 10 acc l).
Proof.
  induction l as [|b l IH]; intros acc H; [by apply elem_of_nil in H|]. cbn [strtol_digits].
  apply elem_of_cons in H as [<-|H]; [by eexists|]. destruct (_ <? _); [by apply IH|by eexists].
Qed.
Lemma strtol_some l : 0 ∈ l -> is_Some (strtol 10 l).
Proof.
  induction l as [|b l IH]; intros H; [by apply elem_of_nil in H|]. cbn [strtol]. destruct (is_space b) eqn:Es.
  - apply IH. apply elem_of_cons in H as [<-|H]; [by vm_compute in Es|done].
  - apply fmap_is_Some. unfold strtol_sign. rewrite !strtol_prefix_10. destruct (Z.eqb_spec b 45) as [->|].
    + apply fmap_is_Some, strtol_digits_some. set_solver.
    + apply strtol_digits_some. destruct (Z.eqb_spec b 43) as [->|]; set_solver.
Qed.

End ResponseParser.
