(* ===== verification/ResponseRoundtrip.v ===== *)
(** * Printing a response and parsing it

    The automaton of the response parser run on the text that
    [HttpResponse::dump] writes.  It keeps the lines that mean something to it
    (Connection, Content-Length, Transfer-Encoding) apart from the others, so the
    states of a header line are taken in classes. *)

From stdpp Require Import prelude strings.
From Stdlib Require Import ZArith Lia Ascii Sorted.
From S2P Require Import Prelude Text Http Http11Parser HttpParser HttpRoundtrip HttpClientParser ResponseParser.

Module ResponseRoundtrip.
Import Text Http ResponseParser.
Import HttpParser(string_at, strncmp_mem, bytes_at, or_undef, LEN, schar).
Import HttpRoundtrip(alnum, token_char, text_ok, all_bytes, byte_cases, bytes_range, class_Forall, holds, holds_app,
  holds_nonneg, string_at_holds, bytes_at_holds, LEN_small, others, connection, body_length, line_bytes).
Local Open Scope Z_scope.

#[global] Instance client_action_eq_dec : EqDecision HttpClientParser.action.
Proof. solve_decision. Defined.

(** ** Steps of the machine *)

(** The actions at a byte and the state behind it; [None]: the error state. *)
Definition step_of (c b : Z) : option (list HttpClientParser.action * Z) :=
  match case_of c with
  | None => None
  | Some f =>
    match f (schar b) with
    | Http11Parser.st n => if n =? 0 then None else Some ([], n)
    | Http11Parser.tr k => Some (lookup_tr k)
    end
  end.

(** Every byte of a class takes every state of [P] to one of [Q], with one of the action lists [A]. *)
Definition phase (P : list Z) (C : Z -> bool) (Q : list Z) (A : list (list HttpClientParser.action)) : bool :=
  forallb (fun c => forallb (fun b => implb (C b)
    match step_of c b with Some (l, n) => bool_decide (n ∈ Q) && bool_decide (l ∈ A) | None => false end) all_bytes) P.

Lemma phase_step P C Q A c b :
  phase P C Q A = true -> c ∈ P -> 0 <= b < 256 -> C b = true ->
  exists l n, step_of c b = Some (l, n) /\ n ∈ Q /\ l ∈ A.
Proof.
  intros H Hc Hb HC. unfold phase in H. rewrite forallb_forall in H. apply list_elem_of_In in Hc. specialize (H c Hc).
  pose proof (byte_cases _ b Hb H) as E. cbv beta in E. rewrite HC in E. simpl in E.
  destruct (step_of c b) as [[l n]|]; [|done]. apply andb_true_iff in E as [E1%bool_decide_eq_true E2%bool_decide_eq_true].
  by exists l, n.
Qed.

Section run.
Context (mem : list Z) (pe : Z) (Hpe : pe < 2 ^ 31).
(** The block has a zero byte at the end of the data. *)
Context (Hnul : forall pos, 0 <= pos <= pe -> 0 ∈ drop (Z.to_nat pos) mem).

Definition goes (l : list Z) (pos c : Z) (s : HttpResponseParser) (c' : Z) (s' : HttpResponseParser) : Prop :=
  forall rest, machine mem pe (l ++ rest) pos c s = machine mem pe rest (pos + Z.of_nat (length l)) c' s'.

Lemma rsp_goes_nil pos c s : goes [] pos c s c s.
Proof. intros rest. by rewrite Z.add_0_r. Qed.

Lemma rsp_goes_app l1 l2 pos c1 s1 c2 s2 c3 s3 :
  goes l1 pos c1 s1 c2 s2 -> goes l2 (pos + Z.of_nat (length l1)) c2 s2 c3 s3 ->
  goes (l1 ++ l2) pos c1 s1 c3 s3.
Proof. intros H1 H2 rest. rewrite <- app_assoc, H1, H2, length_app. f_equal. lia. Qed.

Lemma machine_step b rest pos c l n s :
  step_of c b = Some (l, n) ->
  machine mem pe (b :: rest) pos c s =
  bind (acts mem pe l pos) (fun stop => if stop : bool then ret (pos + 1, n) else machine mem pe rest (pos + 1) n) s.
Proof.
  unfold step_of. intros H. cbn [machine]. destruct (case_of c) as [f|]; [|done].
  destruct (f (schar b)) as [m|k].
  - destruct (Z.eqb_spec m 0) as [E|Hm]; [done|]. simplify_eq. by destruct n.
  - by injection H as ->.
Qed.

Lemma goes_step b pos c l n s s' :
  step_of c b = Some (l, n) -> acts mem pe l pos s = Ok false s' -> goes [b] pos c s n s'.
Proof. intros H Ha rest. cbn [app]. rewrite (machine_step _ _ _ _ _ _ _ H). unfold bind. by rewrite Ha. Qed.

(** A run inside a class without actions. *)
Lemma goes_class P C w : forall pos c s,
  phase P C P [[]] = true -> Forall (fun b => 0 <= b < 256 /\ C b = true) w -> c ∈ P ->
  exists c', c' ∈ P /\ goes w pos c s c' s.
Proof.
  induction w as [|b w IH]; intros pos c s Hp Hw Hc; [exists c; split; [done|apply rsp_goes_nil]|].
  apply Forall_cons in Hw as [[Hb HC] Hw].
  destruct (phase_step P C P [[]] c b) as (l & n & Hs & Hn & Hl); [done..|]. apply list_elem_of_singleton in Hl as ->.
  destruct (IH (pos + 1) n s Hp Hw Hn) as (c' & Hc' & G). exists c'. split; [done|].
  apply (rsp_goes_app [b] w pos c s n s); [by eapply goes_step|exact G].
Qed.

(** States passed without actions, computed. *)
Fixpoint walk (w : list Z) (c : Z) : option Z :=
  match w with
  | [] => Some c
  | b :: w => match step_of c b with Some ([], n) => walk w n | _ => None end
  end.
Lemma rsp_goes_walk w : forall pos c n s, walk w c = Some n -> goes w pos c s n s.
Proof.
  induction w as [|b w IH]; intros pos c n s H; simpl in H; [injection H as ->; apply rsp_goes_nil|].
  destruct (step_of c b) as [[[|a l] m]|] eqn:E; [|done..].
  apply (rsp_goes_app [b] w pos c s m s); [by eapply goes_step|by apply IH].
Qed.

(** ** Segments *)

(** The offsets of the parser at position [pos]. *)
Definition ok (pos : Z) (q : httpclient_parser) : Prop :=
  nread q = 0 /\ body_start q = 0 /\ 0 <= mark q <= pos /\ 0 <= field_start q <= pos /\ 0 <= field_len q <= pos.

(** Wherever the block holds [w], the machine goes from a state of [P] with the response [d] to one of
    [P'] with [d'] while it reads [w]. *)
Definition leads (w : list Z) (P : list Z) (d : HttpResponse) (P' : list Z) (d' : HttpResponse) : Prop :=
  forall pos c e q, c ∈ P -> pos + Z.of_nat (length w) <= pe -> holds mem pos w -> ok pos q ->
  exists c' q', c' ∈ P' /\ ok (pos + Z.of_nat (length w)) q' /\
    goes w pos c (RespParser d e q) c' (RespParser d' e q').

Lemma rsp_leads_nil P d : leads [] P d P d.
Proof. intros pos c e q Hc _ _ Hq. exists c, q. rewrite Z.add_0_r. split; [done|]. split; [done|apply rsp_goes_nil]. Qed.

Lemma rsp_leads_app w1 w2 P1 d1 P2 d2 P3 d3 :
  leads w1 P1 d1 P2 d2 -> leads w2 P2 d2 P3 d3 -> leads (w1 ++ w2) P1 d1 P3 d3.
Proof.
  intros H1 H2 pos c e q Hc Hl Hh Hq. rewrite length_app in Hl. apply holds_app in Hh as [Hh1 Hh2].
  destruct (H1 pos c e q) as (c1 & q1 & Hc1 & Hq1 & G1); try done; [lia|].
  destruct (H2 (pos + Z.of_nat (length w1)) c1 e q1) as (c2 & q2 & Hc2 & Hq2 & G2); try done; [lia|].
  exists c2, q2. split; [done|]. rewrite length_app. split; [|by eapply rsp_goes_app].
  replace (pos + _) with (pos + Z.of_nat (length w1) + Z.of_nat (length w2)) by lia. done.
Qed.

Lemma rsp_leads_st b c n d : step_of c b = Some ([], n) -> leads [b] [c] d [n] d.
Proof.
  intros H pos c0 e q Hc _ _ (? & ? & ? & ? & ?). apply list_elem_of_singleton in Hc as ->. exists n, q.
  split; [set_solver|]. split; [|by eapply goes_step]. cbn [length]. unfold ok. split_and!; try done; lia.
Qed.

(** A span of text: its first character sets the mark, the character behind it ends it. *)
Definition captures (l : list HttpClientParser.action) (w : list Z) (x : Z) (d d' : HttpResponse) : Prop :=
  forall pos e q, holds mem pos (w ++ [x]) -> pos + Z.of_nat (length w) < 2 ^ 31 ->
  ok (pos + Z.of_nat (length w)) q -> mark q = pos ->
  exists q', ok (pos + Z.of_nat (length w)) q' /\
    acts mem pe l (pos + Z.of_nat (length w)) (RespParser d e q) = Ok false (RespParser d' e q').

Lemma ok_mono pos pos' q : ok pos q -> pos <= pos' -> ok pos' q.
Proof. intros (H1 & H2 & H3 & H4 & H5) H. unfold ok. split_and!; try done; lia. Qed.

Lemma rsp_leads_span b u x c c1 c2 c3 l d d' :
  step_of c b = Some ([HttpClientParser.mark], c1) ->
  (forall pos s, goes u pos c1 s c2 s) ->
  step_of c2 x = Some (l, c3) ->
  captures l (b :: u) x d d' -> leads ((b :: u) ++ [x]) [c] d [c3] d'.
Proof.
  intros H1 Hu H2 Hc pos c0 e q Hc0 Hl Hh Hq. apply list_elem_of_singleton in Hc0 as ->.
  rewrite length_app in Hl |- *. pose proof (holds_nonneg _ _ _ Hh) as Hp.
  destruct (Hc pos e (set_mark pos q)) as (q' & Hq' & Ha); [done|cbn [length] in *; lia| |done|].
  { destruct Hq as (? & ? & ? & ? & ?). unfold ok. cbn [set_mark nread body_start mark field_start field_len]. split_and!; try done; lia. }
  exists c3, q'. split; [set_solver|]. split; [eapply ok_mono; [exact Hq'|lia]|].
  eapply rsp_goes_app; [eapply (rsp_goes_app [b] u)|].
  - by eapply goes_step.
  - apply Hu.
  - by eapply goes_step.
Qed.

Lemma captures_reason w x d : captures [HttpClientParser.reason_phrase] w x d (set_reason (to_text w) d).
Proof.
  intros pos e q Hh Hl Hq Em. exists q. split; [done|]. apply holds_app in Hh as [Hh _].
  unfold acts, act, on_response_reason, bind, gets. cbn [m_parser]. rewrite Em.
  by rewrite (string_at_holds mem pos w) by done.
Qed.

(** ** The status line *)

Lemma rsp_leads_version v d : v = 16 \/ v = 17 ->
  leads (bytes_of (version_text v) ++ [32]) [1] d [16] (set_rversion v d).
Proof.
  intros Hv.
  assert (exists u, bytes_of (version_text v) = 72 :: u /\ walk u 8 = Some 15) as (u & E & Hw)
    by (exists (tail (bytes_of (version_text v))); by destruct Hv as [->| ->]; vm_compute).
  rewrite E. apply (rsp_leads_span 72 u 32 1 8 15 16 [HttpClientParser.http_version]); try done.
  - intros pos s. by apply rsp_goes_walk.
  - intros pos e q Hh Hl Hq Em. exists q. split; [done|]. rewrite <- E in Hh, Hl |- *. apply holds_app in Hh as [Hh _].
    pose proof (holds_nonneg _ _ _ Hh) as Hp. apply bytes_at_holds in Hh as [post Eb].
    unfold acts, act, on_response_version, or_undef, bind, gets. cbn [m_parser]. rewrite Em.
    rewrite LEN_small, Z.add_simpl_l, Eb by lia. by destruct Hv as [->| ->].
Qed.

Lemma digits_class n : 0 <= n -> forallb (fun b => Http11Parser.range 48 b 57) (bytes_of (dec n)) = true.
Proof.
  intros Hn. destruct (dec_spec n Hn) as [_ Hd]. induction (dec n) as [|c s IH]; [done|]. destruct Hd as [Hc Hd].
  cbn [bytes_of forallb]. rewrite IH by done. unfold is_digit in Hc. unfold Http11Parser.range. lia.
Qed.

Lemma captures_status n d : 0 <= n < 2 ^ 31 ->
  captures [HttpClientParser.status_code] (bytes_of (dec n)) 32 d (set_status n d).
Proof.
  intros Hn pos e q Hh Hl Hq Em. exists (set_pstatus n q). split; [done|].
  apply bytes_at_holds in Hh as [post Eb]. rewrite <- app_assoc in Eb. cbn [app] in Eb.
  assert (strtol 10 (bytes_at mem pos) = Some n) as Es by (rewrite Eb; apply strtol_dec; [lia|done]).
  assert (s32 n = n) as E32 by (apply swrap_id; [lia|]; unfold in_s; change (2 ^ (32 - 1)) with (2 ^ 31); lia).
  unfold acts, act, on_response_status, atoi, or_undef, bind, gets. cbn [m_parser]. rewrite Em, Es. cbn [fmap option_fmap option_map].
  unfold on_parser, on_data, modify, ret. cbn [m_data m_error m_parser]. by rewrite E32.
Qed.

Lemma leads_status n d : 0 <= n < 2 ^ 31 -> leads (bytes_of (dec n) ++ [32]) [16] d [18] (set_status n d).
Proof.
  intros Hn. pose proof (bytes_range (dec n)) as Hr. pose proof (digits_class n ltac:(lia)) as Hc.
  pose proof (captures_status n d Hn) as Hcap. pose proof (dec_nonempty n) as Hne.
  destruct (bytes_of (dec n)) as [|b u] eqn:E; [by destruct (dec n)|].
  apply Forall_cons in Hr as [Hb Hr]. apply andb_true_iff in Hc as [Hcb Hc].
  destruct (phase_step [16] (fun b => Http11Parser.range 48 b 57) [17] [[HttpClientParser.mark]] 16 b)
    as (l & c & Hs & Hcc & Hl); [by vm_compute|set_solver|done|done|].
  apply list_elem_of_singleton in Hcc as ->. apply list_elem_of_singleton in Hl as ->.
  apply (rsp_leads_span b u 32 16 17 17 18 [HttpClientParser.status_code]); try done. intros pos s.
  destruct (goes_class [17] (fun b => Http11Parser.range 48 b 57) u pos 17 s) as (c & Hcc & G);
    [by vm_compute|by apply class_Forall|set_solver|]. by apply list_elem_of_singleton in Hcc as ->.
Qed.

Definition reason_char (b : Z) : bool := negb (bool_decide (b ∈ [10; 13])).

Lemma leads_reason reason d : reason <> "" -> text_ok reason_char reason ->
  leads ((bytes_of reason ++ [13]) ++ [10]) [18] d [20; 43] (set_reason reason d).
Proof.
  intros Hne Ht. apply rsp_leads_app with (P2 := [24]) (d2 := set_reason reason d).
  - pose proof (bytes_range reason) as Hr. pose proof (to_text_bytes reason) as E. unfold text_ok in Ht.
    destruct (bytes_of reason) as [|b u]; [by rewrite <- E in Hne|]. rewrite <- E.
    apply andb_true_iff in Ht as [Hb Ht]. apply Forall_cons in Hr as [Hbr Hr].
    destruct (phase_step [18] reason_char [19] [[HttpClientParser.mark]] 18 b)
      as (l & c & Hs & Hcc & Hl); [by vm_compute|set_solver|done|done|].
    apply list_elem_of_singleton in Hcc as ->. apply list_elem_of_singleton in Hl as ->.
    apply (rsp_leads_span b u 13 18 19 19 24 [HttpClientParser.reason_phrase]); try done; [|apply captures_reason].
    intros pos s. destruct (goes_class [19] reason_char u pos 19 s) as (c & Hcc & G);
      [by vm_compute|by apply class_Forall|set_solver|]. by apply list_elem_of_singleton in Hcc as ->.
  - intros pos c e q Hc Hl Hh Hq. destruct (rsp_leads_st 10 24 20 (set_reason reason d) eq_refl pos c e q Hc Hl Hh Hq)
      as (c' & q' & Hc' & H). exists c', q'. split; [set_solver|done].
Qed.

(** ** Header lines *)

(** The states at the start of a line, in a name, behind the colon, in a value, and behind its CR. *)
Definition at_line : list Z := [20; 43].
Definition in_name : list Z :=
  [21; 25; 26; 27; 28; 29; 30; 31; 32; 33; 34; 44; 45; 46; 47; 48; 49; 50; 51; 52; 53; 54; 55; 56; 57; 58; 59; 60;
   101; 102; 103; 104; 105; 106; 107; 108; 109; 110; 111].
Definition at_colon : list Z := [22; 35; 61; 112].
Definition in_value : list Z := [23; 81; 82; 83; 84; 85; 86; 87; 96; 97; 98; 99; 100; 119].
Definition at_cr : list Z := [24; 71; 88].
Definition rvalue_char (b : Z) : bool := negb (bool_decide (b ∈ [0; 10; 13])).
Definition first_char (b : Z) : bool := rvalue_char b && negb (bool_decide (b ∈ [9; 11; 12; 32])).

Definition value_ok (v : string) : Prop :=
  text_ok rvalue_char v /\ match bytes_of v with b :: _ => first_char b = true | [] => False end.
Definition header_ok (e : string * string) : Prop := e.1 <> "" /\ text_ok token_char e.1 /\ value_ok e.2.

(** The name of a field has been read. *)
Definition named (k : string) (q : httpclient_parser) : Prop :=
  holds mem (field_start q) (bytes_of k) /\ field_len q = Z.of_nat (length (bytes_of k)) /\
  field_start q + field_len q < 2 ^ 31.

Lemma rsp_write_value_acts k v pos d e q :
  k <> "" -> named k q -> holds mem (mark q) (bytes_of v) -> pos = mark q + Z.of_nat (length (bytes_of v)) -> pos < 2 ^ 31 ->
  acts mem pe [HttpClientParser.write_value] pos (RespParser d e q) = Ok false (RespParser (rsetHeader k v d) e q).
Proof.
  intros Hk (Hkh & El & Hkl) Hv Ep Hp. unfold acts, act, on_response_http_field, bind, gets. cbn [m_parser].
  rewrite El in Hkl. rewrite El. destruct (Z.eqb_spec (Z.of_nat (length (bytes_of k))) 0) as [E0|_].
  { destruct k; [done|]. simpl in E0. lia. }
  pose proof (holds_nonneg _ _ _ Hkh) as Hf.
  pose proof (string_at_holds (S := HttpResponseParser) mem (field_start q) (bytes_of k) _ (RespParser d e q) Hkh eq_refl Hkl) as Ek.
  rewrite LEN_small, Z.add_simpl_l in Ek by lia. rewrite Ek.
  rewrite (string_at_holds mem (mark q) (bytes_of v)) by done. by rewrite !to_text_bytes.
Qed.

(** The name and the colon. *)
Lemma rsp_goes_name k pos c d e q :
  c ∈ at_line -> k <> "" -> text_ok token_char k -> holds mem pos (bytes_of k) ->
  pos + Z.of_nat (length (bytes_of k)) < 2 ^ 31 -> ok pos q ->
  exists c' q', c' ∈ at_colon /\ named k q' /\ ok (pos + Z.of_nat (length (bytes_of k ++ [58]))) q' /\
    goes (bytes_of k ++ [58]) pos c (RespParser d e q) c' (RespParser d e q').
Proof.
  intros Hc Hk Ht Hh Hl (H1 & H2 & H3 & H4 & H5). pose proof (holds_nonneg _ _ _ Hh) as Hp.
  pose proof (bytes_range k) as Hr. unfold text_ok in Ht. rewrite length_app. unfold named.
  destruct (bytes_of k) as [|b u] eqn:Ek; [by destruct k|].
  apply andb_true_iff in Ht as [Hb Hu]. apply Forall_cons in Hr as [Hbr Hr].
  destruct (phase_step at_line token_char in_name
    [[HttpClientParser.start_field]; [HttpClientParser.write_connection_close; HttpClientParser.start_field]] c b)
    as (l1 & c1 & Hs1 & Hc1 & Hl1); [by vm_compute|done..|].
  assert (exists q1, acts mem pe l1 pos (RespParser d e q) = Ok false (RespParser d e q1) /\
    (q1 = set_field_start pos q \/ q1 = set_field_start pos (set_close 1 q))) as (q1 & Ha1 & Hq1).
  { apply elem_of_cons in Hl1 as [->|Hl1]; [by eexists; split; [reflexivity|left]|].
    apply list_elem_of_singleton in Hl1 as ->. by eexists; split; [reflexivity|right]. }
  destruct (goes_class in_name token_char u (pos + 1) c1 (RespParser d e q1)) as (c2 & Hc2 & G2);
    [by vm_compute|by apply class_Forall|done|].
  destruct (phase_step in_name (fun b => b =? 58) at_colon [[HttpClientParser.write_field]] c2 58)
    as (l3 & c3 & Hs3 & Hc3 & Hl3); [by vm_compute|done..|]. apply list_elem_of_singleton in Hl3 as ->.
  set (n := Z.of_nat (length (b :: u))) in *. exists c3, (set_field_len n q1). split; [done|].
  assert (field_start q1 = pos) as Ef by by destruct Hq1 as [->| ->].
  split. { unfold named. cbn [set_field_len field_start field_len]. rewrite Ef. auto. }
  split. { unfold ok, n. destruct Hq1 as [->| ->];
    cbn [set_field_len set_field_start set_close nread body_start mark field_start field_len length]; split_and!; try done; lia. }
  eapply rsp_goes_app; [eapply (rsp_goes_app [b] u); [by eapply goes_step|exact G2]|].
  eapply goes_step; [exact Hs3|]. unfold acts, act, bind, gets, on_parser, modify, ret. cbn [m_parser].
  rewrite Ef, LEN_small, Z.add_simpl_l by lia. done.
Qed.

Lemma rsp_named_mark k x q : named k q -> named k (set_mark x q).
Proof. done. Qed.

(** The value and its CR; a block with a zero byte behind the data ends every number. *)
Lemma rsp_goes_value k v pos c d e q :
  0 ∈ drop (Z.to_nat pos) mem -> c ∈ at_colon -> k <> "" -> value_ok v -> named k q -> ok pos q ->
  holds mem pos (bytes_of v) -> pos + Z.of_nat (length (bytes_of v)) < 2 ^ 31 ->
  exists c' q', c' ∈ at_cr /\ ok (pos + Z.of_nat (length (bytes_of v ++ [13]))) q' /\
    goes (bytes_of v ++ [13]) pos c (RespParser d e q) c' (RespParser (rsetHeader k v d) e q').
Proof.
  intros H0 Hc Hk [Ht Hv] Hq (H1 & H2 & H3 & H4 & H5) Hh Hl. pose proof (holds_nonneg _ _ _ Hh) as Hp.
  pose proof (bytes_range v) as Hr. unfold text_ok in Ht. rewrite length_app.
  pose proof (fun q' Hn Hm => rsp_write_value_acts k v (pos + Z.of_nat (length (bytes_of v))) d e q' Hk Hn Hm) as Hw.
  destruct (bytes_of v) as [|b u] eqn:Ev; [done|].
  apply andb_true_iff in Ht as [Hb Hu]. apply Forall_cons in Hr as [Hbr Hr].
  destruct (phase_step at_colon first_char in_value [[HttpClientParser.start_value]] c b)
    as (l1 & c1 & Hs1 & Hc1 & Hl1); [by vm_compute|done..|]. apply list_elem_of_singleton in Hl1 as ->.
  destruct (goes_class in_value rvalue_char u (pos + 1) c1 (RespParser d e (set_mark pos q))) as (c2 & Hc2 & G2);
    [by vm_compute|by apply class_Forall|done|].
  destruct (phase_step in_value (fun b => b =? 13) at_cr [[HttpClientParser.write_value];
    [HttpClientParser.write_content_len; HttpClientParser.write_value]] c2 13)
    as (l3 & c3 & Hs3 & Hc3 & Hl3); [by vm_compute|done..|].
  assert (exists q3, acts mem pe l3 (pos + Z.of_nat (length (b :: u))) (RespParser d e (set_mark pos q)) =
    Ok false (RespParser (rsetHeader k v d) e q3) /\ (q3 = set_mark pos q \/ exists n, q3 = set_content_len n (set_mark pos q)))
    as (q3 & Ha3 & Hq3).
  { apply elem_of_cons in Hl3 as [->|Hl3].
    - eexists. split; [|by left]. by apply Hw.
    - apply list_elem_of_singleton in Hl3 as ->. destruct (strtol_some (bytes_at mem pos) H0) as [n En].
      eexists. split; [|right; by exists (s32 n)].
      cbn [acts]. unfold bind at 1. unfold act at 1, or_undef, bind, gets. cbn [m_parser set_mark mark]. rewrite En.
      unfold on_parser, modify, ret. by apply Hw. }
  exists c3, q3. split; [done|]. split.
  { unfold ok. destruct Hq3 as [->|[n ->]]; cbn [set_mark set_content_len nread body_start mark field_start field_len length];
      split_and!; try done; lia. }
  eapply rsp_goes_app; [eapply (rsp_goes_app [b] u); [by eapply goes_step|exact G2]|]. by eapply goes_step.
Qed.

Lemma rsp_leads_header k v d : k <> "" -> text_ok token_char k -> value_ok v ->
  leads (line_bytes 1 (k, v)) at_line d at_line (rsetHeader k v d).
Proof.
  intros Hk Ht Hv pos c e q Hc Hl Hh Hq. unfold line_bytes, HttpRoundtrip.field_line in *. cbn [fst snd replicate] in *.
  set (w1 := bytes_of k ++ [58]) in *. set (w2 := bytes_of v ++ [13]) in *.
  rewrite !length_app in Hl. simpl in Hl. pose proof (holds_nonneg _ _ _ Hh) as Hp.
  apply holds_app in Hh as [Hh1 Hh2]. apply holds_app in Hh1 as [Hh1 _]. apply holds_app in Hh2 as [Hh2 _].
  unfold w1 in Hh1. apply holds_app in Hh1 as [Hh1 _]. unfold w2 in Hh2. apply holds_app in Hh2 as [Hh2 _].
  assert (Z.of_nat (length w1) = Z.of_nat (length (bytes_of k)) + 1) as E1 by (unfold w1; rewrite length_app; simpl; lia).
  assert (Z.of_nat (length w2) = Z.of_nat (length (bytes_of v)) + 1) as E2 by (unfold w2; rewrite length_app; simpl; lia).
  destruct (rsp_goes_name k pos c d e q) as (c1 & q1 & Hc1 & Hn1 & Hq1 & G1); try done; [lia|]. fold w1 in Hq1, G1.
  set (p1 := pos + Z.of_nat (length w1)) in *.
  destruct (phase_step at_colon (fun b => b =? 32) at_colon [[HttpClientParser.start_value]] c1 32)
    as (l2 & c2 & Hs2 & Hc2 & Hl2); [by vm_compute|done..|]. apply list_elem_of_singleton in Hl2 as ->.
  assert (ok (p1 + 1) (set_mark p1 q1)) as Hq2.
  { destruct Hq1 as (? & ? & ? & ? & ?). unfold ok. cbn [set_mark nread body_start mark field_start field_len]. split_and!; try done; lia. }
  rewrite length_app in Hh2. cbn [length] in Hh2. replace (pos + Z.of_nat (length w1 + 1)) with (p1 + 1) in Hh2 by lia.
  destruct (rsp_goes_value k v (p1 + 1) c2 d e (set_mark p1 q1)) as (c3 & q3 & Hc3 & Hq3 & G3); try done; [apply Hnul; lia|lia|].
  fold w2 in Hq3, G3.
  destruct (phase_step at_cr (fun b => b =? 10) at_line [[]; [HttpClientParser.trans_chunked]] c3 10)
    as (l4 & c4 & Hs4 & Hc4 & Hl4); [by vm_compute|done..|].
  assert (exists q4, acts mem pe l4 (p1 + 1 + Z.of_nat (length w2)) (RespParser (rsetHeader k v d) e q3) =
    Ok false (RespParser (rsetHeader k v d) e q4) /\ (q4 = q3 \/ q4 = set_chunked 1 q3)) as (q4 & Ha4 & Hq4).
  { apply elem_of_cons in Hl4 as [->|Hl4]; [by eexists; split; [reflexivity|left]|].
    apply list_elem_of_singleton in Hl4 as ->. by eexists; split; [reflexivity|right]. }
  exists c4, q4. split; [done|]. split.
  { apply (ok_mono (p1 + 1 + Z.of_nat (length w2))); [by destruct Hq4 as [->| ->]|rewrite !length_app; simpl; lia]. }
  eapply rsp_goes_app; [eapply rsp_goes_app; [exact G1|by eapply goes_step]|].
  replace (pos + Z.of_nat (length (w1 ++ [32]))) with (p1 + 1) by (rewrite length_app; simpl; lia).
  eapply rsp_goes_app; [exact G3|by eapply goes_step].
Qed.

Definition add_header (d : HttpResponse) (e : string * string) : HttpResponse := rsetHeader e.1 e.2 d.
Lemma rsp_leads_lines l : forall d, Forall header_ok l ->
  leads (l ≫= line_bytes 1) at_line d at_line (foldl add_header d l).
Proof.
  induction l as [|e l IH]; intros d Hl; [apply rsp_leads_nil|]. apply Forall_cons in Hl as [(H1 & H2 & H3) Hl].
  cbn [mbind list_bind foldl]. eapply rsp_leads_app; [|by apply IH]. destruct e as [k v]. by apply rsp_leads_header.
Qed.

Lemma rsp_machine_end pos c rest d e q : c ∈ at_line -> ok pos q ->
  exists q', machine mem pe ([13; 10] ++ rest) pos c (RespParser d e q) = Ok (pos + 2, 120) (RespParser d e q') /\
    nread q' = 0 /\ body_start q' = pos + 2 /\ mark q' <= pos /\ field_start q' <= pos /\ field_len q' <= pos.
Proof.
  intros Hc (H1 & H2 & H3 & H4 & H5).
  assert (exists l, step_of c 13 = Some (l, 3) /\ (l = [] \/ l = [HttpClientParser.write_connection_close])) as (l & Hs & Hl).
  { apply elem_of_cons in Hc as [->|Hc]; [|apply list_elem_of_singleton in Hc as ->]; eexists; (split; [by vm_compute|auto]). }
  cbn [app]. rewrite (machine_step 13 (10 :: rest) pos c l 3) by done.
  assert (exists q1, acts mem pe l pos (RespParser d e q) = Ok false (RespParser d e q1) /\ (q1 = q \/ q1 = set_close 1 q))
    as (q1 & Ha & Hq1) by (destruct Hl as [->| ->]; eexists; (split; [reflexivity|auto])).
  unfold bind at 1. rewrite Ha, (machine_step 10 rest (pos + 1) 3 [HttpClientParser.done_] 120) by by vm_compute.
  exists (set_body_start (pos + 1 + 1) q1). unfold acts, act, bind, gets, on_parser, modify, ret, on_response_header_done.
  cbn [m_data m_error m_parser]. split; [by replace (pos + 2) with (pos + 1 + 1) by lia|].
  destruct Hq1 as [->| ->]; simpl; split_and!; done || lia.
Qed.
End run.

(** ** A response *)

Definition reason_text (r : HttpResponse) : string :=
  if bool_decide (r_reason r = "") then http_status_to_chars (r_status r) else r_reason r.

Definition head_bytes (r : HttpResponse) : list Z :=
  ((bytes_of (version_text (r_version r)) ++ [32]) ++ (bytes_of (dec (r_status r)) ++ [32]) ++
   ((bytes_of (reason_text r) ++ [13]) ++ [10])) ++
  (others (r_headers r) ≫= line_bytes 1) ++ ([connection (r_close r)] ≫= line_bytes 1) ++
  (body_length (r_body r) ≫= line_bytes 1).

Lemma rsp_lines_bytes l : bytes_of (lines ((fun '(k, v) => k +:+ ": " +:+ v) <$> l)) = l ≫= line_bytes 1.
Proof.
  induction l as [|[k v] l IH]; [done|]. cbn [fmap list_fmap lines mbind list_bind]. unfold line_bytes, HttpRoundtrip.field_line, CRLF, CR, LF.
  rewrite !bytes_of_app. cbn [replicate fst snd]. rewrite <- !app_assoc. cbn [bytes_of app].
  do 5 f_equal. cbn [app]. do 2 f_equal. exact IH.
Qed.

Lemma rsp_dump_bytes r : 0 <= r_status r < 2 ^ 31 ->
  bytes_of (dump_response r) = head_bytes r ++ [13; 10] ++ bytes_of (r_body r).
Proof.
  intros Hs. unfold dump_response, head_bytes, header_lines. fold (reason_text r).
  replace (u32 (r_status r)) with (r_status r) by (symmetry; apply wrap_id; unfold in_u; lia).
  rewrite !bytes_of_app, rsp_lines_bytes, HttpRoundtrip.tail_bytes, HttpRoundtrip.connection_bytes. fold (others (r_headers r)).
  rewrite <- !app_assoc. reflexivity.
Qed.

(** A response whose text is one of the grammar. *)
Record printable (r : HttpResponse) : Prop := {
  p_status : 0 <= r_status r < 2 ^ 31;
  p_version : r_version r = 16 \/ r_version r = 17;
  p_reason : text_ok reason_char (r_reason r);
  p_headers : Forall header_ok (r_headers r)
}.

Lemma status_text_ok n : http_status_to_chars n <> "" /\ text_ok reason_char (http_status_to_chars n).
Proof.
  assert (forallb (fun e : Z * string => negb (bool_decide (e.2 = "")) && forallb reason_char (bytes_of e.2))
    HTTP_STATUS_MAP = true) as H by by vm_compute.
  unfold http_status_to_chars. destruct (List.find _ _) as [e|] eqn:E; [|done].
  apply List.find_some in E as [Hin _]. rewrite forallb_forall in H. specialize (H e Hin).
  apply andb_true_iff in H as [H1%negb_true_iff%bool_decide_eq_false H2]. done.
Qed.

Lemma rsp_body_length_ok body : Forall header_ok (body_length body).
Proof.
  unfold body_length. case_bool_decide; [constructor|]. apply Forall_singleton. split; [done|]. split; [by vm_compute|].
  cbn [snd]. pose proof (digits_class (Z.of_nat (String.length body)) ltac:(lia)) as Hd.
  pose proof (bytes_range (dec (Z.of_nat (String.length body)))) as Hr. pose proof (dec_nonempty (Z.of_nat (String.length body))) as Hne.
  assert (forall w, Forall (fun b => 0 <= b < 256) w -> forallb (fun b => Http11Parser.range 48 b 57) w = true ->
    Forall (fun b => first_char b = true) w) as Hf.
  { intros w Hw Hc. apply (class_Forall _ _ Hw) in Hc. eapply Forall_impl; [exact Hc|]. intros b [Hb HC].
    assert (forallb (fun b => implb (Http11Parser.range 48 b 57) (first_char b)) all_bytes = true) as Hall by by vm_compute.
    pose proof (byte_cases _ b Hb Hall) as E. cbv beta in E. by rewrite HC in E. }
  specialize (Hf _ Hr Hd). unfold value_ok, text_ok. destruct (dec _) as [|c s]; [done|]. cbn [bytes_of] in *.
  apply Forall_cons in Hf as [Hf1 Hf2]. split; [|done].
  apply forallb_forall. intros b Hb. apply list_elem_of_In in Hb. rewrite Forall_forall in Hf2.
  assert (first_char b = true) as E by (apply elem_of_cons in Hb as [->|Hb]; auto).
  by apply andb_true_iff in E as [E _].
Qed.

(** What the parser has read at the end of the head. *)
Definition reads_as (r d : HttpResponse) : HttpResponse :=
  foldl add_header (foldl add_header (foldl add_header
    (set_reason (reason_text r) (set_status (r_status r) (set_rversion (r_version r) d)))
    (others (r_headers r))) [connection (r_close r)]) (body_length (r_body r)).

Lemma rsp_leads_head mem pe r d : pe < 2 ^ 31 -> (forall pos, 0 <= pos <= pe -> 0 ∈ drop (Z.to_nat pos) mem) ->
  printable r -> leads mem pe (head_bytes r) [1] d at_line (reads_as r d).
Proof.
  intros Hpe Hnul [Hs Hv Hr Hh]. unfold head_bytes, reads_as.
  eapply rsp_leads_app; [|eapply rsp_leads_app; [|eapply rsp_leads_app]]; try (apply rsp_leads_lines; [done|done|]).
  - eapply rsp_leads_app; [by apply rsp_leads_version|]. eapply rsp_leads_app; [by apply leads_status|].
    destruct (status_text_ok (r_status r)). apply leads_reason; try done; unfold reason_text; by case_bool_decide.
  - unfold others. rewrite Forall_forall in Hh |- *. intros e [_ He]%list_elem_of_filter. auto.
  - apply Forall_singleton. unfold connection. destruct (r_close r); repeat split; by vm_compute.
  - apply rsp_body_length_ok.
Qed.

Lemma rsp_add_headers l : forall d, foldl add_header d l =
  Response (r_status d) (r_version d) (r_close d) (r_body d) (r_reason d)
    (foldl (fun m e => map_set e.1 e.2 m) (r_headers d) l).
Proof. induction l as [|e l IH]; intros d; [by destruct d|]. cbn [foldl]. by rewrite IH. Qed.

Lemma rsp_reads_as_getHeader r d key def : ordered (r_headers r) -> r_headers d = [] ->
  rgetHeader key def (reads_as r d) =
  if decide (r_body r <> "" /\ canon key = canon "Content-Length") then dec (Z.of_nat (String.length (r_body r)))
  else if decide (canon key = canon "Connection") then snd (connection (r_close r))
  else rgetHeader key def r.
Proof.
  intros Ho Ed. unfold reads_as, rgetHeader, get_or. rewrite !rsp_add_headers. cbn [r_headers].
  change (r_headers (set_reason _ _)) with (r_headers d). rewrite Ed.
  pose proof (HttpRoundtrip.others_ordered _ Ho) as Ho'. assert (ordered [connection (r_close r)]) as Hc by repeat constructor.
  pose proof (HttpRoundtrip.body_length_ordered (r_body r)) as Hb. assert (ordered []) as Hn by constructor.
  rewrite !HttpRoundtrip.find_foldl_set by auto using HttpRoundtrip.foldl_set_ordered. cbn [map_find].
  rewrite map_find_cfind, HttpRoundtrip.cfind_body_length by done.
  case_decide as E1; [done|]. unfold connection at 1. cbn [cfind].
  rewrite (decide_ext (canon "Connection" = canon key) (canon key = canon "Connection")) by done.
  case_decide as E2; [done|]. rewrite HttpRoundtrip.cfind_others by done. by destruct (cfind _ _).
Qed.

Lemma rsp_reads_as_line r d :
  r_status (reads_as r d) = r_status r /\ r_version (reads_as r d) = r_version r /\
  r_reason (reads_as r d) = reason_text r /\ r_body (reads_as r d) = r_body d.
Proof. unfold reads_as. by rewrite !rsp_add_headers. Qed.

(** The machine on the text of a response. *)
Lemma rsp_machine_dump r q mem post len :
  printable r -> len < 2 ^ 31 -> len = Z.of_nat (length (bytes_of (dump_response r))) ->
  mem = bytes_of (dump_response r) ++ 0 :: post ->
  let p := len - Z.of_nat (length (bytes_of (r_body r))) in
  exists q', machine mem len (bytes_of (dump_response r)) 0 1 (new_HttpResponseParser q) =
    Ok (p, 120) (RespParser (reads_as r (new_HttpResponse 17 true)) 0 q') /\
    nread q' = 0 /\ body_start q' = p /\ mark q' < p /\ field_start q' < p /\ field_len q' < p.
Proof.
  intros Hr Hlen El Em p. pose proof (p_status _ Hr) as Hs.
  assert (forall pos, 0 <= pos <= len -> 0 ∈ drop (Z.to_nat pos) mem) as Hnul.
  { intros pos Hpos. rewrite Em, El in *. rewrite drop_app_le by lia. set_solver. }
  rewrite (rsp_dump_bytes r Hs) in *. rewrite !length_app in El. cbn [length] in El.
  destruct (rsp_leads_head mem len r (new_HttpResponse 17 true) Hlen Hnul Hr 0 1 0 (m_parser (new_HttpResponseParser q)))
    as (c1 & q1 & Hc1 & Hq1 & G); [set_solver|lia| | |].
  { exists [], ([13; 10] ++ bytes_of (r_body r) ++ 0 :: post). rewrite Em. by rewrite <- !app_assoc. }
  { unfold ok. simpl. split_and!; done || lia. }
  unfold new_HttpResponseParser in *. cbn [m_parser] in G. rewrite G.
  destruct (rsp_machine_end mem len (0 + Z.of_nat (length (head_bytes r))) c1 (bytes_of (r_body r))
    (reads_as r (new_HttpResponse 17 true)) 0 q1 Hc1 Hq1) as (q2 & E & H1 & H2 & H3 & H4 & H5). rewrite E.
  exists q2. split; [|unfold p; split_and!; lia]. do 2 f_equal. unfold p. lia.
Qed.

(** A call of [execute] on a fresh parser, from the run of the machine. *)
Lemma rsp_execute_run mem len s p c s1 :
  0 < len < 2 ^ 31 -> len <= Z.of_nat (length mem) -> head (bytes_at mem len) = Some 0 -> 0 <= p <= len ->
  machine mem len (take (Z.to_nat len) mem) 0 (cs (m_parser s)) s = Ok (p, c) s1 ->
  nread (m_parser s1) = 0 -> body_start (m_parser s1) <= len ->
  mark (m_parser s1) < len -> field_len (m_parser s1) <= len -> field_start (m_parser s1) < len ->
  execute mem len s = Ok (p, splice 0 (slice (Z.to_nat p) (Z.to_nat (len - p)) mem) mem)
    (RespParser (m_data s1) (m_error s1) (set_nread p (set_cs c (m_parser s1)))).
Proof.
  intros Hl Hm Hz Hp Hrun Hn Hbs Hma Hfl Hfs.
  assert (forall z, 0 <= z < 2 ^ 31 -> s32 z = z) as Hs32
    by (intros z ?; apply swrap_id; [lia|]; unfold in_s; change (2 ^ (32 - 1)) with (2 ^ 31); lia).
  assert (u64 p = p) as Hu by (apply wrap_id; unfold in_u; lia).
  unfold execute, httpclient_parser_execute, bind, gets, assert_, or_undef, ret. rewrite Hz.
  rewrite (proj2 (Z.leb_le 0 len)), Z.eqb_refl, (Hs32 len), (Hs32 0), Z.sub_0_r, (Hs32 len), Z.eqb_refl by lia.
  unfold ret. cbv beta iota. change (drop (Z.to_nat 0) (take (Z.to_nat len) mem)) with (take (Z.to_nat len) mem). rewrite Hrun.
  unfold after_machine, bind, on_parser, modify, gets, assert_, require, ret, fail. cbv beta iota.
  cbn [m_data m_error m_parser set_cs set_nread nread body_start mark field_len field_start].
  rewrite Hn, Z.add_0_l, Z.sub_0_r, Hu.
  rewrite (proj2 (Z.leb_le p len)), (proj2 (Z.leb_le (body_start _) len)), (proj2 (Z.ltb_lt (mark _) len)),
    (proj2 (Z.leb_le (field_len _) len)), (proj2 (Z.ltb_lt (field_start _) len)) by lia.
  unfold ret. cbn [negb]. cbv beta iota. rewrite Hs32, Hu, !bool_decide_eq_true_2 by lia. done.
Qed.

(** C4: a response that is printed and parsed comes back: for every response of version 1.0 or 1.1, with
    a status that is not negative, a reason without CR and LF, and headers whose names are tokens and
    whose values are not empty, do not begin with a blank and have no NUL, CR and LF (the parser drops
    leading blanks and refuses other versions), in a block that goes on with a NUL, [execute] of
    a fresh response parser on the text of [dump] stops right behind the head, finished and without error, with the same status, version and reason (the standard one if the
    response has none), every header under every spelling of its name (Connection and Content-Length
    as [dump] wrote them), and the body at the front of the block; the lines the automaton treats
    specially (Connection, Content-Length, Transfer-Encoding) are read like the others. *)
Theorem response_roundtrip (r : HttpResponse) (q : httpclient_parser) (post : list Z) (len : Z) :
  ordered (r_headers r) -> printable r ->
  len = Z.of_nat (String.length (dump_response r)) -> len < 2 ^ 31 ->
  exists mem' s',
    execute (bytes_of (dump_response r) ++ 0 :: post) len (new_HttpResponseParser q) =
      Ok (len - Z.of_nat (String.length (r_body r)), mem') s' /\
    isFinished s' = 1 /\ hasError s' = false /\
    take (String.length (r_body r)) mem' = bytes_of (r_body r) /\
    r_status (m_data s') = r_status r /\ r_version (m_data s') = r_version r /\
    r_reason (m_data s') = (if bool_decide (r_reason r = "") then http_status_to_chars (r_status r) else r_reason r) /\
    forall key def, rgetHeader key def (m_data s') =
      if decide (r_body r <> "" /\ canon key = canon "Content-Length") then dec (Z.of_nat (String.length (r_body r)))
      else if decide (canon key = canon "Connection") then (if r_close r then "close" else "keep-alive")
      else rgetHeader key def r.
Proof.
  intros Ho Hr El Hlen. rewrite <- length_bytes_of in El. rewrite <- (length_bytes_of (r_body r)).
  set (mem := bytes_of (dump_response r) ++ 0 :: post).
  destruct (rsp_machine_dump r q mem post len Hr Hlen El eq_refl) as (q' & Hm & H1 & H2 & H3 & H4 & H5).
  set (n := Z.of_nat (length (bytes_of (r_body r)))) in *.
  assert (n + 2 <= len) as Hb by (rewrite El, (rsp_dump_bytes r (p_status _ Hr)), !length_app; cbn [length]; lia).
  assert (execute mem len (new_HttpResponseParser q) =
    Ok (len - n, splice 0 (slice (Z.to_nat (len - n)) (Z.to_nat (len - (len - n))) mem) mem)
      (RespParser (reads_as r (new_HttpResponse 17 true)) 0 (set_nread (len - n) (set_cs 120 q')))) as ->.
  { apply (rsp_execute_run mem len (new_HttpResponseParser q) (len - n) 120
      (RespParser (reads_as r (new_HttpResponse 17 true)) 0 q')); cbn [m_parser]; try done; try lia.
    - unfold mem. rewrite length_app. cbn [length]. lia.
    - unfold bytes_at, mem. by rewrite El, Nat2Z.id, drop_app_length.
    - unfold mem at 2. by rewrite El, Nat2Z.id, take_app_length, <- El. }
  eexists _, _. split; [reflexivity|]. split; [done|]. split; [done|]. split.
  - replace (len - (len - n)) with n by lia. unfold n at 2. rewrite Nat2Z.id.
    assert (slice (Z.to_nat (len - n)) (length (bytes_of (r_body r))) mem = bytes_of (r_body r)) as Eb.
    { unfold mem. rewrite El, (rsp_dump_bytes r (p_status _ Hr)). rewrite (app_assoc (head_bytes r)). unfold slice.
      replace (Z.to_nat _) with (length (head_bytes r ++ [13; 10])) by (rewrite !length_app; unfold n; lia).
      rewrite <- app_assoc, drop_app_length. apply take_app_length. }
    rewrite Eb. apply (slice_splice 0). lia.
  - destruct (rsp_reads_as_line r (new_HttpResponse 17 true)) as (? & ? & ? & _). cbn [m_data].
    split_and!; try done. intros key def. rewrite rsp_reads_as_getHeader by done. unfold n. rewrite (length_bytes_of (r_body r)). done.
Qed.
Definition ex_response : HttpResponse :=
  set_rbody "hi" (rsetHeader "Transfer-Encoding" "chunked" (rsetHeader "Server" "cool/1.0.0"
    (set_status 404 (new_HttpResponse 17 true)))).

Lemma response_roundtrip_witness :
  exists mem' s',
    execute (bytes_of (dump_response ex_response) ++ [0]) 114 (new_HttpResponseParser ex_memory) = Ok (112, mem') s' /\
    r_status (m_data s') = 404 /\ r_reason (m_data s') = "Not Found" /\ rgetHeader "SERVER" "" (m_data s') = "cool/1.0.0".
Proof.
  destruct (response_roundtrip ex_response ex_memory [] 114)
    as (mem' & s' & H1 & _ & _ & _ & H2 & _ & H3 & H4).
  - repeat constructor.
  - constructor; try (by vm_compute); [by right|]. repeat constructor; by vm_compute.
  - by vm_compute.
  - lia.
  - exists mem', s'. split; [exact H1|]. split; [exact H2|]. rewrite H3, H4. clear. by vm_compute.
Defined.

(** ** Behaviour that is not intended *)

Definition ended (text : string) : option (Z * Z) :=
  match parse text with Ok _ s => Some (cs (m_parser s), isFinished s) | _ => None end.

(** The machine has four final states, [httpclient_parser_is_finished] knows one: a response whose last
    header is an empty Connection is read to its end and never reported as finished. *)
Example final_state_unknown :
  ended (HttpRoundtrip.text_of ["HTTP/1.1 200 OK"; "Connection:"; ""]) = Some (122, 0).
Proof. by vm_compute. Qed.

(** [nread] is not reset: the second piece of a response fails the assertion about it. *)
Definition piece1 : list Z := bytes_of (HttpRoundtrip.text_of ["HTTP/1.1 200 OK"; "Server: cool"]).
Definition piece2 : list Z := bytes_of (HttpRoundtrip.text_of ["A: b"; ""]).
Example second_piece_asserts :
  match execute (piece1 ++ [0]) (Z.of_nat (length piece1)) (new_HttpResponseParser ex_memory) with
  | Ok _ s => execute (piece2 ++ [0]) (Z.of_nat (length piece2)) s = Fail_ AssertFail
  | _ => False
  end.
Proof. by vm_compute. Qed.

End ResponseRoundtrip.
