(* ===== verification/ResponseGrammar.v ===== *)
(** * The grammar of responses: src/src/http/httpclient_parser.rl

    The productions of the grammar, by their names there, and the proof that the
    machine in httpclient_parser.rl.cpp recognises exactly the words of the grammar. *)

From stdpp Require Import prelude strings.
From Stdlib Require Import ZArith Lia Ascii.
From S2P Require Import Prelude Text Http Grammar Http11Parser HttpParser RequestGrammar HttpRoundtrip.
From S2P Require Import HttpClientParser ResponseParser ResponseRoundtrip.

Module ResponseGrammar.
Import Text Grammar.
Import RequestGrammar(between_, one_of, is_digit, is_alpha, schar_letter, then_ret).
Local Open Scope Z_scope.

(** ** Symbols
    [Fold c] is the character [c] of an expression [/.../i], in either case. *)
Inductive sym :=
  | Ch (c : Z)
  | Fold (c : Z)
  | any | digit | xdigit | token | reason_char | space.
#[global] Instance sym_eq_dec : EqDecision sym.
Proof. solve_decision. Defined.

(** [cntrl | 127] *)
Definition CTL (c : Z) : bool := between_ 0 c 31 || (c =? 127).
Definition tspecials (c : Z) : bool :=
  one_of [40; 41; 60; 62; 64; 44; 59; 58; 92; 34; 47; 91; 93; 63; 61; 123; 125; 32; 9] c.
Definition lower (c : Z) : Z := if between_ 65 c 90 then c + 32 else c.
Definition mem (s : sym) (c : Z) : bool :=
  match s with
  | Ch x => c =? x
  | Fold x => lower c =? lower x
  | any => between_ (-128) c 127
  | digit => is_digit c
  | xdigit => is_digit c || between_ 65 c 70 || between_ 97 c 102
  | token => between_ 0 c 127 && negb (CTL c || tspecials c)
  | reason_char => between_ (-128) c 127 && negb (c =? 10)
  | space => one_of [9; 10; 11; 12; 13; 32] c
  end.

(** ** Productions *)
Abbreviation exp := (re sym).
Definition ch (c : Z) : exp := Sym (Ch c).
Definition text (s : string) : exp := seq (ch <$> bytes_of s).
Definition text_i (s : string) : exp := seq ((fun c => Sym (Fold c)) <$> bytes_of s).
Definition of_sym (s : sym) : exp := Sym s.
Coercion of_sym : sym >-> re.

Definition CRLF : exp := Prod 1 (alt (seq [ch 13; ch 10]) [ch 10]).
Definition Reason_Phrase : exp := Prod 2 (plus reason_char).
Definition Status_Code : exp := Prod 3 (plus digit).
Definition http_number : exp := Prod 4 (seq [plus digit; ch 46; plus digit]).
Definition HTTP_Version : exp := Prod 5 (seq [text "HTTP/"; http_number]).
Definition Status_Line : exp := Prod 6 (Guard (seq [HTTP_Version; ch 32; Status_Code; ch 32; Reason_Phrase]) CRLF).
Definition field_name : exp := Prod 7 (plus token).
Definition field_value : exp := Prod 8 (Star any).
Definition fields : exp := Prod 9 (Guard (seq [field_name; ch 58; Star space; field_value]) CRLF).
Definition content_length : exp := Prod 10 (seq [text_i "Content-Length"; ch 58; Star space; plus digit; CRLF]).
Definition conn_close : exp := Prod 11 (seq [text_i "Connection"; ch 58; Star space; text_i "close"; CRLF]).
Definition transfer_encoding_chunked : exp :=
  Prod 12 (seq [text_i "Transfer-Encoding"; ch 58; Star space; text_i "chunked"; CRLF]).
Definition message_header : exp := Prod 13 (alt transfer_encoding_chunked [conn_close; content_length; fields]).
Definition Response : exp := Prod 14 (seq [Status_Line; Star message_header; CRLF]).
Definition chunk_ext_val : exp := Prod 15 (plus token).
Definition chunk_ext_name : exp := Prod 16 (plus token).
Definition chunk_extension : exp :=
  Prod 17 (Star (seq [ch 59; chunk_ext_name; opt (seq [ch 61; chunk_ext_val])])).
Definition chunk_size : exp := Prod 18 (plus xdigit).
Definition Chunked_Header : exp := Prod 19 (Guard (seq [chunk_size; chunk_extension]) CRLF).
Definition main : exp := Prod 20 (alt Response [Chunked_Header]).

(** The productions by their numbers. *)
Definition productions : list exp :=
  [CRLF; Reason_Phrase; Status_Code; http_number; HTTP_Version; Status_Line; field_name; field_value; fields;
   content_length; conn_close; transfer_encoding_chunked; message_header; Response; chunk_ext_val; chunk_ext_name;
   chunk_extension; chunk_size; Chunked_Header; main].
Definition body (n : Z) : exp :=
  match productions !! Z.to_nat (n - 1) with Some (Prod _ a) => a | _ => Eps end.

(** ** The machine *)
Definition target (l : Http11Parser.label) : Z :=
  match l with
  | Http11Parser.st m => m
  | Http11Parser.tr k => snd (ResponseParser.lookup_tr k)
  end.
Definition next (n : Z) : Z -> Z :=
  match ResponseParser.case_of n with
  | None => fun _ => 0
  | Some f => fun c => target (f c)
  end.
Definition final (n : Z) : bool := HttpClientParser.httpclient_parser_first_final <=? n.

(** The characters neither the grammar nor the machine distinguishes. *)
Definition classes : list (Z * Z * Z) :=
  [(-128, 8, -128); (9, 9, 9); (10, 10, 10); (11, 12, 9); (13, 13, 13); (14, 31, -128); (32, 32, 32);
   (33, 33, 33); (34, 34, -128); (35, 39, 33); (40, 41, -128); (42, 43, 33); (44, 44, -128); (45, 45, 45);
   (46, 46, 46); (47, 47, 47); (48, 57, 48); (58, 58, 58); (59, 59, 59); (60, 60, -128); (61, 61, 61);
   (62, 64, -128); (65, 65, 65); (66, 66, 66); (67, 67, 67); (68, 68, 68); (69, 69, 69); (70, 70, 70);
   (71, 71, 71); (72, 72, 72); (73, 73, 73); (74, 74, 33); (75, 75, 75); (76, 76, 76); (77, 77, 33); (78, 78, 78);
   (79, 79, 79); (80, 80, 80); (81, 81, 33); (82, 82, 82); (83, 83, 83); (84, 84, 84); (85, 85, 85); (86, 90, 33);
   (91, 93, -128); (94, 96, 33); (97, 97, 65); (98, 98, 66); (99, 99, 67); (100, 100, 68); (101, 101, 69);
   (102, 102, 70); (103, 103, 71); (104, 104, 104); (105, 105, 73); (106, 106, 33); (107, 107, 75);
   (108, 108, 76); (109, 109, 33); (110, 110, 78); (111, 111, 79); (112, 113, 33); (114, 114, 82); (115, 115, 83);
   (116, 116, 116); (117, 117, 85); (118, 122, 33); (123, 123, -128); (124, 124, 33); (125, 125, -128);
   (126, 126, 33); (127, 127, -128)].
Definition alphabet : list sym :=
  (Ch <$> [10; 13; 32; 46; 47; 58; 59; 61; 72; 80; 84]) ++
  (Fold <$> bytes_of "Content-LengthConnectioncloseTransfer-Encodingchunked") ++
  [any; digit; xdigit; token; reason_char; space].

(** ** The machine recognises the grammar *)
Definition responses : language := lang mem main.
(** A bound for the moves between the states of the machine and the expressions they stand for. *)
Definition enough : nat := Z.to_nat 9000.
Lemma rsp_recognised :
  passes mem alphabet body classes next final HttpClientParser.httpclient_parser_start main enough = true.
Proof. vm_cast_no_check (eq_refl true). Qed.
Abbreviation state_after := (state_after next HttpClientParser.httpclient_parser_start).
Abbreviation consumed := (consumed mem next HttpClientParser.httpclient_parser_start main).

(** ** The parser *)
(** A final state is only entered by a transition with the action [done], and no other has it. *)
Definition stops_right (l : Http11Parser.label) : bool :=
  match l with
  | Http11Parser.st n => (0 <=? n) && negb (final n)
  | Http11Parser.tr k =>
    let '(l, n) := ResponseParser.lookup_tr k in
    Bool.eqb (bool_decide (HttpClientParser.done_ ∈ l)) (final n) && (1 <=? n)
  end.
Lemma rsp_stops_automaton : forallb (fun n =>
  match ResponseParser.case_of n with
  | None => false
  | Some f => forallb (fun c => stops_right (f c)) chars
  end) (seqZ 1 119) = true.
Proof. vm_cast_no_check (eq_refl true). Qed.
Lemma rsp_case_stops n c : 1 <= n < 120 -> letter c ->
  exists f, ResponseParser.case_of n = Some f /\ stops_right (f c) = true.
Proof.
  intros Hn Hc. pose proof rsp_stops_automaton as H. rewrite forallb_forall in H.
  specialize (H n ltac:(apply list_elem_of_In, elem_of_seqZ; lia)). destruct (ResponseParser.case_of n) as [f|]; [|done].
  exists f. split; [done|]. rewrite forallb_forall in H.
  apply H, list_elem_of_In, elem_of_seqZ. unfold letter in Hc. lia.
Qed.

Section parser.
Context (data : list Z) (pe : Z).
(** The actions leave the counter of characters alone, and only [done] stops the machine. *)
Definition counts (n : Z) (s : ResponseParser.HttpResponseParser) : Prop :=
  ResponseParser.nread (ResponseParser.m_parser s) = n.
Lemma counts_on_data n f : keeps (counts n) (ResponseParser.on_data f).
Proof. by intros s Hs. Qed.
Lemma counts_set_error n v : keeps (counts n) (ResponseParser.set_error v).
Proof. by intros s Hs. Qed.
Lemma counts_string_at n at_ l : keeps (counts n) (HttpParser.string_at data at_ l).
Proof. unfold HttpParser.string_at. destruct (_ <? l); auto with keeps. Qed.
Lemma counts_or_undef {A} n (o : option A) : keeps (counts n) (HttpParser.or_undef o).
Proof. destruct o; cbn; auto with keeps. Qed.
Lemma counts_on_parser n f : (forall q, ResponseParser.nread (f q) = ResponseParser.nread q) ->
  keeps (counts n) (ResponseParser.on_parser f).
Proof. intros Hf s Hs. unfold counts. cbn. by rewrite Hf. Qed.
#[local] Hint Resolve counts_on_data counts_set_error counts_string_at counts_or_undef : keeps.
#[local] Hint Extern 2 (keeps _ (ResponseParser.on_parser _)) => apply counts_on_parser; done : keeps.
#[local] Hint Extern 3 (keeps _ (if _ then _ else _)) => case_match : keeps.
Lemma act_counts n a pos : keeps (counts n) (ResponseParser.act data pe a pos).
Proof.
  unfold ResponseParser.act. apply keeps_bind; [auto with keeps|]. intros q.
  destruct a; unfold ResponseParser.on_response_http_field, ResponseParser.on_response_status,
    ResponseParser.on_response_reason, ResponseParser.on_response_version, ResponseParser.on_response_chunk,
    ResponseParser.on_response_last_chunk, ResponseParser.on_response_header_done; eauto 12 with keeps.
Qed.
Lemma rsp_act_stop a pos s stop s' :
  ResponseParser.act data pe a pos s = Ok stop s' -> stop = bool_decide (a = HttpClientParser.done_).
Proof.
  unfold ResponseParser.act. intros H. inv_bind H.
  destruct a; repeat first [by apply then_ret in H | inv_bind H].
Qed.
Lemma rsp_acts_stop l pos : forall s stop s',
  ResponseParser.acts data pe l pos s = Ok stop s' -> stop = bool_decide (HttpClientParser.done_ ∈ l).
Proof.
  induction l as [|a l IH]; intros s stop s' H; cbn in H.
  - by injection H as <- _.
  - inv_bind H. apply rsp_act_stop in H0 as ->. destruct (decide (a = HttpClientParser.done_)) as [->|Hn].
    + rewrite bool_decide_eq_true_2 in H by done. injection H as <- _. symmetry. apply bool_decide_eq_true. by left.
    + rewrite bool_decide_eq_false_2 in H by done. apply IH in H as ->. apply bool_decide_ext. set_solver.
Qed.
Lemma acts_counts n l pos : keeps (counts n) (ResponseParser.acts data pe l pos).
Proof.
  induction l as [|a l IH]; cbn; [auto with keeps|]. apply keeps_bind; [apply act_counts|]. intros []; auto with keeps.
Qed.

(** The machine with its actions reads as the automaton that stops at a final state does. *)
Lemma rsp_machine_scan i rest : forall pos c s p c' s',
  Forall (fun b => 0 <= b < 256) rest -> 1 <= c < 120 -> counts i s ->
  ResponseParser.machine data pe rest pos c s = Ok (p, c') s' ->
  (let '(k, m) := scan next final c (HttpParser.schar <$> rest) in p = pos + Z.of_nat k /\ c' = m) /\ counts i s'.
Proof.
  induction rest as [|b rest IH]; intros pos c s p c' s' Hb Hc Hi H.
  { cbn in H |- *. injection H as <- <- <-. split; [lia|done]. }
  apply Forall_cons in Hb as [Hb Hrest]. cbn [ResponseParser.machine] in H.
  destruct (rsp_case_stops c (HttpParser.schar b) Hc (schar_letter b Hb)) as (f & Ef & Hs).
  rewrite Ef in H. assert (next c (HttpParser.schar b) = target (f (HttpParser.schar b))) as En by (unfold next; by rewrite Ef).
  cbn [fmap list_fmap scan]. rewrite En.
  destruct (f (HttpParser.schar b)) as [n|t]; cbn [target stops_right] in *.
  - destruct (Z.eq_dec n 0) as [->|Hn].
    + injection H as <- <- <-. cbn. split; [lia|done].
    + apply andb_true_iff in Hs as [Hs Hf%negb_true_iff]. rewrite (proj2 (Z.eqb_neq n 0) Hn), Hf.
      assert (1 <= n < 120) as Hn' by (unfold final, HttpClientParser.httpclient_parser_first_final in Hf; lia).
      replace (match n with 0 => ret (pos, 0) | _ => ResponseParser.machine data pe rest (pos + 1) n end)
        with (ResponseParser.machine data pe rest (pos + 1) n) in H by (by destruct n).
      specialize (IH _ _ _ _ _ _ Hrest Hn' Hi H). destruct (scan _ _ n _) as [k m]. split; [lia|apply IH].
  - destruct (ResponseParser.lookup_tr t) as [l n]. cbn [snd]. apply andb_true_iff in Hs as [Hd%Bool.eqb_prop Hn].
    rewrite (proj2 (Z.eqb_neq n 0)) by lia. inv_bind H. pose proof (acts_counts i l pos s Hi) as Hi'.
    rewrite H0 in Hi'. apply rsp_acts_stop in H0 as ->. rewrite Hd in H. destruct (final n) eqn:Hf.
    + injection H as <- <- <-. split; [lia|done].
    + assert (1 <= n < 120) as Hn' by (unfold final, HttpClientParser.httpclient_parser_first_final in Hf; lia).
      specialize (IH _ _ _ _ _ _ Hrest Hn' Hi' H). destruct (scan _ _ n _) as [k m]. split; [lia|apply IH].
Qed.
End parser.

(** A call of [execute] that returns, on a parser that has not read anything: what the machine did. *)
Lemma execute_machine (data : list Z) (len : Z) s n mem' s' :
  0 <= len < 2 ^ 31 -> counts 0 s -> 1 <= ResponseParser.cs (ResponseParser.m_parser s) < 120 ->
  Forall (fun b => 0 <= b < 256) data ->
  ResponseParser.execute data len s = Ok (n, mem') s' ->
  let '(k, m) := scan next final (ResponseParser.cs (ResponseParser.m_parser s))
    (HttpParser.schar <$> take (Z.to_nat len) data) in
  n = Z.of_nat k /\ ResponseParser.cs (ResponseParser.m_parser s') = m.
Proof.
  intros Hlen Hn Hc Hb. unfold ResponseParser.execute, ResponseParser.httpclient_parser_execute. intros H.
  inv_bind H. inv_bind H. apply require_Ok in H1 as [Hr ->]. injection H as <- <- <-.
  do 5 inv_bind H0. injection H as <- <-. apply assert_Ok in H1 as [_ ->].
  assert (s3 = s) as ->. { unfold HttpParser.or_undef in H2. destruct (head _); [|done]. by injection H2. }
  apply assert_Ok in H3 as [_ ->]. apply assert_Ok in H4 as [_ ->]. inv_bind H0. destruct y1 as [p c].
  destruct (rsp_machine_scan data len 0 _ _ _ _ _ _ _ (Forall_take _ (Z.to_nat len) _ Hb) Hc Hn H) as [Hs Hi].
  destruct (scan _ _ _ _) as [k m] eqn:Ek. destruct Hs as [-> ->]. rewrite Z.add_0_l in *.
  unfold ResponseParser.after_machine in H0. do 2 inv_bind H0. injection H1 as _ <-. injection H3 as _ <-.
  inv_bind H0. injection H1 as <- <-. do 3 inv_bind H0. apply assert_Ok in H1 as [Hk ->].
  apply assert_Ok in H3 as [_ ->]. apply assert_Ok in H4 as [_ ->]. cbn -[u64 s32] in H0, Hk.
  apply andb_true_iff in Hr as [Hr%bool_decide_eq_true _]. unfold counts in Hi. rewrite Hi in H0.
  assert (u64 (-1) = 2 ^ 64 - 1) as Eu by done.
  repeat match type of H0 with (if ?b then _ else _) _ = _ => destruct b end; injection H0 as <- <-; [lia..|].
  split; [|done]. assert (0 <= Z.of_nat k < 2 ^ 31) as Hk' by lia.
  rewrite Z.add_0_l, Z.sub_0_r, (wrap_id 64 (Z.of_nat k)), swrap_id, wrap_id; unfold in_u, in_s; lia.
Qed.

(** C7: the generated response parser recognises the grammar it was generated from.  The automaton is in a
    final state exactly after the words of the grammar in httpclient_parser.rl (responses and chunk
    headers), and it is in the error state exactly when what it has read cannot be continued to one.
    Whenever [execute] of a fresh parser returns: in a final state it has consumed the shortest word of
    the grammar and nothing behind it; in the error state it has stopped in front of the first byte that
    cannot be part of one; otherwise it has consumed everything, and more can make it a word. *)
Theorem response_grammar :
  (forall w, Forall letter w ->
    (final (state_after w) = true <-> responses w) /\ (state_after w <> 0 <-> viable responses w)) /\
  (forall data len q n mem' s',
    Forall (fun b => 0 <= b < 256) data -> 0 <= len < 2 ^ 31 ->
    ResponseParser.execute data len (ResponseParser.new_HttpResponseParser q) = Ok (n, mem') s' ->
    let w := HttpParser.schar <$> take (Z.to_nat len) data in
    let c := ResponseParser.cs (ResponseParser.m_parser s') in
    if ResponseParser.httpclient_parser_has_error (ResponseParser.m_parser s') then refused responses w (Z.to_nat n)
    else if final c then first_word responses w (Z.to_nat n)
    else Z.to_nat n = length w /\ awaited responses w).
Proof.
  split; [exact (accepts_spec _ _ _ _ _ _ _ _ _ rsp_recognised)|].
  intros data len q n mem' s' Hb Hlen H w c.
  pose proof (execute_machine data len (ResponseParser.new_HttpResponseParser q) _ _ _ Hlen eq_refl ltac:(done) Hb H) as He.
  assert (Forall letter w) as Hl.
  { apply Forall_fmap. eapply Forall_impl; [by apply Forall_take|]. exact schar_letter. }
  pose proof (scan_outcome _ _ _ _ _ _ _ _ _ rsp_recognised [] w _ (consumed_nil _ _ _ _ _ _ _ _ _ rsp_recognised) Hl) as Ho.
  cbn [ResponseParser.cs ResponseParser.m_parser ResponseParser.new_HttpResponseParser
    ResponseParser.httpclient_parser_init] in He. fold w in He.
  destruct (scan _ _ _ w) as [k m]. destruct He as [-> Ec]. unfold ResponseParser.httpclient_parser_has_error.
  subst c. rewrite Ec, Nat2Z.id. unfold HttpClientParser.httpclient_parser_error.
  destruct (m =? 0); [done|]. destruct (final m); [done|]. destruct Ho as [-> (_ & Ha & _)]. done.
Qed.

(** ** Examples *)
Definition word_of (t : string) : word := HttpParser.schar <$> bytes_of t.
Definition ex_head : string := HttpRoundtrip.text_of ["HTTP/1.1 200 OK"; "Content-Length: 2"; ""].
Definition ex_data : list Z := bytes_of ex_head ++ [104; 105; 0].
Lemma response_grammar_witness :
  responses (word_of ex_head) /\ first_word responses (HttpParser.schar <$> take 40 ex_data) 38.
Proof.
  split.
  - apply (proj1 response_grammar); [apply letters_spec|]; by vm_compute.
  - pose proof (proj2 response_grammar ex_data 40 ResponseParser.ex_memory) as H.
    destruct (ResponseParser.execute ex_data 40 (ResponseParser.new_HttpResponseParser ResponseParser.ex_memory))
      as [[n mem'] s'| |] eqn:E; [|vm_compute in E; done..].
    specialize (H n mem' s' ltac:(apply (bool_decide_unpack _); vm_compute; exact I) ltac:(lia) eq_refl).
    vm_compute in E. injection E as <- <- <-. exact H.
Defined.

(** ** Behaviour that is not intended *)
(** The spaces behind a colon include line ends, so that a header of its own may begin behind
    [Transfer-Encoding:]; its [start_field] overwrites the start of the field, and when the line turns out to be
    the value [chunked], [write_value] hands the callback the old length from the new start: the text is a
    part of the grammar, and reading it reads behind the end of the data. *)
Definition split_field : string := HttpRoundtrip.text_of ["HTTP/1.1 200 OK"; "Transfer-Encoding:"; "chunked"].
Example split_field_overreads :
  viable responses (word_of split_field) /\ ResponseParser.parse split_field = Fail_ Undef.
Proof.
  split; [|by vm_compute]. apply (accepts_spec _ _ _ _ _ _ _ _ _ rsp_recognised); [|by vm_compute].
  apply letters_spec. by vm_compute.
Qed.
(** The same happens with the length of the body. *)
Example split_length_overreads :
  ResponseParser.parse (HttpRoundtrip.text_of ["HTTP/1.1 200 OK"; "Content-Length:"; "5"]) = Fail_ Undef.
Proof. by vm_compute. Qed.
End ResponseGrammar.
