(* ===== verification/HttpSession.v ===== *)
(** * HTTP sessions and the HTTP server: src/src/http/http_session.h, http_session.cpp,
    http_server.h, http_server.cpp

    A session is a stream; the code is written against the stream interface.  The
    buffer size, the contents of fresh memory, [boost::lexical_cast] and [fnmatch]
    are parameters. *)

From stdpp Require Import prelude strings.
From Stdlib Require Import ZArith Lia Ascii.
From S2P Require Import Prelude Text Stream Http Servlet Http11Parser HttpParser HttpRoundtrip.

Module HttpSession.
Import Text Http Stream HttpRoundtrip(message, Message, g_method, g_path, g_query, g_fragment, g_version, g_lines, g_body,
  message_bytes, well_formed, parsed, execute_message, last_value, parsed_find, parsed_line, message_of).
Local Open Scope Z_scope.

Section session.
Context {S : Type} `{!Stream S}.
Context (lexical_cast : string -> option Z).

(** A call of the parser, which is an object of its own. *)
Definition on_parser {A} (m : HttpParser.cmd A) (parser : HttpParser.HttpRequestParser) : cmd S (A * HttpParser.HttpRequestParser) :=
  fun s => match m parser with
           | Ok a p => Ok (a, p) s
           | Throw e _ => Throw e s
           | Fail_ f => Fail_ f
           end.

(** [close(); return nullptr] *)
Definition close_none {A} : cmd S (option A) := close ;;; ret None.

(** The loop: the request parser, what the buffer holds and how much of it is unparsed at the end. *)
Fixpoint recv_loop (fuel : nat) (buf_size : Z) (parser : HttpParser.HttpRequestParser) (data : list Z) (offset : Z)
    : cmd S (option (HttpParser.HttpRequestParser * list Z * Z)) :=
  match fuel with
  | O => fail OutOfFuel
  | Datatypes.S fuel =>
    let* r := read (u64 (buf_size - offset)) in
    let '(len, bs) := r in
    require (bool_decide (0 <= offset) && bool_decide (offset + Z.of_nat (length bs) <= Z.of_nat (length data))) ;;;
    let data := splice (Z.to_nat offset) bs data in
    if len <=? 0 then close_none
    else
      let len := s32 (len + offset) in
      let* x := on_parser (HttpParser.execute data (u64 len)) parser in
      let '((nparse, data), parser) := x in
      if HttpParser.hasError parser then close_none
      else
        let offset := s32 (u64 (len - nparse)) in
        if offset =? s32 buf_size then close_none
        else if negb (HttpParser.isFinished parser =? 0) then ret (Some (parser, data, offset))
        else recv_loop fuel buf_size parser data offset
  end.

(** [body.append(data, n)] *)
Definition append (body : list Z) (data : list Z) (n : Z) : cmd S (list Z) :=
  require (bool_decide (0 <= n) && bool_decide (n <= Z.of_nat (length data))) ;;;
  ret (body ++ take (Z.to_nat n) data).

(** What follows the loop; [&body[body.size()]] points at the terminator of the string, the only byte behind
    its contents, which must stay as it is. *)
Definition recv_body (fuel : nat) (parser : HttpParser.HttpRequestParser) (data : list Z) (offset : Z)
    : cmd S (option HttpRequest) :=
  let length_ := s64 (HttpParser.content_length lexical_cast parser) in
  if 0 <? length_ then
    (if HttpParser.max_size <? length_ then throw length_error else ret tt) ;;;
    let body := replicate (Z.to_nat length_) 0 in
    let* body := append body data (if offset <=? length_ then offset else length_) in
    let length_ := length_ - offset in
    let* ok :=
      (if 0 <? length_ then
         let* r := readFixSize fuel [0] length_ in
         require (bool_decide (snd r = [0])) ;;;
         ret (negb (fst r <=? 0))
       else ret true) in
    if ok : bool then ret (Some (set_body (to_text body) (HttpParser.m_data parser))) else close_none
  else ret (Some (HttpParser.m_data parser)).

(** [q] and [data] are the memory of the new parser and of the new buffer. *)
Definition recvRequest (fuel : nat) (buf_size : Z) (q : HttpParser.http_parser) (data : list Z) : cmd S (option HttpRequest) :=
  let* r := recv_loop fuel buf_size (HttpParser.new_HttpRequestParser q) data 0 in
  match r with
  | None => ret None
  | Some (parser, data, offset) => recv_body fuel parser data offset
  end.

Definition sendResponse (fuel : nat) (rsp : HttpResponse) : cmd S Z :=
  let data := bytes_of (dump_response rsp) in
  writeFixSize fuel data (Z.of_nat (length data)).

(** ** HttpServer *)

Record HttpServer := Server {
  m_is_keep_alive : bool;
  m_dispatch : Servlet.ServletDispatch (W := S)
}.
Definition new_HttpServer (keepalive : bool) : HttpServer := Server keepalive Servlet.new_ServletDispatch.
Definition set_servlet_dispatch (v : Servlet.ServletDispatch) (server : HttpServer) : HttpServer :=
  Server (m_is_keep_alive server) v.

Context (fnmatch : list Z -> list Z -> bool).
(** The size of the buffers, and the memory of the [k]-th request's parser and buffer. *)
Context (buf_size : Z) (memory : nat -> HttpParser.http_parser * list Z).

Fixpoint client_loop (fuel : nat) (server : HttpServer) (k : nat) : cmd S unit :=
  match fuel with
  | O => fail OutOfFuel
  | Datatypes.S fuel =>
    let* req := recvRequest fuel buf_size (fst (memory k)) (snd (memory k)) in
    match req with
    | None => ret tt
    | Some req =>
      let rsp := new_HttpResponse (m_version req) (m_close req || negb (m_is_keep_alive server)) in
      let* rsp := (fun s => let '(_, rsp, s) := Servlet.dispatch fnmatch (m_dispatch server) req rsp s in Ok rsp s) in
      let* _ := sendResponse fuel rsp in
      if m_is_keep_alive server then client_loop fuel server (k + 1) else ret tt
    end
  end.
(** The session is destroyed at the end of its scope, also by an exception: it closes. *)
Definition in_scope (m : cmd S unit) : cmd S unit :=
  fun s => match m s with
           | Ok _ s1 => close s1
           | Throw e s1 => match close s1 with Ok _ s2 => Throw e s2 | r => r end
           | Fail_ f => Fail_ f
           end.
Definition handle_client (fuel : nat) (server : HttpServer) : cmd S unit :=
  in_scope (client_loop fuel server 0 ;;; close).

(** ** Behaviour *)

(** The length of the body as the headers give it, 0 where they do not. *)
Definition announced (g : message) : Z :=
  match last_value "content-length" (snd <$> g_lines g) with
  | Some v => default 0 (lexical_cast v)
  | None => 0
  end.
(** The request as the session hands it on: the body has as many zero bytes before it. *)
Definition received (g : message) : HttpRequest :=
  let n := Z.to_nat (announced g) in
  if announced g =? 0 then parsed g
  else set_body (to_text (replicate n 0 ++ take n (g_body g))) (parsed g).

Lemma content_length_announced g q :
  HttpParser.content_length lexical_cast (HttpParser.RequestParser 0 (parsed g) q) = announced g.
Proof. unfold HttpParser.content_length, getHeaderAs, getAs. cbn [HttpParser.m_data]. by rewrite parsed_find. Qed.

Lemma finished_state e d q : HttpParser.cs q = 348 -> e = 0 ->
  HttpParser.hasError (HttpParser.RequestParser e d q) = false /\ HttpParser.isFinished (HttpParser.RequestParser e d q) = 1.
Proof.
  intros Hcs ->. unfold HttpParser.hasError, HttpParser.isFinished, HttpParser.http_parser_finish,
    HttpParser.http_parser_has_error, HttpParser.http_parser_is_finished. simpl. by rewrite Hcs.
Qed.

(** The loop when the first read brings a whole request. *)
Lemma recv_whole g q data s s1 fuel :
  well_formed g ->
  let text := message_bytes g in
  Z.of_nat (length data) = buf_size -> buf_size < 2 ^ 31 -> Z.of_nat (length text) + 11 <= buf_size ->
  Forall (fun b => 0 <= b < 256) data ->
  read buf_size s = Ok (Z.of_nat (length text), text) s1 -> (0 < fuel)%nat ->
  exists mem' q',
    recv_loop fuel buf_size (HttpParser.new_HttpRequestParser q) data 0 s =
      Ok (Some (HttpParser.RequestParser 0 (parsed g) q', mem', Z.of_nat (length (g_body g)))) s1 /\
    take (length (g_body g)) mem' = g_body g /\ (length (g_body g) <= length mem')%nat /\
    Z.of_nat (length (g_body g)) < 2 ^ 31.
Proof.
  intros Hg text Ed Hb Ht Hd Hread Hf. destruct fuel as [|fuel]; [lia|]. cbn [recv_loop].
  assert (forall z, 0 <= z < 2 ^ 31 -> s32 z = z) as Hs32
    by (intros z ?; apply swrap_id; [lia|]; unfold in_s; change (2 ^ (32 - 1)) with (2 ^ 31); lia).
  assert (forall z, 0 <= z < 2 ^ 31 -> u64 z = z) as Hu64 by (intros z ?; apply wrap_id; unfold in_u; lia).
  assert (splice (Z.to_nat 0) text data = text ++ drop (length text) data) as Esp by done.
  destruct (execute_message g q (drop (length text) data) (Z.of_nat (length text))) as (mem' & q' & E & Hcs & Htk & Hlb & Hlm).
  { done. } { done. } { lia. } { by apply Forall_drop. } { rewrite length_drop. lia. }
  fold text in E. rewrite Z.sub_0_r, Hu64 by lia. unfold bind at 1. rewrite Hread.
  rewrite !bool_decide_eq_true_2 by lia. unfold bind at 1, require, ret at 1. cbn [andb].
  rewrite (proj2 (Z.leb_gt _ 0)), Z.add_0_r, Hs32, Hu64, Esp by lia.
  unfold bind at 1, on_parser. rewrite E. destruct (finished_state 0 (parsed g) q' Hcs eq_refl) as [-> ->].
  replace (Z.of_nat (length text) - (Z.of_nat (length text) - Z.of_nat (length (g_body g))))
    with (Z.of_nat (length (g_body g))) by lia.
  rewrite Hu64, !Hs32, (proj2 (Z.eqb_neq _ buf_size)) by lia.
  exists mem', q'. split; [done|]. split; [done|]. split; [|lia]. rewrite Hlm, length_app. fold text. lia.
Qed.

Lemma recvRequest_whole g q data s s1 fuel :
  well_formed g -> 0 <= announced g <= Z.of_nat (length (g_body g)) ->
  let text := message_bytes g in
  Z.of_nat (length data) = buf_size -> buf_size < 2 ^ 31 -> Z.of_nat (length text) + 11 <= buf_size ->
  Forall (fun b => 0 <= b < 256) data ->
  read buf_size s = Ok (Z.of_nat (length text), text) s1 -> (0 < fuel)%nat ->
  recvRequest fuel buf_size q data s = Ok (Some (received g)) s1.
Proof.
  intros Hg Ha text Ed Hb Ht Hd Hread Hf.
  destruct (recv_whole g q data s s1 fuel) as (mem' & q' & E & Htk & Hlm & Hl); [done..|].
  unfold recvRequest, bind at 1. rewrite E. unfold recv_body. rewrite content_length_announced.
  set (n := announced g) in *.
  assert (s64 n = n) as -> by (apply swrap_id; [lia|]; unfold in_s; change (2 ^ (64 - 1)) with (2 ^ 63); lia).
  unfold received. fold n. destruct (Z.eqb_spec n 0) as [->|Hn]; [done|].
  rewrite (proj2 (Z.ltb_lt 0 _)), (proj2 (Z.ltb_ge HttpParser.max_size _)) by (unfold HttpParser.max_size; lia).
  unfold bind at 1, ret at 1. unfold append, bind, require, ret.
  rewrite (proj2 (Z.ltb_ge 0 _)) by lia.
  assert ((if Z.of_nat (length (g_body g)) <=? n then Z.of_nat (length (g_body g)) else n) = n) as ->
    by (destruct (Z.leb_spec (Z.of_nat (length (g_body g))) n); lia).
  rewrite !bool_decide_eq_true_2 by lia. cbn [andb].
  rewrite <- Htk, take_take, Nat.min_l by lia. done.
Qed.

Lemma sendResponse_all rsp s s' fuel :
  Z.of_nat (String.length (dump_response rsp)) < 2 ^ 31 -> (String.length (dump_response rsp) < fuel)%nat ->
  writes s (bytes_of (dump_response rsp)) [] s' ->
  sendResponse fuel rsp s = Ok (Z.of_nat (String.length (dump_response rsp))) s'.
Proof. rewrite <- length_bytes_of. intros H1 H2 H3. by apply writeFixSize_all. Qed.

Lemma received_fields g :
  m_method (received g) = g_method g /\ m_version (received g) = g_version g /\ m_path (received g) = g_path g /\
  m_query (received g) = g_query g /\ m_fragment (received g) = g_fragment g /\ m_close (received g) = true /\
  m_body (received g) = to_text (replicate (Z.to_nat (announced g)) 0 ++ take (Z.to_nat (announced g)) (g_body g)) /\
  forall key def, getHeader key def (received g) = default def (last_value key (snd <$> g_lines g)).
Proof.
  destruct (parsed_line g) as (? & ? & ? & ? & ? & ? & ?). unfold received.
  destruct (Z.eqb_spec (announced g) 0) as [E|_]; split_and!; try done.
  - by rewrite E.
  - intros key def. unfold getHeader, get_or. rewrite parsed_find. by destruct (last_value _ _).
  - intros key def. change (getHeader key def (set_body _ (parsed g))) with (getHeader key def (parsed g)).
    unfold getHeader, get_or. rewrite parsed_find. by destruct (last_value _ _).
Qed.

(** The whole handler when the first read brings a whole request. *)
Lemma handle_client_whole (server : HttpServer) (g : message) (s s1 : S) (fuel : nat) code rsp s2 s3 s4 s5 :
  well_formed g -> 0 <= announced g <= Z.of_nat (length (g_body g)) ->
  Z.of_nat (length (snd (memory 0))) = buf_size -> Forall (fun b => 0 <= b < 256) (snd (memory 0)) ->
  buf_size < 2 ^ 31 -> Z.of_nat (length (message_bytes g)) + 11 <= buf_size ->
  read buf_size s = Ok (Z.of_nat (length (message_bytes g)), message_bytes g) s1 ->
  m_is_keep_alive server = false ->
  Servlet.dispatch fnmatch (m_dispatch server) (received g) (new_HttpResponse (g_version g) true) s1 = (code, rsp, s2) ->
  Z.of_nat (String.length (dump_response rsp)) < 2 ^ 31 -> (String.length (dump_response rsp) + 1 < fuel)%nat ->
  writes s2 (bytes_of (dump_response rsp)) [] s3 -> close s3 = Ok tt s4 -> close s4 = Ok tt s5 ->
  handle_client fuel server s = Ok tt s5.
Proof.
  intros Hg Ha Ed Hd Hb Ht Hread Hk Hdisp Hl Hfuel Hw Hcl Hcl'.
  destruct (received_fields g) as (_ & Hv & _ & _ & _ & Hc & _). destruct fuel as [|fuel]; [lia|].
  unfold handle_client, in_scope, bind at 1. cbn [client_loop]. unfold bind at 1.
  rewrite (recvRequest_whole g (fst (memory 0)) (snd (memory 0)) s s1) by (done || lia). unfold bind at 1.
  rewrite Hv, Hc, Hk. cbn [orb negb]. rewrite Hdisp. unfold bind at 1. rewrite (sendResponse_all rsp s2 s3) by (done || lia).
  unfold ret. by rewrite Hcl.
Qed.

(** C1: a request that arrives in one piece is answered.  Let the first read of a session bring a whole
    request: a method of the table other than M-SEARCH, an absolute path (not beginning with two
    slashes) with an optional non-empty query and fragment, percent-encoded bytes allowed, HTTP/1.0
    or 1.1, then header lines in any order, each a token, a colon, any spaces and tabs and a value
    without leading blanks, NUL, CR, LF and DEL, all lines ended by CRLF, and at least as many bytes of
    body as its last Content-Length, as [lexical_cast] reads it, announces (0 without one or where it
    is unreadable); let it leave eleven bytes of the buffer free.  Then the session hands the dispatcher
    that request: method, version, path, query and fragment as they were sent, under each name in any
    spelling the value of the last line with it, and the announced part of the body behind as many zero
    bytes.  A server without keep-alive whose peer takes the whole answer writes exactly the text of
    the response that the servlet has made of it, a response that closes, and then closes the stream
    (the destructor of the session closes it once more). *)
Theorem handle_client_outcome (server : HttpServer) (g : message) (s s1 : S) (fuel : nat) :
  well_formed g -> 0 <= announced g <= Z.of_nat (length (g_body g)) ->
  Z.of_nat (length (snd (memory 0))) = buf_size -> Forall (fun b => 0 <= b < 256) (snd (memory 0)) ->
  buf_size < 2 ^ 31 -> Z.of_nat (length (message_bytes g)) + 11 <= buf_size ->
  read buf_size s = Ok (Z.of_nat (length (message_bytes g)), message_bytes g) s1 ->
  m_is_keep_alive server = false ->
  exists req,
    (m_method req = g_method g /\ m_version req = g_version g /\ m_path req = g_path g /\ m_query req = g_query g /\
     m_fragment req = g_fragment g /\
     m_body req = to_text (replicate (Z.to_nat (announced g)) 0 ++ take (Z.to_nat (announced g)) (g_body g)) /\
     forall key def, getHeader key def req = default def (last_value key (snd <$> g_lines g))) /\
    ((0 < fuel)%nat -> recvRequest fuel buf_size (fst (memory 0)) (snd (memory 0)) s = Ok (Some req) s1) /\
    forall code rsp s2 s3 s4 s5,
      Servlet.dispatch fnmatch (m_dispatch server) req (new_HttpResponse (g_version g) true) s1 = (code, rsp, s2) ->
      Z.of_nat (String.length (dump_response rsp)) < 2 ^ 31 -> (String.length (dump_response rsp) + 1 < fuel)%nat ->
      writes s2 (bytes_of (dump_response rsp)) [] s3 -> close s3 = Ok tt s4 -> close s4 = Ok tt s5 ->
      handle_client fuel server s = Ok tt s5.
Proof.
  intros Hg Ha Ed Hd Hb Ht Hread Hk.
  destruct (received_fields g) as (Hm & Hv & Hp & Hq & Hf & Hc & Hbo & Hh). exists (received g). split; [done|].
  split; [intros Hfu; by apply recvRequest_whole|].
  intros code rsp s2 s3 s4 s5. intros. by eapply (handle_client_whole server g s s1).
Qed.

(** ** A request that is not returned *)

Definition closed_at (s' : S) : Prop := exists s1, close s1 = Ok tt s'.

Lemma close_none_closed {A} s o s' : close_none (A := A) s = Ok o s' -> o = None /\ closed_at s'.
Proof.
  unfold close_none, bind, ret. destruct (close s) as [[] s1| |] eqn:E; [|done..]. intros [= <- <-]. split; [done|by exists s].
Qed.

Lemma recv_loop_closed fuel : forall parser data offset s s',
  recv_loop fuel buf_size parser data offset s = Ok None s' -> closed_at s'.
Proof.
  induction fuel as [|fuel IH]; intros parser data offset s s' H; [done|]. cbn [recv_loop] in H.
  apply bind_Ok in H as ([len bs] & s1 & _ & H). apply bind_Ok in H as (_ & s2 & _ & H).
  destruct (len <=? 0); [by apply close_none_closed in H as [_ H]|].
  apply bind_Ok in H as ([[np data'] p'] & s3 & _ & H).
  destruct (HttpParser.hasError p'); [by apply close_none_closed in H as [_ H]|].
  destruct (_ =? s32 buf_size); [by apply close_none_closed in H as [_ H]|].
  destruct (negb _); [done|]. by eapply IH.
Qed.

(** A request that is refused ends the session: whatever the peer sends and in whatever pieces,
    [recvRequest] returns no request only after it has closed the stream; when the stream delivers
    nothing (its end or an error), and when the parser finds an error in what it has delivered, it does
    so at once, whatever is in the buffer. *)
Theorem recvRequest_null (fuel : nat) (q : HttpParser.http_parser) (data : list Z) (s : S) :
  (forall s', recvRequest fuel buf_size q data s = Ok None s' -> closed_at s') /\
  (forall len s1 s2, (0 < fuel)%nat -> read (u64 buf_size) s = Ok (len, []) s1 -> len <= 0 -> close s1 = Ok tt s2 ->
    recvRequest fuel buf_size q data s = Ok None s2) /\
  (forall bs s1 s2 n data' p', (0 < fuel)%nat ->
    read (u64 buf_size) s = Ok (Z.of_nat (length bs), bs) s1 -> bs <> [] -> (length bs <= length data)%nat ->
    Z.of_nat (length bs) < 2 ^ 31 ->
    HttpParser.execute (splice 0 bs data) (Z.of_nat (length bs)) (HttpParser.new_HttpRequestParser q) = Ok (n, data') p' ->
    HttpParser.hasError p' = true -> close s1 = Ok tt s2 ->
    recvRequest fuel buf_size q data s = Ok None s2).
Proof.
  split_and!.
  - intros s' H. unfold recvRequest in H. apply bind_Ok in H as (o & s1 & H1 & H).
    destruct o as [[[p d] off]|]; [|injection H as <-; by eapply recv_loop_closed].
    unfold recv_body in H. destruct (0 <? _); [|done]. apply bind_Ok in H as (_ & s2 & _ & H).
    apply bind_Ok in H as (body & s3 & _ & H). apply bind_Ok in H as (ok & s4 & _ & H).
    destruct ok; [done|]. by apply close_none_closed in H as [_ H].
  - intros len s1 s2 Hf Hr Hl Hc. destruct fuel as [|fuel]; [lia|]. unfold recvRequest, bind at 1. cbn [recv_loop].
    unfold bind at 1. rewrite Z.sub_0_r, Hr. rewrite !bool_decide_eq_true_2 by (simpl; lia).
    unfold bind at 1, require, ret at 1. cbn [andb]. rewrite (proj2 (Z.leb_le len 0)) by done.
    unfold close_none, bind. by rewrite Hc.
  - intros bs s1 s2 n data' p' Hf Hr Hne Hlb Hl He Herr Hc. destruct fuel as [|fuel]; [lia|].
    unfold recvRequest, bind at 1. cbn [recv_loop]. unfold bind at 1. rewrite Z.sub_0_r, Hr.
    rewrite !bool_decide_eq_true_2 by lia. unfold bind at 1, require, ret at 1. cbn [andb].
    rewrite (proj2 (Z.leb_gt _ 0)) by (destruct bs; [done|simpl; lia]). rewrite Z.add_0_r.
    rewrite (swrap_id 32) by (lia || (unfold in_s; change (2 ^ (32 - 1)) with (2 ^ 31); lia)).
    rewrite (wrap_id 64) by (unfold in_u; lia). change (Z.to_nat 0) with 0%nat.
    unfold bind at 1, on_parser. rewrite He, Herr. unfold close_none, bind. by rewrite Hc.
Qed.
End session.
(** ** Examples *)

Definition ex_cast (t : string) : option Z := Some (undec t).
Definition ex_size : Z := 512.
Definition ex_buffer : nat -> HttpParser.http_parser * list Z :=
  fun _ => (HttpParser.ex_memory, replicate 512 0).
Definition ex_server (keepalive : bool) : HttpServer (S := script) := new_HttpServer keepalive.
Definition ex_client : message :=
  Message POST "/x%20y" "a=1" "" 17 [([32], ("Host", "a")); ([32; 9], ("content-length", "2"))] (bytes_of "hi").
Definition ex_answer : HttpResponse :=
  let '(_, rsp, _) := Servlet.not_found (W := unit) (parsed ex_client) (new_HttpResponse 17 true) tt in rsp.
(** The peer sends the request, takes the answer in two pieces. *)
Definition ex_peer : script :=
  [(Z.of_nat (length (message_bytes ex_client)), message_bytes ex_client); (100, []);
   (Z.of_nat (String.length (dump_response ex_answer)) - 100, [])].

Lemma ex_client_ok : well_formed ex_client.
Proof.
  split; try (by vm_compute); [by right| |apply HttpRoundtrip.bytes_range].
  unfold g_lines, ex_client, HttpRoundtrip.blank. rewrite !Forall_cons. cbn [fst snd]. rewrite !Forall_cons.
  repeat split; try apply Forall_nil; (by vm_compute) || auto.
Qed.

Lemma handle_client_outcome_witness :
  handle_client ex_cast (fun _ _ => false) ex_size ex_buffer 1000 (ex_server false) ex_peer = Ok tt [].
Proof.
  destruct (handle_client_outcome ex_cast (fun _ _ => false) ex_size ex_buffer (ex_server false) ex_client ex_peer
    (tail ex_peer) 1000) as (req & (_ & _ & Hp & _) & _ & H).
  - exact ex_client_ok.
  - by vm_compute.
  - by vm_compute.
  - apply Forall_replicate. lia.
  - by vm_compute.
  - by vm_compute.
  - reflexivity.
  - reflexivity.
  - apply (H 0 ex_answer (tail ex_peer) [] [] []).
    + unfold Servlet.dispatch. rewrite Hp. reflexivity.
    + by vm_compute.
    + apply Nat.ltb_lt. by vm_compute.
    + eapply writes_cons; [reflexivity|by vm_compute|]. eapply writes_cons; [reflexivity|by vm_compute|].
      replace (drop _ _) with (@nil Z) by by vm_compute. apply writes_nil.
    + reflexivity.
    + reflexivity.
Defined.

Lemma recvRequest_null_witness :
  recvRequest ex_cast 10 ex_size HttpParser.ex_memory (replicate 512 0) ([(-1, [])] : script) = Ok None [].
Proof.
  destruct (recvRequest_null ex_cast ex_size 10 HttpParser.ex_memory (replicate 512 0) ([(-1, [])] : script)) as (_ & H & _).
  apply (H (-1) [] []); [lia|reflexivity|lia|reflexivity].
Defined.

(** ** Behaviour that is not intended *)

Definition ex_post : HttpRequest := set_body "hello" (set_method POST (new_HttpRequest 17 true)).

(** A body of five bytes is handed on as ten: [resize] has already made room for it. *)
Example body_doubled :
  match recvRequest ex_cast 10 ex_size HttpParser.ex_memory (replicate 512 0)
    ([(Z.of_nat (String.length (dump_request ex_post)), bytes_of (dump_request ex_post))] : script) with
  | Ok (Some req) _ => bytes_of (m_body req) = [0; 0; 0; 0; 0; 104; 101; 108; 108; 111]
  | _ => False
  end.
Proof. by vm_compute. Qed.

(** A body that arrives after the head is written behind the end of the string. *)
Example body_overflows :
  let text := bytes_of (dump_request ex_post) in
  recvRequest ex_cast 10 ex_size HttpParser.ex_memory (replicate 512 0)
    ([(Z.of_nat (length text) - 5, take (length text - 5) text); (5, drop (length text - 5) text)] : script) = Fail_ Undef.
Proof. by vm_compute. Qed.

End HttpSession.
