(* ===== verification/HttpServe.v ===== *)
(** * The HTTP server on a socket: src/src/http/http_server.cpp over src/src/socket_stream.cpp

    The composition of [HttpSession], which is written against the interface of
    streams, with [SocketStream], which implements it by system calls on a socket:
    what the server does with a client, as the sequence of calls the system sees. *)

From stdpp Require Import prelude strings.
From Stdlib Require Import ZArith Lia.
From S2P Require Import Prelude Text ByteArray Socket Stream SocketStream Http Servlet HttpParser HttpRoundtrip HttpSession.

Module HttpServe.
Import Text Http.
Local Open Scope Z_scope.

(** What a call of [send] has taken, and what a sequence of them has taken from the socket [fd]. *)
Definition sent (e : Socket.syscall * Socket.answer) : list Z :=
  match e.1 with
  | Socket.Sys_send _ buf _ => take (Z.to_nat (Socket.rt e.2)) buf
  | _ => []
  end.
Definition sends_on (fd : Z) (e : Socket.syscall * Socket.answer) : Prop :=
  exists buf, e.1 = Socket.Sys_send fd buf 0 /\ 0 < Socket.rt e.2 <= Z.of_nat (length buf).

Lemma held_app h h' : Socket.held (h ++ h') = Socket.held h + Socket.held h'.
Proof. unfold Socket.held. induction h as [|e h IH]; cbn [app foldr]; [done|]. rewrite IH. lia. Qed.
Lemma held_sends fd es : Forall (sends_on fd) es -> Socket.held es = 0.
Proof.
  induction 1 as [|e es (buf & Ee & _) _ IH]; [done|].
  unfold Socket.held in *. cbn [foldr]. rewrite IH. unfold Socket.net. by rewrite Ee.
Qed.

Section serve.
Context (kernel : Socket.history -> Socket.syscall -> Socket.answer).
Context (fresh : nat -> nat -> list Z).
Local Instance stream : Stream.Stream SocketStream.SocketStream := SocketStream.socket_stream kernel fresh.

(** The peer goes on taking bytes: every [send] of some takes at least one. *)
Definition takes (fd : Z) : Prop := forall h buf, buf <> [] ->
  0 < Socket.rt (kernel h (Socket.Sys_send fd buf 0)) <= Z.of_nat (length buf).

(** A stream with a longer history. *)
Definition later (s : SocketStream.SocketStream) (es : Socket.history) : SocketStream.SocketStream :=
  SocketStream.SocketStream_ (SocketStream.hist s ++ es) (SocketStream.m_socket s) (SocketStream.m_owner s).
Lemma later_later s es es' : later (later s es) es' = later s (es ++ es').
Proof. unfold later. cbn. by rewrite app_assoc. Qed.
Lemma later_connected s es x : SocketStream.connected s x -> SocketStream.connected (later s es) x.
Proof. done. Qed.
Lemma read_recv s x n : SocketStream.connected s x ->
  let c := Socket.Sys_recv (Socket.m_sock x) n 0 in
  let a := kernel (SocketStream.hist s) c in
  Stream.read n s = Ok (s32 (Socket.rt a), Socket.data a) (later s [(c, a)]).
Proof.
  intros Hs c a. cbn [Stream.read stream SocketStream.socket_stream]. unfold SocketStream.read_, bind, gets, SocketStream.isConnected.
  destruct Hs as [Hx Hc]. rewrite Hx, Hc. by apply (SocketStream.in_socket_if_connected kernel s x (fun fd => Socket.Sys_recv fd n 0)).
Qed.
Lemma write_send s x buf : SocketStream.connected s x ->
  let c := Socket.Sys_send (Socket.m_sock x) buf 0 in
  let a := kernel (SocketStream.hist s) c in
  Stream.write buf s = Ok (s32 (Socket.rt a)) (later s [(c, a)]).
Proof.
  intros Hs c a. cbn [Stream.write stream SocketStream.socket_stream]. unfold SocketStream.write_, bind at 1, gets, SocketStream.isConnected.
  destruct Hs as [Hx Hc]. rewrite Hx, Hc. unfold Socket.send. rewrite SocketStream.in_socket_fmap.
  by rewrite (SocketStream.in_socket_if_connected kernel s x (fun fd => Socket.Sys_send fd buf 0)).
Qed.
(** A peer that goes on taking bytes takes them all, in order. *)
Lemma takes_writes fd x : takes fd -> Socket.m_sock x = fd -> forall n data s,
  (length data <= n)%nat -> Z.of_nat (length data) < 2 ^ 31 -> SocketStream.connected s x ->
  exists es, Stream.writes s data [] (later s es) /\ concat (sent <$> es) = data /\ Forall (sends_on fd) es.
Proof.
  intros Ht <-. induction n as [|n IH]; intros data s Hn Hl Hs.
  { destruct data; [|cbn in Hn; lia]. exists []. split_and!; [|done..].
    replace (later s []) with s by (unfold later; rewrite app_nil_r; by destruct s). constructor. }
  destruct (decide (data = [])) as [->|Hd].
  { exists []. split_and!; [|done..].
    replace (later s []) with s by (unfold later; rewrite app_nil_r; by destruct s). constructor. }
  set (c := Socket.Sys_send (Socket.m_sock x) data 0). set (a := kernel (SocketStream.hist s) c).
  assert (0 < Socket.rt a <= Z.of_nat (length data)) as Ha by (by apply Ht).
  assert (s32 (Socket.rt a) = Socket.rt a) as Hr by (apply swrap_id; [lia|unfold in_s; lia]).
  destruct (IH (drop (Z.to_nat (Socket.rt a)) data) (later s [(c, a)])) as (es & Hw & He & Hf);
    [rewrite length_drop; lia|rewrite length_drop; lia|done|].
  exists ((c, a) :: es). rewrite later_later in Hw. split_and!.
  - pose proof (write_send s x data Hs) as E. cbv zeta in E. fold c a in E. rewrite Hr in E.
    eapply Stream.writes_cons; [exact E|done|exact Hw].
  - cbn. rewrite He. apply take_drop.
  - constructor; [by exists data|done].
Qed.
(** Closing twice closes the descriptor once. *)
Definition closed (x : Socket.Socket) : Socket.Socket := Socket.set_sock (-1) (Socket.set_isConnected true x).
Lemma close_twice s x : SocketStream.connected s x -> Socket.m_sock x <> -1 ->
  let c := Socket.Sys_close (Socket.m_sock x) in
  let s' := SocketStream.SocketStream_ (SocketStream.hist s ++ [(c, kernel (SocketStream.hist s) c)]) (Some (closed x))
    (SocketStream.m_owner s) in
  Stream.close s = Ok tt s' /\ Stream.close s' = Ok tt s'.
Proof.
  intros [Hx Hc] Hn c s'. cbn [Stream.close stream SocketStream.socket_stream]. unfold SocketStream.close_, bind, gets.
  rewrite Hx. unfold SocketStream.in_socket. rewrite Hx. unfold Socket.close, bind, Socket.self, gets, id. cbn [snd fst].
  rewrite Hc, (proj2 (Z.eqb_neq _ _) Hn). by split.
Qed.

(** ** A client is served *)
Context (lexical_cast : string -> option Z) (fnmatch : list Z -> list Z -> bool).
Context (buf_size : Z) (memory : nat -> HttpParser.http_parser * list Z).

(** C6: the HTTP server without keep-alive on a connected socket, as the system sees it: a client whose
    first [recv] brings a whole request (a well-formed message: request line with percent-encoding
    allowed, header lines in any order, and at least the announced body; eleven bytes of the buffer
    stay free), whose servlet does not touch the session, and who goes on taking what it is sent (every
    [send] takes at least a byte), is served by that one [recv], by [send]s that together transfer
    exactly the text of the response the servlet has made of that request, in order and nothing else,
    and by one [close] of its descriptor, although the session is closed twice; the handler ends, and
    holds one descriptor less than before. *)
Theorem serve_outcome (server : HttpSession.HttpServer (S := SocketStream.SocketStream)) (g : HttpRoundtrip.message)
    (s : SocketStream.SocketStream) (x : Socket.Socket) (fuel : nat) (code : Z) (rsp : HttpResponse) :
  let call := Socket.Sys_recv (Socket.m_sock x) buf_size 0 in
  let answer := kernel (SocketStream.hist s) call in
  let s1 := later s [(call, answer)] in
  HttpRoundtrip.well_formed g ->
  0 <= HttpSession.announced lexical_cast g <= Z.of_nat (length (HttpRoundtrip.g_body g)) ->
  Z.of_nat (length (snd (memory 0))) = buf_size -> Forall (fun b => 0 <= b < 256) (snd (memory 0)) ->
  buf_size < 2 ^ 31 -> Z.of_nat (length (HttpRoundtrip.message_bytes g)) + 11 <= buf_size ->
  SocketStream.connected s x -> Socket.m_sock x <> -1 -> takes (Socket.m_sock x) ->
  Socket.rt answer = Z.of_nat (length (HttpRoundtrip.message_bytes g)) ->
  Socket.data answer = HttpRoundtrip.message_bytes g ->
  HttpSession.m_is_keep_alive server = false ->
  Servlet.dispatch fnmatch (HttpSession.m_dispatch server) (HttpSession.received lexical_cast g)
    (new_HttpResponse (HttpRoundtrip.g_version g) true) s1 = (code, rsp, s1) ->
  Z.of_nat (String.length (dump_response rsp)) < 2 ^ 31 -> (String.length (dump_response rsp) + 1 < fuel)%nat ->
  exists es ca s',
    HttpSession.handle_client lexical_cast fnmatch buf_size memory fuel server s = Ok tt s' /\
    SocketStream.hist s' = SocketStream.hist s ++ [(call, answer)] ++ es ++ [(Socket.Sys_close (Socket.m_sock x), ca)] /\
    Forall (sends_on (Socket.m_sock x)) es /\ concat (sent <$> es) = bytes_of (dump_response rsp) /\
    SocketStream.m_socket s' = Some (closed x) /\
    Socket.held (SocketStream.hist s') = Socket.held (SocketStream.hist s) - 1.
Proof.
  intros call answer s1 Hg Ha Ed Hd Hb Ht Hs Hx Htk Er Eda Hk Hdisp Hl Hfuel.
  assert (SocketStream.connected s1 x) as Hs1 by done.
  destruct (takes_writes _ x Htk eq_refl _ (bytes_of (dump_response rsp)) s1 (le_n _)
    ltac:(by rewrite length_bytes_of) Hs1) as (es & Hw & He & Hf).
  destruct (close_twice (later s1 es) x Hs1 Hx) as [Hc1 Hc2].
  pose proof (read_recv s x buf_size Hs) as Hread. cbv zeta in Hread. fold call answer in Hread. rewrite Er, Eda in Hread.
  rewrite swrap_id in Hread by (unfold in_s; lia).
  eexists es, _, _. split.
  { eapply (HttpSession.handle_client_whole lexical_cast fnmatch buf_size memory server g s s1 fuel code rsp s1);
      done. }
  cbn [SocketStream.hist SocketStream.m_socket later s1]. split_and!; [by rewrite <- !app_assoc|done..|].
  rewrite Socket.held_snoc. cbn. rewrite !held_app, (held_sends _ _ Hf). cbn. lia.
Qed.
End serve.

(** ** Examples *)
(** A client that sends a request and takes at most a hundred bytes at a time. *)
Definition ex_kernel (h : Socket.history) (c : Socket.syscall) : Socket.answer :=
  match c with
  | Socket.Sys_recv _ _ _ =>
    let text := HttpRoundtrip.message_bytes HttpSession.ex_client in Socket.Answer (Z.of_nat (length text)) text 0 None
  | Socket.Sys_send _ buf _ => Socket.plain_answer (Z.min 100 (Z.of_nat (length buf)))
  | _ => Socket.plain_answer 0
  end.
Lemma ex_takes fd : takes ex_kernel fd.
Proof. intros h [|b buf] Hb; [done|]. cbn. lia. Qed.
Definition ex_server : HttpSession.HttpServer (S := SocketStream.SocketStream) := HttpSession.new_HttpServer false.

Lemma serve_outcome_witness : exists es ca s',
  HttpSession.handle_client (Stream0 := stream ex_kernel ByteArray.zero_fresh) HttpSession.ex_cast (fun _ _ => false)
    HttpSession.ex_size HttpSession.ex_buffer 1000 ex_server SocketStream.ex_stream = Ok tt s' /\
  SocketStream.hist s' = [(Socket.Sys_recv 5 512 0, ex_kernel [] (Socket.Sys_recv 5 512 0))] ++ es ++ [(Socket.Sys_close 5, ca)] /\
  concat (sent <$> es) = bytes_of (dump_response HttpSession.ex_answer).
Proof.
  destruct (serve_outcome ex_kernel ByteArray.zero_fresh HttpSession.ex_cast (fun _ _ => false) HttpSession.ex_size
    HttpSession.ex_buffer ex_server HttpSession.ex_client SocketStream.ex_stream SocketStream.ex_socket 1000 0
    HttpSession.ex_answer) as (es & ca & s' & E & Eh & _ & Es & _).
  - exact HttpSession.ex_client_ok.
  - by vm_compute.
  - by vm_compute.
  - apply Forall_replicate. lia.
  - by vm_compute.
  - by vm_compute.
  - done.
  - done.
  - apply ex_takes.
  - by vm_compute.
  - done.
  - done.
  - reflexivity.
  - by vm_compute.
  - apply Nat.ltb_lt. by vm_compute.
  - exists es, ca, s'. split; [exact E|]. split; [exact Eh|exact Es].
Defined.
End HttpServe.
