(* ===== verification/TcpServer.v ===== *)
(** * The TCP server: src/src/tcp_server.h, src/src/tcp_server.cpp

    Sockets are shared objects: they are kept in a store, a [Socket::ptr] is an
    index, and a socket is destroyed when the last pointer to it goes (from
    [m_socks] or from a scheduled function).  [schedule] appends to the queue of
    the worker; what the scheduler does with a queue is modelled in [Scheduler].
    The system and the descriptor manager are the parameter [kernel], as in
    [Socket]. *)

From stdpp Require Import prelude strings.
From Stdlib Require Import ZArith Lia.
From S2P Require Import Prelude FdManager Address Socket.

Module TcpServer.
Local Open Scope Z_scope.

(** The functions the server schedules. *)
Inductive task :=
  | StartAccept (sock : nat)
  | HandleClient (client : nat)
  | StopSocks.

Record t := TcpServer_ {
  m_recv_timeout : Z;
  m_name : string;
  m_socks : list nat;
  m_is_stop : bool;
  m_is_start : bool;
  worker : list task;
  accept_worker : list task;
  hist : Socket.history;
  store : list Socket.Socket
}.
Definition set_socks v s := TcpServer_ (m_recv_timeout s) (m_name s) v (m_is_stop s) (m_is_start s)
  (worker s) (accept_worker s) (hist s) (store s).
Definition set_is_stop v s := TcpServer_ (m_recv_timeout s) (m_name s) (m_socks s) v (m_is_start s)
  (worker s) (accept_worker s) (hist s) (store s).
Definition set_is_start v s := TcpServer_ (m_recv_timeout s) (m_name s) (m_socks s) (m_is_stop s) v
  (worker s) (accept_worker s) (hist s) (store s).
Definition set_worker v s := TcpServer_ (m_recv_timeout s) (m_name s) (m_socks s) (m_is_stop s) (m_is_start s)
  v (accept_worker s) (hist s) (store s).
Definition set_accept_worker v s := TcpServer_ (m_recv_timeout s) (m_name s) (m_socks s) (m_is_stop s) (m_is_start s)
  (worker s) v (hist s) (store s).
Definition set_world h l s := TcpServer_ (m_recv_timeout s) (m_name s) (m_socks s) (m_is_stop s) (m_is_start s)
  (worker s) (accept_worker s) h l.

(** The constructor; [read_timeout] is the value of tcp_server.read_timeout. *)
Definition new_TcpServer (read_timeout : Z) : t :=
  TcpServer_ read_timeout "cool v1.0.0" [] false false [] [] [] [].

Abbreviation cmd := (Prelude.cmd t).

(** The pointers to sockets. *)
Definition task_ptr (x : task) : list nat :=
  match x with StartAccept p | HandleClient p => [p] | StopSocks => [] end.
Definition pointers (s : t) : list nat :=
  m_socks s ++ (worker s ≫= task_ptr) ++ (accept_worker s ≫= task_ptr).

Section server.
Context (kernel : Socket.history -> Socket.syscall -> Socket.answer).
Context (byte_order : Z) (little : bool).

(** A method of the socket at [p]. *)
Definition in_sock {A} (p : nat) (m : Socket.cmd A) : cmd A :=
  fun s => match store s !! p with
           | None => Fail_ Undef
           | Some x => match m (hist s, x) with
                       | Ok a st => Ok a (set_world st.1 (<[p := st.2]> (store s)) s)
                       | Throw e st => Throw e (set_world st.1 (<[p := st.2]> (store s)) s)
                       | Fail_ f => Fail_ f
                       end
           end.
(** [new Socket]: the pointer. *)
Definition alloc (x : Socket.Socket) : cmd nat :=
  fun s => Ok (length (store s)) (set_world (hist s) (store s ++ [x]) s).
(** A pointer to [p] goes: if it was the last, the socket is destroyed. *)
Definition release (p : nat) : cmd unit :=
  let* ps := gets pointers in
  if bool_decide (p ∈ ps) then ret tt else in_sock p (Socket.destroy kernel).
Fixpoint for_each (f : nat -> cmd unit) (ps : list nat) : cmd unit :=
  match ps with [] => ret tt | p :: ps => f p ;;; for_each f ps end.
(** [m_socks.clear()] *)
Definition clear_socks : cmd unit :=
  let* ps := gets m_socks in
  modify (set_socks []) ;;;
  for_each release ps.

(** One round of the loop of [bind]; the local pointer goes at its end. *)
Definition bind_one (addr : Address.Address) (fails : list Address.Address) : cmd (list Address.Address) :=
  let* sock := alloc (Socket.CreateTCP little addr) in
  let* ok := in_sock sock (Socket.bind_ kernel byte_order little addr) in
  if negb ok then release sock ;;; ret (fails ++ [addr])
  else
    let* ok := in_sock sock (Socket.listen kernel Socket.SOMAXCONN) in
    if negb ok then release sock ;;; ret (fails ++ [addr])
    else
      let* ps := gets m_socks in
      modify (set_socks (ps ++ [sock])) ;;;
      ret fails.
Fixpoint bind_loop (addrs fails : list Address.Address) : cmd (list Address.Address) :=
  match addrs with
  | [] => ret fails
  | addr :: addrs => let* fails := bind_one addr fails in bind_loop addrs fails
  end.
Definition bind_addrs (addrs fails : list Address.Address) : cmd (bool * list Address.Address) :=
  let* fails := bind_loop addrs fails in
  if negb (bool_decide (fails = [])) then clear_socks ;;; ret (false, fails)
  else ret (true, fails).
Definition bind_addr (addr : Address.Address) : cmd bool :=
  let* r := bind_addrs [addr] [] in ret (fst r).

(** The destructor. *)
Definition destroy : cmd unit :=
  let* ps := gets m_socks in
  for_each (fun p => in_sock p (Socket.close kernel) ;;; ret tt) ps ;;;
  clear_socks.

Definition start : cmd bool :=
  let* s := gets m_is_start in
  if s then ret true
  else
    modify (set_is_start true) ;;;
    modify (fun s => set_accept_worker (accept_worker s ++ (StartAccept <$> m_socks s)) s) ;;;
    ret true.

Definition stop : cmd unit :=
  let* s := gets m_is_stop in
  if s then ret tt
  else
    modify (set_is_stop true) ;;;
    modify (fun s => set_accept_worker (accept_worker s ++ [StopSocks]) s).
(** The function that [stop] schedules. *)
Definition stop_socks : cmd unit :=
  let* ps := gets m_socks in
  for_each (fun p => in_sock p (Socket.cancelAll kernel) ;;; in_sock p (Socket.close kernel) ;;; ret tt) ps ;;;
  clear_socks.

(** One round of [start_accept]: the test of [m_is_stop] and, if it is false, the body; [true]: the loop
    goes on. *)
Definition start_accept_round (sock : nat) : cmd bool :=
  let* stop := gets m_is_stop in
  if stop then ret false
  else
    let* client := in_sock sock (Socket.accept kernel byte_order little) in
    match client with
    | Some x =>
      let* c := alloc x in
      let* v := gets m_recv_timeout in
      in_sock c (Socket.set_recvTimeout kernel v) ;;;
      modify (fun s => set_worker (worker s ++ [HandleClient c]) s) ;;;
      ret true
    | None => ret true
    end.

(** ** Execution

    The workers run the scheduled functions: a step takes the function at some
    place of a queue.  [start_accept] is run round by round, [handle_client] is
    some sequence of operations on the client's socket. *)

Definition take_task (i : nat) (l : list task) : list task := take i l ++ drop (Datatypes.S i) l.
Definition run_accept (i : nat) : cmd unit :=
  let* q := gets accept_worker in
  match q !! i with
  | Some (StartAccept p) =>
    let* go := start_accept_round p in
    if go : bool then ret tt
    else modify (fun s => set_accept_worker (take_task i (accept_worker s)) s) ;;; release p
  | Some StopSocks =>
    modify (fun s => set_accept_worker (take_task i (accept_worker s)) s) ;;; stop_socks
  | _ => fail Undef
  end.
Definition run_worker (i : nat) (os : list Socket.op) : cmd unit :=
  let* q := gets worker in
  match q !! i with
  | Some (HandleClient p) =>
    in_sock p (Socket.run_ops kernel byte_order little os) ;;;
    modify (fun s => set_worker (take_task i (worker s)) s) ;;; release p
  | _ => fail Undef
  end.

Inductive step : t -> t -> Prop :=
  | step_bind addrs r s s' : bind_addrs addrs [] s = Ok r s' -> step s s'
  | step_start s s' : start s = Ok true s' -> step s s'
  | step_stop s s' : stop s = Ok tt s' -> step s s'
  | step_accept i s s' : run_accept i s = Ok tt s' -> step s s'
  | step_worker i os s s' : run_worker i os s = Ok tt s' -> step s s'.
Inductive reachable (read_timeout : Z) : t -> Prop :=
  | reach_new : reachable read_timeout (new_TcpServer read_timeout)
  | reach_step s s' : reachable read_timeout s -> step s s' -> reachable read_timeout s'.

(** ** Descriptors *)

Abbreviation valid_count := Socket.valid_count.

(** Every open descriptor is that of a socket or was refused by the descriptor manager when it was accepted,
    and every socket that has one is pointed to: by the server, by a scheduled function, or by one of the
    pointers [E] of the running code. *)
Record owns (E : list nat) (s : t) : Prop := {
  o_held : Socket.pending (hist s) = false /\ Socket.held (hist s) = valid_count (store s) + Socket.refused (hist s);
  o_bound : forall p, p ∈ pointers s -> (p < length (store s))%nat;
  o_refs : forall p x, store s !! p = Some x -> Socket.isValid x = true -> p ∈ pointers s \/ p ∈ E
}.

(** What a method of a socket leaves alone. *)
Definition same (s s' : t) : Prop := exists h l, s' = set_world h l s /\ length l = length (store s).

Definition balances {A} (m : Socket.cmd A) : Prop := forall base, keeps (Socket.balanced base) m.

Lemma balances_fst {A} (m : Socket.cmd A) : balances (m ;;; ret tt) -> balances m.
Proof.
  intros H base s Hs. specialize (H base s Hs). unfold bind, ret in H. by destruct (m s).
Qed.
Lemma balances_op o : balances (Socket.run_op kernel byte_order little o).
Proof. intros base. apply Socket.socket_keeps_run_op. Qed.
Lemma balances_close : balances (Socket.close kernel).
Proof. apply balances_fst, (balances_op Socket.OClose). Qed.
Lemma balances_destroy : balances (Socket.destroy kernel).
Proof. apply (balances_op Socket.OClose). Qed.
Lemma balances_bind a : balances (Socket.bind_ kernel byte_order little a).
Proof. apply balances_fst, (balances_op (Socket.OBind a)). Qed.
Lemma balances_listen n : balances (Socket.listen kernel n).
Proof. apply balances_fst, (balances_op (Socket.OListen n)). Qed.
Lemma balances_cancelAll : balances (Socket.cancelAll kernel).
Proof. apply balances_fst, (balances_op Socket.OCancelAll). Qed.
Lemma balances_recvTimeout v : balances (Socket.set_recvTimeout kernel v).
Proof. apply (balances_op (Socket.OSetRecvTimeout v)). Qed.
Lemma balances_run_ops os : balances (Socket.run_ops kernel byte_order little os).
Proof. intros base. apply Socket.keeps_run_ops. Qed.

Lemma in_sock_owns {A} E p (m : Socket.cmd A) s a s' :
  balances m -> owns E s -> p ∈ pointers s \/ p ∈ E -> in_sock p m s = Ok a s' -> owns E s' /\ same s s'.
Proof.
  intros Hm [[Hq H1] H2 H3] Hp H. unfold in_sock in H. destruct (store s !! p) as [x|] eqn:Ex; [|done].
  destruct (m (hist s, x)) as [b [h x']| |] eqn:Em; [|done..]. injection H as <- <-. cbn [fst snd].
  pose proof (Hm (valid_count (store s) - Z.b2z (Socket.isValid x)) (hist s, x)) as Hb. rewrite Em in Hb.
  unfold Socket.balanced in Hb. cbn [fst snd] in Hb. destruct Hb as [Hq' Hb]; [split; [done|lia]|].
  split; [|exists h, (<[p:=x']> (store s)); by rewrite length_insert]. constructor; cbn [set_world hist store].
  - rewrite (Socket.valid_count_insert _ _ x) by done. split; [done|lia].
  - intros p' Hp'. rewrite length_insert. by apply H2.
  - intros p' y Hy Hv. destruct (decide (p = p')) as [<-|Hne]; [done|]. rewrite list_lookup_insert_ne in Hy by done. by eapply H3.
Qed.

Lemma alloc_owns E x s p s' : owns E s -> Socket.isValid x = false -> alloc x s = Ok p s' ->
  owns (p :: E) s' /\ p = length (store s) /\ pointers s' = pointers s /\ store s' = store s ++ [x].
Proof.
  intros [H1 H2 H3] Hv H. injection H as <- <-. split_and!; try done. constructor; cbn [set_world hist store].
  - destruct H1 as [Hq H1]. split; [done|]. rewrite Socket.valid_count_app. simpl. rewrite Hv. simpl. lia.
  - intros p Hp. rewrite length_app. specialize (H2 p Hp). lia.
  - intros p y Hy Hyv. apply lookup_app_Some in Hy as [Hy|[_ Hy]].
    + destruct (H3 p y Hy Hyv); [by left|right; set_solver].
    + apply list_lookup_singleton_Some in Hy as [_ <-]. congruence.
Qed.

Lemma release_owns E p s s' : owns (p :: E) s -> release p s = Ok tt s' -> owns E s' /\ same s s'.
Proof.
  intros Ho H. unfold release, bind, gets in H. case_bool_decide as Hp.
  - injection H as <-. split; [|exists (hist s), (store s); by destruct s]. destruct Ho as [H1 H2 H3]. constructor; auto.
    intros p' x Hx Hv. destruct (H3 p' x Hx Hv) as [|[->|]%elem_of_cons]; auto.
  - pose proof H as H'. apply (in_sock_owns (p :: E)) in H as [[H1 H2 H3] Hs]; [|apply balances_destroy|done|right; set_solver].
    split; [|done]. constructor; auto. intros p' x Hx Hv.
    destruct (H3 p' x Hx Hv) as [|[->|]%elem_of_cons]; [by left| |by right]. exfalso.
    unfold in_sock in H'. destruct (store s !! p) as [y|] eqn:Ey; [|done].
    destruct (Socket.destroy kernel (hist s, y)) as [[] st| |] eqn:Ed; [|done..]. injection H' as <-.
    cbn [set_world store] in Hx. rewrite list_lookup_insert_eq in Hx by (by eapply lookup_lt_Some). injection Hx as <-.
    apply Socket.destroy_invalid in Ed. congruence.
Qed.

Lemma same_refl s : same s s.
Proof. exists (hist s), (store s). by destruct s. Qed.
Lemma same_trans s1 s2 s3 : same s1 s2 -> same s2 s3 -> same s1 s3.
Proof. intros (h & l & -> & Hl) (h' & l' & -> & Hl'). exists h', l'. split; [done|]. simpl in *. congruence. Qed.
Lemma same_socks s s' : same s s' -> m_socks s' = m_socks s.
Proof. by intros (h & l & -> & _). Qed.
Lemma same_pointers s s' : same s s' -> pointers s' = pointers s.
Proof. by intros (h & l & -> & _). Qed.

Lemma owns_mono E E' s : owns E s -> E ⊆ E' -> owns E' s.
Proof. intros [H1 H2 H3] HE. constructor; auto. intros p x Hx Hv. destruct (H3 p x Hx Hv); auto. Qed.

(** A change of the server's own fields. *)
Lemma owns_update E E' s s' : owns E s -> hist s' = hist s -> store s' = store s ->
  (forall p, p ∈ pointers s' -> p ∈ pointers s \/ p ∈ E /\ (p < length (store s))%nat) ->
  (forall p, p ∈ pointers s \/ p ∈ E -> p ∈ pointers s' \/ p ∈ E') -> owns E' s'.
Proof.
  intros [H1 H2 H3] Hh Hs Hb Hr. constructor.
  - by rewrite Hh, Hs.
  - intros p [Hp|[_ Hp]]%Hb; rewrite Hs; auto.
  - intros p x Hx Hv. rewrite Hs in Hx. by eapply Hr, H3.
Qed.

Lemma for_each_owns E (f : nat -> cmd unit) ps : forall s s',
  (forall p s s', p ∈ ps -> p ∈ pointers s \/ p ∈ E -> owns E s -> f p s = Ok tt s' -> owns E s' /\ same s s') ->
  (forall p, p ∈ ps -> p ∈ pointers s \/ p ∈ E) -> owns E s -> for_each f ps s = Ok tt s' -> owns E s' /\ same s s'.
Proof.
  induction ps as [|p ps IH]; intros s s' Hf Hp Ho H; cbn [for_each] in H; [injection H as <-; split; [done|apply same_refl]|].
  apply bind_Ok in H as ([] & s1 & H1 & H). destruct (Hf p s s1) as [Ho1 Hs1]; [by left|apply Hp; by left|done..|].
  destruct (IH s1 s') as [Ho' Hs']; [| |done|done|split; [done|by eapply same_trans]].
  - intros p' t1 t2 Hp'. apply Hf. by right.
  - intros p' Hp'. rewrite (same_pointers s s1) by done. apply Hp. by right.
Qed.

Lemma release_all_owns ps : forall E s s',
  owns (ps ++ E) s -> for_each release ps s = Ok tt s' -> owns E s' /\ same s s'.
Proof.
  induction ps as [|p ps IH]; intros E s s' Ho H; cbn [for_each] in H; [injection H as <-; split; [done|apply same_refl]|].
  apply bind_Ok in H as ([] & s1 & H1 & H). apply release_owns with (E := ps ++ E) in H1 as [Ho1 Hs1]; [|done].
  destruct (IH E s1 s' Ho1 H) as [Ho' Hs']. split; [done|]. by eapply same_trans.
Qed.

Lemma clear_socks_owns E s s' : owns E s -> clear_socks s = Ok tt s' -> owns E s' /\ m_socks s' = [].
Proof.
  intros Ho H. unfold clear_socks in H. apply bind_Ok in H as (ps & s0 & H0 & H). injection H0 as <- <-.
  apply bind_Ok in H as ([] & s1 & H1 & H). injection H1 as <-.
  apply release_all_owns with (E := E) in H as [Ho' Hs]; [by rewrite (same_socks _ _ Hs)|].
  eapply owns_update; [exact Ho|done|done|..]; unfold pointers; cbn [set_socks m_socks worker accept_worker]; set_solver.
Qed.

Lemma bind_one_owns E addr fails fails' s s' :
  owns E s -> bind_one addr fails s = Ok fails' s' -> owns E s'.
Proof.
  intros Ho H. unfold bind_one in H. apply bind_Ok in H as (p & s1 & H1 & H).
  apply (alloc_owns E) in H1 as (Ho1 & Ep & Hp1 & Hs1); [|done|done].
  apply bind_Ok in H as (ok & s2 & H2 & H).
  apply (in_sock_owns (p :: E)) in H2 as [Ho2 Hm2]; [|apply balances_bind|done|right; set_solver].
  assert (forall s3 r, owns (p :: E) s3 -> (release p ;;; ret r) s3 = Ok fails' s' -> owns E s') as Hrel.
  { intros s3 r Ho3 H3. apply bind_Ok in H3 as ([] & s4 & H4 & H3). injection H3 as <- <-.
    by apply release_owns with (E := E) in H4 as [? _]. }
  destruct ok; cbn [negb] in H; [|by eapply Hrel].
  apply bind_Ok in H as (ok & s3 & H3 & H).
  apply (in_sock_owns (p :: E)) in H3 as [Ho3 Hm3]; [|apply balances_listen|done|right; set_solver].
  destruct ok; cbn [negb] in H; [|by eapply Hrel].
  apply bind_Ok in H as (ps & s4 & H4 & H). injection H4 as <- <-. apply bind_Ok in H as ([] & s5 & H5 & H).
  injection H5 as <-. injection H as <- <-.
  assert (p < length (store s3))%nat as Hlt.
  { destruct Hm2 as (h2 & l2 & -> & El2), Hm3 as (h3 & l3 & -> & El3). simpl in *.
    rewrite El3, El2, Hs1, length_app, Ep. simpl. lia. }
  eapply owns_update; [exact Ho3|done|done|..]; unfold pointers; cbn [set_socks m_socks worker accept_worker]; set_solver.
Qed.

Lemma bind_loop_owns E addrs : forall fails fails' s s',
  owns E s -> bind_loop addrs fails s = Ok fails' s' -> owns E s'.
Proof.
  induction addrs as [|a addrs IH]; intros fails fails' s s' Ho H; cbn [bind_loop] in H; [by injection H as <- <-|].
  apply bind_Ok in H as (f1 & s1 & H1 & H). apply (bind_one_owns E) in H1; [|done]. by eapply IH.
Qed.

Lemma bind_addrs_owns E addrs fails r s s' : owns E s -> bind_addrs addrs fails s = Ok r s' -> owns E s'.
Proof.
  intros Ho H. unfold bind_addrs in H. apply bind_Ok in H as (f1 & s1 & H1 & H). apply (bind_loop_owns E) in H1; [|done].
  destruct (negb _); [|by injection H as <- <-]. apply bind_Ok in H as ([] & s2 & H2 & H). injection H as <- <-.
  by apply (clear_socks_owns E) in H2 as [? _].
Qed.

Lemma accept_round_owns s go s' p : owns [] s -> p ∈ pointers s ->
  start_accept_round p s = Ok go s' -> owns [] s' /\ accept_worker s' = accept_worker s /\ (go = negb (m_is_stop s)) /\
  (go = false -> s' = s).
Proof.
  intros Ho Hp H. unfold start_accept_round in H. apply bind_Ok in H as (st & s0 & H0 & H). injection H0 as <- <-.
  destruct (m_is_stop s); [by injection H as <- <-|].
  apply bind_Ok in H as (o & s1 & H1 & H). unfold in_sock in H1. destruct (store s !! p) as [x|] eqn:Ex; [|done].
  destruct (Socket.accept kernel byte_order little (hist s, x)) as [o' st| |] eqn:Ea; [|done..]. injection H1 as -> <-.
  destruct Ho as [[Oq O1] O2 O3].
  apply (Socket.accept_balanced kernel byte_order little (valid_count (store s) - Z.b2z (Socket.isValid x))) in Ea as [E2 [Hq Hh]];
    [|split; [done|cbn [fst snd]; lia]]. rewrite E2, list_insert_id in H by done. rewrite E2 in Hh.
  destruct o as [y|].
  - apply bind_Ok in H as (c & s2 & H2 & H). injection H2 as Ec Es2.
    assert (owns [c] s2) as Ho2.
    { subst s2 c. constructor; cbn [set_world hist store].
      - rewrite Socket.valid_count_app. simpl. split; [done|lia].
      - intros q Hq'. rewrite length_app. specialize (O2 q Hq'). lia.
      - intros q z Hz Hv. apply lookup_app_Some in Hz as [Hz|[Hl Hz]]; [destruct (O3 q z Hz Hv); [by left|set_solver]|].
        apply list_lookup_singleton_Some in Hz as [Hq2 _]. right. apply list_elem_of_singleton. lia. }
    apply bind_Ok in H as (v & s3 & H3 & H). injection H3 as <- <-. apply bind_Ok in H as ([] & s4 & H4 & H).
    apply (in_sock_owns [c]) in H4 as [Ho4 Hm4]; [|apply balances_recvTimeout|done|right; set_solver].
    apply bind_Ok in H as ([] & s5 & H5 & H). injection H5 as <-. injection H as <- <-.
    destruct Hm4 as (h4 & l4 & -> & El4). split; [|by subst s2]. eapply owns_update; [exact Ho4|done|done|..];
      unfold pointers; cbn [set_world set_worker m_socks worker accept_worker store]; rewrite ?bind_app; simpl.
    + intros q Hq2. destruct (decide (q = c)) as [->|]; [right; split; [set_solver|]|set_solver].
      rewrite El4. subst s2 c. cbn [set_world store]. rewrite length_app. simpl. lia.
    + set_solver.
  - injection H as <- <-. split; [|done]. constructor; [cbn [set_world hist store]; split; [done|lia]|done|done].
Qed.

Lemma take_task_ptr i l x p : l !! i = Some x ->
  p ∈ (l ≫= task_ptr) <-> p ∈ task_ptr x \/ p ∈ (take_task i l ≫= task_ptr).
Proof.
  intros H. rewrite <- (take_drop_middle l i x H) at 1. unfold take_task. rewrite !bind_app. cbn [mbind list_bind]. set_solver.
Qed.

Lemma owns_take_accept i x s : owns [] s -> accept_worker s !! i = Some x ->
  owns (task_ptr x) (set_accept_worker (take_task i (accept_worker s)) s).
Proof.
  intros Ho Hx. eapply owns_update; [exact Ho|done|done|..]; unfold pointers; cbn [set_accept_worker m_socks worker accept_worker];
    intros p; rewrite !elem_of_app, (take_task_ptr i (accept_worker s) x p Hx); set_solver.
Qed.
Lemma owns_take_worker i x s : owns [] s -> worker s !! i = Some x ->
  owns (task_ptr x) (set_worker (take_task i (worker s)) s).
Proof.
  intros Ho Hx. eapply owns_update; [exact Ho|done|done|..]; unfold pointers; cbn [set_worker m_socks worker accept_worker];
    intros p; rewrite !elem_of_app, (take_task_ptr i (worker s) x p Hx); set_solver.
Qed.
Lemma task_pointer s i x p : accept_worker s !! i = Some x \/ worker s !! i = Some x -> p ∈ task_ptr x -> p ∈ pointers s.
Proof.
  intros H Hp. unfold pointers. rewrite !elem_of_app. destruct H as [H|H]; rewrite (take_task_ptr i _ x p H); auto.
Qed.

(** Closing the sockets of the server, and dropping them. *)
Lemma close_all_owns (f : nat -> cmd unit) s s' :
  (forall p s s', p ∈ pointers s \/ p ∈ [] -> owns [] s -> f p s = Ok tt s' -> owns [] s' /\ same s s') ->
  owns [] s -> (for_each f (m_socks s) ;;; clear_socks) s = Ok tt s' -> owns [] s' /\ m_socks s' = [].
Proof.
  intros Hf Ho H. apply bind_Ok in H as ([] & s1 & H1 & H). apply (for_each_owns []) in H1 as [Ho1 _]; [|auto| |done].
  - by eapply clear_socks_owns.
  - intros p t1 t2 _. apply Hf.
  - intros p Hp. left. unfold pointers. set_solver.
Qed.

Lemma stop_socks_owns s s' : owns [] s -> stop_socks s = Ok tt s' -> owns [] s' /\ m_socks s' = [].
Proof.
  intros Ho H. unfold stop_socks in H. apply bind_Ok in H as (ps & s0 & H0 & H). injection H0 as <- <-.
  eapply close_all_owns; [|exact Ho|exact H]. intros p t1 t2 Hp Ht Hc.
  apply bind_Ok in Hc as (b & t3 & H3 & Hc). apply (in_sock_owns []) in H3 as [Ho3 Hs3]; [|apply balances_cancelAll|done..].
  apply bind_Ok in Hc as (b' & t4 & H4 & Hc). injection Hc as <-.
  apply (in_sock_owns []) in H4 as [Ho4 Hs4]; [split; [done|by eapply same_trans]|apply balances_close|done|].
  by rewrite (same_pointers _ _ Hs3).
Qed.

Lemma destroy_owns s s' : owns [] s -> destroy s = Ok tt s' -> owns [] s' /\ m_socks s' = [].
Proof.
  intros Ho H. unfold destroy in H. apply bind_Ok in H as (ps & s0 & H0 & H). injection H0 as <- <-.
  eapply close_all_owns; [|exact Ho|exact H]. intros p t1 t2 Hp Ht Hc.
  apply bind_Ok in Hc as (b & t3 & H3 & Hc). injection Hc as <-.
  by apply (in_sock_owns []) in H3 as [Ho3 Hs3]; [|apply balances_close|..].
Qed.

Lemma step_owns s s' : owns [] s -> step s s' -> owns [] s'.
Proof.
  intros Ho Hs. destruct Hs as [addrs r s s' H|s s' H|s s' H|i s s' H|i os s s' H].
  - by eapply bind_addrs_owns.
  - unfold start in H. apply bind_Ok in H as (b & s0 & H0 & H). injection H0 as <- <-.
    destruct (m_is_start s); [by injection H as <-|]. apply bind_Ok in H as ([] & s1 & H1 & H). injection H1 as <-.
    apply bind_Ok in H as ([] & s2 & H2 & H). injection H2 as <-. injection H as <-.
    assert (forall p l, p ∈ ((StartAccept <$> l) ≫= task_ptr) <-> p ∈ l) as Hb.
    { intros p l. induction l as [|q l IH]; [done|]. cbn [fmap list_fmap mbind list_bind task_ptr app].
      by rewrite !elem_of_cons, IH. }
    eapply owns_update; [exact Ho|done|done|..]; unfold pointers;
      cbn [set_is_start set_accept_worker m_socks worker accept_worker]; intros p; rewrite bind_app, !elem_of_app, Hb; tauto.
  - unfold stop in H. apply bind_Ok in H as (b & s0 & H0 & H). injection H0 as <- <-.
    destruct (m_is_stop s); [by injection H as <-|]. apply bind_Ok in H as ([] & s1 & H1 & H). injection H1 as <-. injection H as <-.
    eapply owns_update; [exact Ho|done|done|..]; unfold pointers;
      cbn [set_is_stop set_accept_worker m_socks worker accept_worker]; intros p; rewrite bind_app; set_solver.
  - unfold run_accept in H. apply bind_Ok in H as (q & s0 & H0 & H). injection H0 as <- <-.
    destruct (accept_worker s !! i) as [[p|p|]|] eqn:Ei; try done.
    + apply bind_Ok in H as (go & s1 & H1 & H).
      destruct (accept_round_owns s go s1 p Ho) as (Ho1 & Ea & Eg & Es); [|done|].
      { eapply task_pointer; [by left|set_solver]. }
      destruct go; [by injection H as <-|]. rewrite (Es eq_refl) in *. apply bind_Ok in H as ([] & s2 & H2 & H). injection H2 as <-.
      apply (release_owns []) in H as [? _]; [done|]. by apply (owns_take_accept i (StartAccept p)).
    + apply bind_Ok in H as ([] & s2 & H2 & H). injection H2 as <-.
      apply stop_socks_owns in H as [? _]; [done|]. by apply (owns_take_accept i StopSocks).
  - unfold run_worker in H. apply bind_Ok in H as (q & s0 & H0 & H). injection H0 as <- <-.
    destruct (worker s !! i) as [[p|p|]|] eqn:Ei; try done.
    apply bind_Ok in H as ([] & s1 & H1 & H).
    apply (in_sock_owns []) in H1 as [Ho1 Hs1]; [|apply balances_run_ops|done|].
    2: { left. eapply task_pointer; [by right|set_solver]. }
    apply bind_Ok in H as ([] & s2 & H2 & H). injection H2 as <-.
    apply (release_owns []) in H as [? _]; [done|]. destruct Hs1 as (h & l & -> & _).
    by apply (owns_take_worker i (HandleClient p)).
Qed.

Lemma reachable_owns n s : reachable n s -> owns [] s.
Proof.
  induction 1 as [|s s' _ IH Hs]; [|by eapply step_owns]. constructor; [done| |done]. set_solver.
Qed.

Lemma owns_nothing s : owns [] s -> pointers s = [] -> Socket.held (hist s) = Socket.refused (hist s).
Proof.
  intros [[_ H1] _ H3] Hp. rewrite H1, Hp in *. assert (Forall (fun x => Socket.isValid x = false) (store s)) as Hv.
  { apply Forall_lookup. intros p x Hx. destruct (Socket.isValid x) eqn:E; [|done]. destruct (H3 p x Hx E); set_solver. }
  enough (valid_count (store s) = 0) as -> by done. clear -Hv.
  induction Hv as [|x l Hx _ IH]; [done|]. cbn [Socket.valid_count foldr]. rewrite Hx. exact IH.
Qed.

(** C9: the server leaks no descriptor of its own: in every interleaving of binding, starting, stopping,
    accepting and handling clients (each any sequence of socket operations other than [accept] and
    [init]), whatever
    the system and the descriptor manager answer, the open descriptors are exactly those of sockets the server
    or a scheduled function still points to and those that [accept] brought and the manager did not know as
    open sockets (which [init] refuses and nobody closes); a failed [bind] and the function that [stop]
    schedules leave the server without sockets; and when the destructor has run and no function is
    waiting, only the refused ones are open. *)
Theorem server_owns (read_timeout : Z) (s : t) :
  reachable read_timeout s ->
  Socket.held (hist s) = valid_count (store s) + Socket.refused (hist s) /\
  (forall p x, store s !! p = Some x -> Socket.isValid x = true -> p ∈ pointers s) /\
  (forall addrs fails s', bind_addrs addrs [] s = Ok (false, fails) s' -> m_socks s' = []) /\
  (forall s', stop_socks s = Ok tt s' -> m_socks s' = []) /\
  (forall s', destroy s = Ok tt s' -> worker s' = [] -> accept_worker s' = [] ->
     Socket.held (hist s') = Socket.refused (hist s')).
Proof.
  intros Hr. pose proof (reachable_owns read_timeout s Hr) as Ho. split_and!.
  - apply Ho.
  - intros p x Hx Hv. destruct (o_refs _ _ Ho p x Hx Hv); [done|set_solver].
  - intros addrs fails s' H. unfold bind_addrs in H. apply bind_Ok in H as (f & s1 & H1 & H).
    apply (bind_loop_owns []) in H1; [|done]. destruct (negb _); [|done].
    apply bind_Ok in H as ([] & s2 & H2 & H). injection H as <- <-. by apply (clear_socks_owns []) in H2 as [_ ?].
  - intros s' H. by apply stop_socks_owns in H as [_ ?].
  - intros s' H Hw Ha. apply destroy_owns in H as [Ho' Hm]; [|done]. apply owns_nothing; [done|].
    unfold pointers. by rewrite Hm, Hw, Ha.
Qed.

(** ** Binding *)

Section frame.
Context (P : Socket.Socket -> Prop).
Definition on_obj (o : Socket.obj) : Prop := P o.2.

Lemma frame_call c : keeps on_obj (Socket.call kernel c).
Proof. by intros [h x] H. Qed.
Lemma frame_self {A} (f : Socket.Socket -> A) : keeps on_obj (Socket.self f).
Proof. by intros [h x] H. Qed.
Lemma frame_lift {A} (m : Prelude.cmd unit A) : keeps on_obj (Socket.lift m).
Proof. intros s Hs. unfold Socket.lift. by destruct (m tt). Qed.
Lemma frame_option {A B} (o : option A) (f : A -> Socket.cmd B) (g : Socket.cmd B) :
  (forall a, keeps on_obj (f a)) -> keeps on_obj g -> keeps on_obj (match o with Some a => f a | None => g end).
Proof. by destruct o. Qed.
Lemma frame_bool {A} (b : bool) (m1 m2 : Socket.cmd A) : keeps on_obj m1 -> keeps on_obj m2 -> keeps on_obj (if b then m1 else m2).
Proof. by destruct b. Qed.
#[local] Hint Resolve frame_call frame_self frame_lift : keeps.
#[local] Hint Extern 2 (keeps _ (match _ with Some _ => _ | None => _ end)) => apply frame_option; [intros ?|] : keeps.
#[local] Hint Extern 2 (keeps _ (if _ then _ else _)) => apply frame_bool : keeps.

Lemma frame_initSock : keeps on_obj (Socket.initSock kernel).
Proof. unfold Socket.initSock, Socket.setOption. cbv zeta. auto 40 with keeps. Qed.
Lemma frame_localAddress : (forall v x, P x -> P (Socket.set_local v x)) ->
  keeps on_obj (Socket.localAddress kernel byte_order little).
Proof.
  intros Hl. assert (forall v, keeps on_obj (Socket.update (Socket.set_local v))) as Hu by (intros v [h x]; apply Hl).
  unfold Socket.localAddress, Socket.end_address. cbv zeta. auto 40 with keeps.
Qed.
End frame.

(** A socket made for [addr] that has been bound. *)
Definition serves (addr : Address.Address) (x : Socket.Socket) : Prop :=
  Socket.isValid x = true /\ Socket.m_family x = Address.family little addr /\ Socket.m_type x = Socket.SOCK_STREAM.

Lemma bind_serves addr h st :
  Socket.bind_ kernel byte_order little addr (h, Socket.CreateTCP little addr) = Ok true st -> serves addr st.2.
Proof.
  unfold Socket.bind_. intros H. apply bind_Ok in H as (ok & s1 & H1 & H).
  assert (ok = true -> serves addr s1.2) as H1'.
  { unfold Socket.open_if_needed in H1. apply bind_Ok in H1 as (v & s0 & H0 & H1). injection H0 as <- <-.
    change (Socket.isValid (h, Socket.CreateTCP little addr).2) with false in H1. cbv iota in H1.
    apply bind_Ok in H1 as ([] & s2 & H2 & H1). injection H1 as <- <-. intros Hv. unfold serves. split; [done|].
    unfold Socket.newSock in H2. apply bind_Ok in H2 as (x & s3 & H3 & H2). injection H3 as <- <-.
    apply bind_Ok in H2 as (a & s3 & H3 & H2). injection H3 as _ <-.
    apply bind_Ok in H2 as ([] & s3 & H3 & H2). injection H3 as <-. set (s3 := (_, _)) in H2.
    pose proof (frame_bool (fun x => Socket.m_family x = Address.family little addr /\ Socket.m_type x = Socket.SOCK_STREAM)
      (negb (Socket.rt a =? -1)) (Socket.initSock kernel) (ret tt) (frame_initSock _) (keeps_ret _ tt) s3) as Hk.
    rewrite H2 in Hk. by apply Hk. }
  destruct ok; [|done]. cbn [negb] in H. apply bind_Ok in H as (x & s2 & H2 & H). injection H2 as <- <-.
  destruct (negb _); [done|]. apply bind_Ok in H as (a & s2 & H2 & H). injection H2 as <- <-.
  destruct (negb _); [done|]. apply bind_Ok in H as (la & s2 & H2 & H). injection H as <-. set (s3 := (_, _)) in H2.
  pose proof (frame_localAddress (serves addr) ltac:(done) s3 (H1' eq_refl)) as Hk. by rewrite H2 in Hk.
Qed.

Lemma in_sock_at {A} p (m : Socket.cmd A) s a s' : in_sock p m s = Ok a s' ->
  exists x st, store s !! p = Some x /\ m (hist s, x) = Ok a st /\ s' = set_world st.1 (<[p := st.2]> (store s)) s.
Proof.
  unfold in_sock. destruct (store s !! p) as [x|]; [|done]. destruct (m (hist s, x)) as [b st| |] eqn:E; [|done..].
  intros [= <- <-]. eauto.
Qed.

(** The sockets behind pointers. *)
Definition bound (s : t) (ps : list nat) (addrs : list Address.Address) : Prop :=
  Forall2 (fun p a => exists x, store s !! p = Some x /\ serves a x) ps addrs.
(** The store only grows, and the sockets below [n] are as they were. *)
Definition grows (n : nat) (s s' : t) : Prop :=
  (length (store s) <= length (store s'))%nat /\ forall p, (p < n)%nat -> store s' !! p = store s !! p.
Lemma grows_trans n n' s s1 s' : grows n s s1 -> grows n' s1 s' -> (n <= n')%nat -> grows n s s'.
Proof. intros [H1 H2] [H3 H4] Hn. split; [lia|]. intros p Hp. rewrite H4, H2 by lia. done. Qed.

Lemma release_grows p s s' : release p s = Ok tt s' -> grows p s s' /\ same s s'.
Proof.
  unfold release, bind, gets. case_bool_decide; [intros [= <-]; split; [by split|apply same_refl]|].
  intros (x & st & Hx & _ & ->)%in_sock_at. split; [split|].
  - cbn [set_world store]. by rewrite length_insert.
  - intros q Hq. cbn [set_world store]. by rewrite list_lookup_insert_ne by lia.
  - eexists _, _. split; [done|]. by rewrite length_insert.
Qed.

Lemma bind_one_bound addr fails fails' s s' : bind_one addr fails s = Ok fails' s' ->
  grows (length (store s)) s s' /\
  ((fails' = fails /\ exists p, m_socks s' = m_socks s ++ [p] /\ (p < length (store s'))%nat /\ bound s' [p] [addr]) \/
   (fails' = fails ++ [addr] /\ m_socks s' = m_socks s)).
Proof.
  unfold bind_one. intros H. apply bind_Ok in H as (p & s1 & H1 & H). injection H1 as <- <-.
  apply bind_Ok in H as (ok & s2 & H2 & H). apply in_sock_at in H2 as (x & st & Hx & Hb & ->).
  set (n := length (store s)) in *. cbn [set_world store hist] in *.
  rewrite lookup_app_r, Nat.sub_diag in Hx by done. injection Hx as <-.
  assert (forall y, <[n := y]> (store s ++ [Socket.CreateTCP little addr]) = store s ++ [y]) as Eins.
  { intros y. rewrite insert_app_r_alt, Nat.sub_diag by done. done. }
  rewrite Eins in H. set (s2 := set_world _ _ _) in H.
  assert (grows n s s2) as G2.
  { split; cbn; [rewrite length_app; lia|]. intros q Hq. by apply lookup_app_l. }
  assert (forall s3 r, grows n s s3 -> m_socks s3 = m_socks s -> (release n ;;; ret r) s3 = Ok fails' s' ->
    grows n s s' /\ fails' = r /\ m_socks s' = m_socks s) as Hrel.
  { intros s3 r G3 E3 H3. apply bind_Ok in H3 as ([] & s4 & H4 & H3). injection H3 as <- <-.
    apply release_grows in H4 as [G4 S4]. split; [by eapply grows_trans|]. by rewrite (same_socks _ _ S4). }
  destruct ok; cbn [negb] in H; [|destruct (Hrel s2 (fails ++ [addr])) as (? & ? & ?); auto].
  apply bind_serves in Hb. apply bind_Ok in H as (ok & s3 & H3 & H). apply in_sock_at in H3 as (y & st' & Hy & Hl & ->).
  cbn [s2 set_world store hist] in *. rewrite lookup_app_r, Nat.sub_diag in Hy by done. injection Hy as <-.
  assert (st'.2 = st.2) as El by (unfold Socket.listen, bind, Socket.self, gets, Socket.call, ret in Hl; by injection Hl as _ <-).
  rewrite El in H. rewrite insert_app_r_alt, Nat.sub_diag in H by done. cbn [insert list_insert] in H. set (s3 := set_world _ _ _) in H.
  assert (grows n s s3) as G3.
  { split; cbn; [rewrite length_app; lia|]. intros q Hq. by apply lookup_app_l. }
  destruct ok; cbn [negb] in H; [|destruct (Hrel s3 (fails ++ [addr])) as (? & ? & ?); auto].
  apply bind_Ok in H as (ps & s4 & H4 & H). injection H4 as <- <-. apply bind_Ok in H as ([] & s5 & H5 & H).
  injection H5 as <-. injection H as <- <-. split; [exact G3|]. left. split; [done|]. exists n. split; [done|].
  cbn. rewrite length_app. split; [simpl; lia|]. constructor; [|constructor]. exists st.2. split; [|done].
  cbn. by rewrite lookup_app_r, Nat.sub_diag.
Qed.

Lemma bound_grows s s' ps addrs n : bound s ps addrs -> grows n s s' -> Forall (fun p => p < n)%nat ps -> bound s' ps addrs.
Proof.
  intros Hb [_ Hg] Hn. unfold bound in *. induction Hb as [|p a ps addrs (x & Hx & Hs) _ IH]; [constructor|].
  apply Forall_cons in Hn as [Hp Hn]. constructor; [|by apply IH]. exists x. by rewrite Hg.
Qed.

Lemma bind_loop_bound addrs : forall fails fails' s s', bind_loop addrs fails s = Ok fails' s' ->
  grows (length (store s)) s s' /\ exists fs ps,
    fails' = fails ++ fs /\ fs `sublist_of` addrs /\ m_socks s' = m_socks s ++ ps /\ (fs = [] -> bound s' ps addrs).
Proof.
  induction addrs as [|a addrs IH]; intros fails fails' s s' H; cbn [bind_loop] in H.
  { injection H as <- <-. split; [by split|]. exists [], []. rewrite !app_nil_r. repeat split; constructor. }
  apply bind_Ok in H as (f1 & s1 & H1 & H). apply bind_one_bound in H1 as [G1 H1].
  apply IH in H as (G2 & fs & ps & -> & Hsub & Em & Hb). destruct G1 as [G1a G1b], G2 as [G2a G2b].
  split; [split; [lia|]; intros p Hp; rewrite G2b, G1b by lia; done|].
  destruct H1 as [(-> & p & Em1 & Hp & Hb1)|[-> Em1]].
  - exists fs, (p :: ps). rewrite Em, Em1, <- app_assoc. split_and!; [done|by apply sublist_cons|done|].
    intros Hfs. specialize (Hb Hfs). apply (bound_grows _ s' _ _ (length (store s1))) in Hb1; [|done|by constructor].
    apply Forall2_cons in Hb1 as [Hb1 _]. by constructor.
  - exists (a :: fs), ps. rewrite Em, Em1, <- app_assoc. split_and!; [done|by apply sublist_skip|done|done].
Qed.

(** Binding is all or nothing: [bind] succeeds if and only if it reports no address as failed, and then
    the server has, behind the sockets it had, one socket for every address in their order, each with a
    descriptor, of the address's family and of stream type; otherwise the failed addresses are a
    part of those given, in order, and the server is left without any socket. *)
Theorem bind_outcome (addrs fails : list Address.Address) (ok : bool) (s s' : t) :
  bind_addrs addrs [] s = Ok (ok, fails) s' ->
  (ok = true <-> fails = []) /\ fails `sublist_of` addrs /\
  (ok = true -> exists ps, m_socks s' = m_socks s ++ ps /\ bound s' ps addrs) /\
  (ok = false -> m_socks s' = []).
Proof.
  unfold bind_addrs. intros H. apply bind_Ok in H as (f & s1 & H1 & H).
  apply bind_loop_bound in H1 as (_ & fs & ps & -> & Hsub & Em & Hb). cbn [app] in *.
  case_bool_decide as E; cbn [negb] in H.
  - injection H as <- <- <-. split_and!; try done. intros _. exists ps. auto.
  - apply bind_Ok in H as ([] & s2 & H2 & H). injection H as <- <- <-. split_and!; try done.
    intros _. unfold clear_socks in H2. apply bind_Ok in H2 as (qs & s3 & H3 & H2). injection H3 as <- <-.
    apply bind_Ok in H2 as ([] & s3 & H3 & H2). injection H3 as <-.
    assert (forall qs s s', for_each release qs s = Ok tt s' -> same s s') as Hfe.
    { clear. induction qs as [|q qs IH]; intros s s' H; cbn [for_each] in H; [injection H as <-; apply same_refl|].
      apply bind_Ok in H as ([] & s1 & H1 & H). apply release_grows in H1 as [_ H1]. eapply same_trans; [exact H1|by apply IH]. }
    apply Hfe in H2. by rewrite (same_socks _ _ H2).
Qed.
End server.

(** ** Examples *)

(** A system that answers every call with success and knows every descriptor. *)
Definition open_ctx : FdManager.FdCtx := FdManager.FdCtx_ true true false true false 5 (-1) (-1).
Definition ex_kernel (h : Socket.history) (c : Socket.syscall) : Socket.answer :=
  match c with
  | Socket.FdMgr_get _ => Socket.Answer 0 [] 0 (Some open_ctx)
  | Socket.Sys_socket _ _ _ | Socket.Sys_accept _ => Socket.plain_answer (5 + Z.of_nat (length h))
  | Socket.Sys_getsockname _ _ | Socket.Sys_getpeername _ _ => Socket.plain_answer (-1)
  | _ => Socket.plain_answer 0
  end.
Definition ex_addr : Address.Address := Address.IPv4Address (Address.new_IPv4Address 1 0 8080).
Definition state_of {A} (r : res t A) : t := match r with Ok _ s => s | _ => new_TcpServer 0 end.
Definition ex_bound : t := state_of (bind_addrs ex_kernel 1 true [ex_addr] [] (new_TcpServer 120000)).
Definition ex_started : t := state_of (start ex_bound).
Definition ex_accepted : t := state_of (run_accept ex_kernel 1 true 0 ex_started).

Lemma bind_outcome_witness : exists ps, m_socks ex_bound = [] ++ ps /\ bound true ex_bound ps [ex_addr].
Proof.
  apply (bind_outcome ex_kernel 1 true [ex_addr] [] true (new_TcpServer 120000) ex_bound); vm_compute; reflexivity.
Defined.

Lemma server_owns_witness :
  Socket.held (hist ex_accepted) = Socket.valid_count (store ex_accepted) + Socket.refused (hist ex_accepted) /\
  Socket.valid_count (store ex_accepted) = 2 /\ Socket.refused (hist ex_accepted) = 0.
Proof.
  split; [|by vm_compute]. apply (server_owns ex_kernel 1 true 120000).
  eapply reach_step; [eapply reach_step; [eapply reach_step; [apply reach_new|]|]|].
  - apply (step_bind ex_kernel 1 true [ex_addr] (true, []) _ ex_bound). vm_compute. reflexivity.
  - apply (step_start ex_kernel 1 true _ ex_started). vm_compute. reflexivity.
  - apply (step_accept ex_kernel 1 true 0 _ ex_accepted). vm_compute. reflexivity.
Defined.

(** ** Behaviour that is not intended *)

(** [m_is_stop] is never reset: a server that has been stopped and is started once more schedules its
    accept loops, and each of them ends without accepting anything. *)
Example stopped_for_good :
  match (stop ;;; start) ex_bound with
  | Ok true s => m_is_stop s = true /\ StartAccept 0 ∈ accept_worker s /\ start_accept_round ex_kernel 1 true 0 s = Ok false s
  | _ => False
  end.
Proof. vm_compute. split; [done|]. split; [|done]. set_solver. Qed.

End TcpServer.
