(* ===== verification/EchoServer.v ===== *)
(** * The sample server: src/samples/echo_server.cpp

    A client of the library: a [TcpServer] whose [handle_client] receives into a
    [ByteArray] and prints what it has received on the console.  The handler runs
    over the socket of [Socket] and the array of [ByteArray]; the server is the
    one of [TcpServer].  The texts of the log are left out. *)

From stdpp Require Import prelude strings.
From Stdlib Require Import ZArith Lia.
From S2P Require Import Prelude ByteArray Address Socket SocketStream TcpServer.

Module EchoServer.
Local Open Scope Z_scope.

(** The client's socket with the history of its environment, and what has been printed. *)
Record world := World {
  sock : Socket.obj;
  cout : list Z
}.
Definition state : Type := world * ByteArray.t.
Definition buffer_size : nat := 1024.
(** The base size of [new ByteArray]. *)
Definition default_base : nat := 4096.

Section echo.
Context (kernel : Socket.history -> Socket.syscall -> Socket.answer).
Context (fresh : nat -> nat -> list Z).

Definition on_client {A} (m : Socket.cmd A) : cmd state A :=
  fun s => match m (sock s.1) with
           | Ok a x => Ok a (World x (cout s.1), s.2)
           | Throw e x => Throw e (World x (cout s.1), s.2)
           | Fail_ f => Fail_ f
           end.
Definition on_ba {A} (m : cmd ByteArray.t A) : cmd state A :=
  fun s => match m s.2 with
           | Ok a x => Ok a (s.1, x)
           | Throw e x => Throw e (s.1, x)
           | Fail_ f => Fail_ f
           end.
(** [std::cout << text << std::endl] *)
Definition print (text : list Z) : cmd state unit :=
  modify (fun s => (World (sock s.1) (cout s.1 ++ text ++ [10]), s.2)).

(** One round of the loop; [false]: the loop is left. *)
Definition handle_round (m_type : Z) : cmd state bool :=
  on_ba (modify ByteArray.clear) ;;;
  let* r := on_ba (ByteArray.getWriteBuffers fresh buffer_size) in
  let iovs := snd r in
  require (negb (bool_decide (length iovs = 0%nat))) ;;;
  let* a := on_client (Socket.recv_iov kernel ((fun v => Z.of_nat (ByteArray.iov_len v)) <$> iovs) 0) in
  let '(rt, bytes) := a in
  on_ba (fun b => match SocketStream.scatter iovs bytes (ByteArray.m_nodes b) with
                  | Some ns => Ok tt (ByteArray.set_nodes ns b)
                  | None => Fail_ Undef
                  end) ;;;
  if rt =? 0 then ret false
  else if rt <? 0 then ret false
  else
    let* pos := on_ba (gets ByteArray.m_pos) in
    on_ba (ByteArray.position (pos + Z.to_nat rt)) ;;;
    on_ba (ByteArray.position 0) ;;;
    let* text := on_ba (if m_type =? 1 then ByteArray.to_string else ByteArray.to_hex_string) in
    print text ;;;
    ret true.
Fixpoint handle_loop (fuel : nat) (m_type : Z) : cmd state unit :=
  match fuel with
  | O => fail OutOfFuel
  | S fuel => let* go := handle_round m_type in if go : bool then handle_loop fuel m_type else ret tt
  end.
(** The array lives as long as the call. *)
Definition handle_client (fuel : nat) (m_type : Z) : cmd world unit :=
  fun w => match handle_loop fuel m_type (w, ByteArray.ByteArray fresh default_base) with
           | Ok a s => Ok a s.1
           | Throw e s => Throw e s.1
           | Fail_ f => Fail_ f
           end.

(** ** The server *)
Context (byte_order : Z) (little : bool).
(** The scheduled function of the [i]-th place of the worker's queue, [handle_client], and its end. *)
Definition run_client (fuel : nat) (m_type : Z) (i : nat) : cmd (TcpServer.t * list Z) unit :=
  fun s =>
  match TcpServer.worker s.1 !! i with
  | Some (TcpServer.HandleClient p) =>
    match TcpServer.store s.1 !! p with
    | None => Fail_ Undef
    | Some x =>
      match handle_client fuel m_type (World (TcpServer.hist s.1, x) s.2) with
      | Ok _ w =>
        let s1 := TcpServer.set_world (fst (sock w)) (<[p := snd (sock w)]> (TcpServer.store s.1)) s.1 in
        let s2 := TcpServer.set_worker (TcpServer.take_task i (TcpServer.worker s1)) s1 in
        match TcpServer.release kernel p s2 with
        | Ok _ s3 => Ok tt (s3, cout w)
        | Throw e s3 => Throw e (s3, cout w)
        | Fail_ f => Fail_ f
        end
      | Throw e w => Throw e (s.1, cout w)
      | Fail_ f => Fail_ f
      end
    end
  | _ => Fail_ Undef
  end.
(** [run]: [addr] is what [LookupAny] has found; a null address is dereferenced by [bind]. *)
Fixpoint bind_retry (fuel : nat) (addr : option Address.Address) : TcpServer.cmd unit :=
  match fuel with
  | O => fail OutOfFuel
  | S fuel =>
    match addr with
    | None => fail Undef
    | Some a =>
      let* ok := TcpServer.bind_addr kernel byte_order little a in
      if ok : bool then ret tt else bind_retry fuel addr
    end
  end.
Definition run (fuel : nat) (addr : option Address.Address) : TcpServer.cmd unit :=
  bind_retry fuel addr ;;;
  let* _ := TcpServer.start in
  ret tt.

(** ** What a session prints *)
(** The system's answer to a call for the next bytes of the client. *)
Definition recv_call (x : Socket.Socket) : Socket.syscall :=
  Socket.Sys_recvmsg (Socket.m_sock x) [Z.of_nat buffer_size] None 0.
Definition after (x : Socket.Socket) (h : Socket.history) : Socket.history :=
  h ++ [(recv_call x, kernel h (recv_call x))].
(** The calls from [h] on bring [ds], and lead to the history [h']. *)
Inductive deliveries (x : Socket.Socket) : Socket.history -> list (list Z) -> Socket.history -> Prop :=
  | del_nil h : deliveries x h [] h
  | del_cons h ds h' :
      0 < Socket.rt (kernel h (recv_call x)) ->
      deliveries x (after x h) ds h' ->
      deliveries x h (Socket.data (kernel h (recv_call x)) :: ds) h'.
Definition line (m_type : Z) (d : list Z) : list Z :=
  (if m_type =? 1 then d else ByteArray.hex_dump 0 d) ++ [10].

Context (fresh_length : forall k n, length (fresh k n) = n).

(** A cleared array of one node hands out one buffer, at its front. *)
Definition cleared (e : Z) (d : list Z) : ByteArray.t := ByteArray.mk (length d) 0 (length d) 0 e [d] (Some 0%nat).
Lemma clear_cleared b : ByteArray.wf b ->
  exists d, ByteArray.clear b = cleared (ByteArray.m_endian b) d /\ length d = ByteArray.m_base_size b.
Proof.
  intros [_ Hr Hbl _ _ _ _]. destruct (ByteArray.m_nodes b) as [|d ns] eqn:E; [done|].
  apply Forall_cons in Hbl as [Hd _]. exists d. split; [|done]. unfold ByteArray.clear, cleared. cbn. by rewrite E, Hd.
Qed.
Lemma one_buffer n e d : (0 < n <= length d)%nat ->
  ByteArray.getWriteBuffers fresh n (cleared e d) = Ok (n, [ByteArray.IoVec 0 0 n]) (cleared e d).
Proof.
  intros Hn. unfold ByteArray.getWriteBuffers. rewrite decide_False by lia.
  unfold bind at 1, ByteArray.addCapacity at 1. rewrite decide_False by lia.
  unfold bind at 1, gets at 1. unfold ByteArray.getCapacity, cleared. cbn [ByteArray.m_capacity ByteArray.m_pos].
  rewrite decide_True by lia. unfold ret at 1, bind at 1, gets at 1. cbn [ByteArray.m_pos].
  unfold bind at 1, ByteArray.base_mod, ByteArray.deref at 1. cbn [ByteArray.m_base_size].
  rewrite decide_False by lia. rewrite Nat.Div0.mod_0_l.
  unfold bind at 1, ByteArray.cur_size, ByteArray.deref at 1. cbn [ByteArray.node_size ByteArray.m_cur ByteArray.m_nodes lookup list_lookup fmap option_fmap option_map].
  unfold bind at 1, gets at 1. cbn [ByteArray.m_cur]. unfold bind at 1. cbn [ByteArray.iov_loop].
  rewrite decide_False by lia. unfold bind at 1, ByteArray.deref at 1. rewrite decide_True by lia.
  destruct n as [|n]; [lia|]. cbn [ByteArray.iov_loop]. rewrite decide_True by done. done.
Qed.

Lemma cleared_wf e d : (0 < length d)%nat -> ByteArray.wf (cleared e d).
Proof.
  intros Hd. constructor; cbn; try done; try lia; [by repeat constructor|].
  unfold ByteArray.cur_of. rewrite decide_True by lia. by rewrite Nat.Div0.div_0_l.
Qed.
(** The received bytes are at the front of the node. *)
Lemma scatter_front n bs d : (length bs <= n)%nat -> (n <= length d)%nat ->
  SocketStream.scatter [ByteArray.IoVec 0 0 n] bs [d] = Some [splice 0 bs d].
Proof.
  intros Hl Hn. destruct bs as [|c bs]; [done|]. cbn -[take drop splice].
  rewrite take_ge, drop_ge by done. done.
Qed.
(** Moving the position behind the received bytes and back makes them the unread ones. *)
Lemma rewind_spec bs e d : (length bs <= length d)%nat -> (0 < length d)%nat ->
  exists b1 b2, ByteArray.position (length bs) (cleared e (splice 0 bs d)) = Ok tt b1 /\
    ByteArray.position 0 b1 = Ok tt b2 /\ ByteArray.wf b2 /\ ByteArray.m_base_size b2 = length d /\
    ByteArray.to_string b2 = Ok bs b2.
Proof.
  intros Hl Hd. assert (length (splice 0 bs d) = length d) as Hs by (rewrite length_splice; lia).
  pose proof (cleared_wf e (splice 0 bs d) ltac:(lia)) as Hwf.
  destruct (ByteArray.position_spec (length bs) _ Hwf) as [_ H1]. destruct H1 as [E1 W1]; [cbn; lia|].
  destruct (ByteArray.position_spec 0 _ W1) as [_ H2]. destruct H2 as [E2 W2]; [lia|].
  eexists _, _. split; [exact E1|]. split; [exact E2|]. split; [done|]. split; [done|].
  rewrite ByteArray.to_string_spec by done. f_equal. cbn [ByteArray.m_pos]. rewrite drop_0.
  unfold ByteArray.contents, ByteArray.mem. cbn. rewrite app_nil_r.
  rewrite Nat.max_0_r. unfold splice. rewrite take_0. cbn. by rewrite take_app_length.
Qed.

(** A round with the answer [a] of the system. *)
Lemma handle_round_spec m_type h x out b :
  SocketStream.recvmsg_ok kernel -> Socket.m_isConnected x = true ->
  ByteArray.wf b -> ByteArray.m_base_size b = default_base ->
  let a := kernel h (recv_call x) in
  exists b', ByteArray.wf b' /\ ByteArray.m_base_size b' = default_base /\
    handle_round m_type (World (h, x) out, b) =
      if 0 <? Socket.rt a then Ok true (World (after x h, x) (out ++ line m_type (Socket.data a)), b')
      else Ok false (World (after x h, x) out, b').
Proof.
  intros Hk Hx Hwf Hb a. destruct (clear_cleared b Hwf) as (d & Ec & Hd). rewrite Hb in Hd.
  assert (0 < buffer_size <= length d)%nat as Hn by (rewrite Hd; unfold buffer_size, default_base; lia).
  pose proof (Hk h (Socket.m_sock x) [Z.of_nat buffer_size] None 0) as Ha. cbv zeta in Ha. fold (recv_call x) a in Ha. cbn [foldr] in Ha.
  assert (length (Socket.data a) <= buffer_size)%nat as Hdata by (destruct Ha as [[_ ->]|?]; cbn; lia).
  unfold handle_round, bind at 1, on_ba at 1. cbn [snd fst modify]. rewrite Ec.
  unfold bind at 1, on_ba at 1. cbn [snd fst]. rewrite one_buffer by done.
  unfold bind at 1. rewrite bool_decide_eq_false_2 by done. cbn [negb require ret].
  assert (s32 (Socket.rt a) = Socket.rt a) as Hrt by (apply swrap_id; [lia|unfold in_s; lia]).
  unfold bind at 1, on_client at 1. cbn [snd fst sock cout fmap list_fmap ByteArray.iov_len].
  unfold Socket.recv_iov, Socket.if_connected, bind at 1, Socket.self, gets, id. cbn [snd fst]. rewrite Hx.
  unfold bind at 1, Socket.call. cbn [snd fst]. fold (recv_call x). fold a. cbn [ret]. rewrite Hrt. fold (after x h).
  unfold bind at 1, on_ba at 1. cbn [snd fst cleared ByteArray.m_nodes]. rewrite scatter_front by lia.
  set (d' := splice 0 (Socket.data a) d).
  assert (length d' = length d) as Hd' by (apply length_splice; lia).
  change (ByteArray.set_nodes [d'] (cleared (ByteArray.m_endian b) d))
    with (ByteArray.mk (length d) 0 (length d) 0 (ByteArray.m_endian b) [d'] (Some 0%nat)).
  rewrite <- Hd'. fold (cleared (ByteArray.m_endian b) d').
  destruct (Z.ltb_spec 0 (Socket.rt a)) as [Hp|Hp].
  - destruct (rewind_spec (Socket.data a) (ByteArray.m_endian b) d) as (b1 & b2 & E1 & E2 & W & Eb & Et); [lia..|].
    exists b2. split_and!; [done|congruence|]. rewrite (proj2 (Z.eqb_neq _ 0)), (proj2 (Z.ltb_ge _ 0)) by lia.
    unfold bind at 1, on_ba at 1. cbn [snd fst gets cleared ByteArray.m_pos].
    replace (0 + Z.to_nat (Socket.rt a))%nat with (length (Socket.data a)) by (destruct Ha as [[? _]|?]; lia).
    unfold bind at 1, on_ba at 1. cbn [snd fst]. fold (cleared (ByteArray.m_endian b) d'). unfold d'. rewrite E1.
    unfold bind at 1, on_ba at 1. cbn [snd fst]. rewrite E2. unfold bind at 1, on_ba at 1. cbn [snd fst].
    unfold line. destruct (m_type =? 1); [by rewrite Et|]. unfold ByteArray.to_hex_string, bind at 1. by rewrite Et.
  - exists (cleared (ByteArray.m_endian b) d'). split_and!; [apply cleared_wf; lia|cbn; lia|].
    destruct (Z.eqb_spec (Socket.rt a) 0); [done|]. by rewrite (proj2 (Z.ltb_lt _ 0)) by lia.
Qed.

Lemma handle_loop_spec m_type x : SocketStream.recvmsg_ok kernel -> Socket.m_isConnected x = true ->
  forall fuel h out b, ByteArray.wf b -> ByteArray.m_base_size b = default_base ->
  exists ds h', deliveries x h ds h' /\
    ((length ds = fuel /\ handle_loop fuel m_type (World (h, x) out, b) = Fail_ OutOfFuel) \/
     ((length ds < fuel)%nat /\ Socket.rt (kernel h' (recv_call x)) <= 0 /\ exists b',
      handle_loop fuel m_type (World (h, x) out, b) =
        Ok tt (World (after x h', x) (out ++ concat (line m_type <$> ds)), b'))).
Proof.
  intros Hk Hx. induction fuel as [|fuel IH]; intros h out b Hwf Hb.
  { exists [], h. split; [constructor|]. by left. }
  destruct (handle_round_spec m_type h x out b Hk Hx Hwf Hb) as (b1 & W1 & B1 & E1). cbv zeta in E1.
  cbn [handle_loop]. unfold bind. rewrite E1. destruct (Z.ltb_spec 0 (Socket.rt (kernel h (recv_call x)))) as [Hp|Hp].
  - destruct (IH (after x h) (out ++ line m_type (Socket.data (kernel h (recv_call x)))) b1 W1 B1) as (ds & h' & Hd & H).
    exists (Socket.data (kernel h (recv_call x)) :: ds), h'. split; [by constructor|].
    destruct H as [[Hl E]|(Hl & He & b' & E)]; rewrite E; cbn [length]; [left; split; [lia|done]|right].
    split_and!; [lia|done|]. exists b'. cbn. by rewrite app_assoc.
  - exists [], h. split; [constructor|]. right. cbn. split_and!; [lia|done|]. exists b1. by rewrite app_nil_r.
Qed.

(** The calls of a session are a sequence of operations on its socket. *)
Lemma run_ops_deliveries x h ds h' : Socket.m_isConnected x = true -> deliveries x h ds h' ->
  Socket.run_ops kernel byte_order little (replicate (S (length ds)) (Socket.ORecvIov [Z.of_nat buffer_size] 0)) (h, x) =
    Ok tt (after x h', x).
Proof.
  intros Hx Hd. induction Hd as [h|h ds h' Hp Hd IH].
  - cbn. unfold Socket.recv_iov, Socket.if_connected, bind, Socket.self, gets, id. cbn [snd fst]. by rewrite Hx.
  - cbn [length replicate]. cbn [Socket.run_ops]. unfold bind at 1. cbn [Socket.run_op].
    unfold bind at 1, Socket.recv_iov, Socket.if_connected, bind, Socket.self, gets, id. cbn [snd fst]. rewrite Hx.
    cbn -[Socket.run_ops replicate buffer_size]. exact IH.
Qed.

(** C10: the sample server prints exactly what its client sends.  On a connected socket, with a system whose
    [recvmsg] behaves as documented, the handler fails in no way: it asks for 1024 bytes at a time, and as
    long as bytes come it prints them, each piece on a line of its own (the bytes themselves, or their hex
    dump when the type is not 1), in the order they came; the first answer that brings none, the end of the
    stream or an error, ends it, after exactly one call more than there were pieces.  On the server, a
    run of the handler is one of the steps of the worker in [TcpServer], for which the ownership of the
    descriptors is proved. *)
Theorem echo_outcome (m_type : Z) (fuel : nat) (h : Socket.history) (x : Socket.Socket) (out : list Z) :
  SocketStream.recvmsg_ok kernel -> Socket.m_isConnected x = true ->
  exists ds h', deliveries x h ds h' /\
    ((length ds = fuel /\ handle_client fuel m_type (World (h, x) out) = Fail_ OutOfFuel) \/
     ((length ds < fuel)%nat /\ Socket.rt (kernel h' (recv_call x)) <= 0 /\
      handle_client fuel m_type (World (h, x) out) =
        Ok tt (World (after x h', x) (out ++ concat (line m_type <$> ds))) /\
      forall s s' i p lines,
        TcpServer.worker s !! i = Some (TcpServer.HandleClient p) -> TcpServer.store s !! p = Some x ->
        TcpServer.hist s = h ->
        run_client fuel m_type i (s, out) = Ok tt (s', lines) ->
        lines = out ++ concat (line m_type <$> ds) /\ TcpServer.step kernel byte_order little s s')).
Proof.
  intros Hk Hx.
  destruct (handle_loop_spec m_type x Hk Hx fuel h out (ByteArray.ByteArray fresh default_base)) as (ds & h' & Hd & H).
  { apply ByteArray.ByteArray_wf; [done|]. unfold default_base. lia. }
  { done. }
  exists ds, h'. split; [done|]. destruct H as [[Hl E]|(Hl & He & b' & E)].
  { left. split; [done|]. unfold handle_client. by rewrite E. }
  assert (handle_client fuel m_type (World (h, x) out) = Ok tt (World (after x h', x) (out ++ concat (line m_type <$> ds)))) as Eh
    by (unfold handle_client; by rewrite E).
  right. split_and!; [done..|]. intros s s' i p lines Hi Hp Hh Hr. unfold run_client in Hr. cbn [fst snd] in Hr.
  rewrite Hi, Hp, Hh, Eh in Hr. cbn [sock cout fst snd] in Hr.
  destruct (TcpServer.release kernel p _) as [[] s3| |] eqn:Er; [|done..]. injection Hr as <- <-. split; [done|].
  apply (TcpServer.step_worker _ _ _ i (replicate (S (length ds)) (Socket.ORecvIov [Z.of_nat buffer_size] 0))).
  unfold TcpServer.run_worker, bind at 1, gets. rewrite Hi. unfold bind at 1, TcpServer.in_sock. rewrite Hp, Hh.
  rewrite (run_ops_deliveries x h ds h' Hx Hd). exact Er.
Qed.

(** ** Starting the server *)
(** Binding leaves the queue of the accepting worker and the flag of [start] alone. *)
Definition idle (q : list TcpServer.task) (started : bool) (s : TcpServer.t) : Prop :=
  TcpServer.accept_worker s = q /\ TcpServer.m_is_start s = started.
Section idle.
Context (q : list TcpServer.task) (started : bool).
Lemma idle_in_sock {A} p (m : Socket.cmd A) : keeps (idle q started) (TcpServer.in_sock p m).
Proof. intros s Hs. unfold TcpServer.in_sock. destruct (_ !! p); [|done]. by destruct (m _). Qed.
Lemma idle_modify_socks v : keeps (idle q started) (modify (TcpServer.set_socks v)).
Proof. by intros s Hs. Qed.
Lemma idle_alloc x : keeps (idle q started) (TcpServer.alloc x).
Proof. by intros s Hs. Qed.
#[local] Hint Resolve @idle_in_sock idle_modify_socks idle_alloc : keeps.
#[local] Hint Extern 3 (keeps _ (if _ then _ else _)) => case_match : keeps.
Lemma idle_release p : keeps (idle q started) (TcpServer.release kernel p).
Proof. unfold TcpServer.release. auto with keeps. Qed.
Lemma idle_bind_loop addrs : forall fails, keeps (idle q started) (TcpServer.bind_loop kernel byte_order little addrs fails).
Proof.
  induction addrs as [|a l IH]; intros fails; cbn; [auto with keeps|].
  apply keeps_bind; [|auto]. unfold TcpServer.bind_one. eauto 12 using idle_release with keeps.
Qed.
Lemma idle_bind addrs : keeps (idle q started) (TcpServer.bind_addrs kernel byte_order little addrs []).
Proof.
  assert (forall ps, keeps (idle q started) (TcpServer.for_each (TcpServer.release kernel) ps)) as Hf
    by (induction ps; cbn; auto using idle_release with keeps).
  unfold TcpServer.bind_addrs, TcpServer.clear_socks. apply keeps_bind; [apply idle_bind_loop|]. eauto 9 with keeps.
Qed.
End idle.
Lemma bind_addr_inv a s ok s' : TcpServer.bind_addr kernel byte_order little a s = Ok ok s' ->
  exists fails, TcpServer.bind_addrs kernel byte_order little [a] [] s = Ok (ok, fails) s'.
Proof.
  unfold TcpServer.bind_addr. intros H. inv_bind H. destruct y as [b fails]. injection H as <- <-. by exists fails.
Qed.

(** [run] binds until it succeeds: when it returns, the server has exactly one socket, one that serves the
    address, whatever the failed attempts did, and its accept loop is scheduled; without an address it
    dereferences null. *)
Theorem run_outcome (fuel : nat) (a : Address.Address) (timeout : Z) (s s' : TcpServer.t) :
  (run fuel (Some a) (TcpServer.new_TcpServer timeout) = Ok tt s' ->
    exists p, TcpServer.m_socks s' = [p] /\ TcpServer.bound little s' [p] [a] /\
      TcpServer.accept_worker s' = [TcpServer.StartAccept p] /\ TcpServer.m_is_start s' = true) /\
  ((0 < fuel)%nat -> run fuel None s = Fail_ Undef).
Proof.
  split; [|by destruct fuel; [lia|]]. unfold run. intros H. inv_bind H.
  assert (forall fuel s s1, idle [] false s -> TcpServer.m_socks s = [] -> bind_retry fuel (Some a) s = Ok y s1 ->
    idle [] false s1 /\ exists p, TcpServer.m_socks s1 = [p] /\ TcpServer.bound little s1 [p] [a]) as Hb.
  { clear. induction fuel as [|fuel IH]; intros s s1 Hi Hs H; [done|]. cbn in H. inv_bind H.
    apply bind_addr_inv in H0 as [fails E]. pose proof (idle_bind [] false [a] s Hi) as Hi'. rewrite E in Hi'.
    destruct (TcpServer.bind_outcome kernel byte_order little _ _ _ _ _ E) as (_ & _ & Ht & Hf). destruct y0.
    - injection H as _ <-. split; [done|]. destruct (Ht eq_refl) as (ps & Ep & Hb). rewrite Hs in Ep.
      pose proof (Forall2_length _ _ _ Hb) as Hl. destruct ps as [|p [|]]; [done| |done]. by exists p.
    - eapply IH; [exact Hi'|by apply Hf|exact H]. }
  apply Hb in H0; [|by split|done]. destruct H0 as ([Hq Hst] & p & Hp & Hbd). exists p.
  unfold TcpServer.start, bind, gets, modify in H. rewrite Hst in H. cbn in H. injection H as <-. cbn.
  by rewrite Hq, Hp.
Qed.
End echo.

(** ** Examples *)
(** A peer that sends two pieces and closes. *)
Definition two_pieces (h : Socket.history) (c : Socket.syscall) : Socket.answer :=
  match c with
  | Socket.Sys_recvmsg _ lens _ _ =>
    let bytes := match length h with 0%nat => [104; 105] | 1%nat => [33] | _ => [] end in
    if Z.of_nat (length bytes) <=? foldr Z.add 0 lens then Socket.Answer (Z.of_nat (length bytes)) bytes 0 None
    else Socket.plain_answer (-1)
  | _ => Socket.plain_answer 0
  end.
Lemma two_pieces_ok : SocketStream.recvmsg_ok two_pieces.
Proof.
  intros h fd lens name flags. cbv zeta. unfold two_pieces. destruct (Z.leb_spec (Z.of_nat
    (length match length h with 0%nat => [104; 105] | 1%nat => [33] | _ => [] end)) (foldr Z.add 0 lens)) as [H|H]; [right|by left].
  cbn [Socket.rt Socket.data]. split_and!; [done..|]. by destruct (length h) as [|[|]].
Qed.
Ltac two_steps H :=
  inversion H as [|? ? ? _ H1]; subst;
  [|inversion H1 as [|? ? ? _ H2]; subst; [|inversion H2 as [|? ? ? Hp _]; subst]].
Lemma echo_outcome_witness :
  handle_client two_pieces ByteArray.zero_fresh 5 1 (World ([], SocketStream.ex_socket) []) =
    Ok tt (World (after two_pieces SocketStream.ex_socket
      (after two_pieces SocketStream.ex_socket (after two_pieces SocketStream.ex_socket [])), SocketStream.ex_socket)
      [104; 105; 10; 33; 10]).
Proof.
  destruct (echo_outcome two_pieces ByteArray.zero_fresh 1 true ltac:(intros; apply length_replicate) 1 5 []
    SocketStream.ex_socket [] two_pieces_ok eq_refl) as (ds & h' & Hd & [[Hl _]|(Hl & He & E & _)]).
  - exfalso. revert Hl. two_steps Hd; [done|done|done|by vm_compute in Hp].
  - etransitivity; [exact E|]. two_steps Hd; [by vm_compute in He|by vm_compute in He|done|by vm_compute in Hp].
Defined.
End EchoServer.
