(* ===== verification/Hook.v ===== *)
(** * The hooked system calls: src/src/hook.h, src/src/hook.cpp

    A hooked call runs the original function and, where that would block, puts the
    calling fiber on hold until a descriptor is ready or a timer expires.  A call
    is cut where it gives up control: it returns, or it is suspended with a frame
    that says how it goes on.  The original functions are the parameter [kernel],
    which answers from the history of calls; what the environment decides in one
    call (the clock, fresh addresses, the result of [epoll_ctl]) is a record
    [env].  Logging is left out. *)

From stdpp Require Import prelude gmap.
From Stdlib Require Import ZArith Lia.
From S2P Require Import Prelude Timer FdManager Fiber Scheduler IOManager Socket.

Module Hook.
Import IOManager.
Local Open Scope Z_scope.

(** Constants of the platform (Linux, x86-64). *)
Definition EINTR : Z := 4.
Definition EBADF : Z := 9.
Definition EAGAIN : Z := 11.
Definition ETIMEDOUT : Z := 110.
Definition EINPROGRESS : Z := 115.
Definition F_DUPFD : Z := 0.
Definition F_GETFD : Z := 1.
Definition F_SETFD : Z := 2.
Definition F_GETFL : Z := 3.
Definition F_SETFL : Z := 4.
Definition F_GETLK : Z := 5.
Definition F_SETLK : Z := 6.
Definition F_SETLKW : Z := 7.
Definition F_SETOWN : Z := 8.
Definition F_GETOWN : Z := 9.
Definition F_SETSIG : Z := 10.
Definition F_GETSIG : Z := 11.
Definition F_SETOWN_EX : Z := 15.
Definition F_GETOWN_EX : Z := 16.
Definition F_SETLEASE : Z := 1024.
Definition F_GETLEASE : Z := 1025.
Definition F_NOTIFY : Z := 1026.
Definition F_DUPFD_CLOEXEC : Z := 1030.
Definition F_SETPIPE_SZ : Z := 1031.
Definition F_GETPIPE_SZ : Z := 1032.
Definition FIONBIO : Z := 21537.

(** The functions that [do_io] wraps. *)
Inductive io_fun :=
  | accept_f | read_f | readv_f | recv_f | recvfrom_f | recvmsg_f
  | write_f | writev_f | send_f | sendto_f | sendmsg_f.
#[export] Instance io_fun_eq_dec : EqDecision io_fun.
Proof. solve_decision. Defined.

Section hooks.
Context {A U : Type}.   (* the arguments of an I/O function; the clients' callbacks *)

(** Calls of the original functions. *)
Inductive sys :=
  | Sys_sleep (seconds : Z)
  | Sys_usleep (usec : Z)
  | Sys_socket (domain type protocol : Z)
  | Sys_connect (fd : Z) (addr : list Z) (addrlen : Z)
  | Sys_io (fn : io_fun) (fd : Z) (args : A)
  | Sys_close (fd : Z)
  | Sys_fcntl (fd cmd : Z) (arg : option Z)
  | Sys_ioctl (fd request arg : Z)
  | Sys_getsockopt (fd level optname : Z)
  | Sys_setsockopt (fd level optname : Z) (val : Socket.optval).
(** The result, the value of [errno] when the result is -1, and the option value
    that [getsockopt] stores. *)
Record answer := Answer { rt : Z; err : Z; out : Z }.
Definition history : Type := list (sys * answer).

(** The functions the timers call: a client's, [Scheduler::schedule] bound to a
    fiber, or the lambda of [do_io] and [connect_with_timeout]. *)
Inductive closure :=
  | Client (u : U)
  | Schedule (f : nat)
  | Timeout (winfo : nat) (fd event : Z).

Record hooks := Hooks {
  fds : FdManager.manager;
  io : iom closure nat;
  infos : gmap nat Z;        (* live timer_info objects: their member cancelled *)
  enabled : gset nat;        (* the threads with t_hook_enable *)
  errnos : gmap nat Z;       (* errno by thread *)
  s_connect_timeout : Z;
  hist : history
}.
Abbreviation cmd := (Prelude.cmd hooks).

Definition set_fds v s := Hooks v (io s) (infos s) (enabled s) (errnos s) (s_connect_timeout s) (hist s).
Definition set_io v s := Hooks (fds s) v (infos s) (enabled s) (errnos s) (s_connect_timeout s) (hist s).
Definition set_infos v s := Hooks (fds s) (io s) v (enabled s) (errnos s) (s_connect_timeout s) (hist s).
Definition set_enabled v s := Hooks (fds s) (io s) (infos s) v (errnos s) (s_connect_timeout s) (hist s).
Definition set_errnos v s := Hooks (fds s) (io s) (infos s) (enabled s) v (s_connect_timeout s) (hist s).
Definition set_connect_timeout v s :=
  Hooks (fds s) (io s) (infos s) (enabled s) (errnos s) v (hist s).
Definition set_hist v s := Hooks (fds s) (io s) (infos s) (enabled s) (errnos s) (s_connect_timeout s) v.

Definition in_fds {B} (m : Prelude.cmd FdManager.manager B) : cmd B :=
  fun s => match m (fds s) with
           | Ok x v => Ok x (set_fds v s)
           | Throw e v => Throw e (set_fds v s)
           | Fail_ f => Fail_ f
           end.
Definition in_io {B} (m : Prelude.cmd (iom closure nat) B) : cmd B :=
  fun s => match m (io s) with
           | Ok x v => Ok x (set_io v s)
           | Throw e v => Throw e (set_io v s)
           | Fail_ f => Fail_ f
           end.

Section kernel.
(** The system: the answer to a call on a thread, [fstat] and the status flags
    of a descriptor, from the history. *)
Variable kernel : history -> nat -> sys -> answer.
Variable fstat : history -> Z -> option bool.
Variable getfl : history -> Z -> Z.

(** What the environment decides in one stretch of a call: the clock, addresses
    that [new] returns (a thread's fiber, a timer, a [timer_info], an [FdCtx]) and
    the result of [epoll_ctl]. *)
Record env := Env {
  now : Z;
  new_fib : nat;
  new_timer : nat;
  new_info : nat;
  new_ctx : nat;
  ctl_rt : Z
}.

Definition set_errno (me : nat) (v : Z) : cmd unit :=
  modify (fun s => set_errnos (<[me := v]> (errnos s)) s).
Definition errno (me : nat) : cmd Z := gets (fun s => default 0 (errnos s !! me)).

(** A call of an original function on thread [me]. *)
Definition call (me : nat) (c : sys) : cmd answer :=
  let* h := gets hist in
  let a := kernel h me c in
  modify (set_hist (h ++ [(c, a)])) ;;;
  (if rt a =? -1 then set_errno me (err a) else ret tt) ;;;
  ret a.
Definition call_rt (me : nat) (c : sys) : cmd Z := let* a := call me c in ret (rt a).

Definition is_hook_enable (me : nat) : cmd bool := gets (fun s => bool_decide (me ∈ enabled s)).
Definition set_hook_enable (me : nat) (flag : bool) : cmd unit :=
  modify (fun s => set_enabled (if flag then {[me]} ∪ enabled s else enabled s ∖ {[me]}) s).

(** [_HookIniter] and its listener: the configured [int] as a [uint64_t]. *)
Definition on_connect_timeout (new_val : Z) : cmd unit := modify (set_connect_timeout (u64 new_val)).

(** [FdMgr::instance()->get(fd, auto_create)], and the object it points to. *)
Definition fd_get (e : env) (fd : Z) (auto_create : bool) : cmd (option nat) :=
  let* h := gets hist in in_fds (FdManager.get (fstat h) (getfl h) (new_ctx e) fd auto_create).
Definition ctx_at (p : nat) : cmd FdManager.FdCtx :=
  fun s => match FdManager.ctxs (fds s) !! p with Some c => Ok c s | None => Fail_ Undef end.
Definition fd_ctx (e : env) (fd : Z) : cmd (option (nat * FdManager.FdCtx)) :=
  let* p := fd_get e fd false in
  match p with
  | None => ret None
  | Some p => let* c := ctx_at p in ret (Some (p, c))
  end.

(** [IOManager::GetThis()] is this manager or null; the methods called on it. *)
Definition has_iom (me : nat) : cmd bool := in_io (in_sched (Scheduler.GetThis_is_this me)).
Definition need_iom (me : nat) : cmd unit := let* b := has_iom me in require b.
Definition yield_to_hold (me : nat) (e : env) : cmd unit :=
  in_io (in_sched (Scheduler.lift (Fiber.YieldToHold me (new_fib e)))).

(** ** Frames *)

Record io_call := IoCall {
  c_fn : io_fun;
  c_fd : Z;
  c_args : A;
  c_event : Z;
  c_to : Z;
  c_info : nat          (* the tinfo of the call *)
}.
Inductive frame :=
  | InIO (c : io_call) (timer : option nat)
  | InConnect (fd : Z) (tinfo : nat) (timer : option nat)
  | InSleep.
Inductive status := Return (n : Z) | Suspend (f : frame).

(** The last [shared_ptr] to a [timer_info] goes. *)
Definition release (i : nat) : cmd unit := modify (fun s => set_infos (delete i (infos s)) s).
Definition new_tinfo (e : env) : cmd nat :=
  modify (fun s => set_infos (<[new_info e := 0]> (infos s)) s) ;;; ret (new_info e).
Definition cancelled (i : nat) : cmd Z :=
  fun s => match infos s !! i with Some v => Ok v s | None => Fail_ Undef end.
(** [if (timer) { timer->cancel(); }] *)
Definition cancel_timer (t : option nat) : cmd unit :=
  match t with Some t => in_io (in_timers (Timer.cancel t)) ;;; ret tt | None => ret tt end.

(** The timer of a call with a timeout. *)
Definition set_timer (e : env) (to : Z) (tinfo : nat) (fd event : Z) : cmd (option nat) :=
  if negb (to =? 2 ^ 64 - 1) then
    in_io (addTimer (now e) (new_timer e) to (Some (Timer.Bound_OnTimer tinfo (Timeout tinfo fd event))) false) ;;;
    ret (Some (new_timer e))
  else ret None.

(** ** [do_io] *)

(** [fun(fd, args...)], again as long as it is interrupted. *)
Fixpoint attempt (fuel : nat) (me : nat) (c : io_call) : cmd Z :=
  match fuel with
  | O => fail OutOfFuel
  | S fuel =>
    let* n := call_rt me (Sys_io (c_fn c) (c_fd c) (c_args c)) in
    let* er := errno me in
    if (n =? -1) && (er =? EINTR) then attempt fuel me c else ret n
  end.

(** From the label [retry] to the end or to the next [YieldToHold]. *)
Definition retry (fuel : nat) (me : nat) (e : env) (c : io_call) : cmd status :=
  let* n := attempt fuel me c in
  let* er := errno me in
  if (n =? -1) && (er =? EAGAIN) then
    need_iom me ;;;
    let* timer := set_timer e (c_to c) (c_info c) (c_fd c) (c_event c) in
    let* rt := in_io (addEvent me (new_fib e) (ctl_rt e) (c_fd c) (c_event c) None) in
    if negb (rt =? 0) then
      cancel_timer timer ;;; release (c_info c) ;;; ret (Return (-1))
    else
      yield_to_hold me e ;;; ret (Suspend (InIO c timer))
  else release (c_info c) ;;; ret (Return n).

Definition do_io (fuel : nat) (me : nat) (e : env) (fd : Z) (fn : io_fun) (event timeout_so : Z) (args : A)
    : cmd status :=
  let direct := let* n := call_rt me (Sys_io fn fd args) in ret (Return n) in
  let* on := is_hook_enable me in
  if negb on then direct else
  let* ctx := fd_ctx e fd in
  match ctx with
  | None => direct
  | Some (_, ctx) =>
    if FdManager.m_isClosed ctx then set_errno me EBADF ;;; ret (Return (-1)) else
    if negb (FdManager.m_isSocket ctx) || FdManager.m_userNonblock ctx then direct else
    let to := FdManager.getTimeout timeout_so ctx in
    let* tinfo := new_tinfo e in
    retry fuel me e (IoCall fn fd args event to tinfo)
  end.

(** After the fiber is switched to again. *)
Definition io_resume (fuel : nat) (me : nat) (e : env) (c : io_call) (timer : option nat) : cmd status :=
  cancel_timer timer ;;;
  let* v := cancelled (c_info c) in
  if negb (v =? 0) then set_errno me v ;;; release (c_info c) ;;; ret (Return (-1))
  else retry fuel me e c.

(** ** The functions over [do_io] *)

Definition read (fuel me : nat) (e : env) (fd : Z) (args : A) : cmd status :=
  do_io fuel me e fd read_f READ FdManager.SO_RCVTIMEO args.
Definition readv (fuel me : nat) (e : env) (fd : Z) (args : A) : cmd status :=
  do_io fuel me e fd readv_f READ FdManager.SO_RCVTIMEO args.
Definition recv (fuel me : nat) (e : env) (fd : Z) (args : A) : cmd status :=
  do_io fuel me e fd recv_f READ FdManager.SO_RCVTIMEO args.
Definition recvfrom (fuel me : nat) (e : env) (fd : Z) (args : A) : cmd status :=
  do_io fuel me e fd recvfrom_f READ FdManager.SO_RCVTIMEO args.
Definition recvmsg (fuel me : nat) (e : env) (fd : Z) (args : A) : cmd status :=
  do_io fuel me e fd recvmsg_f READ FdManager.SO_RCVTIMEO args.
Definition write (fuel me : nat) (e : env) (fd : Z) (args : A) : cmd status :=
  do_io fuel me e fd write_f WRITE FdManager.SO_SNDTIMEO args.
Definition writev (fuel me : nat) (e : env) (fd : Z) (args : A) : cmd status :=
  do_io fuel me e fd writev_f WRITE FdManager.SO_SNDTIMEO args.
Definition send (fuel me : nat) (e : env) (fd : Z) (args : A) : cmd status :=
  do_io fuel me e fd send_f WRITE FdManager.SO_SNDTIMEO args.
Definition sendto (fuel me : nat) (e : env) (fd : Z) (args : A) : cmd status :=
  do_io fuel me e fd sendto_f WRITE FdManager.SO_SNDTIMEO args.
Definition sendmsg (fuel me : nat) (e : env) (fd : Z) (args : A) : cmd status :=
  do_io fuel me e fd sendmsg_f WRITE FdManager.SO_SNDTIMEO args.

(** What [accept] does with the result of [do_io], which it keeps in an [int]. *)
Definition accepted (e : env) (st : status) : cmd status :=
  match st with
  | Return n =>
    let fd := s32 n in
    (if 0 <=? fd then fd_get e fd true ;;; ret tt else ret tt) ;;; ret (Return fd)
  | Suspend f => ret (Suspend f)
  end.
Definition accept (fuel me : nat) (e : env) (fd : Z) (args : A) : cmd status :=
  let* st := do_io fuel me e fd accept_f READ FdManager.SO_RCVTIMEO args in accepted e st.

(** ** Sleeping *)

Definition sleep_for (me : nat) (e : env) (ms : Z) : cmd status :=
  let* fiber := in_io (in_sched (Scheduler.lift (Fiber.GetThis me (new_fib e)))) in
  need_iom me ;;;
  in_io (addTimer (now e) (new_timer e) ms (Some (Timer.Plain (Schedule fiber))) false) ;;;
  yield_to_hold me e ;;;
  ret (Suspend InSleep).

(** [seconds * 1000] is an [unsigned int]. *)
Definition sleep (me : nat) (e : env) (seconds : Z) : cmd status :=
  let* on := is_hook_enable me in
  if negb on then let* n := call_rt me (Sys_sleep seconds) in ret (Return n)
  else sleep_for me e (u32 (seconds * 1000)).
Definition usleep (me : nat) (e : env) (usec : Z) : cmd status :=
  let* on := is_hook_enable me in
  if negb on then let* n := call_rt me (Sys_usleep usec) in ret (Return n)
  else sleep_for me e (Z.quot usec 1000).
(** Without hooks the function calls itself. *)
Fixpoint nanosleep (fuel me : nat) (e : env) (tv_sec tv_nsec : Z) : cmd status :=
  match fuel with
  | O => fail OutOfFuel
  | S fuel =>
    let* on := is_hook_enable me in
    if negb on then nanosleep fuel me e tv_sec tv_nsec
    else
      let timeout_ms := s32 (tv_sec * 1000 + Z.quot (Z.quot tv_nsec 1000) 1000) in
      sleep_for me e (u64 timeout_ms)
  end.

(** ** Descriptors *)

Definition socket (me : nat) (e : env) (domain type protocol : Z) : cmd Z :=
  let* on := is_hook_enable me in
  if negb on then call_rt me (Sys_socket domain type protocol) else
  let* fd := call_rt me (Sys_socket domain type protocol) in
  if fd =? -1 then ret fd else
  fd_get e fd true ;;; ret fd.

Definition getsockopt (me : nat) (fd level optname : Z) : cmd answer :=
  call me (Sys_getsockopt fd level optname).

(** The end of [connect_with_timeout]: how the connection came out. *)
Definition connect_result (me : nat) (fd : Z) : cmd status :=
  let* a := getsockopt me fd Socket.SOL_SOCKET Socket.SO_ERROR in
  if rt a =? -1 then ret (Return (-1)) else
  if out a =? 0 then ret (Return 0) else set_errno me (out a) ;;; ret (Return (-1)).

Definition connect_with_timeout (me : nat) (e : env) (fd : Z) (addr : list Z) (addrlen timeout_ms : Z)
    : cmd status :=
  let direct := let* n := call_rt me (Sys_connect fd addr addrlen) in ret (Return n) in
  let* on := is_hook_enable me in
  if negb on then direct else
  let* ctx := fd_ctx e fd in
  match ctx with
  | None => set_errno me EBADF ;;; ret (Return (-1))
  | Some (_, ctx) =>
    if FdManager.m_isClosed ctx then set_errno me EBADF ;;; ret (Return (-1)) else
    if negb (FdManager.m_isSocket ctx) then direct else
    let* n := call_rt me (Sys_connect fd addr addrlen) in
    let* er := errno me in
    if n =? 0 then ret (Return 0)
    else if negb (n =? -1) || negb (er =? EINPROGRESS) then ret (Return n)
    else
      need_iom me ;;;
      let* tinfo := new_tinfo e in
      let* timer := set_timer e timeout_ms tinfo fd WRITE in
      let* rt := in_io (addEvent me (new_fib e) (ctl_rt e) fd WRITE None) in
      if rt =? 0 then yield_to_hold me e ;;; ret (Suspend (InConnect fd tinfo timer))
      else
        cancel_timer timer ;;;
        let* st := connect_result me fd in
        release tinfo ;;; ret st
  end.
Definition connect_resume (me : nat) (fd : Z) (tinfo : nat) (timer : option nat) : cmd status :=
  cancel_timer timer ;;;
  let* v := cancelled tinfo in
  if negb (v =? 0) then set_errno me v ;;; release tinfo ;;; ret (Return (-1))
  else let* st := connect_result me fd in release tinfo ;;; ret st.
Definition connect (me : nat) (e : env) (fd : Z) (addr : list Z) (addrlen : Z) : cmd status :=
  let* to := gets s_connect_timeout in connect_with_timeout me e fd addr addrlen to.

Definition close (me : nat) (e : env) (fd : Z) : cmd Z :=
  let* on := is_hook_enable me in
  if negb on then call_rt me (Sys_close fd) else
  let* p := fd_get e fd false in
  (match p with
   | Some _ =>
     let* iom := has_iom me in
     (if iom : bool then in_io (cancekAll (ctl_rt e) fd) ;;; ret tt else ret tt) ;;;
     in_fds (FdManager.del fd)
   | None => ret tt
   end) ;;;
  call_rt me (Sys_close fd).

(** [fcntl(fd, cmd, arg)]; the commands that pass their argument on. *)
Definition with_arg (cmd : Z) : bool :=
  bool_decide (cmd ∈ [F_DUPFD; F_DUPFD_CLOEXEC; F_SETFD; F_SETOWN; F_SETSIG; F_SETLEASE; F_NOTIFY; F_SETPIPE_SZ;
                      F_SETLK; F_SETLKW; F_GETLK; F_GETOWN_EX; F_SETOWN_EX]).
Definition update_ctx (p : nat) (f : FdManager.FdCtx -> FdManager.FdCtx) : cmd unit :=
  in_fds (FdManager.update p f).
Definition fcntl (me : nat) (e : env) (fd cmd arg : Z) : Prelude.cmd hooks Z :=
  if cmd =? F_SETFL then
    let* ctx := fd_ctx e fd in
    match ctx with
    | None => call_rt me (Sys_fcntl fd cmd (Some arg))
    | Some (p, ctx) =>
      if FdManager.m_isClosed ctx then call_rt me (Sys_fcntl fd cmd (Some arg)) else
      update_ctx p (FdManager.setUserNonBlock (negb (Z.land arg FdManager.O_NONBLOCK =? 0))) ;;;
      let arg := if FdManager.m_sysNonblock ctx then Z.lor arg FdManager.O_NONBLOCK
                 else Z.land arg (Z.lnot FdManager.O_NONBLOCK) in
      call_rt me (Sys_fcntl fd cmd (Some arg))
    end
  else if cmd =? F_GETFL then
    let* arg := call_rt me (Sys_fcntl fd cmd None) in
    let* ctx := fd_ctx e fd in
    match ctx with
    | None => ret arg
    | Some (_, ctx) =>
      if FdManager.m_isClosed ctx || negb (FdManager.m_isSocket ctx) then ret arg else
      if FdManager.m_userNonblock ctx then ret (Z.lor arg FdManager.O_NONBLOCK)
      else ret (Z.land arg (Z.lnot FdManager.O_NONBLOCK))
    end
  else if with_arg cmd then call_rt me (Sys_fcntl fd cmd (Some arg))
  else call_rt me (Sys_fcntl fd cmd None).

(** [arg] is the [int] that the argument points to. *)
Definition ioctl (me : nat) (e : env) (fd request arg : Z) : cmd Z :=
  (if request =? FIONBIO then
     let user_nonblock := negb (arg =? 0) in
     let* ctx := fd_ctx e fd in
     match ctx with
     | None => ret tt
     | Some (p, ctx) =>
       if FdManager.m_isClosed ctx || negb (FdManager.m_isSocket ctx) then ret tt
       else update_ctx p (FdManager.setUserNonBlock user_nonblock)
     end
   else ret tt) ;;;
  call_rt me (Sys_ioctl fd request arg).

(** [tv->tv_sec * 1000 + tv->tv_usec / 1000] as a [uint64_t]; another type of
    value than a [timeval] is read beyond its end. *)
Definition setsockopt (me : nat) (e : env) (fd level optname : Z) (val : Socket.optval) : cmd Z :=
  let* on := is_hook_enable me in
  if negb on then call_rt me (Sys_setsockopt fd level optname val) else
  (if (level =? Socket.SOL_SOCKET) &&
      ((optname =? FdManager.SO_RCVTIMEO) || (optname =? FdManager.SO_SNDTIMEO)) then
     let* p := fd_get e fd false in
     match p with
     | None => ret tt
     | Some p =>
       match val with
       | Socket.OptTimeval sec usec =>
         update_ctx p (FdManager.setTimeout optname (u64 (sec * 1000 + Z.quot usec 1000)))
       | Socket.OptInt _ => fail Undef
       end
     end
   else ret tt) ;;;
  call_rt me (Sys_setsockopt fd level optname val).

(** ** What the scheduler runs *)

(** A suspended call goes on. *)
Definition resume (fuel me : nat) (e : env) (f : frame) : cmd status :=
  match f with
  | InIO c timer =>
    let* st := io_resume fuel me e c timer in
    if bool_decide (c_fn c = accept_f) then accepted e st else ret st
  | InConnect fd tinfo timer => connect_resume me fd tinfo timer
  | InSleep => ret (Return 0)
  end.

(** The functions that timers hand to the scheduler. *)
Variable client : U -> cmd unit.
Definition alive (s : hooks) (i : nat) : bool := bool_decide (is_Some (infos s !! i)).
Definition on_timeout (rt : Z) (winfo : nat) (fd event : Z) : cmd unit :=
  let* t := gets (fun s => infos s !! winfo) in
  match t with
  | Some 0 =>
    modify (fun s => set_infos (<[winfo := ETIMEDOUT]> (infos s)) s) ;;;
    in_io (cancelEvent rt fd event) ;;; ret tt
  | _ => ret tt
  end.
Definition run_closure (rt : Z) (k : closure) : cmd unit :=
  match k with
  | Client u => client u
  | Schedule f => in_io (schedule (Scheduler.FiberAndThread_ (Some f) None (-1)))
  | Timeout winfo fd event => on_timeout rt winfo fd event
  end.
Definition run_callback (rt : Z) (f : Timer.callback closure nat) : cmd unit :=
  let* k := gets (fun s => Timer.call (alive s) f) in
  match k with Some k => run_closure rt k | None => ret tt end.


(** ** Calls of the original function *)

Definition interrupted (a : answer) : bool := (rt a =? -1) && (err a =? EINTR).
Definition again (a : answer) : bool := (rt a =? -1) && (err a =? EAGAIN).
(** The first answer that is not an interruption, and the history up to it. *)
Fixpoint settle (fuel me : nat) (c : sys) (h : history) : option (history * answer) :=
  match fuel with
  | O => None
  | S fuel =>
    let a := kernel h me c in
    let h := h ++ [(c, a)] in
    if interrupted a then settle fuel me c h else Some (h, a)
  end.
(** Only calls were made. *)
Definition only_called (s s' : hooks) : Prop :=
  fds s' = fds s /\ io s' = io s /\ infos s' = infos s /\ enabled s' = enabled s /\
  s_connect_timeout s' = s_connect_timeout s.

Lemma only_called_refl s : only_called s s.
Proof. done. Qed.
Lemma only_called_trans s1 s2 s3 : only_called s1 s2 -> only_called s2 s3 -> only_called s1 s3.
Proof. intros (?&?&?&?&?) (?&?&?&?&?). split_and!; congruence. Qed.

Lemma call_eq me c s :
  let a := kernel (hist s) me c in
  exists s', call me c s = Ok a s' /\ only_called s s' /\ hist s' = hist s ++ [(c, a)] /\
    (rt a = -1 -> errnos s' !! me = Some (err a)).
Proof.
  intros a. unfold call, bind, gets, modify. fold a. destruct (Z.eqb_spec (rt a) (-1)) as [E|E].
  - eexists. split; [reflexivity|]. split_and!; [done..|]. intros _. simpl. apply lookup_insert_eq.
  - eexists. split; [reflexivity|]. done.
Qed.

Lemma attempt_ok fuel me c : forall s h a,
  settle fuel me (Sys_io (c_fn c) (c_fd c) (c_args c)) (hist s) = Some (h, a) ->
  exists s', attempt fuel me c s = Ok (rt a) s' /\ only_called s s' /\ hist s' = h /\
    (rt a = -1 -> errnos s' !! me = Some (err a)) /\
    (let* er := errno me in ret ((rt a =? -1) && (er =? EAGAIN))) s' = Ok (again a) s'.
Proof.
  induction fuel as [|fuel IH]; intros s h a E; [done|]. cbn [settle attempt] in *.
  destruct (call_eq me (Sys_io (c_fn c) (c_fd c) (c_args c)) s) as (s1 & E1 & Hc1 & Hh1 & Her1).
  set (b := kernel (hist s) me _) in *. unfold call_rt, bind at 1 2. rewrite E1. simpl.
  assert (forall K : bool -> bool -> cmd Z,
    (let* er := errno me in K (rt b =? -1) (er =? EINTR)) s1 =
    (K (rt b =? -1) (if rt b =? -1 then err b =? EINTR else default 0 (errnos s1 !! me) =? EINTR)) s1) as HK.
  { intros K. unfold errno, bind, gets. destruct (Z.eqb_spec (rt b) (-1)) as [Eb|Eb]; [|done].
    by rewrite (Her1 Eb). }
  rewrite (HK (fun x y => if x && y then attempt fuel me c else ret (rt b))).
  unfold interrupted in E. destruct (Z.eqb_spec (rt b) (-1)) as [Eb|Eb]; simpl in *.
  - destruct (err b =? EINTR).
    + rewrite <- Hh1 in E. destruct (IH s1 h a E) as (s2 & E2 & Hc2 & Hh2 & Her2 & Hag).
      exists s2. split_and!; [done|by eapply only_called_trans|done..].
    + injection E as <- <-. exists s1. split_and!; [done..|].
      unfold errno, bind, gets, again. rewrite (Her1 Eb). simpl. by rewrite Eb.
  - injection E as <- <-. exists s1. split_and!; [done..|].
    unfold errno, bind, gets, again. simpl. by rewrite (proj2 (Z.eqb_neq _ _) Eb).
Qed.

(** ** A call that has to wait *)

Lemma fd_ctx_eq e fd p c s :
  FdManager.wf (fds s) -> 0 <= fd < 64 -> FdManager.m_datas (fds s) !! Z.to_nat fd = Some (Some p) ->
  FdManager.ctxs (fds s) !! p = Some c -> fd_ctx e fd s = Ok (Some (p, c)) s.
Proof.
  intros Hwf Hfd Hp Hc. unfold fd_ctx, fd_get, bind, gets, in_fds.
  destruct (FdManager.get_eq (fstat (hist s)) (getfl (hist s)) (new_ctx e) fd false (fds s) Hwf Hfd) as (q & Hq & Hget & _).
  rewrite Hp in Hq. injection Hq as <-. rewrite Hget by (by right). simpl. unfold ctx_at. simpl. rewrite Hc.
  by destruct s.
Qed.

Lemma need_iom_eq me s : me ∈ Scheduler.t_scheduler (sched (io s)) -> need_iom me s = Ok tt s.
Proof.
  intros H. unfold need_iom, has_iom, bind, in_io, in_sched, Scheduler.GetThis_is_this, gets. simpl.
  rewrite bool_decide_true by done. simpl. destruct s as [? [] ? ? ? ? ?]. done.
Qed.

(** The timer of a call that waits since [now]. *)
Definition io_timer (e : env) (c : io_call) : option nat :=
  if c_to c =? 2 ^ 64 - 1 then None else Some (new_timer e).
Definition timeout_cb (c : io_call) : Timer.callback closure nat :=
  Timer.Bound_OnTimer (c_info c) (Timeout (c_info c) (c_fd c) (c_event c)).
(** Fiber [f] waits in call [c]: it is the waiter of the event and the call is not
    cancelled; its timer is set. *)
Definition waits (f : nat) (c : io_call) (s : hooks) : Prop :=
  infos s !! c_info c = Some 0 /\
  exists x, m_fdContexts (io s) !! Z.to_nat (c_fd c) = Some x /\ has x (c_event c) = true /\
    ctx_of x (c_event c) = EventContext_ This (Some f) None.
Definition timer_set (c : io_call) (timer : option nat) (s : hooks) : Prop :=
  forall a, timer = Some a -> a ∈ Timer.m_timers (timers (io s)) /\
    exists tm, Timer.heap (timers (io s)) !! a = Some tm /\ Timer.m_cb tm = Some (timeout_cb c).
(** The state after [set_timer]. *)
Lemma set_timer_ok e c s :
  Timer.heap (timers (io s)) !! new_timer e = None -> Timer.inv (timers (io s)) ->
  exists s', set_timer e (c_to c) (c_info c) (c_fd c) (c_event c) s = Ok (io_timer e c) s' /\
    infos s' = infos s /\ hist s' = hist s /\ errnos s' = errnos s /\ same_table (io s) (io s') /\
    sched (io s') = sched (io s) /\ Timer.inv (timers (io s')) /\
    match io_timer e c with
    | None => timers (io s') = timers (io s)
    | Some a =>
      Timer.heap (timers (io s')) !! a = Some (Timer.Timer (now e) (c_to c) (Some (timeout_cb c)) false) /\
      a ∉ Timer.m_timers (timers (io s)) /\
      exists h : gmap nat (Timer.timer closure nat), Timer.m_timers (timers (io s')) = Timer.set_insert h a (Timer.m_timers (timers (io s)))
    end.
Proof.
  intros Hn Hi. unfold set_timer, io_timer. destruct (c_to c =? 2 ^ 64 - 1); simpl.
  { exists s. done. }
  destruct (addTimer_table (now e) (new_timer e) (c_to c) (Some (timeout_cb c)) false (io s))
    as (v & E & Hst & Es & Eh & Et & Hinv).
  exists (set_io v s). unfold bind, in_io. unfold timeout_cb in E. rewrite E. split_and!; try done.
  - by apply Hinv.
  - simpl. rewrite Eh. apply lookup_insert_eq.
  - intros H. destruct (Timer.inv_live _ _ Hi _ (or_introl H)) as [? H']. congruence.
  - simpl. by eexists.
Qed.

(** What [retry] needs of the state: thread [me] of the manager executes fiber [f]
    with main fiber [m]. *)
Record runs (t : Z) (me m f : nat) (s : hooks) : Prop := {
  runs_inv : inv t (io s);
  runs_timers : Timer.inv (timers (io s));
  runs_fiber : Fiber.at_fiber me m f (Scheduler.fw (sched (io s)));
  runs_ne : f <> m;
  runs_iom : me ∈ Scheduler.t_scheduler (sched (io s))
}.

(** [retry] when the call does not have to wait. *)
Lemma retry_returns fuel me e c s h a :
  settle fuel me (Sys_io (c_fn c) (c_fd c) (c_args c)) (hist s) = Some (h, a) -> again a = false ->
  exists s', retry fuel me e c s = Ok (Return (rt a)) s' /\ io s' = io s /\ infos s' = delete (c_info c) (infos s) /\
    fds s' = fds s /\ hist s' = h /\ (rt a = -1 -> errnos s' !! me = Some (err a)).
Proof.
  intros Hs Ha. destruct (attempt_ok _ _ _ _ _ _ Hs) as (s1 & E1 & (Hf & Hio & Hin & _) & Hh & Her & Hag).
  unfold retry, bind at 1. rewrite E1.
  assert (forall K1 K2 : cmd status, (let* er := errno me in if (rt a =? -1) && (er =? EAGAIN) then K1 else K2) s1 =
    (if again a then K1 else K2) s1) as HK.
  { intros K1 K2. unfold errno, bind, gets, ret in Hag |- *. injection Hag as ->. done. }
  rewrite HK, Ha. eexists. split; [reflexivity|]. simpl. by rewrite Hin.
Qed.

(** [retry] when it has to: the start of the wait. *)
Lemma retry_again fuel me e c s h a :
  settle fuel me (Sys_io (c_fn c) (c_fd c) (c_args c)) (hist s) = Some (h, a) -> again a = true ->
  me ∈ Scheduler.t_scheduler (sched (io s)) ->
  exists s1, only_called s s1 /\ hist s1 = h /\ errnos s1 !! me = Some EAGAIN /\
  retry fuel me e c s =
    (let* timer := set_timer e (c_to c) (c_info c) (c_fd c) (c_event c) in
     let* rt := in_io (addEvent me (new_fib e) (ctl_rt e) (c_fd c) (c_event c) None) in
     if negb (rt =? 0) then
       cancel_timer timer ;;; release (c_info c) ;;; ret (Return (-1))
     else
       yield_to_hold me e ;;; ret (Suspend (InIO c timer))) s1.
Proof.
  intros Hs Ha Hme. destruct (attempt_ok _ _ _ _ _ _ Hs) as (s1 & E1 & Hoc & Hh & Her & Hag).
  exists s1. pose proof Hoc as (Hf & Hio & Hin & _). pose proof Ha as Ha'. unfold again in Ha'.
  apply andb_true_iff in Ha' as [H1%Z.eqb_eq H2%Z.eqb_eq]. split_and!; [done|done|rewrite (Her H1); by f_equal|].
  unfold retry, bind at 1. rewrite E1.
  assert (forall K1 K2 : cmd status, (let* er := errno me in if (rt a =? -1) && (er =? EAGAIN) then K1 else K2) s1 =
    (if again a then K1 else K2) s1) as HK.
  { intros K1 K2. unfold errno, bind, gets, ret in Hag |- *. injection Hag as ->. done. }
  rewrite HK, Ha. unfold bind at 1. rewrite need_iom_eq by by rewrite Hio. done.
Qed.

Lemma retry_refused t fuel me m f e c s h a :
  runs t me m f s -> 0 <= c_fd c < 2 ^ 30 -> is_event (c_event c) ->
  Timer.heap (timers (io s)) !! new_timer e = None ->
  settle fuel me (Sys_io (c_fn c) (c_fd c) (c_args c)) (hist s) = Some (h, a) -> again a = true ->
  has (default (new_FdContext (Z.to_nat (c_fd c))) (m_fdContexts (io s) !! Z.to_nat (c_fd c))) (c_event c) = false ->
  ctl_rt e <> 0 ->
  exists s', retry fuel me e c s = Ok (Return (-1)) s' /\ hist s' = h /\ infos s' = delete (c_info c) (infos s) /\
    errnos s' !! me = Some EAGAIN /\ sched (io s') = sched (io s) /\
    Timer.m_timers (timers (io s')) = Timer.m_timers (timers (io s)) /\
    (forall i x, m_fdContexts (io s) !! i = Some x -> m_fdContexts (io s') !! i = Some x).
Proof.
  intros [Hi Hti (Hcur & _ & _ & _ & fb & Hfb & Hex) Hne Hme] Hfd Hev Hn Hs Ha Hno Hrt.
  destruct (retry_again fuel me e c s h a Hs Ha Hme) as (s1 & (Hf & Hio & Hin & _) & Hh & Her & ->).
  rewrite <- Hio in *. destruct (set_timer_ok e c s1 Hn Hti) as (s2 & E2 & Hin2 & Hh2 & Her2 & Hst & Es2 & Hti2 & Htm).
  unfold bind at 1. rewrite E2.
  assert (inv t (io s2)) as Hi2 by by eapply inv_same_table.
  destruct Hst as (Hctx & _). rewrite <- Hctx in Hno. rewrite <- Es2 in Hcur, Hfb.
  destruct (addEvent_fiber t me (new_fib e) (ctl_rt e) (c_fd c) (c_event c) f fb (io s2) Hi2 Hfd Hev Hcur Hfb Hex)
    as (x & v & _ & _ & _ & Ex & Esv & Etv & Hkeep & _ & Hfail & _).
  rewrite <- Ex in Hno. specialize (Hfail Hno Hrt). unfold bind at 1, in_io at 1. rewrite Hfail. simpl.
  destruct (io_timer e c) as [b|].
  - destruct Htm as (Hb & Hnb & hh & Hts). unfold cancel_timer, in_io, in_timers, bind. simpl. rewrite Etv.
    rewrite (Timer.cancel_eq _ _ _ Hti2 Hb). simpl. eexists. split; [reflexivity|]. simpl. split_and!.
    + congruence.
    + by rewrite Hin2, Hin.
    + by rewrite Her2.
    + congruence.
    + rewrite Hts. by apply Timer.set_erase_insert.
    + intros i y Hy. apply Hkeep. by rewrite Hctx.
  - simpl. eexists. split; [reflexivity|]. simpl. split_and!.
    + congruence.
    + by rewrite Hin2, Hin.
    + by rewrite Her2.
    + congruence.
    + by rewrite Etv, Htm.
    + intros i y Hy. apply Hkeep. by rewrite Hctx.
Qed.

(** Another fiber waits for the event already. *)
Lemma retry_busy t fuel me m f e c s h a :
  runs t me m f s -> 0 <= c_fd c < 2 ^ 30 -> is_event (c_event c) ->
  Timer.heap (timers (io s)) !! new_timer e = None ->
  settle fuel me (Sys_io (c_fn c) (c_fd c) (c_args c)) (hist s) = Some (h, a) -> again a = true ->
  has (default (new_FdContext (Z.to_nat (c_fd c))) (m_fdContexts (io s) !! Z.to_nat (c_fd c))) (c_event c) = true ->
  retry fuel me e c s = Fail_ AssertFail.
Proof.
  intros [Hi Hti (Hcur & _ & _ & _ & fb & Hfb & Hex) Hne Hme] Hfd Hev Hn Hs Ha Hno.
  destruct (retry_again fuel me e c s h a Hs Ha Hme) as (s1 & (Hf & Hio & Hin & _) & Hh & Her & ->).
  rewrite <- Hio in *. destruct (set_timer_ok e c s1 Hn Hti) as (s2 & E2 & _ & _ & _ & Hst & Es2 & _ & _).
  unfold bind at 1. rewrite E2.
  assert (inv t (io s2)) as Hi2 by by eapply inv_same_table.
  destruct Hst as (Hctx & _). rewrite <- Hctx in Hno. rewrite <- Es2 in Hcur, Hfb.
  destruct (addEvent_fiber t me (new_fib e) (ctl_rt e) (c_fd c) (c_event c) f fb (io s2) Hi2 Hfd Hev Hcur Hfb Hex)
    as (x & v & _ & _ & _ & Ex & _ & _ & _ & Hbad & _).
  rewrite <- Ex in Hno. unfold bind at 1, in_io at 1. by rewrite (Hbad Hno).
Qed.

Lemma has_with_waiter (x : @FdContext closure nat) event w : is_event event -> has (with_waiter x event w) event = true /\
  ctx_of (with_waiter x event w) event = w.
Proof.
  intros Hev. assert (forall n, Z.land (Z.lor n event) event = event) as E.
  { intros n. rewrite Z.land_lor_distr_l, Z.land_diag. apply Z.bits_inj'. intros k Hk.
    rewrite Z.lor_spec, Z.land_spec. by destruct (Z.testbit n k), (Z.testbit event k). }
  unfold has, with_waiter. destruct Hev as [-> | ->]; simpl; by rewrite E.
Qed.

Lemma retry_waits t fuel me m f e c s h a :
  runs t me m f s -> 0 <= c_fd c < 2 ^ 30 -> is_event (c_event c) ->
  Timer.heap (timers (io s)) !! new_timer e = None ->
  settle fuel me (Sys_io (c_fn c) (c_fd c) (c_args c)) (hist s) = Some (h, a) -> again a = true ->
  has (default (new_FdContext (Z.to_nat (c_fd c))) (m_fdContexts (io s) !! Z.to_nat (c_fd c))) (c_event c) = false ->
  infos s !! c_info c = Some 0 -> ctl_rt e = 0 ->
  exists s', retry fuel me e c s = Ok (Suspend (InIO c (io_timer e c))) s' /\ hist s' = h /\ infos s' = infos s /\
    waits f c s' /\ timer_set c (io_timer e c) s' /\
    (forall a, io_timer e c = Some a -> Timer.next_of (Timer.heap (timers (io s'))) a = u64 (now e + c_to c)) /\
    (io_timer e c = None -> timers (io s') = timers (io s)) /\
    Scheduler.m_fibers (sched (io s')) = Scheduler.m_fibers (sched (io s)) /\
    Fiber.at_main me m (Scheduler.fw (sched (io s'))) /\
    (exists fb, Fiber.fibers (Scheduler.fw (sched (io s'))) !! f = Some fb /\ Fiber.m_state fb = Fiber.HOLD) /\
    inv t (io s') /\ Timer.inv (timers (io s')).
Proof.
  intros [Hi Hti Hat Hne Hme] Hfd Hev Hn Hs Ha Hno Hinfo Hrt.
  destruct (retry_again fuel me e c s h a Hs Ha Hme) as (s1 & (Hf & Hio & Hin & _) & Hh & Her & ->).
  rewrite <- Hio in *. destruct (set_timer_ok e c s1 Hn Hti) as (s2 & E2 & Hin2 & Hh2 & Her2 & Hst & Es2 & Hti2 & Htm).
  unfold bind at 1. rewrite E2.
  assert (inv t (io s2)) as Hi2 by by eapply inv_same_table.
  destruct Hst as (Hctx & _). rewrite <- Hctx in Hno. rewrite <- Es2 in Hat, Hme.
  pose proof Hat as (Hcur & _ & _ & _ & fb & Hfb & Hex).
  destruct (addEvent_fiber t me (new_fib e) (ctl_rt e) (c_fd c) (c_event c) f fb (io s2) Hi2 Hfd Hev Hcur Hfb Hex)
    as (x & v & _ & Hiv & Hxv & Ex & Esv & Etv & _ & _ & _ & Hok).
  rewrite <- Ex in Hno. destruct (Hok Hno Hrt) as (v' & Hadd & Esv' & Etv' & Hup).
  rewrite bool_decide_true in Hup by done. unfold bind at 1, in_io at 1. rewrite Hadd. simpl.
  destruct (Fiber.hand_back_ok me m f (Scheduler.fw (sched v')) fb Fiber.ToHold (new_fib e))
    as (w' & Ew & Hmain & _ & Hleft); [by rewrite Esv', Esv|done|by rewrite Esv', Esv|].
  simpl in Ew. unfold yield_to_hold, bind, in_io, in_sched, Scheduler.lift. simpl. rewrite Ew.
  eexists. split; [reflexivity|]. simpl.
  assert (wf_ctx true (@EventContext_ closure nat This (Some f) None)) as Hwx by (split; [done|split; intros; done]).
  destruct (wf_with_waiter _ x (c_event c) _ (inv_wf _ _ Hiv _ _ Hxv) Hev Hno Hwx) as (Hwf' & _ & Hne0 & _).
  split_and!; [congruence|congruence| | | | |congruence|done|by eexists| |congruence].
  - destruct (has_with_waiter x (c_event c) (EventContext_ This (Some f) None) Hev) as [Hhas Hcx]. split; simpl.
    + by rewrite Hin2, Hin.
    + eexists. split; [|split; [exact Hhas|exact Hcx]]. destruct Hup as (-> & _).
      rewrite list_lookup_insert_eq; [done|by eapply lookup_lt_Some].
  - intros b Eb. rewrite Eb in Htm. destruct Htm as (Hb & _ & hh & Hts). simpl. rewrite Etv', Etv.
    split; [rewrite Hts; apply Timer.elem_of_set_insert; by left|]. eexists. split; [exact Hb|done].
  - intros b Eb. rewrite Eb in Htm. destruct Htm as (Hb & _). rewrite Etv', Etv.
    by rewrite (Timer.next_of_lookup _ _ _ Hb).
  - intros Eb. rewrite Eb in Htm. congruence.
  - eapply (inv_same_table t v'); [done|]. eapply inv_updated; [exact Hiv|exact Hxv|exact Hwf'| |exact Hup].
    intros; congruence.
Qed.

(** ** Properties *)

(** C16: a hooked call, from a fiber that runs on a thread of the manager with hooks enabled, on a socket
    below 64 that the descriptor table knows, that is open and that its owner means to
    block on, behaves, on every answer of the original function (interruptions are
    called again): an answer other than EAGAIN is returned with its [errno], and
    nothing else has changed; on EAGAIN, when nobody waits for the event of the
    descriptor yet, the fiber is put on hold, registered for the event with its
    scheduler, with a timer exactly when the descriptor has a timeout, due at [now]
    plus that timeout, and the thread runs its main fiber, but when [epoll_ctl]
    refuses the event the call returns -1 and no timer is left; on EAGAIN, when
    another fiber waits for the same event already, the assertion of [addEvent]
    fails. *)
Theorem blocking_outcome t fuel me m f e fd fn event so args p ctx s h a :
  runs t me m f s -> me ∈ enabled s ->
  FdManager.wf (fds s) -> 0 <= fd < 64 -> FdManager.m_datas (fds s) !! Z.to_nat fd = Some (Some p) ->
  FdManager.ctxs (fds s) !! p = Some ctx ->
  FdManager.m_isClosed ctx = false -> FdManager.m_isSocket ctx = true -> FdManager.m_userNonblock ctx = false ->
  is_event event -> Timer.heap (timers (io s)) !! new_timer e = None -> infos s !! new_info e = None ->
  settle fuel me (Sys_io fn fd args) (hist s) = Some (h, a) ->
  let c := IoCall fn fd args event (FdManager.getTimeout so ctx) (new_info e) in
  let busy := has (default (new_FdContext (Z.to_nat fd)) (m_fdContexts (io s) !! Z.to_nat fd)) event in
  (again a = true -> busy = true -> do_io fuel me e fd fn event so args s = Fail_ AssertFail) /\
  (again a = false \/ busy = false -> exists st s', do_io fuel me e fd fn event so args s = Ok st s' /\ hist s' = h /\
    if again a then
      if ctl_rt e =? 0 then
        st = Suspend (InIO c (io_timer e c)) /\ waits f c s' /\ timer_set c (io_timer e c) s' /\
        (forall tm, io_timer e c = Some tm ->
           Timer.next_of (Timer.heap (timers (io s'))) tm = u64 (now e + c_to c)) /\
        (io_timer e c = None -> timers (io s') = timers (io s)) /\
        Fiber.at_main me m (Scheduler.fw (sched (io s'))) /\
        (exists fb, Fiber.fibers (Scheduler.fw (sched (io s'))) !! f = Some fb /\ Fiber.m_state fb = Fiber.HOLD)
      else
        st = Return (-1) /\ infos s' = infos s /\ sched (io s') = sched (io s) /\
        Timer.m_timers (timers (io s')) = Timer.m_timers (timers (io s))
    else st = Return (rt a) /\ io s' = io s /\ infos s' = infos s /\ (rt a = -1 -> errnos s' !! me = Some (err a))).
Proof.
  intros Hr Hen Hwf Hfd Hp Hc Hcl Hso Hnb Hev Hn Hni Hs c busy.
  assert (do_io fuel me e fd fn event so args s =
    retry fuel me e c (set_infos (<[new_info e := 0]> (infos s)) s)) as ->.
  { unfold do_io, is_hook_enable, bind at 1, gets. rewrite bool_decide_true by done. simpl.
    unfold bind at 1. rewrite (fd_ctx_eq e fd p ctx) by done. by rewrite Hcl, Hso, Hnb. }
  set (s0 := set_infos _ s).
  assert (runs t me m f s0) as Hr0 by by destruct Hr.
  assert (delete (new_info e) (infos s0) = infos s) as Hdel by by apply delete_insert_id.
  assert (0 <= fd < 2 ^ 30) as Hfd' by lia.
  split; [intros Ha Hb; by apply (retry_busy t fuel me m f e c s0 h a)|].
  intros Hno. destruct (again a) eqn:Ha; [destruct Hno as [|Hno]; [done|]; destruct (Z.eqb_spec (ctl_rt e) 0) as [Hrt|Hrt]|].
  - destruct (retry_waits t fuel me m f e c s0 h a) as (s' & E & Hh & _ & Hw & Hset & Ht & Htn & _ & Hm & Hf & _);
      try done; [apply lookup_insert_eq|]. eauto 12.
  - destruct (retry_refused t fuel me m f e c s0 h a) as (s' & E & Hh & Hin & _ & Hsch & Htm & _); try done.
    exists (Return (-1)), s'. change (c_info c) with (new_info e) in Hin. by rewrite Hdel in Hin.
  - destruct (retry_returns fuel me e c s0 h a) as (s' & E & Hio & Hin & _ & Hh & Her); try done.
    exists (Return (rt a)), s'. change (c_info c) with (new_info e) in Hin. by rewrite Hdel in Hin.
Qed.

(** [timer->cancel()] on the timer of a call: its callback is gone. *)
Definition disarmed (timer : option nat) (s : hooks) : Prop :=
  forall a, timer = Some a -> Timer.cb_of (Timer.heap (timers (io s))) a = None.
Lemma cancel_timer_ok timer s :
  Timer.inv (timers (io s)) -> (forall a, timer = Some a -> is_Some (Timer.heap (timers (io s)) !! a)) ->
  exists s', cancel_timer timer s = Ok tt s' /\ infos s' = infos s /\ hist s' = hist s /\ errnos s' = errnos s /\
    fds s' = fds s /\ same_table (io s) (io s') /\ sched (io s') = sched (io s) /\ disarmed timer s'.
Proof.
  intros Hi Hs. destruct timer as [a|]; [|by exists s]. destruct (Hs a eq_refl) as [tm Ha].
  unfold cancel_timer, bind, in_io, in_timers. rewrite (Timer.cancel_eq _ _ _ Hi Ha).
  destruct (Timer.m_cb tm) as [k|] eqn:Ek; (eexists; split; [reflexivity|]; split_and!; [done..|];
    intros b [= <-]; unfold Timer.cb_of; simpl).
  - by rewrite lookup_insert_eq.
  - by rewrite Ha.
Qed.

(** What a call does when its fiber goes on. *)
Lemma io_resume_timed_out fuel me e c timer s v :
  Timer.inv (timers (io s)) -> (forall a, timer = Some a -> is_Some (Timer.heap (timers (io s)) !! a)) ->
  infos s !! c_info c = Some v -> v <> 0 ->
  exists s', io_resume fuel me e c timer s = Ok (Return (-1)) s' /\ errnos s' !! me = Some v /\ hist s' = hist s /\
    infos s' = delete (c_info c) (infos s) /\ disarmed timer s' /\ same_table (io s) (io s') /\
    sched (io s') = sched (io s).
Proof.
  intros Hi Hs Hv Hne. destruct (cancel_timer_ok timer s Hi Hs) as (s1 & E1 & Hin & Hh & _ & _ & Hst & Es & Hd).
  unfold io_resume, bind at 1. rewrite E1. unfold bind at 1, cancelled. rewrite Hin, Hv.
  rewrite (proj2 (Z.eqb_neq v 0) Hne). simpl. eexists. split; [reflexivity|]. simpl.
  rewrite Hin. split_and!; try done. apply lookup_insert_eq.
Qed.
Lemma io_resume_retries fuel me e c timer s :
  Timer.inv (timers (io s)) -> (forall a, timer = Some a -> is_Some (Timer.heap (timers (io s)) !! a)) ->
  infos s !! c_info c = Some 0 ->
  exists s', io_resume fuel me e c timer s = retry fuel me e c s' /\ hist s' = hist s /\ infos s' = infos s /\
    disarmed timer s' /\ same_table (io s) (io s') /\ sched (io s') = sched (io s).
Proof.
  intros Hi Hs Hv. destruct (cancel_timer_ok timer s Hi Hs) as (s1 & E1 & Hin & Hh & _ & _ & Hst & Es & Hd).
  exists s1. split_and!; try done. unfold io_resume, bind at 1. rewrite E1. unfold bind at 1, cancelled. by rewrite Hin, Hv.
Qed.

(** C17: a wait that times out. When the function of its timer runs while the call
    still waits, and [epoll_ctl] answers 0, the event is withdrawn, the fiber goes to the end of the queue,
    and the call, whenever its fiber goes on (with the flag of the call as the
    function left it), disarms the timer, returns -1 with [errno] ETIMEDOUT and
    makes no further call of the original function.  When the function runs after
    the call has returned or timed out, it does nothing. *)
Theorem timeout_outcome t f c timer s :
  inv t (io s) -> 0 <= c_fd c -> is_event (c_event c) ->
  (waits f c s -> exists s1,
     run_callback 0 (timeout_cb c) s = Ok tt s1 /\ hist s1 = hist s /\
     Scheduler.m_fibers (sched (io s1)) =
       Scheduler.m_fibers (sched (io s)) ++ [Scheduler.FiberAndThread_ (Some f) None (-1)] /\
     (exists x, m_fdContexts (io s1) !! Z.to_nat (c_fd c) = Some x /\ has x (c_event c) = false) /\
     forall fuel me e s2, infos s2 !! c_info c = infos s1 !! c_info c -> Timer.inv (timers (io s2)) ->
       (forall a, timer = Some a -> is_Some (Timer.heap (timers (io s2)) !! a)) ->
       exists s3, io_resume fuel me e c timer s2 = Ok (Return (-1)) s3 /\ errnos s3 !! me = Some ETIMEDOUT /\
         hist s3 = hist s2 /\ infos s3 !! c_info c = None /\ disarmed timer s3) /\
  (infos s !! c_info c <> Some 0 -> forall rt, run_callback rt (timeout_cb c) s = Ok tt s).
Proof.
  intros Hi Hfd Hev. split.
  - intros [Hinfo (x & Hx & Hhas & Hcx)].
    pose proof (cancelEvent_eq t 0 (c_fd c) (c_event c) (io s) Hi Hfd Hev) as H. rewrite Hx, Hhas in H. simpl in H.
    rewrite Hcx in H. destruct H as (v & E & (ev & (Hctx & _) & _) & Hq).
    eexists. split; [|split; [|split; [|split]]].
    + unfold run_callback, timeout_cb, Timer.call, Timer.OnTimer, bind, gets, alive. rewrite Hinfo. simpl.
      unfold on_timeout, bind, gets, in_io. rewrite Hinfo. simpl. rewrite E. reflexivity.
    + done.
    + exact Hq.
    + exists (taken [c_event c] x). simpl. split.
      * rewrite Hctx. rewrite list_lookup_insert_eq; [done|by eapply lookup_lt_Some].
      * by apply (bits_without (Z.to_nat (c_fd c))); [apply (inv_wf _ _ Hi _ _ Hx)| |].
    + intros fuel me e s2 Hs2 Ht2 Htm. simpl in Hs2. rewrite lookup_insert_eq in Hs2.
      destruct (io_resume_timed_out fuel me e c timer s2 ETIMEDOUT Ht2 Htm Hs2) as (s3 & E3 & Her & Hh & Hin & Hd & _); [done|].
      exists s3. split_and!; try done. rewrite Hin. apply lookup_delete_eq.
  - intros Hno rt. unfold run_callback, timeout_cb, Timer.call, Timer.OnTimer, bind, gets, alive.
    destruct (infos s !! c_info c) as [v|] eqn:Ev; [|done].
    rewrite bool_decide_true by by eexists. simpl. unfold on_timeout, bind, gets. rewrite Ev.
    destruct v; [congruence|done|done].
Qed.

(** C28: a wait that ends in time. When the descriptor is reported with the flag of
    what a call waits for and without that of the other event, EPOLLHUP and EPOLLERR
    (with those an event that is not registered would be woken too and the assertion
    fail, [hangup_on_reader]), and [epoll_ctl] answers 0, the fiber goes to the end
    of the queue, and the call, when its fiber goes on before the timeout,
    disarms its timer and calls the original function again as at its start. *)
Theorem ready_outcome t f c timer s x ev :
  inv t (io s) -> 0 <= c_fd c -> is_event (c_event c) -> waits f c s ->
  m_fdContexts (io s) !! Z.to_nat (c_fd c) = Some x ->
  wakes ev EPOLLIN = bool_decide (c_event c = READ) -> wakes ev EPOLLOUT = bool_decide (c_event c = WRITE) ->
  exists v, handle_event (Ready (c_fd c) ev) 0 (io s) = Ok tt v /\
    Scheduler.m_fibers (sched v) =
      Scheduler.m_fibers (sched (io s)) ++ [Scheduler.FiberAndThread_ (Some f) None (-1)] /\
    (exists y, m_fdContexts v !! Z.to_nat (c_fd c) = Some y /\ has y (c_event c) = false) /\
    forall fuel me e s2, infos s2 !! c_info c = infos s !! c_info c -> Timer.inv (timers (io s2)) ->
      (forall a, timer = Some a -> is_Some (Timer.heap (timers (io s2)) !! a)) ->
      exists s3, io_resume fuel me e c timer s2 = retry fuel me e c s3 /\ hist s3 = hist s2 /\
        infos s3 = infos s2 /\ disarmed timer s3 /\ same_table (io s2) (io s3) /\ sched (io s3) = sched (io s2).
Proof.
  intros Hi Hfd Hev [Hinfo (x' & Hx' & Hhas & Hcx)] Hx Hr Hw. rewrite Hx in Hx'. injection Hx' as <-.
  pose proof (handle_event_eq t (c_fd c) ev 0 (io s) x Hi Hfd Hx) as H. cbv zeta in H. rewrite Hr, Hw in H.
  assert (exists v, handle_event (Ready (c_fd c) ev) 0 (io s) = Ok tt v /\ took (c_fd c) x [c_event c] (io s) v /\
    Scheduler.m_fibers (sched v) = Scheduler.m_fibers (sched (io s)) ++ [waiter (ctx_of x (c_event c))]) as (v & E & Ht & Hq).
  { clear Hr Hw. unfold can_fire in H. destruct Hev as [Ec|Ec]; rewrite Ec in *; unfold ctx_of in Hcx; simpl in Hcx, H;
      rewrite Hhas, Hcx in H; simpl in H; exact H. }
  rewrite Hcx in Hq. exists v. split; [done|]. split; [exact Hq|]. destruct Ht as (ev' & (Hctx & _) & _). split.
  - exists (taken [c_event c] x). split.
    + rewrite Hctx. rewrite list_lookup_insert_eq; [done|by eapply lookup_lt_Some].
    + by apply (bits_without (Z.to_nat (c_fd c))); [apply (inv_wf _ _ Hi _ _ Hx)| |].
  - intros fuel me e s2 Hs2 Ht2 Htm. rewrite Hinfo in Hs2. by apply io_resume_retries.
Qed.

(** ** Flags and timeouts of a descriptor *)

(** The context of a descriptor, and the state after its owner changed it. *)
Definition owns_ctx (fd : Z) (p : nat) (c : FdManager.FdCtx) (s : hooks) : Prop :=
  FdManager.wf (fds s) /\ 0 <= fd < 64 /\ FdManager.m_datas (fds s) !! Z.to_nat fd = Some (Some p) /\
  FdManager.ctxs (fds s) !! p = Some c.

Lemma owns_ctx_update fd p c g s s' :
  owns_ctx fd p c s -> (forall x, FdManager.m_fd (g x) = FdManager.m_fd x) ->
  fds s' = FdManager.set_ctxs (alter g p (FdManager.ctxs (fds s))) (fds s) -> owns_ctx fd p (g c) s'.
Proof.
  intros (Hwf & Hfd & Hp & Hc) Hg E. unfold owns_ctx. rewrite E. split_and!; [by apply FdManager.wf_update|lia|lia|done|].
  simpl. rewrite lookup_alter_eq, Hc. done.
Qed.

Lemma call_rt_eq me c s :
  let a := kernel (hist s) me c in
  exists s', call_rt me c s = Ok (rt a) s' /\ only_called s s' /\ hist s' = hist s ++ [(c, a)].
Proof.
  intros a. destruct (call_eq me c s) as (s' & E & Hc & Hh & _). exists s'. unfold call_rt, bind. rewrite E. done.
Qed.

Lemma set_nonblock_clear z : Z.land (Z.lor z FdManager.O_NONBLOCK) (Z.lnot FdManager.O_NONBLOCK) =
  Z.land z (Z.lnot FdManager.O_NONBLOCK).
Proof.
  apply Z.bits_inj'. intros k Hk. rewrite !Z.land_spec, Z.lor_spec, Z.lnot_spec by done.
  by destruct (Z.testbit z k), (Z.testbit FdManager.O_NONBLOCK k).
Qed.
Lemma nonblock_bit z : Z.land z FdManager.O_NONBLOCK = if Z.testbit z 11 then FdManager.O_NONBLOCK else 0.
Proof.
  change FdManager.O_NONBLOCK with (2 ^ 11). apply Z.bits_inj'. intros k Hk.
  rewrite Z.land_spec, Z.pow2_bits_eqb by lia. destruct (Z.eqb_spec 11 k) as [<-|Hne].
  - destruct (Z.testbit z 11); [by rewrite Z.pow2_bits_true by lia|by rewrite Z.bits_0].
  - rewrite andb_false_r. destruct (Z.testbit z 11); [by rewrite Z.pow2_bits_false by lia|by rewrite Z.bits_0].
Qed.
(** The flag in or out of a word that has it, or has not. *)
Lemma nonblock_view z :
  (if negb (Z.land z FdManager.O_NONBLOCK =? 0) then Z.lor (Z.lor z FdManager.O_NONBLOCK) FdManager.O_NONBLOCK
   else Z.land (Z.lor z FdManager.O_NONBLOCK) (Z.lnot FdManager.O_NONBLOCK)) = z.
Proof.
  rewrite nonblock_bit. destruct (Z.testbit z 11) eqn:E; simpl.
  - rewrite <- Z.lor_assoc, Z.lor_diag. apply Z.bits_inj'. intros k Hk. rewrite Z.lor_spec.
    change FdManager.O_NONBLOCK with (2 ^ 11). rewrite Z.pow2_bits_eqb by lia.
    destruct (Z.eqb_spec 11 k) as [<-|]; [by rewrite E|by rewrite orb_false_r].
  - rewrite set_nonblock_clear. apply Z.bits_inj'. intros k Hk. rewrite Z.land_spec, Z.lnot_spec by done.
    change FdManager.O_NONBLOCK with (2 ^ 11). rewrite Z.pow2_bits_eqb by lia.
    destruct (Z.eqb_spec 11 k) as [<-|]; [by rewrite E|by rewrite andb_true_r].
Qed.

(** The status flags are a round trip for the owner of a socket and a constant
    for the system: setting the flags with [fcntl] and, with a system that returns
    the flags it was given, getting them back gives the same flags, whether they
    have O_NONBLOCK or not, while the only flags the system was given have
    O_NONBLOCK; and the context remembers what the owner asked for, which is what
    decides whether I/O on the socket waits. *)
Theorem flags_roundtrip me e fd arg p c s :
  owns_ctx fd p c s -> FdManager.m_isClosed c = false -> FdManager.m_isSocket c = true ->
  FdManager.m_sysNonblock c = true ->
  (forall h v, rt (kernel (h ++ [v]) me (Sys_fcntl fd F_GETFL None)) =
     match v with (Sys_fcntl _ _ (Some flags), _) => flags | _ => 0 end) ->
  exists r s1 s2, fcntl me e fd F_SETFL arg s = Ok r s1 /\ fcntl me e fd F_GETFL 0 s1 = Ok arg s2 /\
    (exists a, hist s1 = hist s ++ [(Sys_fcntl fd F_SETFL (Some (Z.lor arg FdManager.O_NONBLOCK)), a)]) /\
    owns_ctx fd p (FdManager.setUserNonBlock (negb (Z.land arg FdManager.O_NONBLOCK =? 0)) c) s2.
Proof.
  intros Ho Hcl Hso Hsys Hk. pose proof Ho as (Hwf & Hfd & Hp & Hc).
  set (u := negb (Z.land arg FdManager.O_NONBLOCK =? 0)).
  set (s0 := set_fds (FdManager.set_ctxs (alter (FdManager.setUserNonBlock u) p (FdManager.ctxs (fds s))) (fds s)) s).
  destruct (call_rt_eq me (Sys_fcntl fd F_SETFL (Some (Z.lor arg FdManager.O_NONBLOCK))) s0) as (s1 & E1 & Hc1 & Hh1).
  exists (rt (kernel (hist s0) me (Sys_fcntl fd F_SETFL (Some (Z.lor arg FdManager.O_NONBLOCK))))), s1.
  destruct (call_rt_eq me (Sys_fcntl fd F_GETFL None) s1) as (s2 & E2 & Hc2 & Hh2). exists s2.
  assert (owns_ctx fd p (FdManager.setUserNonBlock u c) s1) as Ho1.
  { eapply owns_ctx_update; [exact Ho|done|]. by destruct Hc1 as (-> & _). }
  assert (owns_ctx fd p (FdManager.setUserNonBlock u c) s2) as Ho2.
  { unfold owns_ctx. by destruct Hc2 as (-> & _). }
  split_and!.
  - unfold fcntl. simpl. unfold bind at 1. rewrite (fd_ctx_eq e fd p c) by done. rewrite Hcl, Hsys.
    unfold bind, update_ctx, in_fds, FdManager.update, modify. exact E1.
  - unfold fcntl. simpl. unfold bind at 1. rewrite E2. unfold bind. destruct Ho2 as (Hwf2 & _ & Hp2 & Hcx2).
    rewrite (fd_ctx_eq e fd p _ s2 Hwf2 Hfd Hp2 Hcx2). simpl. rewrite Hcl, Hso. simpl.
    rewrite Hh1, Hk. pose proof (nonblock_view arg) as Hv. fold u in Hv.
    destruct u; unfold ret; f_equal; exact Hv.
  - by eexists.
  - exact Ho2.
Qed.

(** ** Sleeping *)

(** [sleep], [usleep] and [nanosleep] with hooks put the fiber on hold and set
    one timer that queues it, due after the time asked for in milliseconds (for
    [sleep] as a 32-bit product, so that it wraps around); when the function of the
    timer runs, the fiber is queued, and the call returns 0.  Without hooks
    [nanosleep] calls itself and never returns. *)
Theorem sleep_outcome t me m f e s :
  runs t me m f s -> Timer.heap (timers (io s)) !! new_timer e = None ->
  (me ∈ enabled s -> forall call ms,
     (exists n, call = sleep me e n /\ ms = u32 (n * 1000)) \/
     (exists n, call = usleep me e n /\ ms = Z.quot n 1000) \/
     (exists fuel sec nsec, call = nanosleep (S fuel) me e sec nsec /\
        ms = u64 (s32 (sec * 1000 + Z.quot (Z.quot nsec 1000) 1000))) ->
     exists s', call s = Ok (Suspend InSleep) s' /\
       Timer.heap (timers (io s')) !! new_timer e =
         Some (Timer.Timer (now e) ms (Some (Timer.Plain (Schedule f))) false) /\
       (forall a, a ∈ Timer.m_timers (timers (io s')) <-> a = new_timer e \/ a ∈ Timer.m_timers (timers (io s))) /\
       Fiber.at_main me m (Scheduler.fw (sched (io s'))) /\
       Scheduler.m_fibers (sched (io s')) = Scheduler.m_fibers (sched (io s))) /\
  (forall rt s1, exists s2, run_callback rt (Timer.Plain (Schedule f)) s1 = Ok tt s2 /\
     Scheduler.m_fibers (sched (io s2)) =
       Scheduler.m_fibers (sched (io s1)) ++ [Scheduler.FiberAndThread_ (Some f) None (-1)]) /\
  (forall fuel s1, resume fuel me e InSleep s1 = Ok (Return 0) s1) /\
  (me ∉ enabled s -> forall fuel sec nsec, nanosleep fuel me e sec nsec s = Fail_ OutOfFuel).
Proof.
  intros [Hi Hti Hat Hne Hme] Hn. pose proof Hat as (Hcur & _ & _ & _ & fb & Hfb & Hex).
  split; [|split; [|split; [done|]]].
  - intros Hen call ms Hcall.
    assert (call s = sleep_for me e ms s) as ->.
    { destruct Hcall as [(n & -> & ->)|[(n & -> & ->)|(fuel & sec & nsec & -> & ->)]]; simpl;
        unfold sleep, usleep, is_hook_enable, bind at 1, gets; by rewrite bool_decide_true by done. }
    unfold sleep_for, bind at 1, in_io at 1, in_sched, Scheduler.lift.
    rewrite (Fiber.GetThis_eq me (new_fib e) f _ fb Hcur Hfb).
    assert (set_io (set_sched (Scheduler.set_fw (Scheduler.fw (sched (io s))) (sched (io s))) (io s)) s = s) as ->.
    { destruct s as [? [[] ? ? ? ? ?] ? ? ? ? ?]. done. }
    unfold bind at 1. rewrite need_iom_eq by done.
    destruct (addTimer_table (now e) (new_timer e) ms (Some (Timer.Plain (Schedule f))) false (io s))
      as (v & E & Hst & Es & Eh & Et & _).
    unfold bind at 1, in_io at 1. rewrite E.
    destruct (Fiber.hand_back_ok me m f (Scheduler.fw (sched v)) fb Fiber.ToHold (new_fib e))
      as (w' & Ew & Hmain & _ & _); [by rewrite Es|done|by rewrite Es|].
    simpl in Ew. unfold yield_to_hold, bind, in_io, in_sched, Scheduler.lift. simpl. rewrite Ew.
    eexists. split; [reflexivity|]. simpl. split_and!; [|  |done|by rewrite Es].
    + rewrite Eh. apply lookup_insert_eq.
    + intros a. rewrite Et. apply Timer.elem_of_set_insert.
  - intros rt s1. destruct (schedule_table (Scheduler.FiberAndThread_ (Some f) None (-1)) (io s1)) as (v & E & _ & _ & Hq).
    exists (set_io v s1). unfold run_callback, bind, gets. simpl. unfold in_io. by rewrite E.
  - intros Hno fuel sec nsec. induction fuel as [|fuel IH]; [done|]. simpl.
    unfold is_hook_enable, bind at 1, gets. by rewrite bool_decide_false by done.
Qed.
End kernel.
End hooks.

(** ** Witnesses *)

(** Thread 0 with its main fiber 1 executes fiber 2; descriptor 5 is a socket
    whose first read would block. *)
Definition ex_world : Fiber.world (Scheduler.code (Timer.callback (@closure nat) nat)) :=
  match (Fiber.GetThis 0 1 ;;;
         modify (fun w => Fiber.set_tls 0 (Fiber.Thread_ (Some 1%nat) (Some 1%nat) (Some 1%nat) (Some 1%nat)) w) ;;;
         Fiber.new_fiber 1024 2 (Some Scheduler.Run) 0 false ;;; Fiber.swapIn 0 2) (Fiber.World ∅ 0 0 ∅) with
  | Ok _ w => w
  | _ => Fiber.World ∅ 0 0 ∅
  end.
Definition ex_sched : Scheduler.sched (Timer.callback (@closure nat) nat) :=
  Scheduler.set_scheduler {[0%nat]} (Scheduler.empty_sched ex_world).
Definition ex_iom : iom (@closure nat) nat :=
  match IOManager ex_sched (Timer.TimerManager 1000) 3 [] with
  | Ok _ v => v
  | _ => IOM ex_sched (Timer.TimerManager 1000) 0 [] [] 0
  end.
Definition ex_kernel (h : @history unit) (me : nat) (c : @sys unit) : answer :=
  match c, h with
  | Sys_io _ _ _, [] => Answer (-1) EAGAIN 0
  | Sys_io _ _ _, _ => Answer 7 0 0
  | _, _ => Answer 0 0 0
  end.
Definition ex_fstat (h : @history unit) (fd : Z) : option bool := Some true.
Definition ex_getfl (h : @history unit) (fd : Z) : Z := 2.
Definition ex_fds : FdManager.manager :=
  match FdManager.get (fun _ => Some true) (fun _ => 2) 1 5 true FdManager.FdManager with
  | Ok _ v => match FdManager.update 1 (FdManager.setTimeout FdManager.SO_RCVTIMEO 200) v with Ok _ v => v | _ => v end
  | _ => FdManager.FdManager
  end.
Definition ex_hooks : @hooks unit nat := Hooks ex_fds ex_iom ∅ {[0%nat]} ∅ 5000 [].
Definition ex_env : env := Env 2000 90 91 92 93 0.

Lemma ex_runs : runs 3 0 1 2 ex_hooks.
Proof.
  split.
  - by apply (inv_init ex_sched (Timer.TimerManager 1000) 3 []).
  - apply Timer.inv_TimerManager.
  - split_and!; [done|done|done| |]; eexists; split; by vm_compute.
  - done.
  - by vm_compute.
Qed.
Lemma ex_owns : exists c, owns_ctx 5 1 c ex_hooks /\ FdManager.m_isClosed c = false /\
  FdManager.m_isSocket c = true /\ FdManager.m_userNonblock c = false /\ FdManager.m_sysNonblock c = true /\
  FdManager.getTimeout FdManager.SO_RCVTIMEO c = 200.
Proof.
  assert (FdManager.wf ex_fds) as Hwf.
  { split; [by vm_compute|]. intros i p Hp. do 64 (destruct i as [|i]; [try discriminate Hp; injection Hp as <-; by eexists|]).
    discriminate Hp. }
  eexists. split; [split; [exact Hwf|split; [lia|split; by vm_compute]]|]. by vm_compute.
Qed.

Lemma blocking_outcome_witness :
  runs 3 0 1 2 ex_hooks /\
  exists s', do_io ex_kernel ex_fstat ex_getfl 3 0 ex_env 5 read_f READ FdManager.SO_RCVTIMEO tt ex_hooks =
    Ok (Suspend (InIO (IoCall read_f 5 tt READ 200 92) (Some 91%nat))) s' /\
    waits 2 (IoCall read_f 5 tt READ 200 92) s'.
Proof.
  split; [exact ex_runs|].
  destruct ex_owns as (c & (Hwf & Hfd & Hp & Hc) & Hcl & Hso & Hnb & _ & Hto).
  destruct (blocking_outcome ex_kernel ex_fstat ex_getfl 3 3 0 1 2 ex_env 5 read_f READ FdManager.SO_RCVTIMEO tt 1 c ex_hooks
    [(Sys_io read_f 5 tt, Answer (-1) EAGAIN 0)] (Answer (-1) EAGAIN 0)) as (_ & H);
    [exact ex_runs|vm_compute; done|exact Hwf|exact Hfd|exact Hp|exact Hc|exact Hcl|exact Hso|exact Hnb|by left|
     vm_compute; done..|].
  destruct H as (st & s' & E & _ & Est & Hw & _); [right; by vm_compute|].
  rewrite Hto in *. subst st. exists s'. by split.
Defined.

(** The state of the blocked read. *)
Definition ex_waiting : @hooks unit nat :=
  match do_io ex_kernel ex_fstat ex_getfl 3 0 ex_env 5 read_f READ FdManager.SO_RCVTIMEO tt ex_hooks with
  | Ok _ s => s
  | _ => ex_hooks
  end.
Definition ex_call : @io_call unit := IoCall read_f 5 tt READ 200 92.
Lemma ex_waits : inv 3 (io ex_waiting) /\ Timer.inv (timers (io ex_waiting)) /\ waits 2 ex_call ex_waiting /\
  is_Some (Timer.heap (timers (io ex_waiting)) !! 91%nat).
Proof.
  destruct ex_owns as (c & (Hwf & Hfd & Hp & Hc) & Hcl & Hso & Hnb & _ & Hto).
  destruct (retry_waits ex_kernel 3 3 0 1 2 ex_env ex_call (set_infos {[92%nat := 0]} ex_hooks)
    [(Sys_io read_f 5 tt, Answer (-1) EAGAIN 0)] (Answer (-1) EAGAIN 0))
    as (s' & E & _ & _ & Hw & Hset & _ & _ & _ & _ & _ & Hi & Ht); [|done|by left|vm_compute; done..|].
  { destruct ex_runs. by split. }
  assert (ex_waiting = s') as ->.
  { unfold ex_waiting. transitivity (match retry ex_kernel 3 0 ex_env ex_call (set_infos {[92%nat := 0]} ex_hooks) with
      Ok _ s => s | _ => ex_hooks end); [by vm_compute|]. by rewrite E. }
  split; [exact Hi|]. split; [exact Ht|]. split; [exact Hw|]. destruct (Hset 91%nat eq_refl) as (_ & tm & Htm & _). by eexists.
Qed.

Lemma timeout_outcome_witness :
  waits 2 ex_call ex_waiting /\
  exists s1, run_callback (fun _ => ret tt) 0 (timeout_cb ex_call) ex_waiting = Ok tt s1 /\
    Scheduler.m_fibers (sched (io s1)) = [Scheduler.FiberAndThread_ (Some 2%nat) None (-1)].
Proof.
  destruct ex_waits as (Hi & Ht & Hw & Htm). split; [exact Hw|].
  destruct (timeout_outcome ex_kernel (fun _ => ret tt) 3 2 ex_call (Some 91%nat) ex_waiting Hi) as [H _];
    [done|by left|]. clear Ht Htm. destruct (H Hw) as (s1 & E & _ & Hq & _). exists s1. split; [exact E|]. rewrite Hq. by vm_compute.
Defined.

Lemma ready_outcome_witness :
  waits 2 ex_call ex_waiting /\
  exists v, handle_event (Ready 5 EPOLLIN) 0 (io ex_waiting) = Ok tt v /\
    Scheduler.m_fibers (sched v) = [Scheduler.FiberAndThread_ (Some 2%nat) None (-1)].
Proof.
  destruct ex_waits as (Hi & Ht & Hw & Htm). split; [exact Hw|]. pose proof Hw as [_ (x & Hx & _)].
  destruct (ready_outcome ex_kernel 3 2 ex_call (Some 91%nat) ex_waiting x EPOLLIN Hi) as (v & E & Hq & _);
    [done|by left|exact Hw|exact Hx|done|done|]. exists v. split; [exact E|]. rewrite Hq. by vm_compute.
Defined.

(** A system that returns the status flags it was given. *)
Definition ex_flags (h : @history unit) (me : nat) (c : @sys unit) : answer :=
  match c with
  | Sys_fcntl _ _ None => Answer (match last h with Some (Sys_fcntl _ _ (Some flags), _) => flags | _ => 0 end) 0 0
  | _ => Answer 0 0 0
  end.
Lemma flags_roundtrip_witness :
  exists r s1 s2, fcntl ex_flags ex_fstat ex_getfl 0 ex_env 5 F_SETFL 2 ex_hooks = Ok r s1 /\
    fcntl ex_flags ex_fstat ex_getfl 0 ex_env 5 F_GETFL 0 s1 = Ok 2 s2 /\
    hist s1 = [(Sys_fcntl 5 F_SETFL (Some 2050), Answer 0 0 0)].
Proof.
  destruct ex_owns as (c & Ho & Hcl & Hso & _ & Hsys & _).
  destruct (flags_roundtrip ex_flags ex_fstat ex_getfl 0 ex_env 5 2 1 c ex_hooks Ho Hcl Hso Hsys)
    as (r & s1 & s2 & E1 & E2 & (a & Hh) & _).
  { intros h [x b]. simpl. rewrite last_snoc. by destruct x as [| | | | | |? ? []| | |]. }
  exists r, s1, s2. split_and!; [exact E1|exact E2|].
  assert (Ok r s1 = fcntl ex_flags ex_fstat ex_getfl 0 ex_env 5 F_SETFL 2 ex_hooks) as E by done.
  vm_compute in E. by injection E as _ ->.
Defined.

Lemma sleep_outcome_witness :
  runs 3 0 1 2 ex_hooks /\
  exists s', sleep ex_kernel 0 ex_env 3 ex_hooks = Ok (Suspend InSleep) s' /\
    Timer.heap (timers (io s')) !! 91%nat =
      Some (Timer.Timer 2000 3000 (Some (Timer.Plain (Schedule 2%nat))) false).
Proof.
  split; [exact ex_runs|].
  destruct (sleep_outcome ex_kernel ex_fstat ex_getfl (fun _ => ret tt) 3 0 1 2 ex_env ex_hooks ex_runs) as [H _]; [done|].
  destruct (H ltac:(by vm_compute) (sleep ex_kernel 0 ex_env 3) 3000) as (s' & E & Ht & _); [left; by exists 3|].
  exists s'. by split.
Defined.

(** [sleep(4294968)], about fifty days, sleeps 704 milliseconds. *)
Example sleep_wraps : u32 (4294968 * 1000) = 704.
Proof. done. Qed.

(** [ioctl(fd, FIONBIO, 0)] is passed on as it is: the system makes the socket
    blocking, while the context still says that it is not. *)
Example ioctl_blocks :
  match ioctl ex_kernel ex_fstat ex_getfl 0 ex_env 5 FIONBIO 0 ex_hooks with
  | Ok _ s => hist s = [(Sys_ioctl 5 FIONBIO 0, Answer 0 0 0)] /\
              FdManager.m_sysNonblock <$> FdManager.ctxs (fds s) !! 1%nat = Some true
  | _ => False
  end.
Proof. by vm_compute. Qed.

(** A timeout of zero, which means none to the system, makes a read that has to
    wait expire at once: the timer is due at the time it is set. *)
Example zero_timeout :
  match setsockopt ex_kernel ex_fstat ex_getfl 0 ex_env 5 Socket.SOL_SOCKET FdManager.SO_RCVTIMEO
          (Socket.OptTimeval 0 0) (set_hist [] ex_hooks) with
  | Ok _ s =>
    match do_io ex_kernel ex_fstat ex_getfl 3 0 ex_env 5 read_f READ FdManager.SO_RCVTIMEO tt (set_hist [] s) with
    | Ok (Suspend (InIO _ (Some a))) s' => Timer.next_of (Timer.heap (timers (io s'))) a = now ex_env
    | _ => False
    end
  | _ => False
  end.
Proof. by vm_compute. Qed.
End Hook.
