(* ===== verification/HookWake.v ===== *)
(** * Waking suspended calls

    A call that waits holds its fiber in one place: in the context of a
    descriptor, in a timer, or in the queue of the scheduler.  The places are
    counted, and every stretch of code that the threads run between two switches
    (of the hooks, the event loop and the scheduler) keeps the count.  A hooked call
    is cut once more, between the setting of its timer and the registration of its
    event, since no lock spans the two. *)

From stdpp Require Import prelude gmap.
From Stdlib Require Import ZArith Lia.
From S2P Require Import Prelude Timer FdManager Fiber Scheduler IOManager Socket Hook.

Module HookWake.
Import IOManager Hook.
Local Open Scope Z_scope.

Section wake.
Context {A U : Type}.
Abbreviation closure := (@closure U).
Abbreviation callback := (Timer.callback closure nat).
Abbreviation iom := (iom closure nat).
Abbreviation fdctx := (@FdContext closure nat).
Abbreviation task := (Scheduler.FiberAndThread callback).

(** ** Counting the places of a fiber *)

Definition closure_refs (f : nat) (k : closure) : Z :=
  match k with Schedule g => Z.b2z (bool_decide (g = f)) | _ => 0 end.
(** A condition timer may drop its callback, so a fiber must not be in one: such a
    place counts twice, which the invariant rules out. *)
Definition cb_refs (f : nat) (c : option callback) : Z :=
  match c with
  | Some (Timer.Plain k) => closure_refs f k
  | Some (Timer.Bound_OnTimer _ k) => 2 * closure_refs f k
  | None => 0
  end.
Definition fib_refs (f : nat) (p : option nat) : Z := Z.b2z (bool_decide (p = Some f)).
Definition task_refs (f : nat) (x : task) : Z :=
  fib_refs f (Scheduler.ft_fiber x) + cb_refs f (Scheduler.ft_cb x).
Definition ectx_refs (f : nat) (x : EventContext) : Z := fib_refs f (fiber x) + cb_refs f (cb x).
Definition fdc_refs (f : nat) (c : fdctx) : Z :=
  ectx_refs f (IOManager.read c) + ectx_refs f (IOManager.write c).
Fixpoint sum {X} (g : X -> Z) (l : list X) : Z :=
  match l with [] => 0 | x :: l => g x + sum g l end.
Definition timer_refs (f : nat) (m : Timer.manager closure nat) : Z :=
  sum (fun a => cb_refs f (Timer.cb_of (Timer.heap m) a)) (Timer.m_timers m).
Definition iom_refs (f : nat) (s : iom) : Z :=
  sum (fdc_refs f) (m_fdContexts s) + sum (task_refs f) (Scheduler.m_fibers (sched s)) +
  timer_refs f (timers s).

Lemma sum_app {X} (g : X -> Z) l1 l2 : sum g (l1 ++ l2) = sum g l1 + sum g l2.
Proof. induction l1 as [|x l1 IH]; simpl; [done|]. rewrite IH. lia. Qed.
Lemma sum_ext {X} (g h : X -> Z) l : (forall x, x ∈ l -> g x = h x) -> sum g l = sum h l.
Proof.
  induction l as [|x l IH]; intros H; simpl; [done|].
  rewrite (H x) by (by left). rewrite IH; [done|]. intros y Hy. apply H. by right.
Qed.
Lemma sum_zero {X} (g : X -> Z) l : (forall x, x ∈ l -> g x = 0) -> sum g l = 0.
Proof.
  induction l as [|x l IH]; intros H; simpl; [done|].
  rewrite (H x) by (by left). rewrite IH; [done|]. intros y Hy. apply H. by right.
Qed.
Lemma sum_fmap {X Y} (g : Y -> Z) (h : X -> Y) l : sum g (h <$> l) = sum (fun x => g (h x)) l.
Proof. induction l as [|x l IH]; [done|]. rewrite fmap_cons. simpl. by rewrite IH. Qed.
Lemma sum_insert {X} (g : X -> Z) l i x y :
  l !! i = Some x -> sum g (<[i := y]> l) = sum g l - g x + g y.
Proof.
  revert i. induction l as [|z l IH]; intros [|i] H; simpl in *; [done|done| |].
  - simplify_eq. lia.
  - rewrite (IH i H). lia.
Qed.
(** Splitting a list by a test. *)
Lemma sum_filter {X} (g : X -> Z) (P : X -> Prop) `{forall x, Decision (P x)} l :
  sum g (filter P l) + sum g (filter (fun x => ~ P x) l) = sum g l.
Proof.
  induction l as [|x l IH]; simpl; [done|]. rewrite !filter_cons.
  destruct (decide (P x)); rewrite ?decide_False, ?decide_True by tauto; simpl; lia.
Qed.

(** ** Contexts and the queue *)

Abbreviation good_fdc := (@wf_fdc closure nat).

(** The waiter of a registered event takes the fiber of its context along. *)
Lemma waiter_refs f x : wf_ctx true x -> task_refs f (waiter x) = ectx_refs f x.
Proof.
  intros [_ Hx]. unfold task_refs, ectx_refs, waiter. destruct (cb x) as [k|] eqn:Ek; simpl; [|done].
  assert (fiber x = None) as -> by (by apply Hx). done.
Qed.

Lemma without_refs f i c event :
  good_fdc i c -> is_event event -> has c event = true ->
  fdc_refs f c = fdc_refs f (without c event) + task_refs f (waiter (ctx_of c event)).
Proof.
  intros (_ & _ & Hr & Hw) He Hh.
  assert (ectx_refs f (no_ctx Null) = 0) as E by done.
  destruct He as [-> | ->]; rewrite Hh in *; unfold without, ctx_of; cbn [Z.eqb]; simpl;
    rewrite waiter_refs by done; unfold fdc_refs, setContext; simpl; rewrite E; lia.
Qed.

Lemma taken_refs f i c r w :
  good_fdc i c -> (r = true -> has c READ = true) -> (w = true -> has c WRITE = true) ->
  fdc_refs f c = fdc_refs f (taken (sel_of r w) c) +
    sum (task_refs f) ((fun e => waiter (ctx_of c e)) <$> sel_of r w).
Proof.
  intros Hwf Hr Hw. destruct r, w; unfold taken, sel_of; simpl.
  - rewrite (without_refs f i c READ) by (done || by left || auto).
    rewrite (without_refs f i (without c READ) WRITE).
    + unfold ctx_of, without, setContext. simpl. lia.
    + apply wf_without; [done|by left].
    + by right.
    + destruct (bits_without i c READ) as (_ & _ & _ & Hk); [done|by left|auto|]. rewrite Hk; [auto|by right|done].
  - rewrite (without_refs f i c READ) by (done || by left || auto). lia.
  - rewrite (without_refs f i c WRITE) by (done || by right || auto). lia.
  - lia.
Qed.

(** ** What a piece of code does to the counts

    [good]: the invariants of the tables; a timer that recurs never carries a
    fiber.  [moves t g s s']: from a good state to a good one, with [g f] more
    places of fiber [f]; timers keep their callbacks or lose them. *)
Definition quiet (c : option callback) : Prop := forall f, cb_refs f c = 0.
Definition good (t : Z) (s : iom) : Prop :=
  inv t s /\ Timer.inv (timers s) /\
  forall a tm, Timer.heap (timers s) !! a = Some tm -> Timer.m_recurring tm = true -> quiet (Timer.m_cb tm).
Definition keeps_cbs (s s' : iom) : Prop :=
  forall a tm, Timer.heap (timers s) !! a = Some tm -> exists tm', Timer.heap (timers s') !! a = Some tm' /\
    (Timer.m_cb tm' = Timer.m_cb tm \/ Timer.m_cb tm' = None).
Definition moves (t : Z) (g : nat -> Z) (s s' : iom) : Prop :=
  good t s -> good t s' /\ (forall f, iom_refs f s' = iom_refs f s + g f) /\ keeps_cbs s s'.

Lemma keeps_cbs_refl s : keeps_cbs s s.
Proof. intros a tm H. eauto. Qed.
Lemma keeps_cbs_eq s s' : timers s' = timers s -> keeps_cbs s s'.
Proof. intros E a tm H. rewrite E. eauto. Qed.
Lemma keeps_cbs_trans s1 s2 s3 : keeps_cbs s1 s2 -> keeps_cbs s2 s3 -> keeps_cbs s1 s3.
Proof.
  intros H1 H2 a tm Ha. destruct (H1 a tm Ha) as (tm' & Ha' & [E1|E1]);
    destruct (H2 a tm' Ha') as (tm'' & Ha'' & [E2|E2]); exists tm''; split; try done; rewrite E2 || idtac;
    auto; rewrite E1; auto.
Qed.
Lemma moves_refl t s : moves t (fun _ => 0) s s.
Proof. intros Hg. split_and!; [done|intros; lia|apply keeps_cbs_refl]. Qed.
Lemma moves_trans t g1 g2 g s1 s2 s3 :
  moves t g1 s1 s2 -> moves t g2 s2 s3 -> (forall f, g f = g1 f + g2 f) -> moves t g s1 s3.
Proof.
  intros H1 H2 Hg Hs. destruct (H1 Hs) as (Hs2 & R1 & K1). destruct (H2 Hs2) as (Hs3 & R2 & K2).
  split_and!; [done| |by eapply keeps_cbs_trans]. intros f. rewrite R2, R1, Hg. lia.
Qed.

(** The table, the queue and the timers are the same. *)
Lemma same_moves t s s' :
  same_table s s' -> timers s' = timers s -> Scheduler.m_fibers (sched s') = Scheduler.m_fibers (sched s) ->
  moves t (fun _ => 0) s s'.
Proof.
  intros Hst Et Eq (Hi & Htm & Hrec). split_and!.
  - split_and!; [by eapply inv_same_table|by rewrite Et|by rewrite Et].
  - intros f. unfold iom_refs. destruct Hst as (-> & _). rewrite Et, Eq. lia.
  - by apply keeps_cbs_eq.
Qed.

(** Events that are taken from a context. *)
Lemma took_moves t fdi c r w s s' :
  m_fdContexts s !! Z.to_nat fdi = Some c ->
  (r = true -> has c READ = true) -> (w = true -> has c WRITE = true) -> sel_of r w <> [] ->
  took fdi c (sel_of r w) s s' ->
  Scheduler.m_fibers (sched s') =
    Scheduler.m_fibers (sched s) ++ ((fun e => waiter (ctx_of c e)) <$> sel_of r w) ->
  moves t (fun _ => 0) s s'.
Proof.
  intros Hc Hr Hw Hne Ht Hq (Hi & Htm & Hrec).
  pose proof (took_inv t fdi c r w s s' Hi Hc Hr Hw Hne Ht) as Hi'.
  destruct Ht as (ev & (Hctx & _) & Etm). split_and!.
  - split_and!; [done|by rewrite Etm|by rewrite Etm].
  - intros f. unfold iom_refs. rewrite Etm, Hctx, Hq, sum_app, (sum_insert _ _ _ _ _ Hc).
    rewrite (taken_refs f _ c r w (inv_wf _ _ Hi _ _ Hc) Hr Hw). lia.
  - by apply keeps_cbs_eq.
Qed.

Lemma schedule_moves t x s s' :
  schedule x s = Ok tt s' -> moves t (fun f => if Scheduler.is_task x then task_refs f x else 0) s s'.
Proof.
  intros E (Hi & Htm & Hrec). destruct (schedule_table x s) as (s1 & E1 & Hst & Et & Hq).
  rewrite E in E1. simplify_eq. split_and!.
  - split_and!; [by eapply inv_same_table|by rewrite Et|by rewrite Et].
  - intros f. unfold iom_refs. destruct Hst as (-> & _ & _). rewrite Et, Hq, sum_app.
    destruct (Scheduler.is_task x); simpl; lia.
  - by apply keeps_cbs_eq.
Qed.

(** ** Registering and withdrawing *)

Lemma grow_refs t f fdi s c s1 :
  inv t s -> 0 <= fdi -> lookup_or_grow fdi s = Ok c s1 ->
  sum (fdc_refs f) (m_fdContexts s1) = sum (fdc_refs f) (m_fdContexts s).
Proof.
  intros Hi H0 E. destruct (inv_size _ _ Hi) as [_ Hsz]. unfold lookup_or_grow, bind, gets in E.
  rewrite swrap_id in E by (lia || (unfold in_s; lia)).
  assert (forall v (s2 s3 : iom), at_ fdi s2 = Ok v s3 -> s3 = s2) as Hat.
  { intros v s2 s3. unfold at_. destruct (fdi <? 0); [done|]. destruct (_ !! _); [by intros [= _ ->]|done]. }
  destruct (Z.ltb_spec fdi (Z.of_nat (length (m_fdContexts s)))) as [Hlt|Hge].
  - by rewrite (Hat _ _ _ E).
  - unfold resizeContext, modify in E. rewrite (Hat _ _ _ E). simpl. unfold resized.
    rewrite Z.quot_div_nonneg by lia.
    assert (fdi <= fdi * 3 / 2) by (apply Z.div_le_lower_bound; lia).
    rewrite take_ge by lia. rewrite sum_app, (sum_zero _ (_ <$> _)); [lia|].
    intros x Hx. apply list_elem_of_fmap in Hx as (j & -> & _). done.
Qed.

Section current.
Context (me f : nat) (fb : Fiber.fiber (@Scheduler.code callback)).
(** Thread [me] executes fiber [f]. *)
Definition current (s : iom) : Prop :=
  Fiber.t_fiber (Fiber.tls me (Scheduler.fw (sched s))) = Some f /\
  Fiber.fibers (Scheduler.fw (sched s)) !! f = Some fb /\ Fiber.m_state fb = Fiber.EXEC.

Lemma addEvent_moves t a rt fdi event s v s' :
  current s -> 0 <= fdi < 2 ^ 30 -> is_event event -> addEvent me a rt fdi event None s = Ok v s' ->
  moves t (fun g => if v =? 0 then fib_refs g (Some f) else 0) s s' /\
  (good t s -> sched s' = sched s /\ timers s' = timers s).
Proof.
  intros (Hc & Hf & Hx) Hfd Hev E.
  cut (good t s -> good t s' /\
    (forall g, iom_refs g s' = iom_refs g s + if v =? 0 then fib_refs g (Some f) else 0) /\
    sched s' = sched s /\ timers s' = timers s).
  { intros H. split; [|intros Hg; by apply H in Hg as (_ & _ & ?)].
    intros Hg. destruct (H Hg) as (? & ? & _ & Et). split_and!; [done|done|by apply keeps_cbs_eq]. }
  intros (Hi & Htm & Hrec).
  destruct (addEvent_fiber t me a rt fdi event f fb s Hi Hfd Hev Hc Hf Hx)
    as (c & s1 & Hl & Hi1 & Hc1 & _ & Es & Et & _ & Hno & Hfail & Hok).
  pose proof (fun g => grow_refs t g fdi s c s1 Hi (proj1 Hfd) Hl) as Hgrow.
  destruct (has c event) eqn:Hh; [by rewrite Hno in E|].
  destruct (decide (rt = 0)) as [Hrt|Hrt].
  - destruct (Hok eq_refl Hrt) as (s2 & E2 & Es2 & Et2 & Hup). rewrite E in E2. simplify_eq.
    assert (wf_ctx true (@EventContext_ closure nat
      (if bool_decide (me ∈ Scheduler.t_scheduler (sched s)) then This else Null) (Some f) None)) as Hx'.
    { split; [by destruct (bool_decide _)|]. simpl. split; intros; congruence. }
    destruct (wf_with_waiter _ c event _ (inv_wf _ _ Hi1 _ _ Hc1) Hev Hh Hx') as (Hwf' & _ & He' & _).
    split_and!.
    + split_and!; [|by rewrite Et2, Et|by rewrite Et2, Et].
      eapply inv_updated; [exact Hi1|exact Hc1|exact Hwf'| |exact Hup]. intros; congruence.
    + intros g. unfold iom_refs. rewrite Es2, Et2, Es, Et. destruct Hup as (-> & _).
      rewrite (sum_insert _ _ _ _ _ Hc1), Hgrow. simpl.
      destruct (inv_wf _ _ Hi1 _ _ Hc1) as (_ & _ & Hr & Hw).
      assert (forall x, wf_ctx false x -> ectx_refs g x = 0) as Z0.
      { intros x [H1 H2]. unfold ectx_refs. by rewrite H1, H2. }
      assert (forall p, ectx_refs g (@EventContext_ closure nat p (Some f) None) = fib_refs g (Some f)) as Z1.
      { intros p. unfold ectx_refs. simpl. lia. }
      unfold fdc_refs, with_waiter, setContext.
      destruct Hev as [-> | ->]; rewrite Hh in *; cbn [Z.eqb READ WRITE Pos.eqb IOManager.read IOManager.write];
        rewrite Z1, ?(Z0 _ Hr), ?(Z0 _ Hw); simpl; lia.
    + by rewrite Es2.
    + by rewrite Et2.
  - rewrite (Hfail eq_refl Hrt) in E. simplify_eq. simpl. split_and!; [|  |done|done].
    + split_and!; [done|by rewrite Et|by rewrite Et].
    + intros g. unfold iom_refs. rewrite Es, Et, Hgrow. lia.
Qed.
End current.

(** On what is not an event, or not a descriptor, it changes nothing or fails. *)
Lemma cancelEvent_other rt fdi event (s : iom) v s' :
  ~ (0 <= fdi /\ is_event event) -> cancelEvent rt fdi event s = Ok v s' -> s' = s.
Proof.
  intros Hn E. unfold cancelEvent in E. inv_bind E. unfold find_ctx, bind, gets in H.
  destruct (_ <=? _); [injection H as <- <-; by injection E as _ <-|].
  destruct (at_ fdi s) as [c sc| |] eqn:Ea; simplify_eq. unfold at_ in Ea.
  destruct (Z.ltb_spec fdi 0); [done|]. destruct (_ !! _) eqn:Ec; simplify_eq. simpl in H. injection H as <- <-.
  destruct (Z.land (events c) event =? 0) eqn:Eev; [by injection E as _ <-|].
  unfold epoll_ctl, bind in E. destruct (rt =? 0); [|by injection E as _ <-]. simpl in E.
  unfold triggerEvent, bind, at_ in E. simpl in E. rewrite (proj2 (Z.ltb_ge fdi 0)), Ec, Eev in E by done. simpl in E.
  unfold getContext in E. destruct (Z.eqb_spec event READ) as [->|]; [by destruct Hn; split; [|left]|].
  destruct (Z.eqb_spec event WRITE) as [->|]; [by destruct Hn; split; [|right]|]. done.
Qed.

Lemma cancelEvent_moves t rt fdi event s v s' :
  cancelEvent rt fdi event s = Ok v s' -> moves t (fun _ => 0) s s'.
Proof.
  intros E Hg. destruct (decide (0 <= fdi /\ (event = READ \/ event = WRITE))) as [[H0 Hev]|Hn].
  2:{ apply cancelEvent_other in E as ->; [by apply moves_refl|done]. }
  pose proof (cancelEvent_eq t rt fdi event s (proj1 Hg) H0 Hev) as H.
  destruct (m_fdContexts s !! Z.to_nat fdi) as [c|] eqn:Hc; [|rewrite H in E; simplify_eq; by apply moves_refl].
  destruct (has c event && (rt =? 0)) eqn:Hb; [|rewrite H in E; simplify_eq; by apply moves_refl].
  apply andb_true_iff in Hb as [Hh _].
  destruct (scheduler (ctx_of c event)); [by rewrite H in E|by rewrite H in E|].
  destruct H as (s1 & E1 & Ht & Hq). rewrite E in E1. simplify_eq. revert Hg.
  destruct Hev as [-> | ->]; [apply (took_moves t fdi c true false)|apply (took_moves t fdi c false true)]; try done.
Qed.

Lemma can_fire_has (c : fdctx) r w : can_fire c r w = true ->
  (r = true -> has c READ = true) /\ (w = true -> has c WRITE = true).
Proof. intros H. apply can_fire_true in H as [H1 H2]. split; intros; [by apply H1|by apply H2]. Qed.

Lemma sel_nonempty i (c : fdctx) : good_fdc i c -> events c <> 0 -> sel_of (has c READ) (has c WRITE) <> [].
Proof.
  intros (_ & He & _) Hne. unfold has. rewrite !elem_of_cons in He.
  destruct He as [He|[He|[He|[He|He]]]]; [congruence| | | |by apply elem_of_nil in He]; by rewrite He.
Qed.

Lemma cancekAll_moves t rt fdi s v s' :
  0 <= fdi -> cancekAll rt fdi s = Ok v s' -> moves t (fun _ => 0) s s'.
Proof.
  intros H0 E Hg. pose proof (cancekAll_eq t rt fdi s (proj1 Hg) H0) as H. cbv zeta in H.
  destruct (m_fdContexts s !! Z.to_nat fdi) as [c|] eqn:Hc; [|rewrite H in E; simplify_eq; by apply moves_refl].
  destruct (negb (events c =? 0) && (rt =? 0)) eqn:Hb; [|rewrite H in E; simplify_eq; by apply moves_refl].
  destruct (can_fire c _ _) eqn:Hf; [|destruct H as (? & H); by rewrite H in E].
  destruct H as (s1 & E1 & Ht & Hq). rewrite E in E1. simplify_eq.
  apply andb_true_iff in Hb as [Hb%negb_true_iff%Z.eqb_neq _].
  pose proof (sel_nonempty _ _ (inv_wf _ _ (proj1 Hg) _ _ Hc) Hb) as Hne. revert Hg.
  by apply (took_moves t fdi c (has c READ) (has c WRITE)).
Qed.

Lemma handle_event_moves t ev rt2 s s' :
  handle_event ev rt2 s = Ok tt s' -> moves t (fun _ => 0) s s'.
Proof.
  intros E Hg. destruct ev as [|fdi ev].
  { injection E as <-. by apply same_moves. }
  destruct (Z.ltb_spec fdi 0) as [Hn|H0].
  { simpl in E. unfold bind, at_ in E. by rewrite (proj2 (Z.ltb_lt fdi 0) Hn) in E. }
  destruct (m_fdContexts s !! Z.to_nat fdi) as [c|] eqn:Hc.
  2:{ simpl in E. unfold bind, at_ in E. rewrite (proj2 (Z.ltb_ge fdi 0) H0), Hc in E. done. }
  pose proof (handle_event_eq t fdi ev rt2 s c (proj1 Hg) H0 Hc) as H. cbv zeta in H.
  destruct (_ && (rt2 =? 0)) eqn:Hb; [|rewrite H in E; simplify_eq; by apply moves_refl].
  destruct (can_fire c _ _) eqn:Hf; [|destruct H as (? & H); by rewrite H in E].
  destruct H as (s1 & E1 & Ht & Hq). rewrite E in E1. simplify_eq.
  apply can_fire_has in Hf as [Hr Hw]. revert Hg.
  apply (took_moves t fdi c (wakes ev EPOLLIN) (wakes ev EPOLLOUT)); try done.
  unfold sel_of. destruct (wakes ev EPOLLIN); [done|]. destruct (wakes ev EPOLLOUT); [done|]. done.
Qed.

(** ** Timers *)

Lemma cb_of_insert h a (tm : Timer.timer closure nat) b :
  Timer.cb_of (<[a := tm]> h) b = if decide (a = b) then Timer.m_cb tm else Timer.cb_of h b.
Proof.
  unfold Timer.cb_of. case_decide as E; [subst; by rewrite lookup_insert_eq|by rewrite lookup_insert_ne].
Qed.

Lemma sum_set_insert (g : nat -> Z) h x l :
  @Timer.sorted closure nat h l -> x ∉ l -> sum g (Timer.set_insert h x l) = g x + sum g l.
Proof.
  induction l as [|y l IH]; intros Hs Hx; [done|]. simpl.
  destruct (Timer.before h x y) eqn:E1; [done|]. destruct (Timer.before h y x) eqn:E2.
  - simpl. inversion Hs; subst. rewrite IH; [lia|done|]. intros H. apply Hx. by right.
  - exfalso. apply Hx. rewrite (Timer.before_total h x y E1 E2). by left.
Qed.

Lemma sum_erase (g : nat -> Z) x l : NoDup l -> x ∈ l -> sum g (Timer.set_erase x l) = sum g l - g x.
Proof.
  unfold Timer.set_erase. intros Hnd Hx. rewrite <- (sum_filter g (fun y => y <> x) l).
  assert (sum g (filter (fun y => ~ y <> x) l) = g x); [|lia].
  induction Hnd as [|y l Hy Hnd IH]; [by apply elem_of_nil in Hx|].
  rewrite filter_cons. destruct (decide (y = x)) as [->|Hne].
  - rewrite decide_True by tauto. simpl. rewrite filter_none; [simpl; lia|].
    intros z Hz Hn. apply Hn. intros ->. done.
  - rewrite decide_False by tauto. apply IH. apply elem_of_cons in Hx as [->|Hx]; done.
Qed.

Lemma addTimer_moves t now a ms k recurring s s' :
  Timer.heap (timers s) !! a = None -> (recurring = true -> quiet (Some k)) ->
  addTimer now a ms (Some k) recurring s = Ok tt s' ->
  moves t (fun f => cb_refs f (Some k)) s s' /\
  (sched s' = sched s /\ Timer.heap (timers s') !! a = Some (Timer.Timer now ms (Some k) recurring)).
Proof.
  intros Ha Hr E. destruct (addTimer_table now a ms (Some k) recurring s) as (s1 & E1 & Hst & Es & Eh & Et & Hinv).
  rewrite E in E1. injection E1 as <-. set (h := <[a := _]> _) in *.
  split; [|split; [done|rewrite Eh; apply lookup_insert_eq]]. intros (Hi & Htm & Hrec).
  assert (a ∉ Timer.m_timers (timers s)) as Hna.
  { intros H. destruct (Timer.inv_live _ _ Htm a (or_introl H)) as [? H']. congruence. }
  split_and!.
  - split_and!; [by eapply inv_same_table|by apply Hinv|].
    intros b tm Hb Hre. rewrite Eh in Hb. unfold h in Hb. destruct (decide (a = b)) as [<-|Hne].
    + rewrite lookup_insert_eq in Hb. simplify_eq. simpl in *. auto.
    + rewrite lookup_insert_ne in Hb by done. by eapply Hrec.
  - intros f. unfold iom_refs, timer_refs. destruct Hst as (-> & _). rewrite Es, Et, Eh, sum_set_insert.
    + unfold h at 1. rewrite cb_of_insert, decide_True by done. simpl.
      rewrite (sum_ext _ (fun b => cb_refs f (Timer.cb_of (Timer.heap (timers s)) b))); [lia|].
      intros b Hb. unfold h. rewrite cb_of_insert, decide_False; [done|]. intros ->. done.
    + apply Timer.sorted_insert_out; [done|]. apply Htm.
    + done.
  - intros b tm Hb. rewrite Eh. exists tm. split; [|by left]. unfold h.
    rewrite lookup_insert_ne; [done|]. intros ->. congruence.
Qed.

Lemma cancel_moves t a s v s' tm :
  Timer.heap (timers s) !! a = Some tm -> quiet (Timer.m_cb tm) ->
  in_timers (Timer.cancel a) s = Ok v s' ->
  moves t (fun _ => 0) s s' /\ (good t s -> sched s' = sched s).
Proof.
  intros Ha Hq E.
  cut (good t s -> (good t s' /\ (forall f, iom_refs f s' = iom_refs f s + 0) /\ keeps_cbs s s') /\ sched s' = sched s).
  { intros H. split; intros Hg; by apply H in Hg as []. }
  intros Hg. pose proof Hg as (Hi & Htm & Hrec). unfold in_timers in E. rewrite (Timer.cancel_eq _ _ _ Htm Ha) in E.
  destruct (Timer.m_cb tm) as [k|] eqn:Ek; simplify_eq; [|split; [|done]].
  2:{ apply (same_moves t s (IOManager.set_timers (timers s) s)); [done|by destruct s|done|done]. }
  split; [|done].
  assert (a ∈ Timer.m_timers (timers s)) as Hin.
  { destruct (Timer.inv_cb _ _ Htm a tm Ha) as [H|H]; [congruence|done|by apply elem_of_nil in H]. }
  split_and!.
  - split_and!.
    + by apply (inv_same_table t s).
    + simpl. by eapply Timer.inv_cancelled; [done|done|rewrite Ek].
    + simpl. intros b tb Hb Hre. destruct (decide (a = b)) as [<-|Hne].
      * rewrite lookup_insert_eq in Hb. simplify_eq. done.
      * rewrite lookup_insert_ne in Hb by done. by eapply Hrec.
  - intros f. unfold iom_refs, timer_refs. simpl.
    rewrite (sum_ext _ (fun b => cb_refs f (Timer.cb_of (Timer.heap (timers s)) b)) (Timer.set_erase _ _)).
    + rewrite sum_erase; [|eapply Timer.sorted_nodup, Htm|done].
      assert (cb_refs f (Timer.cb_of (Timer.heap (timers s)) a) = 0) as ->; [|lia].
      unfold Timer.cb_of. rewrite Ha. simpl. rewrite Ek. apply Hq.
    + intros b Hb. apply Timer.elem_of_set_erase in Hb as [Hne _]. by rewrite cb_of_insert, decide_False.
  - intros b tb Hb. simpl. destruct (decide (a = b)) as [<-|Hne].
    + rewrite lookup_insert_eq. simplify_eq. eauto.
    + rewrite lookup_insert_ne by done. eauto.
Qed.

Lemma sum_perm {X} (g : X -> Z) l1 l2 : l1 ≡ₚ l2 -> sum g l1 = sum g l2.
Proof. induction 1; simpl; lia. Qed.

(** Expiry hands the callbacks of the due timers out; those that stay set carry
    no fiber. *)
Lemma expired_refs now n m cbs m' f :
  Timer.inv m ->
  (forall a tm, Timer.heap m !! a = Some tm -> Timer.m_recurring tm = true -> quiet (Timer.m_cb tm)) ->
  Timer.listExpiredCb now n m = Ok cbs m' ->
  Timer.inv m' /\ timer_refs f m = timer_refs f m' + sum (cb_refs f) cbs /\
  (forall a tm', Timer.heap m' !! a = Some tm' -> exists tm, Timer.heap m !! a = Some tm /\
     Timer.m_recurring tm' = Timer.m_recurring tm /\ (Timer.m_cb tm' = Timer.m_cb tm \/ Timer.m_cb tm' = None)) /\
  (forall a, is_Some (Timer.heap m !! a) -> is_Some (Timer.heap m' !! a)).
Proof.
  intros Hm Hrec E. unfold Timer.listExpiredCb, bind, gets in E. case_bool_decide as He.
  { injection E as <- <-. split_and!; [done|simpl; lia| |done]. intros a tm Ha. eauto. }
  destruct (Timer.listExpired_spec now n m Hm (or_introl He)) as (m1 & E1 & Hm' & Hh & Hts & _ & _).
  rewrite E in E1. simplify_eq. set (d := Timer.due now (Timer.rollover now m) m) in *. split_and!.
  - done.
  - unfold timer_refs. rewrite sum_fmap.
    rewrite <- (sum_filter _ (fun a => a ∈ d) (Timer.m_timers m)),
            <- (sum_filter _ (fun a => a ∈ d) (Timer.m_timers m1)).
    assert (filter (fun a => a ∈ d) (Timer.m_timers m) = d) as ->.
    { unfold d, Timer.due. apply filter_ext_in. intros a Ha. rewrite list_elem_of_filter. tauto. }
    rewrite (sum_zero _ (filter (fun a => a ∈ d) (Timer.m_timers m1))).
    + rewrite (sum_perm _ (filter (fun a => a ∉ d) (Timer.m_timers m)) (filter (fun a => a ∉ d) (Timer.m_timers m1))).
      * rewrite (sum_ext (fun a => cb_refs f (Timer.cb_of (Timer.heap m1) a))
          (fun a => cb_refs f (Timer.cb_of (Timer.heap m) a)) (filter (fun a => a ∉ d) _)); [lia|].
        intros a Ha. apply list_elem_of_filter in Ha as [Ha _]. unfold Timer.cb_of. by rewrite Hh, decide_False.
      * apply NoDup_Permutation.
        { apply NoDup_filter. eapply Timer.sorted_nodup, Hm. }
        { apply NoDup_filter. eapply Timer.sorted_nodup, Hm'. }
        intros a. rewrite !list_elem_of_filter, Hts. tauto.
    + intros a Ha. apply list_elem_of_filter in Ha as [Hd Ha]. apply Hts in Ha as [_ Hr].
      specialize (Hr Hd). unfold Timer.recurs in Hr. unfold Timer.cb_of. rewrite Hh, decide_True by done.
      destruct (Timer.heap m !! a) as [tm|] eqn:Ea; [|done]. simpl in Hr. injection Hr as Hr.
      pose proof (Hrec a tm Ea Hr f) as Hq. simpl. unfold Timer.fired. rewrite Hr. exact Hq.
  - intros a tm' Ha. rewrite Hh in Ha. case_decide; [|eauto].
    destruct (Timer.heap m !! a) as [tm|]; simplify_eq. exists tm. simpl in Ha. injection Ha as <-.
    unfold Timer.fired. destruct (Timer.m_recurring tm) eqn:Er; simpl; rewrite ?Er; auto.
  - intros a Ha. rewrite Hh. case_decide; [by apply fmap_is_Some|done].
Qed.

Lemma schedule_loop_queue (fts : list task) : forall b (sc : Scheduler.sched callback),
  exists b' sc', Scheduler.schedule_loop fts b sc = Ok b' sc' /\
    forall f, sum (task_refs f) (Scheduler.m_fibers sc') =
              sum (task_refs f) (Scheduler.m_fibers sc) + sum (task_refs f) fts.
Proof.
  induction fts as [|x fts IH]; intros b sc; [exists b, sc; split; [done|intros; simpl; lia]|].
  simpl. unfold Scheduler.scheduleNoLock, bind, gets. destruct (Scheduler.is_task x) eqn:Ex.
  - destruct (IH (bool_decide (Scheduler.m_fibers sc = []) || b)
      (Scheduler.set_m_fibers (Scheduler.m_fibers sc ++ [x]) sc)) as (b' & sc' & E & Hq).
    exists b', sc'. split; [exact E|]. intros f. rewrite Hq. simpl. rewrite sum_app. simpl. lia.
  - destruct (IH (bool_decide (Scheduler.m_fibers sc = []) || b) sc) as (b' & sc' & E & Hq).
    exists b', sc'. split; [exact E|]. intros f. rewrite Hq.
    assert (task_refs f x = 0) as ->; [|lia].
    unfold Scheduler.is_task in Ex. apply orb_false_iff in Ex as [E1 E2].
    apply bool_decide_eq_false, dec_stable in E1, E2. unfold task_refs. by rewrite E1, E2.
Qed.

Lemma notify_table (b : bool) (s s' : iom) :
  (if b then tickle else ret tt) s = Ok tt s' -> same_table s s' /\ sched s' = sched s /\ timers s' = timers s.
Proof.
  destruct b; intros E; [|by injection E as <-]. destruct (tickle_table s) as (s2 & E2 & Hs & Hs2 & Ht2).
  rewrite E in E2. by simplify_eq.
Qed.

Lemma schedule_expired_moves t now n s s' :
  schedule_expired now n s = Ok tt s' -> moves t (fun _ => 0) s s'.
Proof.
  intros E (Hi & Htm & Hrec). unfold schedule_expired in E. inv_bind E. rename y into cbs. rename s0 into s1.
  unfold in_timers in H. destruct (Timer.listExpiredCb now n (timers s)) as [cbs' m'|e m'|fl] eqn:El; simplify_eq.
  assert (same_table (IOManager.set_timers m' s) s' /\ timers s' = m' /\ forall f,
    sum (task_refs f) (Scheduler.m_fibers (sched s')) =
    sum (task_refs f) (Scheduler.m_fibers (sched s)) + sum (cb_refs f) cbs) as (Hst & Et & Hq).
  { case_bool_decide as Hc; [injection E as <-; subst; split_and!; [done..|intros; simpl; lia]|].
    unfold schedule_range, bind, in_sched in E.
    destruct (schedule_loop_queue ((fun f => Scheduler.FiberAndThread_ None f (-1)) <$> cbs) false (sched s))
      as (b & sc & El' & Hq). simpl in E. rewrite El' in E.
    apply (notify_table b) in E as (Hst & Es & Et). split_and!; [done|done|].
    intros f. rewrite Es. simpl. by rewrite Hq, sum_fmap. }
  destruct (expired_refs now n (timers s) cbs m' 0%nat Htm Hrec El) as (Htm' & _ & Hback & Hsome). split_and!.
  - split_and!; [|by rewrite Et|].
    + eapply inv_same_table; [exact Hst|]. by apply (inv_same_table t s).
    + rewrite Et. intros a tm' Ha Hre. destruct (Hback a tm' Ha) as (tm & Ha0 & Er & Ec).
      rewrite Er in Hre. intros f. destruct Ec as [-> | ->]; [by eapply Hrec|done].
  - intros f. destruct (expired_refs now n (timers s) cbs m' f Htm Hrec El) as (_ & Hf & _).
    unfold iom_refs. destruct Hst as (-> & _). rewrite Et, Hq, Hf. simpl. lia.
  - intros a tm Ha. rewrite Et. destruct (Hsome a (ex_intro _ _ Ha)) as (tm' & Ha').
    destruct (Hback a tm' Ha') as (tm0 & Ha0 & _ & Ec). simplify_eq. eauto.
Qed.

(** ** The hooked calls *)

Abbreviation hooks := (@hooks A U).
Abbreviation io_call := (@io_call A).
Abbreviation frame := (@frame A).
Abbreviation status := (@status A).
Context (kernel : @history A -> nat -> @sys A -> answer).
Context (fstat : @history A -> Z -> option bool) (getfl : @history A -> Z -> Z).

(** Commands that leave the I/O manager alone. *)
Abbreviation leaves_io m := (forall v, keeps (fun s : hooks => io s = v) m).

Lemma leaves_modify (g : hooks -> hooks) : (forall s, io (g s) = io s) -> leaves_io (modify g).
Proof. intros H v s Hs. simpl. by rewrite H. Qed.
Lemma leaves_in_fds {B} (m : Prelude.cmd FdManager.manager B) : leaves_io (in_fds m).
Proof. intros v s Hs. unfold in_fds. by destruct (m (fds s)). Qed.
Lemma leaves_set_errno me v : leaves_io (set_errno me v).
Proof. by apply leaves_modify. Qed.
Lemma leaves_release i : leaves_io (release i).
Proof. by apply leaves_modify. Qed.
Lemma leaves_call me c : leaves_io (call kernel me c).
Proof. intros v s Hs. unfold call, bind, gets, modify. by destruct (rt _ =? -1). Qed.
Lemma leaves_cancelled i : leaves_io (cancelled i).
Proof. intros v s Hs. unfold cancelled. by destruct (infos s !! i). Qed.
Lemma leaves_ctx_at p : leaves_io (ctx_at p).
Proof. intros v s Hs. unfold ctx_at. by destruct (_ !! p). Qed.
Lemma leaves_errno me : leaves_io (errno me).
Proof. by intros v s Hs. Qed.
#[local] Hint Resolve leaves_in_fds leaves_set_errno leaves_release leaves_call leaves_cancelled leaves_ctx_at
  leaves_errno : keeps.
Lemma leaves_new_tinfo e : leaves_io (new_tinfo e).
Proof. intros v s Hs. done. Qed.
Lemma leaves_call_rt me c : leaves_io (call_rt kernel me c).
Proof. intros v. unfold call_rt. eauto with keeps. Qed.
Lemma leaves_fd_get e fd b : leaves_io (fd_get fstat getfl e fd b).
Proof. intros v. unfold fd_get. eauto with keeps. Qed.
#[local] Hint Resolve leaves_new_tinfo leaves_call_rt leaves_fd_get : keeps.
Lemma leaves_fd_ctx e fd : leaves_io (fd_ctx fstat getfl e fd).
Proof. intros v. unfold fd_ctx. apply keeps_bind; [auto with keeps|]. intros [p|]; eauto with keeps. Qed.
Lemma leaves_enabled me : leaves_io (is_hook_enable me).
Proof. by intros v s Hs. Qed.
Lemma leaves_update_ctx p g : leaves_io (update_ctx p g).
Proof. apply leaves_in_fds. Qed.
#[local] Hint Resolve leaves_fd_ctx leaves_enabled leaves_update_ctx : keeps.
Lemma leaves_attempt fuel me c : leaves_io (attempt kernel fuel me c).
Proof.
  induction fuel as [|fuel IH]; intros v; simpl; [auto with keeps|].
  apply keeps_bind; [auto with keeps|]. intros n. apply keeps_bind; [auto with keeps|]. intros er.
  destruct (_ && _); auto with keeps.
Qed.
#[local] Hint Resolve leaves_attempt : keeps.
Lemma leaves_connect_result me fd : leaves_io (connect_result kernel me fd).
Proof.
  intros v. unfold connect_result, getsockopt. apply keeps_bind; [auto with keeps|]. intros a.
  destruct (rt a =? -1); [auto with keeps|]. destruct (out a =? 0); eauto with keeps.
Qed.
Lemma leaves_accepted e st : leaves_io (accepted fstat getfl e st).
Proof.
  intros v. destruct st as [n|fr]; simpl; [|auto with keeps].
  apply keeps_bind; [destruct (0 <=? _); eauto with keeps|auto with keeps].
Qed.
#[local] Hint Resolve leaves_connect_result leaves_accepted : keeps.

Lemma leaves_Ok {B} (m : Prelude.cmd hooks B) x s s' : leaves_io m -> m s = Ok x s' -> io s' = io s.
Proof. intros H E. specialize (H (io s) s eq_refl). by rewrite E in H. Qed.

Lemma in_io_Ok {B} (m : Prelude.cmd iom B) (s : hooks) x s' :
  in_io m s = Ok x s' -> m (io s) = Ok x (io s').
Proof. unfold in_io. destruct (m (io s)) eqn:E; intros H; simplify_eq. done. Qed.

(** Fiber switches. *)
Lemma lift_moves t {B} (m : Prelude.cmd (Fiber.world (Scheduler.code callback)) B) (s : iom) x s' :
  in_sched (Scheduler.lift m) s = Ok x s' -> moves t (fun _ => 0) s s' /\ timers s' = timers s.
Proof.
  intros E. pose proof (in_sched_table _ _ _ _ E) as Hst. unfold in_sched, Scheduler.lift in E.
  destruct (m _) eqn:Em; simplify_eq. split; [|done]. by apply same_moves.
Qed.

(** A call that is suspended has put its fiber [f] into one place, and its timer,
    if it has one, carries no fiber. *)
Definition suspended_refs (f : nat) (st : status) (g : nat) : Z :=
  match st with Suspend _ => fib_refs g (Some f) | Return _ => 0 end.
Definition timer_of (fr : frame) : option nat :=
  match fr with InIO _ timer | InConnect _ _ timer => timer | InSleep => None end.
Definition quiet_timer (s : iom) (a : nat) : Prop :=
  exists tm, Timer.heap (timers s) !! a = Some tm /\ quiet (Timer.m_cb tm).
Definition frame_ok (s : iom) (fr : frame) : Prop :=
  (forall a, timer_of fr = Some a -> quiet_timer s a) /\
  match fr with InIO c _ => 0 <= c_fd c < 2 ^ 30 /\ is_event (c_event c) | _ => True end.
Definition call_effect (t : Z) (f : nat) (st : status) (s s' : iom) : Prop :=
  moves t (suspended_refs f st) s s' /\ forall fr, st = Suspend fr -> frame_ok s' fr.

Lemma quiet_timer_keeps s s' a : keeps_cbs s s' -> quiet_timer s a -> quiet_timer s' a.
Proof.
  intros Hk (tm & Ha & Hq). destruct (Hk a tm Ha) as (tm' & Ha' & [E|E]); exists tm'; rewrite E; done.
Qed.

Lemma frame_ok_keeps s s' fr : keeps_cbs s s' -> frame_ok s fr -> frame_ok s' fr.
Proof. intros Hk [H1 H2]. split; [|done]. intros a Ha. eapply quiet_timer_keeps; eauto. Qed.

Lemma set_timer_moves t e to i fd event (s : hooks) r s' :
  Timer.heap (timers (io s)) !! new_timer e = None -> set_timer e to i fd event s = Ok r s' ->
  moves t (fun _ => 0) (io s) (io s') /\ sched (io s') = sched (io s) /\
  (forall a, r = Some a -> quiet_timer (io s') a).
Proof.
  intros Hn E. unfold set_timer in E. destruct (negb _).
  - inv_bind E. destruct y. injection E as <- <-. apply in_io_Ok in H.
    apply (addTimer_moves t) in H as (Hm & Es & Ha); [|done|done]. split_and!; [done|done|].
    intros a [= <-]. eexists. split; [exact Ha|done].
  - injection E as <- <-. split_and!; [apply moves_refl|done|done].
Qed.

Lemma cancel_timer_moves t r (s : hooks) x s' :
  (forall a, r = Some a -> quiet_timer (io s) a) -> cancel_timer r s = Ok x s' ->
  moves t (fun _ => 0) (io s) (io s') /\ (good t (io s) -> sched (io s') = sched (io s)).
Proof.
  intros Hq E. destruct r as [a|]; simpl in E; [|injection E as _ <-; split; [apply moves_refl|done]].
  inv_bind E. injection E as _ <-. apply in_io_Ok in H. destruct (Hq a eq_refl) as (tm & Ha & Hqt).
  by apply (cancel_moves t _ _ _ _ _ Ha Hqt) in H.
Qed.

Lemma cancel_timer_heap r (s : hooks) x s' :
  cancel_timer r s = Ok x s' -> forall t a, good t (io s) ->
  Timer.heap (timers (io s)) !! a = None -> Timer.heap (timers (io s')) !! a = None.
Proof.
  intros E t a Hg Ha. destruct r as [b|]; simpl in E; [|by injection E as _ <-].
  inv_bind E. injection E as _ <-. apply in_io_Ok in H. unfold in_timers in H.
  destruct (Timer.heap (timers (io s)) !! b) as [tm|] eqn:Eb.
  - rewrite (Timer.cancel_eq _ _ _ (proj1 (proj2 Hg)) Eb) in H.
    destruct (Timer.m_cb tm); injection H as _ <-; simpl; [|done].
    rewrite lookup_insert_ne; [done|]. intros ->. congruence.
  - unfold Timer.cancel, bind, Timer.get_timer in H. rewrite Eb in H. done.
Qed.

Lemma need_iom_io me (s : hooks) x s' : need_iom me s = Ok x s' -> io s' = io s.
Proof.
  unfold need_iom, has_iom. intros E. inv_bind E. apply in_io_Ok in H. unfold in_sched in H. simpl in H.
  injection H as _ Hio. unfold require in E. destruct y; [|done]. injection E as _ <-. rewrite <- Hio. by destruct (io s).
Qed.

(** ** Where other threads come in

    A hooked call takes the lock of the timers when it sets its timer, and that of a
    descriptor when it registers the event; other threads can run in between.  The
    calls are cut there: [Armed] is a call that has set its timer and has not registered
    yet.  From the registration to the switch only the thread's own variables are
    used, and until the switch no worker takes the fiber, which is executing. *)
Inductive armed :=
  | ArmIO (c : io_call) (timer : option nat)
  | ArmConnect (fd : Z) (tinfo : nat) (timer : option nat).
Inductive stage := Ended (st : status) | Armed (a : armed).

(** The first part of [retry], and of what calls it. *)
Definition retry_arm (fuel me : nat) (e : env) (c : io_call) : Prelude.cmd hooks stage :=
  let* n := attempt kernel fuel me c in
  let* er := errno me in
  if (n =? -1) && (er =? EAGAIN) then
    need_iom me ;;;
    let* timer := set_timer e (c_to c) (c_info c) (c_fd c) (c_event c) in
    ret (Armed (ArmIO c timer))
  else release (c_info c) ;;; ret (Ended (Return n)).
Definition do_io_arm (fuel me : nat) (e : env) (fd : Z) (fn : io_fun) (event timeout_so : Z) (args : A)
    : Prelude.cmd hooks stage :=
  let direct := let* n := call_rt kernel me (Sys_io fn fd args) in ret (Ended (Return n)) in
  let* on := is_hook_enable me in
  if negb on then direct else
  let* ctx := fd_ctx fstat getfl e fd in
  match ctx with
  | None => direct
  | Some (_, ctx) =>
    if FdManager.m_isClosed ctx then set_errno me EBADF ;;; ret (Ended (Return (-1))) else
    if negb (FdManager.m_isSocket ctx) || FdManager.m_userNonblock ctx then direct else
    let to := FdManager.getTimeout timeout_so ctx in
    let* tinfo := new_tinfo e in
    retry_arm fuel me e (IoCall fn fd args event to tinfo)
  end.
Definition io_resume_arm (fuel me : nat) (e : env) (c : io_call) (timer : option nat) : Prelude.cmd hooks stage :=
  cancel_timer timer ;;;
  let* v := cancelled (c_info c) in
  if negb (v =? 0) then set_errno me v ;;; release (c_info c) ;;; ret (Ended (Return (-1)))
  else retry_arm fuel me e c.
Definition connect_arm (me : nat) (e : env) (fd : Z) (addr : list Z) (addrlen timeout_ms : Z)
    : Prelude.cmd hooks stage :=
  let direct := let* n := call_rt kernel me (Sys_connect fd addr addrlen) in ret (Ended (Return n)) in
  let* on := is_hook_enable me in
  if negb on then direct else
  let* ctx := fd_ctx fstat getfl e fd in
  match ctx with
  | None => set_errno me EBADF ;;; ret (Ended (Return (-1)))
  | Some (_, ctx) =>
    if FdManager.m_isClosed ctx then set_errno me EBADF ;;; ret (Ended (Return (-1))) else
    if negb (FdManager.m_isSocket ctx) then direct else
    let* n := call_rt kernel me (Sys_connect fd addr addrlen) in
    let* er := errno me in
    if n =? 0 then ret (Ended (Return 0))
    else if negb (n =? -1) || negb (er =? EINPROGRESS) then ret (Ended (Return n))
    else
      need_iom me ;;;
      let* tinfo := new_tinfo e in
      let* timer := set_timer e timeout_ms tinfo fd WRITE in
      ret (Armed (ArmConnect fd tinfo timer))
  end.
(** The second part: the registration, and the switch. *)
Definition register (me : nat) (e : env) (a : armed) : Prelude.cmd hooks status :=
  match a with
  | ArmIO c timer =>
    let* rt := in_io (addEvent me (new_fib e) (ctl_rt e) (c_fd c) (c_event c) None) in
    if negb (rt =? 0) then cancel_timer timer ;;; release (c_info c) ;;; ret (Return (-1))
    else yield_to_hold me e ;;; ret (Suspend (InIO c timer))
  | ArmConnect fd tinfo timer =>
    let* rt := in_io (addEvent me (new_fib e) (ctl_rt e) fd WRITE None) in
    if rt =? 0 then yield_to_hold me e ;;; ret (Suspend (InConnect fd tinfo timer))
    else
      cancel_timer timer ;;;
      let* st := connect_result kernel me fd in
      release tinfo ;;; ret st
  end.
Definition complete (me : nat) (e : env) (g : stage) : Prelude.cmd hooks status :=
  match g with Ended st => ret st | Armed a => register me e a end.

(** The parts together are the functions of [Hook]. *)
Lemma bind_cong {S B C} (m : Prelude.cmd S B) (k l : B -> Prelude.cmd S C) s :
  (forall b s, k b s = l b s) -> bind m k s = bind m l s.
Proof. intros H. unfold bind. by destruct (m s). Qed.
Ltac split_call :=
  repeat first
    [ rewrite bind_assoc
    | apply bind_cong; intros
    | match goal with |- context [if ?b then _ else _] => destruct b end
    | match goal with |- context [match ?o with Some _ => _ | None => _ end] => destruct o as [[]|] end
    | done ].
Lemma retry_split fuel me e c s : retry kernel fuel me e c s = (let* g := retry_arm fuel me e c in complete me e g) s.
Proof. unfold retry, retry_arm. split_call. Qed.
Lemma do_io_split fuel me e fd fn event so args s :
  do_io kernel fstat getfl fuel me e fd fn event so args s =
  (let* g := do_io_arm fuel me e fd fn event so args in complete me e g) s.
Proof.
  unfold do_io, do_io_arm. cbv zeta. split_call. apply retry_split.
Qed.
Lemma io_resume_split fuel me e c timer s :
  io_resume kernel fuel me e c timer s = (let* g := io_resume_arm fuel me e c timer in complete me e g) s.
Proof. unfold io_resume, io_resume_arm. split_call. apply retry_split. Qed.
Lemma connect_split me e fd addr addrlen to s :
  connect_with_timeout kernel fstat getfl me e fd addr addrlen to s =
  (let* g := connect_arm me e fd addr addrlen to in complete me e g) s.
Proof. unfold connect_with_timeout, connect_arm. cbv zeta. split_call. Qed.

(** From the registration of the event to the switch. *)
Lemma wait_moves t me f fb a rt fd event (s : hooks) v s' :
  current me f fb (io s) -> 0 <= fd < 2 ^ 30 -> is_event event ->
  in_io (addEvent me a rt fd event None) s = Ok v s' ->
  moves t (fun g => if v =? 0 then fib_refs g (Some f) else 0) (io s) (io s').
Proof. intros Hc Hfd Hev E%in_io_Ok. by apply (addEvent_moves me f fb t) in E as [? _]. Qed.

(** A call that has set its timer has moved no fiber, and its timer carries none. *)
Definition armed_timer (a : armed) : option nat := match a with ArmIO _ timer | ArmConnect _ _ timer => timer end.
Definition armed_ok (s : iom) (a : armed) : Prop :=
  (forall b, armed_timer a = Some b -> quiet_timer s b) /\
  match a with ArmIO c _ => 0 <= c_fd c < 2 ^ 30 /\ is_event (c_event c) | ArmConnect fd _ _ => 0 <= fd < 2 ^ 30 end.
Definition stage_effect (t : Z) (f : nat) (g : stage) (s s' : iom) : Prop :=
  match g with
  | Ended st => call_effect t f st s s'
  | Armed a => moves t (fun _ => 0) s s' /\ armed_ok s' a
  end.
Lemma armed_ok_keeps s s' a : keeps_cbs s s' -> armed_ok s a -> armed_ok s' a.
Proof. intros Hk [H1 H2]. split; [|done]. intros b Hb. eapply quiet_timer_keeps; eauto. Qed.
Lemma stage_effect_after t f g s0 s s' : moves t (fun _ => 0) s0 s -> stage_effect t f g s s' -> stage_effect t f g s0 s'.
Proof.
  intros M H. destruct g as [st|a]; destruct H as [M2 H]; (split; [|exact H]);
    eapply moves_trans; [exact M|exact M2| |exact M|exact M2|]; intros f'; simpl; lia.
Qed.

Lemma retry_arm_effect t fuel me e c f (s : hooks) g s' :
  0 <= c_fd c < 2 ^ 30 -> is_event (c_event c) -> Timer.heap (timers (io s)) !! new_timer e = None ->
  retry_arm fuel me e c s = Ok g s' -> stage_effect t f g (io s) (io s').
Proof.
  intros Hfd Hev Hn E. unfold retry_arm in E. inv_bind E. apply leaves_Ok in H; [|auto with keeps].
  inv_bind E. injection H0 as <- <-. destruct (_ && _).
  2:{ inv_bind E. injection E as <- <-. apply leaves_Ok in H0; [|auto with keeps].
      rewrite H0, H. split; [apply moves_refl|done]. }
  rewrite <- H in *. clear H. inv_bind E. apply need_iom_io in H. rewrite <- H in *. clear H.
  inv_bind E. apply (set_timer_moves t) in H as (M1 & _ & Hq1); [|done]. injection E as <- <-.
  split; [exact M1|]. by split.
Qed.

Lemma return_effect t f n s : call_effect t f (Return n) s s.
Proof. split; [apply moves_refl|done]. Qed.
(** A call that leaves the I/O manager alone and returns. *)
Lemma leaves_effect t f (m : Prelude.cmd hooks status) (s : hooks) st s' :
  leaves_io m -> (forall fr, st <> Suspend fr) -> m s = Ok st s' -> call_effect t f st (io s) (io s').
Proof.
  intros Hm Hst E. apply leaves_Ok in E as ->; [|done]. destruct st as [n|fr]; [apply return_effect|by destruct (Hst fr)].
Qed.

(** [accept] and [connect] end with commands that leave it alone. *)
Lemma accepted_effect t e f (s0 : iom) (s s' : hooks) st st' :
  call_effect t f st s0 (io s) -> accepted fstat getfl e st s = Ok st' s' -> call_effect t f st' s0 (io s').
Proof.
  intros [Hm Ht] E. pose proof E as E'. apply leaves_Ok in E'; [|auto with keeps].
  destruct st as [n|fr]; simpl in E; [|by injection E as <- <-].
  inv_bind E. injection E as <- _. rewrite E'. split; [exact Hm|done].
Qed.
Lemma result_effect t me fd i f (s0 : iom) (s : hooks) st s' :
  moves t (fun _ => 0) s0 (io s) ->
  (let* st := connect_result kernel me fd in release i ;;; ret st) s = Ok st s' -> call_effect t f st s0 (io s').
Proof.
  intros Hm E. inv_bind E. inv_bind E. injection E as <- <-. pose proof H as Hr.
  apply leaves_Ok in H, H0; [|auto with keeps..]. rewrite H0, H.
  assert (exists n, y = Return n) as (n & ->).
  { unfold connect_result, getsockopt in Hr. inv_bind Hr. destruct (rt y1 =? -1); [by injection Hr as <- _; eauto|].
    destruct (out y1 =? 0); [by injection Hr as <- _; eauto|]. inv_bind Hr. injection Hr as <- _. eauto. }
  split; [exact Hm|done].
Qed.

(** The registration puts the fiber in its place, or the call ends. *)
Lemma register_effect t me e a f fb (s : hooks) st s' :
  good t (io s) -> current me f fb (io s) -> armed_ok (io s) a ->
  register me e a s = Ok st s' -> call_effect t f st (io s) (io s').
Proof.
  intros Hg Hc [Hq Ha] E. destruct a as [c timer|fd i timer]; simpl in Hq, Ha, E; inv_bind E.
  - destruct Ha as [Hfd Hev]. pose proof H as M1. apply (wait_moves t me f fb) in M1; [|done..].
    destruct (M1 Hg) as (_ & _ & K1).
    assert (forall a, timer = Some a -> quiet_timer (io s0) a) as Hq1 by (intros; eapply quiet_timer_keeps; eauto).
    destruct (y =? 0) eqn:Ey; simpl in E.
    + inv_bind E. injection E as <- <-. apply in_io_Ok in H0. apply (lift_moves t) in H0 as [M2 _]. split.
      * eapply moves_trans; [exact M1|exact M2|]. intros g. simpl. lia.
      * intros fr [= <-]. apply (frame_ok_keeps (io s0)); [by apply M2; apply M1|]. by split.
    + inv_bind E. inv_bind E. injection E as <- <-. apply leaves_Ok in H1; [|auto with keeps]. rewrite H1.
      apply (cancel_timer_moves t) in H0 as [M2 _]; [|done]. split; [|done]. by eapply moves_trans; [exact M1|exact M2|].
  - pose proof H as M1. apply (wait_moves t me f fb) in M1; [|done|done|by right].
    destruct (M1 Hg) as (_ & _ & K1).
    assert (forall a, timer = Some a -> quiet_timer (io s0) a) as Hq1 by (intros; eapply quiet_timer_keeps; eauto).
    destruct (y =? 0) eqn:Ey.
    + inv_bind E. injection E as <- <-. apply in_io_Ok in H0. apply (lift_moves t) in H0 as [M2 _]. split.
      * eapply moves_trans; [exact M1|exact M2|]. intros g. simpl. lia.
      * intros fr [= <-]. apply (frame_ok_keeps (io s0)); [by apply M2; apply M1|]. by split.
    + inv_bind E. apply (cancel_timer_moves t) in H0 as [M2 _]; [|done].
      eapply result_effect; [|exact E]. by eapply moves_trans; [exact M1|exact M2|].
Qed.

(** A stretch that calls the original function and returns what it said. *)
Lemma direct_effect t f me c (s : hooks) g s' :
  (let* n := call_rt kernel me c in ret (Ended (Return n))) s = Ok g s' -> stage_effect t f g (io s) (io s').
Proof. intros E. inv_bind E. injection E as <- <-. apply leaves_Ok in H as ->; [|auto with keeps]. apply return_effect. Qed.
Lemma refused_effect t f me v (s : hooks) g s' :
  (set_errno me v ;;; ret (Ended (Return (-1)))) s = Ok g s' -> stage_effect t f g (io s) (io s').
Proof. intros E. inv_bind E. injection E as <- <-. apply leaves_Ok in H as ->; [|auto with keeps]. apply return_effect. Qed.

Lemma do_io_arm_effect t fuel me e fd fn event so args f (s : hooks) g s' :
  0 <= fd < 2 ^ 30 -> is_event event -> Timer.heap (timers (io s)) !! new_timer e = None ->
  do_io_arm fuel me e fd fn event so args s = Ok g s' -> stage_effect t f g (io s) (io s').
Proof.
  intros Hfd Hev Hn E. unfold do_io_arm in E. cbv zeta in E.
  inv_bind E. injection H as <- <-. destruct (negb _); [by eapply direct_effect|].
  inv_bind E. apply leaves_Ok in H; [|auto with keeps]. rewrite <- H in *. clear H.
  destruct y as [[p ctx]|]; [|by eapply direct_effect].
  destruct (FdManager.m_isClosed ctx); [by eapply refused_effect|].
  destruct (_ || _); [by eapply direct_effect|].
  inv_bind E. apply leaves_Ok in H; [|auto with keeps]. rewrite <- H in *. by eapply retry_arm_effect in E.
Qed.

Lemma io_resume_arm_effect t fuel me e c tm f (s : hooks) g s' :
  good t (io s) -> 0 <= c_fd c < 2 ^ 30 -> is_event (c_event c) ->
  Timer.heap (timers (io s)) !! new_timer e = None -> (forall a, tm = Some a -> quiet_timer (io s) a) ->
  io_resume_arm fuel me e c tm s = Ok g s' -> stage_effect t f g (io s) (io s').
Proof.
  intros Hg Hfd Hev Hn Hq E. unfold io_resume_arm in E. inv_bind E.
  pose proof (cancel_timer_heap _ _ _ _ H) as Hh.
  apply (cancel_timer_moves t) in H as [M1 _]; [|done].
  inv_bind E. apply leaves_Ok in H; [|auto with keeps]. rewrite <- H in *. clear H.
  apply (stage_effect_after _ _ _ _ _ _ M1). destruct (negb _).
  - inv_bind E. inv_bind E. injection E as <- <-. apply leaves_Ok in H, H0; [|auto with keeps..]. rewrite H0, H.
    apply return_effect.
  - eapply retry_arm_effect in E; [exact E|done|done|]. by apply (Hh t).
Qed.

Lemma connect_arm_effect t me e fd addr addrlen to f (s : hooks) g s' :
  0 <= fd < 2 ^ 30 -> Timer.heap (timers (io s)) !! new_timer e = None ->
  connect_arm me e fd addr addrlen to s = Ok g s' -> stage_effect t f g (io s) (io s').
Proof.
  intros Hfd Hn E. unfold connect_arm in E. cbv zeta in E.
  inv_bind E. injection H as <- <-. destruct (negb _); [by eapply direct_effect|].
  inv_bind E. apply leaves_Ok in H; [|auto with keeps]. rewrite <- H in *. clear H.
  destruct y as [[p ctx]|]; [|by eapply refused_effect]. destruct (FdManager.m_isClosed ctx); [by eapply refused_effect|].
  destruct (negb (FdManager.m_isSocket ctx)); [by eapply direct_effect|].
  inv_bind E. apply leaves_Ok in H; [|auto with keeps]. rewrite <- H in *. clear H.
  inv_bind E. injection H as <- <-. destruct (y =? 0); [injection E as <- <-; apply return_effect|].
  destruct (_ || _); [injection E as <- <-; apply return_effect|].
  inv_bind E. apply need_iom_io in H. rewrite <- H in *. clear H.
  inv_bind E. apply leaves_Ok in H; [|auto with keeps]. rewrite <- H in *. clear H.
  inv_bind E. apply (set_timer_moves t) in H as (M1 & _ & Hq1); [|done]. injection E as <- <-. by split.
Qed.

Lemma connect_resume_effect t me fd i tm f (s : hooks) st s' :
  (forall a, tm = Some a -> quiet_timer (io s) a) ->
  connect_resume kernel me fd i tm s = Ok st s' -> call_effect t f st (io s) (io s').
Proof.
  intros Hq E. unfold connect_resume in E. inv_bind E. apply (cancel_timer_moves t) in H as [M1 _]; [|done].
  inv_bind E. apply leaves_Ok in H; [|auto with keeps]. rewrite <- H in *. clear H. destruct (negb _).
  - inv_bind E. inv_bind E. injection E as <- <-. apply leaves_Ok in H, H0; [|auto with keeps..]. rewrite H0, H.
    split; [exact M1|done].
  - by eapply result_effect.
Qed.

Lemma sleep_for_effect t me e ms f fb (s : hooks) st s' :
  current me f fb (io s) -> Timer.heap (timers (io s)) !! new_timer e = None ->
  sleep_for me e ms s = Ok st s' -> call_effect t f st (io s) (io s').
Proof.
  intros (Hc & Hf & _) Hn E. unfold sleep_for in E. inv_bind E.
  apply in_io_Ok in H. unfold in_sched, Scheduler.lift in H. rewrite (Fiber.GetThis_eq me _ f _ fb Hc Hf) in H.
  injection H as <- H. assert (io s0 = io s) as Hio.
  { rewrite <- H. destruct (io s) as [sc ? ? ? ? ?]. by destruct sc. }
  clear H. inv_bind E. apply need_iom_io in H. rewrite <- Hio, <- H in *. clear H Hio.
  inv_bind E. destruct y0. apply in_io_Ok in H. apply (addTimer_moves t) in H as (M1 & _ & _); [|done|done].
  inv_bind E. injection E as <- <-. apply in_io_Ok in H. apply (lift_moves t) in H as [M2 _]. split; [|by intros fr [= <-]].
  eapply moves_trans; [exact M1|exact M2|]. intros g. simpl. unfold fib_refs. rewrite Z.add_0_r. f_equal.
  apply bool_decide_ext. naive_solver.
Qed.

(** ** The functions that timers hand out *)

Lemma run_callback_moves t rt k (s s' : hooks) :
  (forall f, cb_refs f (Some k) <= 1) ->
  run_callback (fun _ => ret tt) rt k s = Ok tt s' ->
  moves t (fun f => cb_refs f (Some k)) (io s) (io s').
Proof.
  intros Hw E. unfold run_callback, bind, gets in E.
  assert (forall i fd event (s1 : hooks), on_timeout rt i fd event s1 = Ok tt s' ->
    moves t (fun _ => 0) (io s1) (io s')) as Htimeout.
  { intros i fd event s1 E1. unfold on_timeout, bind, gets in E1.
    destruct (infos s1 !! i) as [[| |]|]; [|injection E1 as <-; apply moves_refl..].
    simpl in E1. unfold in_io in E1. simpl in E1. destruct (cancelEvent rt fd event (io s1)) eqn:Ec; simplify_eq.
    injection E1 as <-. by eapply cancelEvent_moves. }
  destruct k as [[u|f|i fd event]|w [u|f|i fd event]]; simpl in E.
  - injection E as <-. apply moves_refl.
  - apply in_io_Ok in E. apply (schedule_moves t) in E. eapply moves_trans; [exact E|apply moves_refl|].
    intros g. simpl. unfold task_refs, fib_refs. simpl. rewrite !Z.add_0_r. f_equal. apply bool_decide_ext. naive_solver.
  - by apply Htimeout in E.
  - unfold Timer.OnTimer in E. destruct (alive s w); injection E as <-; apply moves_refl.
  - specialize (Hw f). simpl in Hw. rewrite bool_decide_true in Hw by done. simpl in Hw. lia.
  - unfold Timer.OnTimer in E. destruct (alive s w); [by apply Htimeout in E|injection E as <-; apply moves_refl].
Qed.

Lemma close_moves t me e fd (s : hooks) n s' :
  0 <= fd -> close kernel fstat getfl me e fd s = Ok n s' -> moves t (fun _ => 0) (io s) (io s').
Proof.
  intros H0 E. unfold close in E. inv_bind E. injection H as <- <-. destruct (negb _).
  { apply leaves_Ok in E as ->; [|auto with keeps]. apply moves_refl. }
  inv_bind E. apply leaves_Ok in H; [|auto with keeps]. rewrite <- H. clear H.
  inv_bind E. apply leaves_Ok in E as ->; [|auto with keeps].
  destruct y as [p|]; [|injection H as _ <-; apply moves_refl].
  inv_bind H. unfold has_iom in H1. apply in_io_Ok in H1. unfold in_sched in H1. simpl in H1. injection H1 as _ Hio.
  assert (io s2 = io s0) as Hs2 by (rewrite <- Hio; by destruct (io s0)). rewrite <- Hs2. clear Hio Hs2.
  inv_bind H. apply leaves_Ok in H as ->; [|auto with keeps].
  destruct y; [|injection H1 as _ <-; apply moves_refl].
  inv_bind H1. injection H1 as _ <-. apply in_io_Ok in H. by eapply cancekAll_moves.
Qed.

(** ** Interleavings

    The calls a fiber makes that may suspend it, and the others. *)
Inductive blocking :=
  | DoIO (fn : io_fun) (fd : Z) (args : A)
  | Connect (fd : Z) (addr : list Z) (addrlen : Z)
  | ConnectWithTimeout (fd : Z) (addr : list Z) (addrlen timeout_ms : Z)
  | Sleep (seconds : Z)
  | Usleep (usec : Z)
  | Nanosleep (tv_sec tv_nsec : Z).
Definition run_blocking (fuel me : nat) (e : env) (b : blocking) : Prelude.cmd hooks status :=
  match b with
  | DoIO fn fd args =>
    match fn with
    | accept_f => accept kernel fstat getfl fuel me e fd args
    | read_f => read kernel fstat getfl fuel me e fd args
    | readv_f => readv kernel fstat getfl fuel me e fd args
    | recv_f => recv kernel fstat getfl fuel me e fd args
    | recvfrom_f => recvfrom kernel fstat getfl fuel me e fd args
    | recvmsg_f => recvmsg kernel fstat getfl fuel me e fd args
    | write_f => write kernel fstat getfl fuel me e fd args
    | writev_f => writev kernel fstat getfl fuel me e fd args
    | send_f => send kernel fstat getfl fuel me e fd args
    | sendto_f => sendto kernel fstat getfl fuel me e fd args
    | sendmsg_f => sendmsg kernel fstat getfl fuel me e fd args
    end
  | Connect fd addr addrlen => connect kernel fstat getfl me e fd addr addrlen
  | ConnectWithTimeout fd addr addrlen timeout_ms =>
    connect_with_timeout kernel fstat getfl me e fd addr addrlen timeout_ms
  | Sleep seconds => sleep kernel me e seconds
  | Usleep usec => usleep kernel me e usec
  | Nanosleep tv_sec tv_nsec => nanosleep fuel me e tv_sec tv_nsec
  end.
(** The first part of a call or of its resumption, and the second part. *)
Definition accepted_stage (e : env) (g : stage) : Prelude.cmd hooks stage :=
  match g with Ended st => let* st := accepted fstat getfl e st in ret (Ended st) | Armed a => ret (Armed a) end.
Definition event_of (fn : io_fun) : Z :=
  match fn with write_f | writev_f | send_f | sendto_f | sendmsg_f => WRITE | _ => READ end.
Definition timeout_of (fn : io_fun) : Z := if event_of fn =? READ then FdManager.SO_RCVTIMEO else FdManager.SO_SNDTIMEO.
Definition arm_blocking (fuel me : nat) (e : env) (b : blocking) : Prelude.cmd hooks stage :=
  match b with
  | DoIO fn fd args =>
    let* g := do_io_arm fuel me e fd fn (event_of fn) (timeout_of fn) args in
    if bool_decide (fn = accept_f) then accepted_stage e g else ret g
  | Connect fd addr addrlen => let* to := gets s_connect_timeout in connect_arm me e fd addr addrlen to
  | ConnectWithTimeout fd addr addrlen timeout_ms => connect_arm me e fd addr addrlen timeout_ms
  | Sleep _ | Usleep _ | Nanosleep _ _ => let* st := run_blocking fuel me e b in ret (Ended st)
  end.
Definition arm_resume (fuel me : nat) (e : env) (fr : frame) : Prelude.cmd hooks stage :=
  match fr with
  | InIO c timer =>
    let* g := io_resume_arm fuel me e c timer in
    if bool_decide (c_fn c = accept_f) then accepted_stage e g else ret g
  | InConnect _ _ _ | InSleep => let* st := resume kernel fstat getfl fuel me e fr in ret (Ended st)
  end.
Definition register_call (me : nat) (e : env) (a : armed) : Prelude.cmd hooks status :=
  let* st := register me e a in
  match a with
  | ArmIO c _ => if bool_decide (c_fn c = accept_f) then accepted fstat getfl e st else ret st
  | ArmConnect _ _ _ => ret st
  end.
Definition complete_call (me : nat) (e : env) (g : stage) : Prelude.cmd hooks status :=
  match g with Ended st => ret st | Armed a => register_call me e a end.

Definition arms_as (fn : io_fun) (g : stage) : Prop :=
  match g with Ended _ => True | Armed (ArmIO c _) => c_fn c = fn | Armed (ArmConnect _ _ _) => False end.
Lemma retry_arm_fn fuel me e c s g s' : retry_arm fuel me e c s = Ok g s' -> arms_as (c_fn c) g.
Proof.
  intros E. unfold retry_arm in E. inv_bind E. inv_bind E. destruct (_ && _); inv_bind E; [inv_bind E|]; by injection E as <- _.
Qed.
Lemma do_io_arm_fn fuel me e fd fn event so args s g s' :
  do_io_arm fuel me e fd fn event so args s = Ok g s' -> arms_as fn g.
Proof.
  intros E. unfold do_io_arm in E. cbv zeta in E. inv_bind E. destruct (negb _); [inv_bind E; by injection E as <- _|].
  inv_bind E. destruct y0 as [[? ctx]|]; [|inv_bind E; by injection E as <- _].
  destruct (FdManager.m_isClosed ctx); [inv_bind E; by injection E as <- _|].
  destruct (_ || _); inv_bind E; [by injection E as <- _|]. by apply retry_arm_fn in E.
Qed.
Lemma io_resume_arm_fn fuel me e c timer s g s' : io_resume_arm fuel me e c timer s = Ok g s' -> arms_as (c_fn c) g.
Proof.
  intros E. unfold io_resume_arm in E. inv_bind E. inv_bind E. destruct (negb _); [inv_bind E; inv_bind E; by injection E as <- _|].
  by apply retry_arm_fn in E.
Qed.
(** The end of a call of [do_io] by [fn]. *)
Definition end_as (fn : io_fun) (e : env) (st : status) : Prelude.cmd hooks status :=
  if bool_decide (fn = accept_f) then accepted fstat getfl e st else ret st.
Lemma bind_ret_l {S B C} (b : B) (k : B -> Prelude.cmd S C) s : bind (ret b) k s = k b s.
Proof. done. Qed.
Lemma bind_ret_r {S B} (m : Prelude.cmd S B) s : bind m ret s = m s.
Proof. unfold bind. by destruct (m s). Qed.
Lemma end_split fn me e (m : Prelude.cmd hooks stage) s : (forall s g s', m s = Ok g s' -> arms_as fn g) ->
  (let* st := (let* g := m in complete me e g) in end_as fn e st) s =
  (let* g := (let* g := m in if bool_decide (fn = accept_f) then accepted_stage e g else ret g) in complete_call me e g) s.
Proof.
  intros Hm. rewrite !bind_assoc. unfold bind at 1 3. destruct (m s) as [g s'| |] eqn:E; [|done..].
  apply Hm in E. unfold end_as. destruct g as [st|[c tm|fd i tm]]; [| |done]; cbn [complete].
  - case_bool_decide; [|done]. cbn [accepted_stage]. rewrite bind_assoc. unfold bind, ret.
    by destruct (accepted _ _ _ _ _).
  - cbn in E. subst fn. unfold complete_call, register_call, accepted_stage.
    case_bool_decide as Hf; rewrite bind_ret_l; [by rewrite bool_decide_true|by rewrite bool_decide_false].
Qed.
Lemma blocking_split fuel me e b s :
  run_blocking fuel me e b s = (let* g := arm_blocking fuel me e b in complete_call me e g) s.
Proof.
  assert (forall fn fd args, (let* st := do_io kernel fstat getfl fuel me e fd fn (event_of fn) (timeout_of fn) args in end_as fn e st) s =
    (let* g := arm_blocking fuel me e (DoIO fn fd args) in complete_call me e g) s) as Hio.
  { intros fn fd args. cbn [arm_blocking]. rewrite <- end_split; [|by intros ???; apply do_io_arm_fn]. unfold bind at 1 2. by rewrite do_io_split. }
  assert (forall m : Prelude.cmd hooks status, m s =
    (let* g := (let* st := m in ret (Ended st)) in complete_call me e g) s) as Hst.
  { intros m. rewrite bind_assoc. unfold bind, ret. by destruct (m s). }
  assert (forall fd addr len to s, connect_with_timeout kernel fstat getfl me e fd addr len to s =
    (let* g := connect_arm me e fd addr len to in complete_call me e g) s) as Hco.
  { intros. rewrite connect_split. unfold bind. destruct (connect_arm _ _ _ _ _ _ _) as [g s1| |] eqn:E; [|done..].
    destruct g as [st|[c tm|fd' i tm]]; cbn [complete complete_call]; [done| |unfold register_call, bind, ret; by destruct (register _ _ _ _)].
    exfalso. clear -E. unfold connect_arm in E. cbv zeta in E.
    inv_bind E. destruct (negb _); [by inv_bind E|]. inv_bind E. destruct y0 as [[? ctx]|]; [|by inv_bind E].
    destruct (FdManager.m_isClosed ctx); [by inv_bind E|]. destruct (negb _); [by inv_bind E|].
    inv_bind E. inv_bind E. destruct (y0 =? 0); [done|]. destruct (_ || _); [done|]. by inv_bind E; inv_bind E; inv_bind E. }
  destruct b as [fn fd args|fd addr len|fd addr len to|sec|usec|sec nsec]; cbn [arm_blocking]; [| | |apply Hst..].
  - specialize (Hio fn fd args). cbn [arm_blocking] in Hio. rewrite <- Hio.
    destruct fn; cbn [run_blocking]; unfold end_as;
      first [rewrite bool_decide_true by done; done | rewrite bool_decide_false by done; by rewrite bind_ret_r].
  - cbn [run_blocking]. unfold connect. rewrite bind_assoc. apply bind_cong. intros to s1. apply Hco.
  - apply Hco.
Qed.
Lemma resume_split fuel me e fr s :
  resume kernel fstat getfl fuel me e fr s = (let* g := arm_resume fuel me e fr in complete_call me e g) s.
Proof.
  destruct fr as [c tm|fd i tm|]; cbn [arm_resume]; [|rewrite bind_assoc; unfold bind, ret; by destruct (resume _ _ _ _ _ _ _ _)..].
  rewrite <- end_split; [|by intros ???; apply io_resume_arm_fn]. cbn [resume]. unfold bind at 1 2. by rewrite io_resume_split.
Qed.

(** The descriptors a process can have. *)
Definition fd_range (b : blocking) : Prop :=
  match b with
  | DoIO _ fd _ | Connect fd _ _ | ConnectWithTimeout fd _ _ _ => 0 <= fd < 2 ^ 30
  | _ => True
  end.

Inductive plain :=
  | Socket_ (domain type protocol : Z)
  | Close_ (fd : Z)
  | Fcntl (fd cmd arg : Z)
  | Ioctl (fd request arg : Z)
  | Getsockopt (fd level optname : Z)
  | Setsockopt (fd level optname : Z) (val : Socket.optval)
  | SetHookEnable (flag : bool)
  | ConnectTimeoutChanged (v : Z).
Definition run_plain (me : nat) (e : env) (p : plain) : Prelude.cmd hooks unit :=
  match p with
  | Socket_ domain type protocol => socket kernel fstat getfl me e domain type protocol ;;; ret tt
  | Close_ fd => close kernel fstat getfl me e fd ;;; ret tt
  | Fcntl fd cmd arg => fcntl kernel fstat getfl me e fd cmd arg ;;; ret tt
  | Ioctl fd request arg => ioctl kernel fstat getfl me e fd request arg ;;; ret tt
  | Getsockopt fd level optname => getsockopt kernel me fd level optname ;;; ret tt
  | Setsockopt fd level optname val => setsockopt kernel fstat getfl me e fd level optname val ;;; ret tt
  | SetHookEnable flag => set_hook_enable me flag
  | ConnectTimeoutChanged v => on_connect_timeout v
  end.

(** The hooks and what they call, the suspended call of each fiber, the calls that have set
    their timer and not registered yet, and the tasks that workers have taken from the
    queue and not run yet. *)
Record system := System {
  hs : hooks;
  frames : gmap nat frame;
  arming : gmap nat armed;
  picked : list task
}.
Definition places (f : nat) (x : system) : Z := iom_refs f (io (hs x)) + sum (task_refs f) (picked x).
Definition continue (f : nat) (g : stage) (fs : gmap nat frame) : gmap nat frame :=
  match g with Ended (Suspend fr) => <[f := fr]> fs | Ended (Return _) | Armed _ => delete f fs end.
Definition arm (f : nat) (g : stage) (ar : gmap nat armed) : gmap nat armed :=
  match g with Ended _ => delete f ar | Armed a => <[f := a]> ar end.
Definition fresh_timer (e : env) (s : hooks) : Prop := Timer.heap (timers (io s)) !! new_timer e = None.

(** One step: a fiber that is in no call begins a hooked call, or registers the event of a call
    whose timer it has set; a worker takes a task, runs a callback, or goes on with a
    suspended call; the event loop handles an event or an expiry; a client schedules a
    function or sets a timer; threads switch between fibers. *)
Inductive step : system -> system -> Prop :=
  | st_call fuel me e b f fb s fs ar p g s' :
      current me f fb (io s) -> fs !! f = None -> ar !! f = None -> fd_range b -> fresh_timer e s ->
      arm_blocking fuel me e b s = Ok g s' -> step (System s fs ar p) (System s' (continue f g fs) (arm f g ar) p)
  | st_register me e a f fb s fs ar p st s' :
      current me f fb (io s) -> ar !! f = Some a ->
      register_call me e a s = Ok st s' ->
      step (System s fs ar p) (System s' (continue f (Ended st) fs) (arm f (Ended st) ar) p)
  | st_plain me e c s fs ar p s' :
      match c with Close_ fd => 0 <= fd | _ => True end ->
      run_plain me e c s = Ok tt s' -> step (System s fs ar p) (System s' fs ar p)
  | st_pick l1 x l2 s fs ar p :
      Scheduler.m_fibers (sched (io s)) = l1 ++ x :: l2 ->
      step (System s fs ar p)
        (System (set_io (set_sched (Scheduler.set_m_fibers (l1 ++ l2) (sched (io s))) (io s)) s) fs ar (x :: p))
  | st_callback rt k thr s fs ar p1 p2 s' :
      run_callback (fun _ => ret tt) rt k s = Ok tt s' ->
      step (System s fs ar (p1 ++ Scheduler.FiberAndThread_ None (Some k) thr :: p2)) (System s' fs ar (p1 ++ p2))
  | st_resume fuel me e f fb fr thr s fs ar p1 p2 g s' :
      current me f fb (io s) -> fs !! f = Some fr -> fresh_timer e s ->
      arm_resume fuel me e fr s = Ok g s' ->
      step (System s fs ar (p1 ++ Scheduler.FiberAndThread_ (Some f) None thr :: p2))
        (System s' (continue f g fs) (arm f g ar) (p1 ++ p2))
  | st_event ev rt2 s fs ar p v :
      handle_event ev rt2 (io s) = Ok tt v -> step (System s fs ar p) (System (set_io v s) fs ar p)
  | st_expire now n s fs ar p v :
      schedule_expired now n (io s) = Ok tt v -> step (System s fs ar p) (System (set_io v s) fs ar p)
  | st_schedule u thr s fs ar p v :
      schedule (Scheduler.FiberAndThread_ None (Some (Timer.Plain (Client u))) thr) (io s) = Ok tt v ->
      step (System s fs ar p) (System (set_io v s) fs ar p)
  | st_timer now a ms u recurring s fs ar p v :
      Timer.heap (timers (io s)) !! a = None ->
      addTimer now a ms (Some (Timer.Plain (Client u))) recurring (io s) = Ok tt v ->
      step (System s fs ar p) (System (set_io v s) fs ar p)
  | st_switch w s fs ar p :
      step (System s fs ar p)
        (System (set_io (set_sched (Scheduler.set_fw w (sched (io s))) (io s)) s) fs ar p).

Inductive reachable (t : Z) : system -> Prop :=
  | reach_init sc now ids v s :
      Scheduler.m_fibers sc = [] -> IOManager sc (Timer.TimerManager now) t ids = Ok tt v -> io s = v ->
      reachable t (System s ∅ ∅ [])
  | reach_step x y : reachable t x -> step x y -> reachable t y.

(** ** The invariant *)

Lemma accepted_stage_effect t e f (s0 : iom) (s s' : hooks) g g' :
  stage_effect t f g s0 (io s) -> accepted_stage e g s = Ok g' s' -> stage_effect t f g' s0 (io s').
Proof.
  intros Hg E. destruct g as [st|a]; cbn in E; [|by injection E as <- <-]. inv_bind E. injection E as <- <-.
  by eapply accepted_effect.
Qed.
Lemma blocking_effect t fuel me e b f fb (s : hooks) g s' :
  current me f fb (io s) -> fd_range b -> fresh_timer e s ->
  arm_blocking fuel me e b s = Ok g s' -> stage_effect t f g (io s) (io s').
Proof.
  intros Hc Hfd Hn E.
  assert (forall c ms st, (let* on := is_hook_enable me in
    if negb on then let* n := call_rt kernel me c in ret (Return n) else sleep_for me e ms) s = Ok st s' ->
    call_effect t f st (io s) (io s')) as Hsleep.
  { intros c ms st E1. inv_bind E1. injection H as <- <-. destruct (negb _).
    - inv_bind E1. injection E1 as <- <-. apply leaves_Ok in H as ->; [|auto with keeps]. apply return_effect.
    - by eapply sleep_for_effect in E1. }
  destruct b as [fn fd args|fd addr len|fd addr len to|sec|usec|sec nsec]; cbn [arm_blocking run_blocking fd_range] in E, Hfd.
  - inv_bind E. eapply do_io_arm_effect in H; [|done|destruct fn; (by left) || by right|done].
    case_bool_decide; [by eapply accepted_stage_effect|by injection E as <- <-].
  - inv_bind E. injection H as <- <-. by eapply connect_arm_effect in E.
  - by eapply connect_arm_effect in E.
  - inv_bind E. injection E as <- <-. by apply Hsleep in H.
  - inv_bind E. injection E as <- <-. by apply Hsleep in H.
  - inv_bind E. injection E as <- <-. revert H. induction fuel as [|fuel IH]; simpl; intros E; [done|].
    inv_bind E. injection H as <- <-. destruct (negb _); [by apply IH|]. by eapply sleep_for_effect in E.
Qed.
Lemma register_call_effect t me e a f fb (s : hooks) st s' :
  good t (io s) -> current me f fb (io s) -> armed_ok (io s) a ->
  register_call me e a s = Ok st s' -> call_effect t f st (io s) (io s').
Proof.
  intros Hg Hc Ha E. unfold register_call in E. inv_bind E. eapply register_effect in H; [|done..].
  destruct a; [case_bool_decide; [by eapply accepted_effect|]|]; by injection E as <- <-.
Qed.

Lemma resume_effect t fuel me e fr f (s : hooks) g s' :
  good t (io s) -> frame_ok (io s) fr -> fresh_timer e s ->
  arm_resume fuel me e fr s = Ok g s' -> stage_effect t f g (io s) (io s').
Proof.
  intros Hg [Hq Hfr] Hn E. destruct fr as [c tm|fd i tm|]; cbn [arm_resume] in E.
  - destruct Hfr as [Hfd Hev]. inv_bind E. eapply io_resume_arm_effect in H; [|done..].
    case_bool_decide; [by eapply accepted_stage_effect|by injection E as <- <-].
  - inv_bind E. injection E as <- <-. by eapply connect_resume_effect in H.
  - injection E as <- <-. apply return_effect.
Qed.

Lemma plain_moves t me e c (s s' : hooks) :
  match c with Close_ fd => 0 <= fd | _ => True end -> run_plain me e c s = Ok tt s' ->
  moves t (fun _ => 0) (io s) (io s').
Proof.
  intros Hc E.
  assert (forall m : Prelude.cmd hooks unit, leaves_io m -> m s = Ok tt s' -> moves t (fun _ => 0) (io s) (io s')) as Hl.
  { intros m Hm E1. apply leaves_Ok in E1 as ->; [|done]. apply moves_refl. }
  destruct c as [dom ty pr|fd|fd cmd arg|fd req arg|fd lv op|fd lv op val|fl|v]; simpl in E.
  - eapply Hl, E. intros v. unfold socket. apply keeps_bind; [|auto with keeps]. apply keeps_bind; [auto with keeps|].
    intros on. destruct (negb on); [auto with keeps|]. apply keeps_bind; [auto with keeps|]. intros fd.
    destruct (fd =? -1); eauto with keeps.
  - inv_bind E. injection E as <-. by eapply close_moves.
  - eapply Hl, E. intros v. unfold fcntl. apply keeps_bind; [|auto with keeps].
    destruct (cmd =? F_SETFL).
    { apply keeps_bind; [auto with keeps|]. intros [[p x]|]; [|auto with keeps].
      destruct (FdManager.m_isClosed x); eauto with keeps. }
    destruct (cmd =? F_GETFL).
    { apply keeps_bind; [auto with keeps|]. intros n. apply keeps_bind; [auto with keeps|].
      intros [[p x]|]; [|auto with keeps]. destruct (_ || _); [auto with keeps|].
      destruct (FdManager.m_userNonblock x); auto with keeps. }
    destruct (with_arg cmd); auto with keeps.
  - eapply Hl, E. intros v. unfold ioctl. apply keeps_bind; [|auto with keeps]. apply keeps_bind; [|auto with keeps].
    destruct (req =? FIONBIO); [|auto with keeps]. apply keeps_bind; [auto with keeps|].
    intros [[p x]|]; [|auto with keeps]. destruct (_ || _); auto with keeps.
  - eapply Hl, E. intros v. unfold getsockopt. eauto with keeps.
  - eapply Hl, E. intros v. unfold setsockopt. apply keeps_bind; [|auto with keeps]. apply keeps_bind; [auto with keeps|].
    intros on. destruct (negb on); [auto with keeps|]. apply keeps_bind; [|auto with keeps].
    destruct (_ && _); [|auto with keeps]. apply keeps_bind; [auto with keeps|]. intros [p|]; [|auto with keeps].
    destruct val; auto with keeps.
  - injection E as <-. apply moves_refl.
  - injection E as <-. apply moves_refl.
Qed.

Record winv (t : Z) (x : system) : Prop := {
  w_good : good t (io (hs x));
  w_places : forall f, places f x = if frames x !! f then 1 else 0;
  w_frames : forall f fr, frames x !! f = Some fr -> frame_ok (io (hs x)) fr;
  w_arming : forall f a, arming x !! f = Some a -> armed_ok (io (hs x)) a /\ frames x !! f = None
}.

Lemma sum_nonneg {X} (g : X -> Z) l : (forall x, 0 <= g x) -> 0 <= sum g l.
Proof. intros H. induction l as [|x l IH]; simpl; [done|]. specialize (H x). lia. Qed.
Lemma cb_refs_nonneg f c : 0 <= cb_refs f c.
Proof.
  assert (forall k, 0 <= closure_refs f k) as H by (intros []; simpl; try done; by destruct (bool_decide _)).
  destruct c as [[k|w k]|]; simpl; [apply H| |done]. specialize (H k). lia.
Qed.
Lemma fib_refs_nonneg f p : 0 <= fib_refs f p.
Proof. unfold fib_refs. by destruct (bool_decide _). Qed.
Lemma task_refs_nonneg f x : 0 <= task_refs f x.
Proof. unfold task_refs. pose proof (fib_refs_nonneg f (Scheduler.ft_fiber x)). pose proof (cb_refs_nonneg f (Scheduler.ft_cb x)). lia. Qed.
Lemma iom_refs_nonneg f s : 0 <= iom_refs f s.
Proof.
  unfold iom_refs, timer_refs.
  assert (forall x, 0 <= ectx_refs f x) as H.
  { intros x. unfold ectx_refs. pose proof (fib_refs_nonneg f (fiber x)). pose proof (cb_refs_nonneg f (cb x)). lia. }
  pose proof (sum_nonneg (fdc_refs f) (m_fdContexts s)
    (fun c => Z.add_nonneg_nonneg _ _ (H (IOManager.read c)) (H (IOManager.write c)))).
  pose proof (sum_nonneg (task_refs f) (Scheduler.m_fibers (sched s)) (task_refs_nonneg f)).
  pose proof (sum_nonneg (fun a => cb_refs f (Timer.cb_of (Timer.heap (timers s)) a)) (Timer.m_timers (timers s))
    (fun a => cb_refs_nonneg f _)). lia.
Qed.

(** A step that moves no fiber in or out, and one of a call. *)
Lemma winv_moves t s s' fs ar p p' g :
  winv t (System s fs ar p) -> moves t g (io s) (io s') ->
  (forall f, g f + sum (task_refs f) p' = sum (task_refs f) p) -> winv t (System s' fs ar p').
Proof.
  intros [Hg Hp Hf Ha] Hm Hs. simpl in *. destruct (Hm Hg) as (Hg' & R & K). split; simpl; [done| | |].
  - intros f. rewrite <- Hp. unfold places. simpl. rewrite R, <- (Hs f). lia.
  - intros f fr E. eapply frame_ok_keeps; [exact K|]. by eapply Hf.
  - intros f a E. destruct (Ha f a E) as [Ha' ?]. split; [|done]. by eapply armed_ok_keeps.
Qed.
Definition stage_refs (f : nat) (g : stage) : nat -> Z :=
  match g with Ended st => suspended_refs f st | Armed _ => fun _ => 0 end.
Lemma stage_effect_moves t f g s s' : stage_effect t f g s s' -> moves t (stage_refs f g) s s'.
Proof. destruct g; by intros [? _]. Qed.
Lemma winv_call t s s' fs ar p p' f g :
  winv t (System s fs ar p) -> stage_effect t f g (io s) (io s') ->
  (forall h, sum (task_refs h) p' = sum (task_refs h) p - (if fs !! f then fib_refs h (Some f) else 0)) ->
  winv t (System s' (continue f g fs) (arm f g ar) p').
Proof.
  intros [Hg Hp Hf Ha] He Hs. simpl in *. destruct (stage_effect_moves _ _ _ _ _ He Hg) as (Hg' & R & K).
  split; simpl; [done| | |].
  - intros h. specialize (Hp h). unfold places in *. simpl in *. rewrite R, Hs.
    destruct (decide (f = h)) as [->|Hne].
    + assert (fib_refs h (Some h) = 1) as F by (unfold fib_refs; by rewrite bool_decide_true).
      destruct g as [[n|fr]|a]; simpl; rewrite ?lookup_delete_eq, ?lookup_insert_eq; destruct (fs !! h); lia.
    + assert (fib_refs h (Some f) = 0) as F by (unfold fib_refs; rewrite bool_decide_false; [done|congruence]).
      destruct g as [[n|fr]|a]; simpl; rewrite ?lookup_delete_ne, ?lookup_insert_ne by done; destruct (fs !! f); lia.
  - intros h fr E. destruct g as [[n|fr']|a]; simpl in E.
    + apply lookup_delete_Some in E as [_ E]. eapply frame_ok_keeps; [exact K|]. by eapply Hf.
    + apply lookup_insert_Some in E as [[<- <-]|[_ E]]; [by apply He|].
      eapply frame_ok_keeps; [exact K|]. by eapply Hf.
    + apply lookup_delete_Some in E as [_ E]. eapply frame_ok_keeps; [exact K|]. by eapply Hf.
  - intros h a E. assert (forall b, ar !! h = Some b -> armed_ok (io s') b /\ fs !! h = None) as Hb.
    { intros b Eb. destruct (Ha h b Eb). split; [by eapply armed_ok_keeps|done]. }
    destruct g as [st|a']; simpl in E.
    + apply lookup_delete_Some in E as [Hne E]. destruct (Hb a E). split; [done|].
      destruct st; simpl; by rewrite ?lookup_delete_ne, ?lookup_insert_ne by done.
    + apply lookup_insert_Some in E as [[<- <-]|[Hne E]]; simpl; [split; [apply He|apply lookup_delete_eq]|].
      destruct (Hb a E). split; [done|]. by rewrite lookup_delete_ne by done.
Qed.

Lemma winv_init t sc now ids v (s : hooks) :
  Scheduler.m_fibers sc = [] -> IOManager sc (Timer.TimerManager now) t ids = Ok tt v -> io s = v ->
  winv t (System s ∅ ∅ []).
Proof.
  intros Hq E Hio. pose proof (inv_init _ _ _ _ _ E) as Hi. subst v.
  unfold IOManager, bind in E. simpl in E. unfold in_sched in E. simpl in E.
  destruct (Scheduler.start ids sc) as [[] sc'| |] eqn:Es; simplify_eq.
  assert (Scheduler.m_fibers sc' = []) as Hq'.
  { unfold Scheduler.start, bind, gets in Es. simpl in Es. destruct (negb _); [by injection Es as <-|].
    unfold assert_ in Es. destruct (bool_decide _); simplify_eq. by injection Es as <-. }
  split; simpl; [| |by intros f fr|by intros f a].
  - rewrite <- E in Hi |- *. split_and!; [done|apply Timer.inv_TimerManager|]. intros a tm Ha. simpl in Ha. by rewrite lookup_empty in Ha.
  - intros f. unfold places, iom_refs. simpl. rewrite <- E. simpl. rewrite Hq'. done.
Qed.

Lemma task_refs_cb f k thr : task_refs f (Scheduler.FiberAndThread_ None (Some k) thr) = cb_refs f (Some k).
Proof. done. Qed.
Lemma task_refs_fib f g thr : task_refs f (Scheduler.FiberAndThread_ (Some g) None thr) = fib_refs f (Some g).
Proof. unfold task_refs. cbn [Scheduler.ft_fiber Scheduler.ft_cb cb_refs]. lia. Qed.

Lemma winv_step t x y : winv t x -> step x y -> winv t y.
Proof.
  intros Hx Hst. destruct Hst as
    [fuel me e b f fb s fs ar p g s' Hc Hn Hna Hfd Hfr E|me e a f fb s fs ar p st s' Hc Ha E|me e c s fs ar p s' Hc E
    |l1 x l2 s fs ar p Hq|rt k thr s fs ar p1 p2 s' E
    |fuel me e f fb fr thr s fs ar p1 p2 g s' Hc Hf Hfr E|ev rt2 s fs ar p v E|now n s fs ar p v E|u thr s fs ar p v E
    |now a ms u rc s fs ar p v Ha E|w s fs ar p].
  - eapply winv_call; [exact Hx| |intros h; rewrite Hn; lia]. by eapply blocking_effect.
  - destruct (w_arming _ _ Hx f a Ha) as [Hok Hn]. simpl in Hok, Hn.
    eapply winv_call; [exact Hx| |intros h; rewrite Hn; lia]. eapply register_call_effect; [|done..|exact E]. apply Hx.
  - eapply winv_moves; [exact Hx|by eapply plain_moves|]. intros f. simpl. lia.
  - destruct Hx as [Hg Hp Hf Hb]. destruct Hg as (Hi & Htm & Hrec).
    split; simpl in *; [split_and!; [by apply (inv_same_table _ (io s))|done|done]| |done|done].
    intros f. rewrite <- Hp. unfold places, iom_refs. simpl. rewrite Hq, !sum_app. simpl. lia.
  - eapply winv_moves; [exact Hx|eapply run_callback_moves; [|exact E]|].
    + intros f. pose proof (w_places _ _ Hx f) as Hp. unfold places in Hp. simpl in Hp.
      rewrite sum_app in Hp. cbn [sum] in Hp. rewrite task_refs_cb in Hp. pose proof (iom_refs_nonneg f (io s)).
      pose proof (sum_nonneg (task_refs f) p1 (task_refs_nonneg f)).
      pose proof (sum_nonneg (task_refs f) p2 (task_refs_nonneg f)).
      destruct (fs !! f); lia.
    + intros f. rewrite !sum_app. cbn [sum]. rewrite task_refs_cb. lia.
  - eapply winv_call; [exact Hx| |].
    + eapply resume_effect; [| |done|exact E]; [apply Hx|]. by eapply (w_frames _ _ Hx).
    + intros h. rewrite Hf, !sum_app. cbn [sum]. rewrite task_refs_fib. lia.
  - eapply winv_moves; [exact Hx|by eapply handle_event_moves|]. intros f. simpl. lia.
  - eapply winv_moves; [exact Hx|by eapply schedule_expired_moves|]. intros f. simpl. lia.
  - eapply winv_moves; [exact Hx|by apply (schedule_moves t) in E|]. intros f.
    cbv beta. destruct (Scheduler.is_task _); rewrite ?task_refs_cb; simpl; lia.
  - eapply winv_moves; [exact Hx|by apply (addTimer_moves t) in E as [? _]|]. intros f. simpl. lia.
  - eapply winv_moves; [exact Hx|by apply (same_moves t)|]. intros f. simpl. lia.
Qed.

(** ** Properties *)

End wake.

(** ** Witnesses *)

Definition state_of {B} (s : @hooks unit nat) (r : res (@hooks unit nat) B) : @hooks unit nat :=
  match r with Ok _ v => v | _ => s end.
Definition ex_frame : @frame unit := InIO (IoCall read_f 5 tt READ 200 92) (Some 91%nat).
Definition ex_armed : @armed unit := ArmIO (IoCall read_f 5 tt READ 200 92) (Some 91%nat).
Definition ex_set : @hooks unit nat := state_of ex_hooks (arm_blocking ex_kernel ex_fstat ex_getfl 3 0 ex_env (DoIO read_f 5 tt) ex_hooks).
Definition ex_registered : @hooks unit nat := state_of ex_set (register_call ex_kernel ex_fstat ex_getfl 0 ex_env ex_armed ex_set).
Definition ex_frames : gmap nat (@frame unit) := continue 2 (Armed ex_armed) ∅.
Definition ex_arming : gmap nat (@armed unit) := arm 2 (Armed ex_armed) ∅.
(** The system when the call has ended up suspended in state [s]. *)
Definition ex_waiting (s : @hooks unit nat) : @system unit nat :=
  System s (continue 2 (Ended (Suspend ex_frame)) ex_frames) (arm 2 (Ended (Suspend ex_frame)) ex_arming) [].
Definition ex_blocked : @system unit nat := ex_waiting ex_registered.
Definition ex_fiber := match Fiber.fibers ex_world !! 2%nat with Some f => f | None => Fiber.Fiber_ 0 0 Fiber.EXEC (Fiber.Suspended 0) false None end.

Lemma reachable_armed : reachable ex_kernel ex_fstat ex_getfl 3 (System ex_set ex_frames ex_arming []).
Proof.
  eapply reach_step; [eapply (reach_init _ _ _ 3 ex_sched 1000 [] ex_iom ex_hooks); by vm_compute|].
  apply (st_call ex_kernel ex_fstat ex_getfl 3 0 ex_env (DoIO read_f 5 tt) 2 ex_fiber
    ex_hooks ∅ ∅ [] (Armed ex_armed)); by vm_compute.
Defined.
Lemma reachable_blocked : reachable ex_kernel ex_fstat ex_getfl 3 ex_blocked.
Proof.
  eapply reach_step; [exact reachable_armed|].
  apply (st_register ex_kernel ex_fstat ex_getfl 0 ex_env ex_armed 2 ex_fiber
    ex_set ex_frames ex_arming [] (Suspend ex_frame)); by vm_compute.
Defined.


(** ** Behaviour that is not intended *)
(** The timer expires on another thread before the event is registered: its function marks the call as timed out
    and finds no event to cancel; then the call registers and waits, without a timer. *)
Definition ex_timeout : Scheduler.FiberAndThread (Timer.callback (@closure nat) nat) := Scheduler.FiberAndThread_ None (Some (Timer.Bound_OnTimer 92%nat (Timeout 92 5 READ))) (-1).
Definition ex_expired : @hooks unit nat :=
  match schedule_expired 2300 99 (io ex_set) with Ok _ v => set_io v ex_set | _ => ex_set end.
Definition ex_taken : @hooks unit nat :=
  set_io (set_sched (Scheduler.set_m_fibers [] (sched (io ex_expired))) (io ex_expired)) ex_expired.
Definition ex_marked : @hooks unit nat :=
  state_of ex_taken (run_callback (fun _ => ret tt) 0 (Timer.Bound_OnTimer 92%nat (Timeout 92 5 READ)) ex_taken).
Definition ex_lost : @hooks unit nat := state_of ex_marked (register_call ex_kernel ex_fstat ex_getfl 0 ex_env ex_armed ex_marked).
Example timeout_lost :
  reachable ex_kernel ex_fstat ex_getfl 3 (ex_waiting ex_lost) /\ frames (ex_waiting ex_lost) !! 2%nat = Some ex_frame /\
  Timer.m_timers (timers (io ex_lost)) = [] /\ infos ex_lost !! 92%nat = Some ETIMEDOUT.
Proof.
  split; [|by vm_compute]. eapply reach_step; [eapply reach_step; [eapply reach_step; [eapply reach_step; [exact reachable_armed|]|]|]|].
  - apply (st_expire _ _ _ 2300 99 ex_set _ _ [] (io ex_expired)). by vm_compute.
  - change (set_io (io ex_expired) ex_set) with ex_expired.
    apply (st_pick _ _ _ [] ex_timeout [] ex_expired). by vm_compute.
  - apply (st_callback _ _ _ 0 (Timer.Bound_OnTimer 92%nat (Timeout 92 5 READ)) (-1) ex_taken _ _ [] [] ex_marked). by vm_compute.
  - apply (st_register ex_kernel ex_fstat ex_getfl 0 ex_env ex_armed 2 ex_fiber
      ex_marked ex_frames ex_arming [] (Suspend ex_frame)); by vm_compute.
Qed.
End HookWake.
