(* ===== verification/LexicalCast.v ===== *)
(** * Conversions of configuration values: src/src/config.h (LexicalCast)

    The values of configuration variables, by type codes, and their conversions
    from and to text.  yaml-cpp and [boost::lexical_cast] are interfaces with the
    laws the conversions rely on.  So is the order in which an unordered container
    is walked. *)

From stdpp Require Import countable prelude strings sorting.
From Stdlib Require Import ZArith Lia Ascii Sorted Eqdep_dec.
From S2P Require Import Prelude.

Module LexicalCast.

(** ** Interfaces *)

(** yaml-cpp: parsing and printing, the parts of a node, building a node.  A
    result of [None] is an exception. *)
Class Yaml := {
  node : Type;
  Load : string -> option node;
  emit : node -> string;
  IsMap : node -> bool;
  IsScalar : node -> bool;
  Scalar : node -> string;
  node_size : node -> nat;
  index : node -> nat -> option node;
  iter : node -> list (option string * node);   (* [first.Scalar()] and [second] *)
  null_node : node;
  push_back : node -> node -> node;
  set_key : node -> string -> node -> node
}.
(** Types that [boost::lexical_cast] converts, or that have a specialisation of
    their own. *)
Class Base := {
  code : Type;
  code_eq_dec :: EqDecision code;
  base : code -> Type;
  base_eq_dec :: forall c, EqDecision (base c);
  cast_from : forall c, string -> option (base c);
  cast_to : forall c, base c -> option string;
  base_cmp : forall c, base c -> base c -> comparison
}.

(** The order in which the loop over an unordered container visits its elements:
    each once. *)
Class Hash := {
  walk : forall X, list X -> list X;
  walk_perm X (l : list X) : walk X l ≡ₚ l
}.
Arguments walk {_} {X} _.

(** ** Types and values *)

Section values.
Context `{Yaml, Base, Hash}.

Inductive ty :=
  | TBase (c : code)
  | TVector (t : ty)
  | TList (t : ty)
  | TSet (t : ty)
  | TMap (t : ty)
  | TUSet (t : ty)
  | TUMap (t : ty).
#[export] Instance ty_eq_dec : EqDecision ty.
Proof. solve_decision. Defined.

(** A [std::set] and a [std::map] are the lists of their elements in order; so are
    the unordered ones, which makes equal values the same list. *)
Fixpoint denote (t : ty) : Type :=
  match t with
  | TBase c => base c
  | TVector t | TList t | TSet t | TUSet t => list (denote t)
  | TMap t | TUMap t => list (string * denote t)
  end.
#[export] Instance denote_eq_dec t : EqDecision (denote t).
Proof. induction t; simpl; apply _. Defined.

Definition val : Type := sigT denote.
#[export] Instance val_eq_dec : EqDecision val.
Proof.
  intros [t v] [u w]. destruct (decide (t = u)) as [E|E].
  - subst u. destruct (decide (v = w)) as [E|E]; [left; by subst|right].
    intros Hx. apply E. by apply (inj_pair2_eq_dec _ ty_eq_dec) in Hx.
  - right. intros Hx. apply E. exact (f_equal (@projT1 _ _) Hx).
Defined.

(** [operator<] of the containers, as a comparison. *)
Section list_cmp.
Context {X : Type} (f : X -> X -> comparison).
Fixpoint list_cmp (a b : list X) : comparison :=
  match a, b with
  | [], [] => Eq
  | [], _ :: _ => Lt
  | _ :: _, [] => Gt
  | x :: a, y :: b => match f x y with Eq => list_cmp a b | r => r end
  end.
End list_cmp.
Definition pair_cmp {X} (f : X -> X -> comparison) (a b : string * X) : comparison :=
  match String.compare a.1 b.1 with Eq => f a.2 b.2 | r => r end.
Fixpoint cmp (t : ty) : denote t -> denote t -> comparison :=
  match t with
  | TBase c => base_cmp c
  | TVector t | TList t | TSet t | TUSet t => list_cmp (cmp t)
  | TMap t | TUMap t => list_cmp (pair_cmp (cmp t))
  end.

(** [std::set::insert] and [std::map::insert], which keep what is there. *)
Fixpoint set_insert {X} (f : X -> X -> comparison) (x : X) (l : list X) : list X :=
  match l with
  | [] => [x]
  | y :: l' =>
    match f x y with Lt => x :: l | Eq => l | Gt => y :: set_insert f x l' end
  end.
Definition by_key {X} (a b : string * X) : comparison := String.compare a.1 b.1.

(** ** [LexicalCast<std::string, T>] *)

(** The loop over [node[i]]. *)
Definition elements {X} (conv : string -> option X) (n : node) : option (list X) :=
  mapM (fun i => x ← index n i; conv (emit x)) (seq 0 (node_size n)).
(** The loop over the pairs of a map. *)
Definition pairs {X} (conv : string -> option X) (n : node) : option (list (string * X)) :=
  mapM (fun p => k ← p.1; v ← conv (emit p.2); Some (k, v)) (iter n).
Fixpoint from_str (t : ty) (v : string) : option (denote t) :=
  match t with
  | TBase c => cast_from c v
  | TVector t => n ← Load v; elements (from_str t) n
  | TList t => n ← Load v; elements (from_str t) n
  | TSet t | TUSet t =>
    n ← Load v; l ← elements (from_str t) n; Some (foldl (fun s x => set_insert (cmp t) x s) [] l)
  | TMap t | TUMap t =>
    n ← Load v; l ← pairs (from_str t) n; Some (foldl (fun s x => set_insert by_key x s) [] l)
  end.

(** ** [LexicalCast<T, std::string>] *)

Definition seq_node (l : list node) : node := foldl push_back null_node l.
Definition map_node (l : list (string * node)) : node := foldl (fun n p => set_key n p.1 p.2) null_node l.
(** An element is printed and the text is parsed. *)
Definition as_node {X} (conv : X -> option string) (x : X) : option node := s ← conv x; Load s.
Definition seq_text {X} (conv : X -> option string) (l : list X) : option string :=
  ns ← mapM (as_node conv) l; Some (emit (seq_node ns)).
Definition map_text {X} (conv : X -> option string) (l : list (string * X)) : option string :=
  ns ← mapM (fun p => n ← as_node conv p.2; Some (p.1, n)) l; Some (emit (map_node ns)).
Fixpoint to_str (t : ty) : denote t -> option string :=
  match t with
  | TBase c => cast_to c
  | TVector t => fun v => seq_text (to_str t) v
  | TList t => fun v => seq_text (to_str t) v
  | TSet t => fun v => seq_text (to_str t) v
  | TMap t => fun v => map_text (to_str t) v
  | TUSet t => fun v => seq_text (to_str t) (walk v)
  | TUMap t => fun v => map_text (to_str t) (walk v)
  end.


(** ** What the conversions rely on *)

(** Plain texts are read as scalars and printed as they are (YAML gives a meaning
    to others); a node built of such scalars, of sequences and of maps with
    different keys prints to a text that parses to it. *)
Class YamlLaws := {
  plain : string -> Prop;
  scalar : string -> node;
  good : node -> Prop;
  load_plain s : plain s -> Load s = Some (scalar s);
  emit_plain s : plain s -> emit (scalar s) = s;
  good_scalar s : plain s -> good (scalar s);
  good_seq l : Forall good l -> good (seq_node l);
  good_map l : NoDup l.*1 -> Forall (fun p => plain p.1 /\ good p.2) l -> good (map_node l);
  load_emit n : good n -> Load (emit n) = Some n;
  size_seq l : node_size (seq_node l) = length l;
  index_seq l i : index (seq_node l) i = l !! i;
  iter_map l : NoDup l.*1 -> iter (map_node l) = (fun p => (Some p.1, p.2)) <$> l
}.
(** A comparison is that of a total order. *)
Record order {X} (f : X -> X -> comparison) : Prop := {
  order_opp x y : f x y = CompOpp (f y x);
  order_eq x y : f x y = Eq -> x = y;
  order_trans x y z : f x y = Lt -> f y z = Lt -> f x z = Lt
}.
Class BaseLaws := { base_order c : order (base_cmp c) }.
Context `{!YamlLaws, !BaseLaws}.

(** ** Order *)

Lemma order_refl {X} (f : X -> X -> comparison) x : order f -> f x x = Eq.
Proof. intros Hf. pose proof (order_opp f Hf x x). by destruct (f x x). Qed.
Lemma list_order {X} (f : X -> X -> comparison) : order f -> order (list_cmp f).
Proof.
  intros Hf. split.
  - intros a. induction a as [|x a IH]; intros [|y b]; simpl; try done.
    rewrite (order_opp f Hf x y). destruct (f y x); simpl; [apply IH|done|done].
  - intros a. induction a as [|x a IH]; intros [|y b]; simpl; try done.
    destruct (f x y) eqn:E; try done. apply (order_eq f Hf) in E as ->. intros E. f_equal. by apply IH.
  - intros a. induction a as [|x a IH]; intros [|y b] [|z c]; simpl; try done.
    destruct (f x y) eqn:E1; destruct (f y z) eqn:E2; try done.
    + apply (order_eq f Hf) in E1 as ->, E2 as ->. rewrite order_refl by done. apply IH.
    + apply (order_eq f Hf) in E1 as ->. by rewrite E2.
    + apply (order_eq f Hf) in E2 as ->. by rewrite E1.
    + by rewrite (order_trans f Hf x y z).
Qed.
Lemma string_order : order String.compare.
Proof.
  split; [apply String.compare_antisym|apply String.compare_eq_iff|].
  intros a. induction a as [|x a IH]; intros [|y b] [|z c]; simpl; try done.
  unfold Ascii.compare. destruct (N.compare_spec (N_of_ascii x) (N_of_ascii y)) as [E1|E1|E1]; [| |done];
    destruct (N.compare_spec (N_of_ascii y) (N_of_ascii z)) as [E2|E2|E2]; try done.
  - rewrite E1, E2, N.compare_refl. apply IH.
  - rewrite E1. by rewrite (proj2 (N.compare_lt_iff _ _)).
  - rewrite <- E2. by rewrite (proj2 (N.compare_lt_iff _ _)).
  - by rewrite (proj2 (N.compare_lt_iff _ _)) by lia.
Qed.
Lemma pair_order {X} (f : X -> X -> comparison) : order f -> order (pair_cmp f).
Proof.
  intros Hf. pose proof string_order as Hs. unfold pair_cmp. split.
  - intros [k x] [j y]. simpl. rewrite (order_opp _ Hs k j). destruct (String.compare j k); simpl; [apply (order_opp f Hf)|done|done].
  - intros [k x] [j y]. simpl. destruct (String.compare k j) eqn:E; try done. apply (order_eq _ Hs) in E as ->.
    intros E. f_equal. by apply (order_eq f Hf).
  - intros [k x] [j y] [i z]. simpl. destruct (String.compare k j) eqn:E1, (String.compare j i) eqn:E2; try done.
    + apply (order_eq _ Hs) in E1 as ->, E2 as ->. rewrite order_refl by done. by apply (order_trans f Hf).
    + apply (order_eq _ Hs) in E1 as ->. by rewrite E2.
    + apply (order_eq _ Hs) in E2 as ->. by rewrite E1.
    + by rewrite (order_trans _ Hs k j i).
Qed.
Lemma cmp_order t : order (cmp t).
Proof.
  induction t as [c|t IH|t IH|t IH|t IH|t IH|t IH]; simpl;
    [apply base_order|by apply list_order..|by apply list_order, pair_order|by apply list_order|by apply list_order, pair_order].
Qed.

Lemma by_key_opp {X} (a b : string * X) : by_key a b = CompOpp (by_key b a).
Proof. apply String.compare_antisym. Qed.
Lemma by_key_trans {X} (a b c : string * X) : by_key a b = Lt -> by_key b c = Lt -> by_key a c = Lt.
Proof. apply (order_trans _ string_order). Qed.

Definition increasing {X} (f : X -> X -> comparison) : list X -> Prop := StronglySorted (fun x y => f x y = Lt).

(** Inserting the elements of an ordered list one by one gives the list. *)
Lemma insert_last {X} (f : X -> X -> comparison) x l :
  (forall x y, f x y = CompOpp (f y x)) -> Forall (fun y => f y x = Lt) l -> set_insert f x l = l ++ [x].
Proof.
  intros Hf Hl. induction Hl as [|y l Hy Hl IH]; [done|]. simpl. rewrite Hf, Hy. simpl. by rewrite IH.
Qed.
Lemma insert_all {X} (f : X -> X -> comparison) (l : list X) :
  (forall x y, f x y = CompOpp (f y x)) -> increasing f l ->
  foldl (fun s x => set_insert f x s) [] l = l.
Proof.
  intros Hf Hl. cut (forall acc, increasing f (acc ++ l) -> foldl (fun s x => set_insert f x s) acc l = acc ++ l).
  { intros Hc. by apply Hc. }
  clear Hl. induction l as [|x l IH]; intros acc Hs; [by rewrite (right_id_L [] (++))|]. simpl.
  rewrite insert_last; [|done|].
  - rewrite IH; [by rewrite <- (assoc_L (++))|]. by rewrite <- (assoc_L (++)).
  - clear IH. induction acc as [|y acc IH]; [constructor|]. inversion Hs as [|? ? Hs' Hy]; subst.
    constructor; [|by apply IH]. apply Forall_app in Hy as [_ Hy]. by inversion Hy.
Qed.
(** In whatever order the elements are inserted. *)
Lemma set_insert_spec {X} (f : X -> X -> comparison) x l :
  (forall x y, f x y = CompOpp (f y x)) -> (forall x y z, f x y = Lt -> f y z = Lt -> f x z = Lt) ->
  increasing f l -> (forall y, y ∈ l -> f x y <> Eq) ->
  increasing f (set_insert f x l) /\ set_insert f x l ≡ₚ x :: l.
Proof.
  intros Ho Ht. induction l as [|y l IH]; intros Hl Hx; simpl; [split; [repeat constructor|done]|].
  inversion Hl as [|? ? Hl' Hy]; subst. pose proof (Hx y ltac:(by left)) as Hxy. destruct (f x y) eqn:E; [done| |].
  - split; [|done]. constructor; [done|]. constructor; [done|]. eapply Forall_impl; [exact Hy|]. intros z Hz. by eapply Ht.
  - destruct IH as [Hi Hp]; [done|intros z Hz; apply Hx; by right|]. split.
    + constructor; [done|]. rewrite Hp. constructor; [by rewrite Ho, E|done].
    + rewrite Hp. constructor.
Qed.
Lemma increasing_irrefl {X} (f : X -> X -> comparison) l :
  (forall x y, f x y = CompOpp (f y x)) -> increasing f l -> NoDup l.
Proof.
  intros Ho. induction 1 as [|x l Hl IH Hx]; constructor; [|done]. intros Hin. rewrite Forall_forall in Hx.
  pose proof (Hx x Hin) as E. pose proof (Ho x x) as E'. by rewrite E in E'.
Qed.
Lemma insert_perm {X} (f : X -> X -> comparison) l l' :
  (forall x y, f x y = CompOpp (f y x)) -> (forall x y z, f x y = Lt -> f y z = Lt -> f x z = Lt) ->
  (forall x y, x ∈ l -> y ∈ l -> f x y = Eq -> x = y) -> increasing f l -> l' ≡ₚ l ->
  foldl (fun s x => set_insert f x s) [] l' = l.
Proof.
  intros Ho Ht He Hl Hp.
  cut (forall acc, increasing f acc -> acc ++ l' ≡ₚ l ->
    increasing f (foldl (fun s x => set_insert f x s) acc l') /\ foldl (fun s x => set_insert f x s) acc l' ≡ₚ l).
  { intros Hc. destruct (Hc [] ltac:(constructor) Hp) as [Hi Hp']. eapply StronglySorted_unique_strong; [|exact Hi|exact Hl|done].
    intros x y _ _ E1 E2. cbv beta in E1, E2. by rewrite Ho, E2 in E1. }
  pose proof (increasing_irrefl f l Ho Hl) as Hnd. clear Hp. induction l' as [|x l' IH]; intros acc Ha Hp; simpl.
  - by rewrite (right_id_L [] (++)) in Hp.
  - rewrite <- Hp in Hnd. destruct (set_insert_spec f x acc Ho Ht Ha) as [Hi Hp'].
    { intros y Hy E. assert (x = y) as -> by (apply He; [rewrite <- Hp..|done]; set_solver).
      apply NoDup_app in Hnd as (_ & Hnd & _). apply (Hnd y Hy). by left. }
    apply IH; [done|]. rewrite <- Hp, Hp'. simpl. by rewrite Permutation_middle.
Qed.
Lemma increasing_keys {X} (l : list (string * X)) : increasing by_key l -> NoDup l.*1.
Proof.
  induction 1 as [|x l Hs IH Hx]; simpl; constructor; [|done]. intros Hin.
  apply list_elem_of_fmap in Hin as (y & E & Hy). rewrite Forall_forall in Hx. specialize (Hx y Hy).
  unfold by_key in Hx. rewrite E in Hx.
  pose proof (String.compare_antisym y.1 y.1) as Ha. rewrite Hx in Ha. done.
Qed.

(** ** Round trip *)

(** Values whose texts YAML does not change. *)
Fixpoint representable (t : ty) : denote t -> Prop :=
  match t with
  | TBase c => fun b => exists s, cast_to c b = Some s /\ plain s /\ cast_from c s = Some b
  | TVector t => fun l => Forall (representable t) l
  | TList t => fun l => Forall (representable t) l
  | TSet t | TUSet t => fun l => increasing (cmp t) l /\ Forall (representable t) l
  | TMap t | TUMap t => fun l => increasing by_key l /\ Forall (fun p => plain p.1 /\ representable t p.2) l
  end.

(** The text of a value and the node it is read as. *)
Definition text_of (t : ty) (v : denote t) (s : string) (n : node) : Prop :=
  to_str t v = Some s /\ Load s = Some n /\ good n /\ emit n = s /\ from_str t s = Some v.

Lemma texts t l : (forall v, representable t v -> exists s n, text_of t v s n) -> Forall (representable t) l ->
  exists ns, mapM (as_node (to_str t)) l = Some ns /\ Forall good ns /\
    mapM (fun n => from_str t (emit n)) ns = Some l.
Proof.
  intros Ht. induction 1 as [|v l Hv Hl IH]; [by exists []|].
  destruct (Ht v Hv) as (s & n & Es & En & Hg & Ee & Ef). destruct IH as (ns & E1 & Hgs & E2).
  exists (n :: ns). split_and!; [|by constructor|].
  - assert (as_node (to_str t) v = Some n) as Ea by (unfold as_node; by rewrite Es).
    simpl. rewrite Ea. simpl. by rewrite E1.
  - simpl. rewrite Ee, Ef. simpl. by rewrite E2.
Qed.

Lemma index_all {X} (f : node -> option X) ns :
  mapM (fun i => x ← index (seq_node ns) i; f x) (seq 0 (node_size (seq_node ns))) = mapM f ns.
Proof.
  rewrite size_seq.
  cut (forall l1 l2, ns = l1 ++ l2 ->
    mapM (fun i => x ← index (seq_node ns) i; f x) (seq (length l1) (length l2)) = mapM f l2).
  { intros Hc. exact (Hc [] ns eq_refl). }
  intros l1 l2. revert l1. induction l2 as [|x l2 IH]; intros l1 E; [done|]. simpl.
  rewrite index_seq, E, list_lookup_middle by done. simpl. rewrite <- E.
  specialize (IH (l1 ++ [x])). rewrite length_app, Nat.add_comm in IH. simpl in IH. rewrite IH; [done|].
  by rewrite <- (assoc_L (++)).
Qed.
Lemma elements_seq {X} (conv : string -> option X) ns :
  elements conv (seq_node ns) = mapM (fun n => conv (emit n)) ns.
Proof. apply (index_all (fun x => conv (emit x))). Qed.

Lemma seq_round t l : (forall v, representable t v -> exists s n, text_of t v s n) -> Forall (representable t) l ->
  exists s n, seq_text (to_str t) l = Some s /\ Load s = Some n /\ good n /\ emit n = s /\
    elements (from_str t) n = Some l.
Proof.
  intros Ht Hl. destruct (texts t l Ht Hl) as (ns & E1 & Hg & E2).
  exists (emit (seq_node ns)), (seq_node ns). unfold seq_text. rewrite E1. simpl. split_and!; try done.
  - by apply load_emit, good_seq.
  - by apply good_seq.
  - by rewrite elements_seq.
Qed.

Lemma pair_texts t l : (forall v, representable t v -> exists s n, text_of t v s n) ->
  Forall (fun p => plain p.1 /\ representable t p.2) l ->
  exists ns, mapM (fun p : string * denote t => n ← as_node (to_str t) p.2; Some (p.1, n)) l = Some ns /\ ns.*1 = l.*1 /\
    Forall (fun p => plain p.1 /\ good p.2) ns /\
    mapM (fun p : option string * node => k ← p.1; v ← from_str t (emit p.2); Some (k, v))
      ((fun p => (Some p.1, p.2)) <$> ns) = Some l.
Proof.
  intros Ht. induction 1 as [|[k v] l [Hk Hv] Hl IH]; [by exists []|]. simpl in Hk, Hv.
  destruct (Ht v Hv) as (s & n & Es & En & Hg & Ee & Ef). destruct IH as (ns & E1 & Ek & Hgs & E2).
  exists ((k, n) :: ns). split_and!; [| |by constructor|].
  - assert (as_node (to_str t) v = Some n) as Ea by (unfold as_node; by rewrite Es).
    simpl. rewrite Ea. simpl. by rewrite E1.
  - rewrite !fmap_cons. by rewrite Ek.
  - rewrite fmap_cons. cbn [mapM fst snd mbind option_bind]. rewrite Ee, Ef. cbn [option_bind]. by rewrite E2.
Qed.

Lemma map_round t l : (forall v, representable t v -> exists s n, text_of t v s n) ->
  NoDup l.*1 -> Forall (fun p => plain p.1 /\ representable t p.2) l ->
  exists s n, map_text (to_str t) l = Some s /\ Load s = Some n /\ good n /\ emit n = s /\ pairs (from_str t) n = Some l.
Proof.
  intros Ht Hnd Hl. destruct (pair_texts t l Ht Hl) as (ns & E1 & Ek & Hg & E2).
  assert (NoDup ns.*1) as Hns by by rewrite Ek.
  exists (emit (map_node ns)), (map_node ns). unfold map_text. rewrite E1. simpl. split_and!; try done.
  - by apply load_emit, good_map.
  - by apply good_map.
  - unfold pairs. rewrite iter_map by done. exact E2.
Qed.
Lemma increasing_eq {X} (l : list (string * X)) x y : increasing by_key l -> x ∈ l -> y ∈ l -> by_key x y = Eq -> x = y.
Proof.
  intros Hs Hx Hy E. apply String.compare_eq_iff in E. apply increasing_keys in Hs.
  apply list_elem_of_lookup in Hx as [i Hi], Hy as [j Hj].
  assert (i = j) as -> by (eapply NoDup_lookup; [exact Hs|by rewrite list_lookup_fmap, Hi|by rewrite list_lookup_fmap, Hj; simpl; rewrite E]).
  congruence.
Qed.

Lemma cast_text t : forall v, representable t v -> exists s n, text_of t v s n.
Proof.
  induction t as [c|t IH|t IH|t IH|t IH|t IH|t IH]; intros v Hv; unfold text_of; simpl in *.
  - destruct Hv as (s & Es & Hp & Ef). exists s, (scalar s).
    split_and!; [done|by apply load_plain|by apply good_scalar|by apply emit_plain|done].
  - destruct (seq_round t v IH Hv) as (s & n & E1 & E2 & Hg & E3 & E4). exists s, n. rewrite E2. done.
  - destruct (seq_round t v IH Hv) as (s & n & E1 & E2 & Hg & E3 & E4). exists s, n. rewrite E2. done.
  - destruct Hv as [Hs Hv]. destruct (seq_round t v IH Hv) as (s & n & E1 & E2 & Hg & E3 & E4).
    exists s, n. rewrite E2. simpl. rewrite E4. simpl. rewrite insert_all; [done|apply cmp_order|done].
  - destruct Hv as [Hs Hv]. destruct (map_round t v IH (increasing_keys v Hs) Hv) as (s & n & E1 & E2 & Hg & E3 & E4).
    exists s, n. rewrite E2. simpl. rewrite E4. simpl. rewrite insert_all; [done|apply by_key_opp|done].
  - destruct Hv as [Hs Hv]. destruct (seq_round t (walk v) IH) as (s & n & E1 & E2 & Hg & E3 & E4); [by rewrite walk_perm|].
    exists s, n. rewrite E2. simpl. rewrite E4. simpl. pose proof (cmp_order t) as Ho.
    rewrite (insert_perm (cmp t) v); [done|apply Ho|apply Ho|intros x y _ _; apply Ho|done|apply walk_perm].
  - destruct Hv as [Hs Hv]. destruct (map_round t (walk v) IH) as (s & n & E1 & E2 & Hg & E3 & E4);
      [rewrite (walk_perm _ v); by apply increasing_keys|by rewrite walk_perm|].
    exists s, n. rewrite E2. simpl. rewrite E4. simpl.
    rewrite (insert_perm by_key v); [done|apply by_key_opp|apply by_key_trans|intros x y; by apply increasing_eq|done|apply walk_perm].
Qed.

(** C27: a configuration value that is printed and read comes back: for every type
    built of base types, vectors, lists, and ordered and unordered sets and maps, and every value
    whose base values and keys have texts that YAML does not change, the text that
    [LexicalCast<T, std::string>] makes is converted back to the same value by
    [LexicalCast<std::string, T>]. *)
Theorem cast_roundtrip t (v : denote t) :
  representable t v -> exists s, to_str t v = Some s /\ from_str t s = Some v.
Proof. intros Hv. destruct (cast_text t v Hv) as (s & n & E1 & _ & _ & _ & E2). eauto. Qed.
End values.

(** ** Witnesses

    An instance of the interfaces: a node is a tree, a scalar is printed as it is,
    and another node as a mark followed by a code of the tree; the only base type
    is that of strings. *)
Module Example_.
Fixpoint bits (p : positive) : string :=
  match p with
  | xH => String "1" EmptyString
  | xO p => String "0" (bits p)
  | xI p => String "2" (bits p)
  end.
Fixpoint unbits (s : string) : option positive :=
  match s with
  | String c EmptyString => if decide (c = "1"%char) then Some xH else None
  | String c s =>
    p ← unbits s; if decide (c = "0"%char) then Some (xO p) else if decide (c = "2"%char) then Some (xI p) else None
  | EmptyString => None
  end.
Lemma unbits_bits p : unbits (bits p) = Some p.
Proof.
  induction p as [p IH|p IH|]; [| |done]; simpl; rewrite IH; by destruct p.
Qed.

Definition plain_text (s : string) : bool :=
  match s with String c _ => bool_decide (c <> "#"%char) | EmptyString => false end.
Definition tree_map (l : list (string * gen_tree string)) : list (gen_tree string) := l ≫= (fun p => [GenLeaf p.1; p.2]).
Fixpoint tree_pairs (l : list (gen_tree string)) : list (string * gen_tree string) :=
  match l with GenLeaf k :: n :: l => (k, n) :: tree_pairs l | _ => [] end.
Definition put_key (l : list (string * gen_tree string)) (k : string) (n : gen_tree string) :=
  if decide (k ∈ l.*1) then (fun p => if decide (p.1 = k) then (k, n) else p) <$> l else l ++ [(k, n)].

#[export] Instance tree_yaml : Yaml := {|
  node := gen_tree string;
  Load s := if plain_text s then Some (GenLeaf s)
            else match s with String _ s => unbits s ≫= decode | EmptyString => Some (GenNode 0 []) end;
  emit n := match n with
            | GenLeaf s => if plain_text s then s else String "#" (bits (encode n))
            | _ => String "#" (bits (encode n))
            end;
  IsMap n := match n with GenNode 2 _ => true | _ => false end;
  IsScalar n := match n with GenLeaf _ => true | _ => false end;
  Scalar n := match n with GenLeaf s => s | _ => EmptyString end;
  node_size n := match n with GenNode 1 l => length l | GenNode 2 l => length (tree_pairs l) | _ => 0 end;
  index n i := match n with GenNode 1 l => l !! i | _ => None end;
  iter n := match n with
            | GenNode 1 l => (fun x => (None, x)) <$> l
            | GenNode 2 l => (fun p => (Some p.1, p.2)) <$> tree_pairs l
            | _ => []
            end;
  null_node := GenNode 0 [];
  push_back n x := match n with GenNode 1 l => GenNode 1 (l ++ [x]) | _ => GenNode 1 [x] end;
  set_key n k x := match n with
                   | GenNode 2 l => GenNode 2 (tree_map (put_key (tree_pairs l) k x))
                   | _ => GenNode 2 (tree_map [(k, x)])
                   end
|}.
#[export] Instance string_base : Base := {|
  code := unit;
  base _ := string;
  cast_from _ s := Some s;
  cast_to _ s := Some s;
  base_cmp _ := String.compare
|}.

Lemma tree_pairs_map l : tree_pairs (tree_map l) = l.
Proof. induction l as [|[k n] l IH]; [done|]. simpl. f_equal. exact IH. Qed.
Lemma seq_node_tree l : seq_node l = match l with [] => GenNode 0 [] | _ => GenNode 1 l end.
Proof.
  induction l as [|x l IH] using rev_ind; [done|]. unfold seq_node in *. rewrite foldl_snoc, IH.
  by destruct l.
Qed.
Lemma map_node_tree l : NoDup l.*1 -> map_node l = match l with [] => GenNode 0 [] | _ => GenNode 2 (tree_map l) end.
Proof.
  induction l as [|[k n] l IH] using rev_ind; [done|]. rewrite fmap_app. intros (Hl & Hk & _)%NoDup_app.
  unfold map_node in *. rewrite foldl_snoc, (IH Hl). destruct l as [|p l]; [done|]. simpl set_key.
  rewrite tree_pairs_map. unfold put_key. rewrite decide_False; [done|].
  intros Hin. apply (Hk k Hin). by left.
Qed.

#[export] Instance tree_laws : YamlLaws.
Proof.
  refine {| plain s := plain_text s = true; scalar := GenLeaf;
            good n := match n with GenNode 3 _ => False | _ => True end |}.
  - intros s Hs. simpl. by rewrite Hs.
  - intros s Hs. simpl. by rewrite Hs.
  - done.
  - intros l _. rewrite seq_node_tree. by destruct l.
  - intros l Hl _. rewrite map_node_tree by done. by destruct l.
  - intros [s|i l] _; simpl; [destruct (plain_text s) eqn:E; [by rewrite E|]|];
      (simpl; rewrite unbits_bits; simpl; apply decode_encode).
  - intros l. rewrite seq_node_tree. by destruct l.
  - intros l i. rewrite seq_node_tree. by destruct l.
  - intros l Hl. rewrite map_node_tree by done. destruct l as [|p l]; [done|]. simpl iter. by rewrite tree_pairs_map.
Defined.
#[export] Instance string_laws : BaseLaws.
Proof. split. intros c. apply string_order. Defined.
(** An unordered container is walked from its greatest element down. *)
#[export] Instance down_hash : Hash := {| walk X l := rev l; walk_perm X l := Permutation_sym (Permutation_rev l) |}.
End Example_.
Import Example_.

Lemma cast_roundtrip_witness :
  let t := TMap (TUSet (TBase tt)) in
  let v : denote t := [("a", ["x"; "y"]); ("b", [])] in
  representable t v /\ exists s, to_str t v = Some s /\ from_str t s = Some v.
Proof.
  intros t v.
  assert (representable t v) as Hv.
  { assert (forall k : string, Example_.plain_text k = true -> representable (TBase tt) k) as Hb by by intros k; exists k.
    split; [by repeat constructor|]. repeat constructor; by apply Hb. }
  split; [exact Hv|]. exact (cast_roundtrip t v Hv).
Defined.
End LexicalCast.
