(* ===== verification/Config.v ===== *)
(** * Configuration: src/src/config.h (ConfigVar, Config), src/src/config.cpp

    Configuration variables are shared objects: they live in a store and the
    registry maps names to their addresses.  A value carries its type, and the
    downcast of a [ConfigVarBase] compares types.  A listener is called with the
    old and the new value and acts on the rest of the program, which is the
    component [world] of the state.  yaml-cpp and [boost::lexical_cast] are the
    interfaces of [LexicalCast].  Logging is left out. *)

From stdpp Require Import prelude gmap strings.
From Stdlib Require Import ZArith Lia Ascii Sorted.
From S2P Require Import Prelude Text Http LexicalCast.

Module Config.
Import LexicalCast.
Local Open Scope Z_scope.

(** [std::transform(..., ::tolower)] *)
Definition lower_char (c : ascii) : ascii := ascii_of_nat (Z.to_nat (Http.tolower (Text.code c))).
Fixpoint lower (s : string) : string :=
  match s with EmptyString => EmptyString | String c s => String (lower_char c) (lower s) end.

Definition between (a b : Z) (c : ascii) : bool := (a <=? Text.code c) && (Text.code c <=? b).
(** "._0123456789" *)
Definition name_mark (c : ascii) : bool :=
  (Text.code c =? 46) || (Text.code c =? 95) || between 48 57 c.
Definition key_char (c : ascii) : bool := between 97 122 c || name_mark c.
Definition name_char (c : ascii) : bool := between 65 90 c || key_char c.
(** [find_first_not_of(...) == npos] *)
Fixpoint only (p : ascii -> bool) (s : string) : bool :=
  match s with EmptyString => true | String c s => p c && only p s end.

Section config.
Context `{Yaml, Base, Hash}.
Context {CB W : Type} (run : CB -> val -> val -> Prelude.cmd W unit).

(** ** Variables *)

Record ConfigVar := ConfigVar_ {
  m_name : string;
  m_des : string;
  m_val : val;
  m_cbs : list (Z * option CB)     (* the map of listeners, by key *)
}.
Definition type_of (x : ConfigVar) : ty := projT1 (m_val x).
Definition with_val (v : val) (x : ConfigVar) : ConfigVar := ConfigVar_ (m_name x) (m_des x) v (m_cbs x).
Definition with_cbs (v : list (Z * option CB)) (x : ConfigVar) : ConfigVar :=
  ConfigVar_ (m_name x) (m_des x) (m_val x) v.

Record config := Config_ {
  vars : gmap nat ConfigVar;
  s_datas : gmap string nat;
  s_fun_id : ty -> Z;              (* a counter for every type *)
  world : W
}.
Abbreviation cmd := (Prelude.cmd config).
Definition set_vars v s := Config_ v (s_datas s) (s_fun_id s) (world s).
Definition set_datas v s := Config_ (vars s) v (s_fun_id s) (world s).
Definition set_fun_id v s := Config_ (vars s) (s_datas s) v (world s).
Definition set_world v s := Config_ (vars s) (s_datas s) (s_fun_id s) v.

Definition var (p : nat) : cmd ConfigVar :=
  fun s => match vars s !! p with Some x => Ok x s | None => Fail_ Undef end.
Definition put (p : nat) (x : ConfigVar) : cmd unit := modify (fun s => set_vars (<[p := x]> (vars s)) s).

(** The constructors. *)
Definition new_ConfigVar (name : string) (default_val : val) (des : string) : ConfigVar :=
  ConfigVar_ (lower name) des default_val [].

Definition to_string (p : nat) : cmd string :=
  let* x := var p in
  ret (match to_str (projT1 (m_val x)) (projT2 (m_val x)) with Some s => s | None => EmptyString end).
Definition get_value (p : nat) : cmd val := let* x := var p in ret (m_val x).

(** The loop over the listeners; an empty function throws.  A listener acts on the world [W] of the
    program: one that itself sets configuration variables is not modelled. *)
Fixpoint notify (cbs : list (Z * option CB)) (old new : val) : cmd unit :=
  match cbs with
  | [] => ret tt
  | (_, f) :: cbs =>
    (match f with
     | None => throw bad_function_call
     | Some f => fun s => match run f old new (world s) with
                          | Ok u w => Ok u (set_world w s)
                          | Throw e w => Throw e (set_world w s)
                          | Fail_ fl => Fail_ fl
                          end
     end) ;;;
    notify cbs old new
  end.
Definition set_value (p : nat) (v : val) : cmd unit :=
  let* x := var p in
  if decide (v = m_val x) then ret tt
  else
    notify (m_cbs x) (m_val x) v ;;;
    let* x := var p in put p (with_val v x).

(** [try { ... } catch (std::exception &e) { ... }] *)
Definition try_ (m : cmd unit) : cmd unit :=
  fun s => match m s with Throw _ s => Ok tt s | r => r end.
Definition from_string (p : nat) (v : string) : cmd bool :=
  let* x := var p in
  try_ (match from_str (type_of x) v with
        | Some y => set_value p (existT (type_of x) y)
        | None => throw conversion_error
        end) ;;;
  ret false.

(** [m_cbs[key] = cb] *)
Fixpoint cb_set (k : Z) (f : option CB) (l : list (Z * option CB)) : list (Z * option CB) :=
  match l with
  | [] => [(k, f)]
  | (j, g) :: l' => if k <? j then (k, f) :: l else if j <? k then (j, g) :: cb_set k f l' else (k, f) :: l'
  end.
Definition add_listener (p : nat) (f : option CB) : cmd Z :=
  let* x := var p in
  let* s := gets id in
  let id := u64 (s_fun_id s (type_of x) + 1) in
  modify (set_fun_id (fun t => if decide (t = type_of x) then id else s_fun_id s t)) ;;;
  put p (with_cbs (cb_set id f (m_cbs x)) x) ;;; ret id.
Definition del_listener (p : nat) (key : Z) : cmd unit :=
  let* x := var p in put p (with_cbs (filter (fun e => e.1 <> key) (m_cbs x)) x).
Definition get_listener (p : nat) (key : Z) : cmd (option CB) :=
  let* x := var p in
  ret (match List.find (fun e => e.1 =? key) (m_cbs x) with Some e => e.2 | None => None end).
Definition clear_listeners (p : nat) : cmd unit := let* x := var p in put p (with_cbs [] x).

(** ** The registry *)

(** [lookup(name, default_val, des)]: [a] is the address [new] returns. *)
Definition lookup (a : nat) (name : string) (default_val : val) (des : string) : cmd (option nat) :=
  let* it := gets (fun s => s_datas s !! name) in
  match it with
  | Some p =>
    let* x := var p in
    if decide (type_of x = projT1 default_val) then ret (Some p) else ret None
  | None =>
    if negb (only name_char name) then throw invalid_argument
    else
      put a (new_ConfigVar name default_val des) ;;;
      modify (fun s => set_datas (<[name := a]> (s_datas s)) s) ;;;
      ret (Some a)
  end.
(** [lookup<T>(name)]. *)
Definition lookup_as (t : ty) (name : string) : cmd (option nat) :=
  let* it := gets (fun s => s_datas s !! name) in
  match it with
  | None => ret None
  | Some p => let* x := var p in if decide (type_of x = t) then ret (Some p) else ret None
  end.
Definition lookup_base (name : string) : cmd (option nat) := gets (fun s => s_datas s !! name).

(** [Visit(cb)]: the registry is an unordered map. *)
Fixpoint visit_each (cb : nat -> cmd unit) (l : list (string * nat)) : cmd unit :=
  match l with [] => ret tt | (_, p) :: l => cb p ;;; visit_each cb l end.
Definition Visit (cb : nat -> cmd unit) : cmd unit :=
  let* m := gets s_datas in visit_each cb (walk (map_to_list m)).

(** ** Loading *)

Definition join (prefix key : string) : string :=
  match prefix with EmptyString => key | _ => prefix +:+ "." +:+ key end.
(** The output of [listAllMember]; [None] when the fuel does not suffice. *)
Fixpoint listAllMember (fuel : nat) (prefix : string) (n : node) : option (list (string * node)) :=
  match fuel with
  | O => None
  | S fuel =>
    if negb (only key_char prefix) then Some [] else
    rest ← (if IsMap n
            then mapM (fun p => listAllMember fuel (join prefix (default EmptyString p.1)) p.2) (iter n)
            else Some []);
    Some ((prefix, n) :: concat rest)
  end.
Definition node_text (n : node) : string := if IsScalar n then Scalar n else emit n.
Fixpoint load_nodes (l : list (string * node)) : cmd unit :=
  match l with
  | [] => ret tt
  | (k, n) :: l =>
    (if bool_decide (k = EmptyString) then ret tt
     else
       let* p := lookup_base (lower k) in
       match p with Some p => from_string p (node_text n) ;;; ret tt | None => ret tt end) ;;;
    load_nodes l
  end.
Definition load_from_yaml (fuel : nat) (root : node) : cmd unit :=
  match listAllMember fuel EmptyString root with
  | None => fail OutOfFuel
  | Some all_nodes => load_nodes all_nodes
  end.


(** ** Names *)

Lemma lower_key_char c : key_char c = true -> lower_char c = c.
Proof.
  intros Hc. unfold lower_char, Http.tolower.
  replace ((65 <=? Text.code c) && (Text.code c <=? 90)) with false; [apply Text.ascii_of_code|].
  unfold key_char, name_mark, between in Hc. symmetry. apply andb_false_iff.
  rewrite !Z.leb_gt. destruct (Z.le_gt_cases (Text.code c) 64); [lia|right].
  repeat match type of Hc with (_ || _) = true => apply orb_true_iff in Hc as [Hc|Hc] end;
    [apply andb_true_iff in Hc as [Hlo%Z.leb_le _]; lia|apply Z.eqb_eq in Hc; lia|apply Z.eqb_eq in Hc; lia|].
  apply andb_true_iff in Hc as [_ Hhi%Z.leb_le]. lia.
Qed.
Lemma lower_key k : only key_char k = true -> lower k = k.
Proof.
  induction k as [|c k IH]; [done|]. simpl. intros [Hc Hk]%andb_true_iff. by rewrite lower_key_char, IH.
Qed.

(** ** What a document says *)

(** [path prefix n k x]: node [x] has the dotted name [k] below [n], which has the
    name [prefix]; every name on the way has only the characters of keys. *)
Inductive path : string -> node -> string -> node -> Prop :=
  | path_here prefix n : only key_char prefix = true -> path prefix n prefix n
  | path_child prefix n key child k x :
      only key_char prefix = true -> IsMap n = true -> (key, child) ∈ iter n ->
      path (join prefix (default EmptyString key)) child k x -> path prefix n k x.

Lemma path_key prefix n k x : path prefix n k x -> only key_char k = true.
Proof. by induction 1. Qed.

(** A document is a finite tree. *)
Class YamlTree := {
  height : node -> nat;
  height_iter n k x : (k, x) ∈ iter n -> (height x < height n)%nat
}.
Context `{!YamlTree}.

Lemma mapM_all {X Y} (f : X -> option Y) l :
  (forall x, x ∈ l -> is_Some (f x)) -> exists r, mapM f l = Some r /\ forall y, y ∈ r <-> exists x, x ∈ l /\ f x = Some y.
Proof.
  induction l as [|x l IH]; intros Hl.
  { exists []. split; [done|]. intros y. split; [intros Hy; by apply elem_of_nil in Hy|].
    intros (z & Hz & _). by apply elem_of_nil in Hz. }
  destruct (Hl x) as [y0 Ey]; [by left|]. destruct IH as (r & Er & Hr); [intros z Hz; apply Hl; by right|].
  exists (y0 :: r). split; [simpl; rewrite Ey; simpl; by rewrite Er|].
  intros y. rewrite elem_of_cons, Hr. split.
  - intros [->|(z & Hz & Ez)]; [exists x; split; [by left|done]|exists z; split; [by right|done]].
  - intros (z & [->|Hz]%elem_of_cons & Ez); [left; congruence|right; eauto].
Qed.

(** [listAllMember] lists what the document says. *)
Lemma members fuel : forall prefix n, (height n < fuel)%nat ->
  exists l, listAllMember fuel prefix n = Some l /\ forall k x, (k, x) ∈ l <-> path prefix n k x.
Proof.
  induction fuel as [|fuel IH]; intros prefix n Hh; [lia|]. simpl.
  destruct (only key_char prefix) eqn:Ek; simpl.
  2:{ exists []. split; [done|]. intros k x. split; [intros Hx; by apply elem_of_nil in Hx|].
      intros Hx. destruct Hx; congruence. }
  set (f := fun p : option string * node => listAllMember fuel (join prefix (default EmptyString p.1)) p.2).
  assert (forall p, p ∈ iter n -> exists l, f p = Some l /\
    forall k x, (k, x) ∈ l <-> path (join prefix (default EmptyString p.1)) p.2 k x) as Hf.
  { intros [key child] Hp. apply IH. simpl. pose proof (height_iter _ _ _ Hp). lia. }
  destruct (IsMap n) eqn:Em.
  - destruct (mapM_all f (iter n)) as (r & Er & Hr).
    { intros p Hp. destruct (Hf p Hp) as (l & El & _). by eexists. }
    exists ((prefix, n) :: concat r). split; [by rewrite Er|]. intros k x. rewrite elem_of_cons, list_elem_of_In, in_concat. split.
    + intros [[= -> ->]|(l & Hl & Hx)]; [by constructor|]. apply list_elem_of_In, Hr in Hl as ([key child] & Hp & El).
      destruct (Hf _ Hp) as (l' & El' & Hl'). rewrite El in El'. injection El' as <-.
      eapply path_child; [done|done|exact Hp|]. by apply Hl', list_elem_of_In.
    + intros Hx. inversion Hx as [|? ? key child ? ? _ _ Hp Hc]; subst; [by left|right].
      destruct (Hf _ Hp) as (l & El & Hl). exists l. split; [apply list_elem_of_In, Hr; eauto|]. by apply list_elem_of_In, Hl.
  - exists [(prefix, n)]. split; [done|]. intros k x. rewrite list_elem_of_singleton. split.
    + intros [= -> ->]. by constructor.
    + intros Hx. inversion Hx; subst; [done|congruence].
Qed.

(** A visitor that writes down what it is given gets every registered variable once. *)
Lemma visit_all (note : nat -> W -> W) s :
  exists l, (forall p, p ∈ l <-> exists name, s_datas s !! name = Some p) /\
    length l = size (s_datas s) /\
    Visit (fun p => modify (fun s => set_world (note p (world s)) s)) s = Ok tt (set_world (foldl (fun w p => note p w) (world s) l) s).
Proof.
  exists (walk (map_to_list (s_datas s))).*2. split; [|split].
  - intros p. rewrite list_elem_of_fmap. split.
    + intros ([n q] & -> & Hq). exists n. rewrite walk_perm in Hq. by apply elem_of_map_to_list.
    + intros [n Hn]. exists (n, p). split; [done|]. rewrite walk_perm. by apply elem_of_map_to_list.
  - rewrite length_fmap, walk_perm. apply length_map_to_list.
  - unfold Visit, bind at 1, gets. generalize (walk (map_to_list (s_datas s))) as l. intros l. clear.
    assert (forall w, visit_each (fun p => modify (fun s => set_world (note p (world s)) s)) l (set_world w s) =
      Ok tt (set_world (foldl (fun w p => note p w) w l.*2) s)) as Hl.
    { induction l as [|[n p] l IH]; intros w; [done|]. simpl. unfold bind, modify. simpl. apply IH. }
    specialize (Hl (world s)). by destruct s.
Qed.

(** ** The listeners of a variable stay in the order of their keys *)

Lemma cb_set_keys k f l k' : k' ∈ map fst (cb_set k f l) -> k' = k \/ k' ∈ map fst l.
Proof.
  induction l as [|[j g] l IH]; simpl; [rewrite list_elem_of_singleton; auto|].
  destruct (k <? j); [|destruct (j <? k)]; simpl; rewrite !elem_of_cons; intuition.
Qed.
Lemma cb_set_sorted k f l : StronglySorted Z.lt (map fst l) -> StronglySorted Z.lt (map fst (cb_set k f l)).
Proof.
  induction l as [|[j g] l IH]; simpl; intros Hs; [repeat constructor|].
  inversion Hs as [|? ? Hs' Hj]; subst. destruct (k <? j) eqn:E1; simpl.
  { apply Z.ltb_lt in E1. constructor; [done|]. constructor; [done|]. eapply Forall_impl; [exact Hj|]. simpl. lia. }
  apply Z.ltb_ge in E1. destruct (j <? k) eqn:E2; simpl.
  - apply Z.ltb_lt in E2. constructor; [auto|]. apply Forall_forall. intros k' Hk'.
    apply cb_set_keys in Hk' as [->|Hk']; [done|]. by eapply Forall_forall in Hj.
  - apply Z.ltb_ge in E2. assert (k = j) as -> by lia. by constructor.
Qed.
Lemma cb_filter_sorted (P : Z * option CB -> Prop) `{!forall e, Decision (P e)} l :
  StronglySorted Z.lt (map fst l) -> StronglySorted Z.lt (map fst (filter P l)).
Proof.
  induction l as [|e l IH]; simpl; [done|]. inversion 1 as [|? ? Hs Hj]; subst. rewrite filter_cons. case_decide; [|auto].
  simpl. constructor; [auto|]. apply Forall_forall. intros k (e' & -> & He')%list_elem_of_fmap.
  apply list_elem_of_filter in He' as [_ He']. eapply Forall_forall in Hj; [exact Hj|]. by apply list_elem_of_fmap_2.
Qed.

(** ** The invariant of the registry *)

(** The object of a variable other than its listeners is changed only by a new
    value of its type. *)
Record reg_wf (s : config) : Prop := {
  reg_var : forall name p, s_datas s !! name = Some p ->
    exists x, vars s !! p = Some x /\ m_name x = lower name /\ only name_char name = true;
  reg_cbs : forall p x, vars s !! p = Some x -> StronglySorted Z.lt (map fst (m_cbs x));
  reg_inj : forall n1 n2 p, s_datas s !! n1 = Some p -> s_datas s !! n2 = Some p -> n1 = n2
}.
(** [extends s s']: names keep their variables, and variables their types. *)
Definition extends (s s' : config) : Prop :=
  (forall name p, s_datas s !! name = Some p -> s_datas s' !! name = Some p) /\
  (forall p x, vars s !! p = Some x -> exists x', vars s' !! p = Some x' /\ type_of x' = type_of x /\
     m_name x' = m_name x /\ m_des x' = m_des x).

Lemma extends_refl s : extends s s.
Proof. split; eauto. Qed.
Lemma extends_trans s1 s2 s3 : extends s1 s2 -> extends s2 s3 -> extends s1 s3.
Proof.
  intros [A1 B1] [A2 B2]. split; [eauto|]. intros p x Hx. destruct (B1 p x Hx) as (x' & Hx' & E1 & E2 & E3).
  destruct (B2 p x' Hx') as (x'' & Hx'' & F1 & F2 & F3). exists x''. split_and!; congruence.
Qed.

(** Storing a changed object back. *)
Lemma put_reg p x x' s :
  reg_wf s -> vars s !! p = Some x -> m_name x' = m_name x -> m_des x' = m_des x -> type_of x' = type_of x ->
  StronglySorted Z.lt (map fst (m_cbs x')) ->
  reg_wf (set_vars (<[p := x']> (vars s)) s) /\ extends s (set_vars (<[p := x']> (vars s)) s).
Proof.
  intros [Hv Hc Hi] Hx En Ed Et Hs. split.
  - split; simpl; [| |done].
    + intros name q Hq. destruct (Hv name q Hq) as (y & Hy & Hn & Ho).
      destruct (decide (p = q)) as [<-|Hne].
      * rewrite lookup_insert_eq. exists x'. split; [done|]. split; [congruence|done].
      * rewrite lookup_insert_ne by done. eauto.
    + intros q y [[<- <-]|[_ Hy]]%lookup_insert_Some; [done|eauto].
  - split; simpl; [done|]. intros q y Hy. destruct (decide (p = q)) as [<-|Hne].
    + rewrite lookup_insert_eq. exists x'. split; [done|]. split_and!; congruence.
    + rewrite lookup_insert_ne by done. eauto.
Qed.
Lemma reg_wf_world s w : reg_wf s -> reg_wf (set_world w s) /\ extends s (set_world w s).
Proof. intros [Hv Hc Hi]. split; [by split|split; simpl; eauto]. Qed.
Lemma reg_wf_fun_id s g : reg_wf s -> reg_wf (set_fun_id g s) /\ extends s (set_fun_id g s).
Proof. intros [Hv Hc Hi]. split; [by split|split; simpl; eauto]. Qed.

(** [safe m]: [m] keeps the invariant and extends the registry, also when it throws. *)
Definition safe {X} (m : cmd X) : Prop :=
  forall s, reg_wf s -> match m s with Ok _ s' | Throw _ s' => reg_wf s' /\ extends s s' | Fail_ _ => True end.
Lemma safe_ret {X} (x : X) : safe (ret x).
Proof. intros s Hs. split; [done|apply extends_refl]. Qed.
Lemma safe_throw {X} e : safe (throw e : cmd X).
Proof. intros s Hs. split; [done|apply extends_refl]. Qed.
Lemma safe_fail {X} f : safe (fail f : cmd X).
Proof. by intros s Hs. Qed.
Lemma safe_gets {X} (f : config -> X) : safe (gets f).
Proof. intros s Hs. split; [done|apply extends_refl]. Qed.
Lemma safe_var p : safe (var p).
Proof. intros s Hs. unfold var. destruct (vars s !! p); [split; [done|apply extends_refl]|done]. Qed.
Lemma safe_bind {X Y} (m : cmd X) (k : X -> cmd Y) : safe m -> (forall x, safe (k x)) -> safe (bind m k).
Proof.
  intros Hm Hk s Hs. unfold bind. specialize (Hm s Hs). destruct (m s) as [x s1|e s1|f]; [|done|done].
  destruct Hm as [Hs1 He1]. specialize (Hk x s1 Hs1). destruct (k x s1) as [y s2|e s2|f]; [| |done];
    destruct Hk as [Hs2 He2]; (split; [done|by eapply extends_trans]).
Qed.
Lemma bind_var {X} p (k : ConfigVar -> cmd X) s x : vars s !! p = Some x -> (let* x := var p in k x) s = k x s.
Proof. intros Hx. unfold bind, var. by rewrite Hx. Qed.
(** An object is read, changed and stored. *)
Lemma safe_update {X} p (g : ConfigVar -> ConfigVar) (k : cmd X) :
  (forall x, m_name (g x) = m_name x /\ m_des (g x) = m_des x /\ type_of (g x) = type_of x /\
     (StronglySorted Z.lt (map fst (m_cbs x)) -> StronglySorted Z.lt (map fst (m_cbs (g x))))) -> safe k ->
  safe (let* x := var p in put p (g x) ;;; k).
Proof.
  intros Hg Hk s Hs. unfold bind at 1, var. destruct (vars s !! p) as [x|] eqn:Hx; [|done].
  destruct (Hg x) as (E1 & E2 & E3 & E4). destruct (put_reg p x (g x) s Hs Hx E1 E2 E3 (E4 (reg_cbs s Hs p x Hx))) as [Hs1 He1].
  unfold bind, put, modify. specialize (Hk _ Hs1). destruct (k _) as [y s2|e s2|f]; [| |done];
    destruct Hk as [Hs2 He2]; (split; [done|by eapply extends_trans]).
Qed.
Create HintDb safe.
#[local] Hint Resolve safe_ret safe_throw safe_fail safe_gets safe_var : safe.
#[local] Hint Extern 3 (safe (bind _ _)) => apply safe_bind; [|intros ?] : safe.

Lemma safe_notify cbs old new : safe (notify cbs old new).
Proof.
  induction cbs as [|[k f] cbs IH]; simpl; [auto with safe|]. apply safe_bind; [|done].
  destruct f as [f|]; [|auto with safe]. intros s Hs.
  destruct (run f old new (world s)) as [u w|e w|fl]; [by apply reg_wf_world|by apply reg_wf_world|done].
Qed.

Lemma set_value_safe p v s :
  reg_wf s -> (forall x, vars s !! p = Some x -> type_of x = projT1 v) ->
  match set_value p v s with Ok _ s' | Throw _ s' => reg_wf s' /\ extends s s' | Fail_ _ => True end.
Proof.
  intros Hs Ht. destruct (vars s !! p) as [x|] eqn:Hx; [|unfold set_value, bind at 1, var; by rewrite Hx].
  unfold set_value. rewrite (bind_var p _ s x Hx). case_decide; [by apply safe_ret|]. unfold bind at 1.
  pose proof (safe_notify (m_cbs x) (m_val x) v s Hs) as Hn.
  destruct (notify (m_cbs x) (m_val x) v s) as [u s1|e s1|f]; [|done|done]. destruct Hn as [Hs1 He1].
  destruct (proj2 He1 p x Hx) as (x1 & Hx1 & E1 & E2 & E3). rewrite (bind_var p _ s1 x1 Hx1). unfold put, modify.
  destruct (put_reg p x1 (with_val v x1) s1 Hs1 Hx1 eq_refl eq_refl) as [Hs2 He2].
  { rewrite E1. symmetry. by apply Ht. }
  { exact (reg_cbs s1 Hs1 p x1 Hx1). }
  split; [done|by eapply extends_trans].
Qed.

Lemma safe_from_string p v : safe (from_string p v).
Proof.
  intros s Hs. destruct (vars s !! p) as [x|] eqn:Hx; [|unfold from_string, bind at 1, var; by rewrite Hx].
  unfold from_string. rewrite (bind_var p _ s x Hx).
  unfold bind, try_. destruct (from_str (type_of x) v) as [y|]; [|by apply safe_ret].
  pose proof (set_value_safe p (existT (type_of x) y) s Hs) as Hv.
  destruct (set_value p _ s) as [u s1|e s1|f]; [| |done]; (apply Hv; intros x'; simpl; congruence).
Qed.
#[local] Hint Resolve safe_notify safe_from_string : safe.

Lemma safe_load_nodes l : safe (load_nodes l).
Proof.
  induction l as [|[k n] l IH]; simpl; [auto with safe|]. apply safe_bind; [|done].
  case_bool_decide; [auto with safe|]. apply safe_bind; [apply safe_gets|]. intros [p|]; auto with safe.
Qed.

Lemma lookup_safe a name v des s :
  reg_wf s -> vars s !! a = None ->
  match lookup a name v des s with Ok _ s' | Throw _ s' => reg_wf s' /\ extends s s' | Fail_ _ => True end.
Proof.
  intros Hs Ha. unfold lookup, bind at 1, gets. destruct (s_datas s !! name) as [p|] eqn:Hp.
  - revert s Hs Ha Hp. intros s Hs _ _. revert s Hs. change (safe (let* x := var p in
      if decide (type_of x = projT1 v) then ret (Some p) else ret None)).
    apply safe_bind; [auto with safe|]. intros x. case_decide; auto with safe.
  - destruct (negb (only name_char name)) eqn:Ho; [by apply safe_throw|]. unfold put, modify, bind. simpl.
    apply negb_false_iff in Ho. destruct Hs as [Hv Hc Hi]. split; [split|split]; simpl.
    + intros n p Hn. destruct (decide (n = name)) as [->|Hne].
      * rewrite lookup_insert_eq in Hn. injection Hn as <-. rewrite lookup_insert_eq. eauto.
      * rewrite lookup_insert_ne in Hn by done. destruct (Hv n p Hn) as (x & Hx & ?).
        rewrite lookup_insert_ne by congruence. eauto.
    + intros p x [[_ <-]|[_ Hx]]%lookup_insert_Some; [constructor|eauto].
    + assert (forall n p, s_datas s !! n = Some p -> p <> a) as Hna.
      { intros n p Hn ->. destruct (Hv n a Hn) as (x & Hx & _). congruence. }
      intros n1 n2 p. rewrite !lookup_insert_Some. intros [[-> <-]|[_ H1']] [[<- E]|[_ H2']]; try done.
      * by destruct (Hna _ _ H2').
      * by destruct (Hna _ _ H1').
      * by eapply Hi.
    + intros n p Hn. rewrite lookup_insert_ne; [done|]. congruence.
    + intros p x Hx. exists x. rewrite lookup_insert_ne; [done|]. congruence.
Qed.

(** ** Everything a program can do with the registry *)

Inductive op :=
  | Lookup (a : nat) (name : string) (default_val : val) (des : string)
  | SetValue (p : nat) (v : val)
  | FromString (p : nat) (v : string)
  | AddListener (p : nat) (f : option CB)
  | DelListener (p : nat) (key : Z)
  | ClearListeners (p : nat)
  | LoadFromYaml (fuel : nat) (root : node).
Definition run_op (o : op) : cmd unit :=
  match o with
  | Lookup a name v des => lookup a name v des ;;; ret tt
  | SetValue p v => set_value p v
  | FromString p v => from_string p v ;;; ret tt
  | AddListener p f => add_listener p f ;;; ret tt
  | DelListener p key => del_listener p key
  | ClearListeners p => clear_listeners p
  | LoadFromYaml fuel root => load_from_yaml fuel root
  end.
(** [new] returns a fresh address, and [set_value] gets a value of the type of the
    variable, as the compiler checks. *)
Definition enabled (o : op) (s : config) : Prop :=
  match o with
  | Lookup a _ _ _ => vars s !! a = None
  | SetValue p v => forall x, vars s !! p = Some x -> type_of x = projT1 v
  | _ => True
  end.
Inductive reachable : config -> Prop :=
  | reach_init g w : reachable (Config_ ∅ ∅ g w)
  | reach_step o s s' :
      reachable s -> enabled o s -> (run_op o s = Ok tt s' \/ exists e, run_op o s = Throw e s') -> reachable s'.

Lemma op_safe o s : reg_wf s -> enabled o s ->
  match run_op o s with Ok _ s' | Throw _ s' => reg_wf s' /\ extends s s' | Fail_ _ => True end.
Proof.
  intros Hs He. destruct o as [a name v des|p v|p v|p f|p key|p|fuel root]; simpl in *.
  - unfold bind. pose proof (lookup_safe a name v des s Hs He) as Hl. by destruct (lookup a name v des s).
  - by apply set_value_safe.
  - revert s Hs He. intros s Hs _. revert s Hs. change (safe (from_string p v ;;; ret tt)). auto with safe.
  - unfold bind at 1, add_listener, bind at 1, var. destruct (vars s !! p) as [x|] eqn:Hx; [|done].
    unfold bind, gets, modify, put, ret. cbv beta.
    destruct (reg_wf_fun_id s (fun t => if decide (t = type_of x) then u64 (s_fun_id s (type_of x) + 1) else s_fun_id s t) Hs) as [Hs1 He1].
    destruct (put_reg p x (with_cbs (cb_set (u64 (s_fun_id s (type_of x) + 1)) f (m_cbs x)) x) _ Hs1 Hx
      eq_refl eq_refl eq_refl (cb_set_sorted _ f _ (reg_cbs s Hs p x Hx))) as [Hs2 He2]. split; [exact Hs2|exact (extends_trans _ _ _ He1 He2)].
  - revert s Hs He. intros s Hs _. revert s Hs. change (safe (del_listener p key)). unfold del_listener.
    apply (safe_update p (fun x => with_cbs (filter (fun e => e.1 <> key) (m_cbs x)) x) (ret tt)); [|auto with safe].
    intros x. split_and!; [done..|]. apply (cb_filter_sorted (fun e => e.1 <> key)).
  - revert s Hs He. intros s Hs _. revert s Hs. change (safe (clear_listeners p)).
    apply (safe_update p (with_cbs []) (ret tt)); [|auto with safe]. intros x. split_and!; [done..|]. constructor.
  - revert s Hs He. intros s Hs _. revert s Hs. change (safe (load_from_yaml fuel root)). unfold load_from_yaml.
    destruct (listAllMember fuel EmptyString root); [apply safe_load_nodes|auto with safe].
Qed.
Lemma registry_reachable s : reachable s -> reg_wf s.
Proof.
  induction 1 as [g w|o s s' _ IH He Hr].
  - split; simpl; intros *; by rewrite lookup_empty.
  - pose proof (op_safe o s IH He) as Ho. destruct Hr as [Hr|[e Hr]]; rewrite Hr in Ho; apply Ho.
Qed.


(** ** The change of a value *)

(** The listeners called with the old and the new value one after the other, until
    one throws. *)
Fixpoint tell (fs : list (option CB)) (old new : val) (w : W) : res W unit :=
  match fs with
  | [] => Ok tt w
  | None :: _ => Throw bad_function_call w
  | Some f :: fs => match run f old new w with Ok _ w => tell fs old new w | r => r end
  end.
Lemma notify_tell cbs old new s :
  notify cbs old new s =
  match tell (map snd cbs) old new (world s) with
  | Ok _ w => Ok tt (set_world w s) | Throw e w => Throw e (set_world w s) | Fail_ f => Fail_ f
  end.
Proof.
  revert s. induction cbs as [|[k [f|]] cbs IH]; intros s; simpl; [by destruct s| |by destruct s].
  unfold bind. destruct (run f old new (world s)) as [[] w|e w|fl]; [|done|done].
  rewrite IH. simpl. by destruct (tell _ _ _ w).
Qed.
(** What [set_value] makes of variable [p], [x]. *)
Definition changed (p : nat) (x : ConfigVar) (v : val) (s : config) : res config unit :=
  if decide (v = m_val x) then Ok tt s
  else match tell (map snd (m_cbs x)) (m_val x) v (world s) with
       | Ok _ w => Ok tt (Config_ (<[p := with_val v x]> (vars s)) (s_datas s) (s_fun_id s) w)
       | Throw e w => Throw e (set_world w s)
       | Fail_ f => Fail_ f
       end.
Lemma set_value_changed p x v s : vars s !! p = Some x -> set_value p v s = changed p x v s.
Proof.
  intros Hx. unfold set_value, changed. rewrite (bind_var p _ s x Hx). case_decide; [done|].
  unfold bind at 1. rewrite notify_tell. destruct (tell _ _ _ _) as [[] w|e w|f]; [|done|done].
  by rewrite (bind_var p _ (set_world w s) x Hx).
Qed.
Lemma from_string_changed p x t s : vars s !! p = Some x ->
  from_string p t s = match from_str (type_of x) t with
                      | None => Ok false s
                      | Some y => match changed p x (existT (type_of x) y) s with
                                  | Ok _ s' | Throw _ s' => Ok false s' | Fail_ f => Fail_ f
                                  end
                      end.
Proof.
  intros Hx. unfold from_string. rewrite (bind_var p _ s x Hx). unfold bind, try_.
  destruct (from_str (type_of x) t) as [y|]; [|done]. rewrite (set_value_changed p x _ s Hx). by destruct (changed _ _ _ s).
Qed.

(** Setting a variable to the value it has calls nobody; otherwise its
    listeners, which are kept in the order of their keys, are called with the old and
    the new value before the value changes, and when one throws the rest is not called and
    the value stays.  Setting it from text does the same with the converted value,
    keeps everything when the text cannot be converted, lets no exception out, and
    always answers false. *)
Theorem set_value_outcome s p x :
  reachable s -> vars s !! p = Some x ->
  StronglySorted Z.lt (map fst (m_cbs x)) /\
  (forall v, set_value p v s =
     if decide (v = m_val x) then Ok tt s
     else match tell (map snd (m_cbs x)) (m_val x) v (world s) with
          | Ok _ w => Ok tt (Config_ (<[p := with_val v x]> (vars s)) (s_datas s) (s_fun_id s) w)
          | Throw e w => Throw e (Config_ (vars s) (s_datas s) (s_fun_id s) w)
          | Fail_ f => Fail_ f
          end) /\
  (forall t, from_string p t s =
     match from_str (type_of x) t with
     | None => Ok false s
     | Some y => match set_value p (existT (type_of x) y) s with
                 | Ok _ s' | Throw _ s' => Ok false s' | Fail_ f => Fail_ f
                 end
     end).
Proof.
  intros Hr%registry_reachable Hx. split; [exact (reg_cbs s Hr p x Hx)|]. split.
  - intros v. exact (set_value_changed p x v s Hx).
  - intros t. rewrite (from_string_changed p x t s Hx). destruct (from_str (type_of x) t) as [y|]; [|done].
    by rewrite (set_value_changed p x _ s Hx).
Qed.

(** ** Loading *)

(** No listener blocks or runs outside the language. *)
Definition listeners_end : Prop := forall f old new w fl, run f old new w <> Fail_ fl.
(** The listeners of [x] are functions and return. *)
Definition listeners_return (x : ConfigVar) : Prop :=
  forall k f, (k, f) ∈ m_cbs x -> exists g, f = Some g /\ forall old new w, exists w', run g old new w = Ok tt w'.

Lemma tell_ends (Hend : listeners_end) fs old new w fl : tell fs old new w <> Fail_ fl.
Proof.
  revert w. induction fs as [|[f|] fs IH]; intros w; simpl; [done| |done].
  pose proof (Hend f old new w) as Hf. destruct (run f old new w) as [u w1|e w1|fl']; [apply IH|done|by destruct (Hf fl')].
Qed.
Lemma tell_returns x old new w : listeners_return x -> exists w', tell (map snd (m_cbs x)) old new w = Ok tt w'.
Proof.
  unfold listeners_return. revert w. induction (m_cbs x) as [|[k f] l IH]; intros w Hx; simpl; [by eexists|].
  destruct (Hx k f) as (g & -> & Hg); [by left|]. destruct (Hg old new w) as [w1 ->].
  apply IH. intros k' f' Hk'. apply (Hx k'). by right.
Qed.

(** What a text does to variable [p], [x]: the value [v'] it ends with. *)
Definition text_effect (x : ConfigVar) (t : string) (v' : val) : Prop :=
  (v' = m_val x \/ exists y, from_str (type_of x) t = Some y /\ v' = existT (type_of x) y) /\
  (listeners_return x -> forall y, from_str (type_of x) t = Some y -> v' = existT (type_of x) y) /\
  type_of (with_val v' x) = type_of x.
Lemma from_string_effect (Hend : listeners_end) p x t s : vars s !! p = Some x ->
  exists v' w', from_string p t s = Ok false (Config_ (<[p := with_val v' x]> (vars s)) (s_datas s) (s_fun_id s) w') /\
    text_effect x t v'.
Proof.
  intros Hx. rewrite (from_string_changed p x t s Hx).
  assert (forall w, Config_ (vars s) (s_datas s) (s_fun_id s) w =
    Config_ (<[p := with_val (m_val x) x]> (vars s)) (s_datas s) (s_fun_id s) w) as Hid.
  { intros w. f_equal. symmetry. apply insert_id. rewrite Hx. by destruct x. }
  destruct (from_str (type_of x) t) as [y|] eqn:Ey.
  2:{ exists (m_val x), (world s). split; [by rewrite <- Hid; destruct s|]. split; [by left|]. by rewrite Ey. }
  unfold changed. case_decide as Hv.
  { exists (m_val x), (world s). split; [by rewrite <- Hid; destruct s|]. split; [by left|].
    split; [|done]. intros _ y'. rewrite Ey. intros [= <-]. done. }
  pose proof (tell_ends Hend (map snd (m_cbs x)) (m_val x) (existT (type_of x) y) (world s)) as Hf.
  destruct (tell _ _ _ _) as [[] w|e w|fl] eqn:Et; [| |by destruct (Hf fl)].
  - exists (existT (type_of x) y), w. split; [done|]. split; [by right; exists y|]. split; [|done].
    intros _ y'. rewrite Ey. by intros [= <-].
  - exists (m_val x), w. split; [by rewrite <- Hid|]. split; [by left|]. split; [|done].
    intros Hl. destruct (tell_returns x (m_val x) (existT (type_of x) y) (world s) Hl) as [w' Hw']. congruence.
Qed.

(** The value a list of named nodes gives to the variable [name] of type [t]: the
    last node of the name that converts decides. *)
Fixpoint said (t : ty) (name : string) (l : list (string * node)) (v : val) : val :=
  match l with
  | [] => v
  | (k, n) :: l =>
    said t name l (if decide (k = name /\ k <> EmptyString)
                   then match from_str t (node_text n) with Some y => existT t y | None => v end else v)
  end.
Definition nodes_effect (l : list (string * node)) (name : string) (x : ConfigVar) (v' : val) : Prop :=
  (v' = m_val x \/ exists n y, name <> EmptyString /\ (name, n) ∈ l /\
     from_str (type_of x) (node_text n) = Some y /\ v' = existT (type_of x) y) /\
  (listeners_return x -> v' = said (type_of x) name l (m_val x)).
Lemma nodes_effect_other k n l name x v' : k <> name \/ k = EmptyString ->
  nodes_effect l name x v' -> nodes_effect ((k, n) :: l) name x v'.
Proof.
  intros Hk [N1 N2]. split.
  - destruct N1 as [->|(m & y & Hn & Hm & Ey & ->)]; [by left|]. right. exists m, y. split_and!; [done|by right|done|done].
  - intros Hl. simpl. rewrite decide_False by naive_solver. auto.
Qed.
Lemma nodes_effect_here k n l x v v' : k <> EmptyString -> text_effect x (node_text n) v ->
  nodes_effect l k (with_val v x) v' -> nodes_effect ((k, n) :: l) k x v'.
Proof.
  intros Hk (T1 & T2 & T3) [N1 N2]. rewrite T3 in N1, N2. split.
  - destruct N1 as [->|(m & y & Hn & Hm & Ey & ->)].
    + destruct T1 as [->|(y & Ey & ->)]; [by left|right]. exists n, y. split_and!; [done|by left|done|done].
    + right. exists m, y. split_and!; [done|by right|done|done].
  - intros Hl. simpl. rewrite decide_True by done. rewrite (N2 Hl). simpl. f_equal.
    destruct (from_str (type_of x) (node_text n)) as [y|] eqn:Ey; [by apply T2|].
    destruct T1 as [->|(y & Ey' & _)]; [done|congruence].
Qed.

Lemma load_nodes_effect (Hend : listeners_end) l : forall s, reg_wf s ->
  Forall (fun e => only key_char e.1 = true) l ->
  exists s', load_nodes l s = Ok tt s' /\ s_datas s' = s_datas s /\
    forall name p x, s_datas s !! name = Some p -> vars s !! p = Some x ->
      exists v', vars s' !! p = Some (with_val v' x) /\ nodes_effect l name x v'.
Proof.
  induction l as [|[k n] l IH]; intros s Hs Hl.
  { exists s. split; [done|]. split; [done|]. intros name p x _ Hx. exists (m_val x).
    split; [rewrite Hx; by destruct x|]. split; [by left|done]. }
  apply Forall_cons in Hl as [Hk Hl]. simpl in Hk |- *. rewrite (lower_key k Hk).
  case_bool_decide as Ek.
  { destruct (IH s Hs Hl) as (s' & Es & Ed & Hx). exists s'. split; [done|]. split; [done|].
    intros name p x Hp Hpx. destruct (Hx name p x Hp Hpx) as (v' & Hv' & Hn). exists v'. split; [done|].
    apply nodes_effect_other; auto. }
  destruct (s_datas s !! k) as [p|] eqn:Hp.
  2:{ destruct (IH s Hs Hl) as (s' & Es & Ed & Hx). exists s'. split; [unfold bind, lookup_base, gets; by rewrite Hp|].
    split; [done|]. intros name p x Hp' Hpx. destruct (Hx name p x Hp' Hpx) as (v' & Hv' & Hn). exists v'. split; [done|].
    apply nodes_effect_other; [left; congruence|done]. }
  destruct (reg_var s Hs k p Hp) as (x & Hx & _). destruct (from_string_effect Hend p x (node_text n) s Hx) as (v & w & Ef & Ht).
  pose proof (safe_from_string p (node_text n) s Hs) as Hs1. rewrite Ef in Hs1. destruct Hs1 as [Hs1 _].
  destruct (IH _ Hs1 Hl) as (s' & Es & Ed & Hx'). exists s'.
  split; [unfold bind, lookup_base, gets; rewrite Hp, Ef; exact Es|]. split; [done|].
  intros name q y Hq Hy. destruct (decide (k = name)) as [<-|Hne].
  - assert (q = p) as -> by congruence. assert (y = x) as -> by congruence.
    destruct (Hx' k p (with_val v x) Hp) as (v' & Hv' & Hn); [by apply lookup_insert_eq|].
    exists v'. split; [done|]. by eapply nodes_effect_here.
  - assert (p <> q) as Hpq. { intros ->. by apply Hne, (reg_inj s Hs k name q). }
    destruct (Hx' name q y Hq) as (v' & Hv' & Hn); [simpl; by rewrite lookup_insert_ne|].
    exists v'. split; [done|]. apply nodes_effect_other; auto.
Qed.

(** C20: loading a document ends, with fuel above its height, whenever the listeners
    (which act on the world of the program, not on other variables) do, and no
    exception leaves it.  It visits the nodes of the document that can be
    reached through keys of lower-case letters, digits, dots and underscores, each
    under its dotted name; registers nothing; leaves variables alone but for their
    values; gives a variable whose listeners return the value of the last node of its
    name that converts, if any; and in no case gives a variable a value other than its
    old one and those of the nodes of its name.  In particular a variable registered
    under a name with an upper-case letter is never loaded. *)
Theorem load_outcome fuel root s :
  reachable s -> (height root < fuel)%nat -> listeners_end ->
  exists l s', listAllMember fuel EmptyString root = Some l /\
    (forall k n, (k, n) ∈ l <-> path EmptyString root k n) /\
    load_from_yaml fuel root s = Ok tt s' /\ s_datas s' = s_datas s /\
    forall name p x, s_datas s !! name = Some p -> vars s !! p = Some x ->
      exists v', vars s' !! p = Some (with_val v' x) /\
        (v' = m_val x \/ exists n y, path EmptyString root name n /\
           from_str (type_of x) (node_text n) = Some y /\ v' = existT (type_of x) y) /\
        (listeners_return x -> v' = said (type_of x) name l (m_val x)) /\
        (only key_char name = false -> v' = m_val x).
Proof.
  intros Hr%registry_reachable Hh Hend. destruct (members fuel EmptyString root Hh) as (l & El & Hl).
  destruct (load_nodes_effect Hend l s Hr) as (s' & Es & Ed & Hx).
  { apply Forall_forall. intros [k n] Hkn. by eapply path_key, Hl. }
  exists l, s'. split; [done|]. split; [done|]. split; [unfold load_from_yaml; by rewrite El|]. split; [done|].
  intros name p x Hp Hpx. destruct (Hx name p x Hp Hpx) as (v' & Hv' & N1 & N2). exists v'. split; [done|].
  split; [|split; [done|]].
  - destruct N1 as [->|(n & y & _ & Hn & Ey & ->)]; [by left|right]. exists n, y. by rewrite <- Hl.
  - intros Hu. destruct N1 as [->|(n & y & _ & Hn%Hl%path_key & _)]; [done|congruence].
Qed.
End config.

(** ** Witnesses *)

Module Example_.
Import LexicalCast.Example_.
Ltac by_vm := match goal with |- _ = ?r => vm_cast_no_check (eq_refl r) end.
Fixpoint tree_height (n : gen_tree string) : nat :=
  match n with GenLeaf _ => 0 | GenNode _ l => S (max_list (map tree_height l)) end.
Lemma tree_height_in x l : x ∈ l -> (tree_height x <= max_list (map tree_height l))%nat.
Proof. intros Hx. by apply max_list_elem_of_le, list_elem_of_fmap_2. Qed.
Lemma tree_pairs_in k x l : (k, x) ∈ LexicalCast.Example_.tree_pairs l -> x ∈ l.
Proof.
  remember (length l) as m eqn:Em. revert l Em. induction (lt_wf m) as [m _ IH].
  intros [|[a|? ?] [|y l']] Em; simpl; intros Hx; try by apply elem_of_nil in Hx.
  apply elem_of_cons in Hx as [[= -> ->]|Hx]; [by right; left|]. right. right. eapply IH; [|reflexivity|done]. subst m. simpl. lia.
Qed.
#[export] Instance tree_doc : YamlTree.
Proof.
  refine {| height := tree_height : node -> nat |}.
  intros [a|[|[|[|i]]] l] k x; simpl; intros Hx; try by apply elem_of_nil in Hx.
  - apply list_elem_of_fmap in Hx as (y & [= -> ->] & Hy). pose proof (tree_height_in y l Hy). lia.
  - apply list_elem_of_fmap in Hx as ([k' y] & [= -> ->] & Hy). apply tree_pairs_in, tree_height_in in Hy. lia.
Defined.

(** A listener notes the two values it gets; one refuses. *)
Definition run (f : bool) (old new : val) (w : list (val * val)) : res (list (val * val)) unit :=
  if f then Ok tt (w ++ [(old, new)]) else Throw logic_error w.
Definition text (s : string) : val := existT (TBase tt) s.
Definition texts (l : list string) : val := existT (TVector (TBase tt)) l.
Definition empty : config := @Config_ _ bool (list (val * val)) ∅ ∅ (fun _ => 0%Z) [].
Definition ops : list (op (CB := bool)) :=
  [Lookup 1 "system.port" (text "80") "port"; Lookup 2 "System.name" (text "a") EmptyString;
   Lookup 3 "system.hosts" (texts []) EmptyString;
   AddListener 1 (Some true); AddListener 3 (Some true)]%nat.
Fixpoint run_ops (l : list (op (CB := bool))) (s : config) : config :=
  match l with
  | [] => s
  | o :: l => match run_op run o s with Ok _ s' | Throw _ s' => run_ops l s' | Fail_ _ => s end
  end.
Definition built : config := run_ops ops empty.
Fixpoint run_enabled (l : list (op (CB := bool))) (s : config) : Prop :=
  match l with
  | [] => True
  | o :: l => enabled o s /\ match run_op run o s with Ok _ s' | Throw _ s' => run_enabled l s' | Fail_ _ => True end
  end.
Lemma run_ops_reachable l s : reachable run s -> run_enabled l s -> reachable run (run_ops l s).
Proof.
  revert s. induction l as [|o l IH]; intros s Hs; [done|]. simpl. intros [Ho Hl].
  destruct (run_op run o s) as [[] s'|e s'|f] eqn:Er; [| |done]; (apply IH; [|done]); eapply reach_step; eauto.
Qed.
Definition enabledb (o : op (CB := bool)) (s : config (CB := bool) (W := list (val * val))) : bool :=
  match o with
  | Lookup a _ _ _ => if vars s !! a is None then true else false
  | SetValue p v => if vars s !! p is Some x then bool_decide (type_of x = projT1 v) else true
  | _ => true
  end.
Fixpoint run_enabledb (l : list (op (CB := bool))) (s : config) : bool :=
  match l with
  | [] => true
  | o :: l => enabledb o s && match run_op run o s with Ok _ s' | Throw _ s' => run_enabledb l s' | Fail_ _ => true end
  end.
Lemma run_enabledb_ok l s : run_enabledb l s = true -> run_enabled l s.
Proof.
  revert s. induction l as [|o l IH]; intros s; [done|]. simpl. intros [Ho Hl]%andb_true_iff. split.
  - destruct o as [a n v d|p v| | | | |]; simpl in *; try done; [by destruct (vars s !! a)|].
    intros x Hx. rewrite Hx in Ho. by apply bool_decide_eq_true in Ho.
  - destruct (run_op run o s); auto.
Qed.
Lemma built_reachable : reachable run built.
Proof.
  apply run_ops_reachable; [apply reach_init|]. apply run_enabledb_ok. vm_compute. reflexivity.
Qed.
Lemma built_port : vars built !! 1%nat = Some (ConfigVar_ "system.port" "port" (text "80") [(1%Z, Some true)]).
Proof. by_vm. Qed.
Lemma built_name : vars built !! 2%nat = Some (ConfigVar_ "system.name" EmptyString (text "a") []).
Proof. by_vm. Qed.
Lemma built_hosts : vars built !! 3%nat = Some (ConfigVar_ "system.hosts" EmptyString (texts []) [(1%Z, Some true)]).
Proof. by_vm. Qed.
Definition hosts : node := GenNode 1 [GenLeaf "h1"; GenLeaf "h2"].
Definition system : node :=
  GenNode 2 [GenLeaf "port"; GenLeaf "8080"; GenLeaf "name"; GenLeaf "b"; GenLeaf "hosts"; hosts].
Definition doc : node := GenNode 2 [GenLeaf "system"; system].
Lemma doc_members : listAllMember 4 EmptyString doc =
  Some [(EmptyString, doc); ("system", system); ("system.port", GenLeaf "8080"); ("system.name", GenLeaf "b");
        ("system.hosts", hosts)].
Proof. by_vm. Qed.
End Example_.
Import LexicalCast.Example_ Example_.

Lemma set_value_outcome_witness :
  exists s, set_value run 1 (text "81") built = Ok tt s /\ world s = [(text "80", text "81")] /\
    from_string run 1 "81" built = Ok false s.
Proof.
  destruct (set_value_outcome run built 1 _ built_reachable built_port) as (_ & Hv & Ht).
  eexists. rewrite Ht, Hv. split; [reflexivity|]. split; reflexivity.
Defined.
Lemma load_outcome_witness :
  exists s', load_from_yaml run 4 doc built = Ok tt s' /\
    (m_val <$> vars s' !! 1%nat) = Some (text "8080") /\ (m_val <$> vars s' !! 2%nat) = Some (text "a") /\
    (m_val <$> vars s' !! 3%nat) = Some (texts ["h1"; "h2"]).
Proof.
  destruct (load_outcome run 4 doc built built_reachable) as (l & s' & El & _ & Es & _ & Hx).
  { vm_compute. lia. }
  { intros [] old new w fl; done. }
  exists s'. split; [exact Es|].
  assert (forall name p x, s_datas built !! name = Some p -> vars built !! p = Some x ->
    Forall (fun e => e.2 = Some true) (m_cbs x) ->
    m_val <$> vars s' !! p = Some (said (type_of x) name l (m_val x))) as Hs.
  { intros name p x Hp Hpx Hc. destruct (Hx name p x Hp Hpx) as (v' & -> & _ & Hv & _). simpl. f_equal. apply Hv.
    intros k f Hk. eapply Forall_forall in Hc; [|exact Hk]. simpl in Hc. subst f. exists true. split; [done|]. intros. by eexists. }
  rewrite doc_members in El. injection El as <-.
  split; [|split].
  - refine (eq_trans (Hs "system.port" 1%nat _ (ltac:(by_vm)) built_port _) _); [repeat constructor|by_vm].
  - refine (eq_trans (Hs "System.name" 2%nat _ (ltac:(by_vm)) built_name _) _); [repeat constructor|by_vm].
  - refine (eq_trans (Hs "system.hosts" 3%nat _ (ltac:(by_vm)) built_hosts _) _); [repeat constructor|by_vm].
Defined.
End Config.
