(* ===== verification/Settings.v ===== *)
(** * Settings that follow the configuration: src/src/http/http_parser.cpp (_RequestSizeIniter),
    src/src/hook.cpp (_HookIniter)

    The sizes of the HTTP buffers and the connect timeout are static variables
    that are set from configuration variables when the program starts and by a
    listener whenever these change.  The rest of what listeners act on, and the
    listeners of other variables, are parameters. *)

From stdpp Require Import prelude gmap strings.
From Stdlib Require Import ZArith Lia.
From S2P Require Import Prelude Text LexicalCast Config.

Module Settings.
Import LexicalCast Config.
Local Open Scope Z_scope.

Inductive setting := s_http_request_buffer_size | s_http_request_max_body_size | s_connect_timeout.
#[global] Instance setting_eq_dec : EqDecision setting.
Proof. solve_decision. Defined.

Section settings.
Context `{Yaml, Base, Hash}.
(** The number a value of an integer type is. *)
Context (number : val -> Z).
Context {O U : Type} (other : O -> val -> val -> Prelude.cmd U unit).

(** The listeners: the ones that store the new value, and the others. *)
Inductive listener := Mirror (k : setting) | Other (f : O).
(** The static variables, before any initialisation, and what the other listeners act on. *)
Record statics := Statics { value_of : setting -> Z; rest : U }.
Definition zeroed (k : setting) : Z := match k with s_connect_timeout => u64 (-1) | _ => 0 end.
Definition store (k : setting) (v : val) (w : statics) : statics :=
  Statics (fun j => if decide (j = k) then u64 (number v) else value_of w j) (rest w).
Definition run (f : listener) (old new : val) : Prelude.cmd statics unit :=
  match f with
  | Mirror k => modify (store k new)
  | Other f => fun w => match other f old new (rest w) with
                        | Ok u r => Ok u (Statics (value_of w) r)
                        | Throw e r => Throw e (Statics (value_of w) r)
                        | Fail_ x => Fail_ x
                        end
  end.
Abbreviation state := (config (CB := listener) (W := statics)).
Abbreviation cmd := (Prelude.cmd state).

(** [s = g->get_value(); g->add_listener([](old, new) { s = new; })] *)
Definition follow (k : setting) (g : nat) : cmd unit :=
  let* v := get_value g in
  modify (fun s => set_world (store k v (world s)) s) ;;;
  let* _ := add_listener g (Some (Mirror k)) in
  ret tt.
Definition RequestSizeIniter (g_http_request_buffer_size g_http_request_max_body_size : nat) : cmd unit :=
  follow s_http_request_buffer_size g_http_request_buffer_size ;;;
  follow s_http_request_max_body_size g_http_request_max_body_size.
Definition HookIniter (g_tcp_connect_timeout : nat) : cmd unit := follow s_connect_timeout g_tcp_connect_timeout.
Definition GetHttpRequestBufferSize (s : state) : Z := value_of (world s) s_http_request_buffer_size.
Definition GetHttpRequestMaxBodySize (s : state) : Z := value_of (world s) s_http_request_max_body_size.

(** ** The settings are those of the configuration *)
(** Setting [k] follows variable [p]: its only listener stores [k], nobody else does, and [k] is its value. *)
Definition follows (k : setting) (p : nat) (s : state) : Prop :=
  exists x key, vars s !! p = Some x /\ m_cbs x = [(key, Some (Mirror k))] /\
    value_of (world s) k = u64 (number (m_val x)) /\
    forall q y key, q <> p -> vars s !! q = Some y -> (key, Some (Mirror k)) ∉ m_cbs y.

Section follows.
Context (k : setting) (p : nat).
Lemma tell_other fs old new w : Some (Mirror k) ∉ fs ->
  match tell run fs old new w with Ok _ w' | Throw _ w' => value_of w' k = value_of w k | Fail_ _ => True end.
Proof.
  revert w. induction fs as [|[f|] fs IH]; intros w Hf; cbn; [done| |done].
  apply not_elem_of_cons in Hf as [Hn Hf]. destruct f as [j|f]; cbn.
  - specialize (IH (store j new w) Hf). cbn in IH. by rewrite decide_False in IH by congruence.
  - destruct (other f old new (rest w)); [apply (IH (Statics _ _) Hf)|done..].
Qed.
(** A variable [q] gets a value, or keeps it. *)
Lemma follows_changed q x v s : vars s !! q = Some x -> follows k p s ->
  match changed run q x v s with Ok _ s' | Throw _ s' => follows k p s' | Fail_ _ => True end.
Proof.
  intros Hq (y & key & Hp & Hc & Hv & Ho). unfold changed. destruct (decide (v = m_val x)); [by exists y, key|].
  destruct (decide (q = p)) as [->|Hn].
  - rewrite Hp in Hq. injection Hq as <-. rewrite Hc. cbn. exists (with_val v y), key.
    split_and!; cbn; [by simplify_map_eq|done|by rewrite decide_True|].
    intros q z key' Hq Hz. rewrite lookup_insert_ne in Hz by done. by apply (Ho q).
  - assert (Some (Mirror k) ∉ map snd (m_cbs x)) as Hf.
    { intros ([key' f] & Ef & Hin)%list_elem_of_fmap. cbn in Ef. subst f. by apply (Ho q x key'). }
    pose proof (tell_other _ (m_val x) v (world s) Hf) as Ht.
    destruct (tell run _ _ _ _) as [u w|e w|]; [| |done]; exists y, key; split_and!; cbn; try done; try congruence.
    + by rewrite lookup_insert_ne.
    + intros q' z key' Hq' Hz. destruct (decide (q' = q)) as [->|]; simplify_map_eq; [by apply (Ho q x)|by apply (Ho q' z)].
Qed.
Lemma follows_set_value q v : keeps (follows k p) (set_value run q v).
Proof.
  intros s Hs. destruct (vars s !! q) as [x|] eqn:Hq.
  - rewrite (set_value_changed run q x v s Hq). by apply follows_changed.
  - unfold set_value, bind, var. by rewrite Hq.
Qed.
Lemma follows_from_string q t : keeps (follows k p) (from_string run q t).
Proof.
  intros s Hs. destruct (vars s !! q) as [x|] eqn:Hq.
  - rewrite (from_string_changed run q x t s Hq). destruct (from_str _ t) as [y|]; [|done].
    pose proof (follows_changed q x (existT (type_of x) y) s Hq Hs). by destruct (changed _ _ _ _ _).
  - unfold from_string, bind, var. by rewrite Hq.
Qed.
Lemma follows_load l : keeps (follows k p) (load_nodes run l).
Proof.
  induction l as [|[key n] l IH]; cbn; [auto with keeps|]. apply keeps_bind; [|auto].
  case_bool_decide; [auto with keeps|]. apply keeps_bind; [unfold lookup_base; auto with keeps|].
  intros [q|]; [apply keeps_bind; [apply follows_from_string|]|]; auto with keeps.
Qed.
(** Another variable is registered, or its listeners change. *)
Lemma follows_put q y s : q <> p -> (forall key, (key, Some (Mirror k)) ∉ m_cbs y) -> follows k p s ->
  follows k p (set_vars (<[q := y]> (vars s)) s).
Proof.
  intros Hq Hy (x & key & Hp & Hc & Hv & Ho). exists x, key. split_and!; cbn; [by rewrite lookup_insert_ne|done..|].
  intros q' z key' Hq' Hz. destruct (decide (q' = q)) as [->|]; simplify_map_eq; [done|by apply (Ho q' z)].
Qed.
Lemma follows_lookup a name v des s : vars s !! a = None -> follows k p s ->
  match lookup a name v des s with Ok _ s' | Throw _ s' => follows k p s' | Fail_ _ => True end.
Proof.
  intros Ha Hs. unfold lookup, bind, gets. destruct (s_datas s !! name) as [q|].
  - unfold var. destruct (vars s !! q); [|done]. by destruct (decide _).
  - destruct (negb _); [done|]. cbn. assert (a <> p) by (destruct Hs as (x & ? & Hp & _); congruence).
    destruct (follows_put a (new_ConfigVar name v des) s) as (x & key & ?); [done|intros key Hk; by apply elem_of_nil in Hk|done|].
    by exists x, key.
Qed.
Lemma cb_set_elem key f e l : e ∈ cb_set (CB := listener) key f l -> e = (key, f) \/ e ∈ l.
Proof.
  induction l as [|[j g] l IH]; cbn; [set_solver|]. destruct (key <? j); [set_solver|].
  destruct (j <? key); set_solver.
Qed.
(** The listeners of another variable. *)
Lemma follows_listeners q (g : ConfigVar -> ConfigVar) s :
  q <> p -> (forall x key, (key, Some (Mirror k)) ∈ m_cbs (g x) -> (key, Some (Mirror k)) ∈ m_cbs x) -> follows k p s ->
  match (let* x := var q in put q (g x)) s with Ok _ s' | Throw _ s' => follows k p s' | Fail_ _ => True end.
Proof.
  intros Hq Hg Hs. unfold bind, var. destruct (vars s !! q) as [x|] eqn:E; [|done]. cbn. apply follows_put; [done| |done].
  intros key Hk%Hg. destruct Hs as (y & key' & _ & _ & _ & Ho). by apply (Ho q x key).
Qed.

(** Everything that leaves the listeners of [p] alone. *)
Definition leaves (o : op (CB := listener)) : Prop :=
  match o with
  | AddListener q f => q <> p /\ f <> Some (Mirror k)
  | DelListener q _ | ClearListeners q => q <> p
  | _ => True
  end.
Lemma follows_op o s : leaves o -> enabled o s -> follows k p s ->
  match run_op run o s with Ok _ s' | Throw _ s' => follows k p s' | Fail_ _ => True end.
Proof.
  intros Hl He Hs. destruct o as [a name v des|q v|q t|q f|q key|q|fuel root]; cbn [run_op leaves] in *.
  - pose proof (follows_lookup a name v des s He Hs). unfold bind. by destruct (lookup _ _ _ _ _).
  - by apply follows_set_value.
  - pose proof (follows_from_string q t s Hs). unfold bind. by destruct (from_string _ _ _ _).
  - destruct Hl as [Hq Hf]. unfold add_listener, bind, var. destruct (vars s !! q) as [x|] eqn:E; [|done]. cbn.
    set (s0 := set_fun_id _ s). assert (follows k p s0) as Hs0 by done.
    apply (follows_put q _ s0); [done| |done]. intros key [[= _ Ef]|Hk]%cb_set_elem; [by subst f|].
    destruct Hs as (y & key' & _ & _ & _ & Ho). by apply (Ho q x key).
  - apply follows_listeners; [done| |done]. intros x key'. cbn. by intros [_ ?]%list_elem_of_filter.
  - apply follows_listeners; [done| |done]. intros x key'. cbn. set_solver.
  - unfold load_from_yaml. destruct (listAllMember _ _ _) as [l|]; [|done]. by apply follows_load.
Qed.
Inductive continues : state -> state -> Prop :=
  | cont_refl s : continues s s
  | cont_step o s s1 s2 : leaves o -> enabled o s -> (run_op run o s = Ok tt s1 \/ exists e, run_op run o s = Throw e s1) ->
      continues s1 s2 -> continues s s2.
Lemma follows_continues s s' : continues s s' -> follows k p s -> follows k p s'.
Proof.
  induction 1 as [|o s s1 s2 Hl He Hr _ IH]; [done|]. intros Hs. apply IH.
  pose proof (follows_op o s Hl He Hs) as H2. destruct Hr as [E|[e E]]; by rewrite E in H2.
Qed.
End follows.

(** From the initialisation on a setting is the value of its variable: after [follow] on a registered variable
    that has no listeners yet, whatever the program does with the configuration (registering, setting, loading
    a document, the listeners of other variables coming, going, and throwing) as long as it leaves the listeners
    of that variable alone, the static variable holds the current value of the configuration variable, as a
    64-bit number. *)
Theorem settings_follow (k : setting) (p : nat) (x : ConfigVar) (s : state) :
  vars s !! p = Some x -> m_cbs x = [] ->
  (forall q y key, vars s !! q = Some y -> (key, Some (Mirror k)) ∉ m_cbs y) ->
  exists s0, follow k p s = Ok tt s0 /\
    forall s', continues k p s0 s' ->
      exists x', vars s' !! p = Some x' /\ value_of (world s') k = u64 (number (m_val x')).
Proof.
  intros Hp Hc Ho. unfold follow, get_value, add_listener, bind, var. rewrite Hp. cbn. rewrite Hp. cbn.
  eexists. split; [reflexivity|]. intros s' Hs'.
  eapply follows_continues in Hs' as (x' & key & Hx' & _ & Hv & _); [by exists x'|].
  eexists _, _. cbn. split; [apply lookup_insert_eq|]. cbn. rewrite Hc. split_and!; [done|by rewrite decide_True|].
  intros q y key Hq Hy. rewrite lookup_insert_ne in Hy by done. by apply (Ho q).
Qed.
End settings.
#[global] Arguments Mirror {O} k.

(** ** Examples *)
Module Example_.
Import LexicalCast.Example_ Config.Example_.
Definition number (v : val) : Z :=
  match to_str (projT1 v) (projT2 v) with Some t => Text.undec t | None => 0 end.
(** A listener of another part of the program that throws. *)
Definition refuse (_ : unit) (_ _ : val) (u : unit) : res unit unit := Throw logic_error u.
Abbreviation state := (config (CB := listener (O := unit)) (W := statics (U := unit))).
Definition fresh_state : state := Config_ ∅ ∅ (fun _ => 0) (Statics zeroed tt).
Definition state_of {A} (r : res state A) : state := match r with Ok _ s | Throw _ s => s | Fail_ _ => fresh_state end.
Definition registered : state := state_of (lookup 1 "http.request.buffer_size" (text "4096") "size" fresh_state).
Definition followed : state := state_of (follow number s_http_request_buffer_size 1 registered).
Definition reset : state := state_of (set_value (Settings.run number refuse) 1 (text "8192") followed).

Lemma settings_follow_witness : exists x', vars reset !! 1%nat = Some x' /\
  GetHttpRequestBufferSize reset = u64 (number (m_val x')) /\ GetHttpRequestBufferSize reset = 8192.
Proof.
  destruct (settings_follow number refuse s_http_request_buffer_size 1
    (ConfigVar_ "http.request.buffer_size" "size" (text "4096") []) registered) as (s0 & E & H).
  - vm_cast_no_check (eq_refl (Some (ConfigVar_ (CB := listener (O := unit)) "http.request.buffer_size" "size" (text "4096") []))).
  - done.
  - intros q y key Hq. destruct (decide (q = 1%nat)) as [->|Hn].
    + assert (vars registered !! 1%nat = Some (ConfigVar_ "http.request.buffer_size" "size" (text "4096") [])) as E
        by (vm_cast_no_check (eq_refl (Some (ConfigVar_ (CB := listener (O := unit)) "http.request.buffer_size" "size" (text "4096") [])))).
      rewrite E in Hq. injection Hq as <-. apply not_elem_of_nil.
    + change (vars registered) with (<[1%nat := new_ConfigVar (CB := listener (O := unit)) "http.request.buffer_size" (text "4096") "size"]>
        (∅ : gmap nat (ConfigVar (CB := listener (O := unit))))) in Hq. by rewrite lookup_insert_ne in Hq.
  - destruct (H reset) as (x' & Hx' & Hv).
    + assert (s0 = followed) as -> by (unfold followed; by rewrite E).
      eapply (cont_step _ _ _ _ (SetValue 1 (text "8192"))); [done| |left; vm_cast_no_check (eq_refl (Ok (S := state) tt reset))|constructor].
      intros x Hx. assert (type_of <$> vars followed !! 1%nat = Some (TBase tt)) as Et by (vm_cast_no_check (eq_refl (Some (TBase tt)))).
      rewrite Hx in Et. by injection Et.
    + exists x'. split_and!; [done..|]. vm_cast_no_check (eq_refl 8192).
Defined.

(** ** Behaviour that is not intended *)
(** Listeners are called before the value is stored: when one behind the setting's own throws, the setting has
    the new value and the variable keeps the old one. *)
Definition with_refusal : state := state_of (add_listener 1 (Some (Other tt)) followed).
Example setting_ahead :
  let s := state_of (set_value (Settings.run number refuse) 1 (text "8192") with_refusal) in
  GetHttpRequestBufferSize s = 8192 /\ (number ∘ m_val <$> vars s !! 1%nat) = Some 4096.
Proof. vm_cast_no_check (conj (eq_refl 8192) (eq_refl (Some 4096))). Qed.
End Example_.
End Settings.
