(* ===== verification/LogFormatter.v ===== *)
(** * Log events and patterns: src/src/log.h, src/src/log.cpp (LogLevel, LogEvent, LogFormatter)

    Levels, events, the items of a pattern, the parser of patterns and the text of
    an event.  An address of a logger is a number; the name of the logger of an
    event is looked up by [logger_name].  The text [strftime] makes of a time in the
    local time zone is the parameter [strftime]; the messages the parser prints
    on the console are left out. *)

From stdpp Require Import prelude strings.
From Stdlib Require Import ZArith Lia Ascii.
From S2P Require Import Prelude Text.

Module LogFormatter.
Import Text.
Local Open Scope string_scope.
Local Open Scope list_scope.
Local Open Scope Z_scope.

(** ** Levels *)

Definition UNKNOWN : Z := 0.
Definition DEBUG : Z := 1.
Definition INFO : Z := 2.
Definition WARN : Z := 3.
Definition ERROR : Z := 4.
Definition FATAL : Z := 5.

Definition level_from_string (v : string) : Z :=
  if decide (v = "debug") then DEBUG else
  if decide (v = "info") then INFO else
  if decide (v = "warn") then WARN else
  if decide (v = "error") then ERROR else
  if decide (v = "fatal") then FATAL else
  if decide (v = "DEBUG") then DEBUG else
  if decide (v = "INFO") then INFO else
  if decide (v = "WARN") then WARN else
  if decide (v = "ERROR") then ERROR else
  if decide (v = "FATAL") then FATAL else
  UNKNOWN.
Definition level_to_string (level : Z) : string :=
  match level with
  | 1 => "DEBUG" | 2 => "INFO" | 3 => "WARN" | 4 => "ERROR" | 5 => "FATAL" | _ => "UNKNOWN"
  end.

(** ** Events *)

Record LogEvent := LogEvent_ {
  m_file : string;
  m_line : Z;
  m_elapse : Z;
  m_thread_id : Z;
  m_thread_name : string;
  m_fiber_id : Z;
  m_time : Z;
  m_ss : string;
  m_logger : nat;
  m_level : Z
}.
Definition new_LogEvent (logger : nat) (level : Z) (file : string) (line elapse thread_id : Z)
    (thread_name : string) (fiber_id time : Z) : LogEvent :=
  LogEvent_ file (u32 line) (u32 elapse) (u32 thread_id) thread_name (u32 fiber_id) (u64 time) "" logger level.
(** [get_ss() << s] *)
Definition stream (s : string) (e : LogEvent) : LogEvent :=
  LogEvent_ (m_file e) (m_line e) (m_elapse e) (m_thread_id e) (m_thread_name e) (m_fiber_id e) (m_time e)
    (m_ss e +:+ s) (m_logger e) (m_level e).
(** [format(fmt, ...)]: [printed] is what [vasprintf] makes of the format, if it
    does not fail. *)
Definition event_format (printed : option string) (e : LogEvent) : LogEvent :=
  match printed with Some s => stream s e | None => e end.
Definition get_time (e : LogEvent) : Z := u32 (m_time e).

(** ** The items of a pattern *)

Inductive FormatItem :=
  | MessageFormatItem
  | LevelFormatItem
  | ElapseFormatItem
  | ThreadIdFormatItem
  | ThreadNameFormatItem
  | NameFormatItem
  | FiberIdFormatItem
  | DateTimeFormatItem (m_format : string)
  | FilenameFormatItem
  | LineFormatItem
  | NewLineFormatItem
  | TabFormatItem
  | StringFormatItem (m_string : string).
#[export] Instance FormatItem_eq_dec : EqDecision FormatItem.
Proof. solve_decision. Defined.

Definition new_DateTimeFormatItem (format : string) : FormatItem :=
  DateTimeFormatItem (if decide (format = "") then "%Y-%m-%d %H:%M:%S" else format).

Definition newline : string := String (ascii_of_nat 10) "".
Definition tab : string := String (ascii_of_nat 9) "".

Section format.
Context (strftime : string -> Z -> string) (logger_name : nat -> option string).

(** The text does not fit: the buffer of 64 bytes holds nothing defined. *)
Definition datetime (m_format : string) (time : Z) : option string :=
  let text := strftime m_format time in
  if Z.of_nat (String.length text) <? 64 then Some text else None.

(** What an item writes; [None] is undefined behaviour. *)
Definition item_format (i : FormatItem) (event : LogEvent) : option string :=
  match i with
  | MessageFormatItem => Some (m_ss event)
  | LevelFormatItem => Some (level_to_string (m_level event))
  | ElapseFormatItem => Some (dec (m_elapse event))
  | ThreadIdFormatItem => Some (dec (m_thread_id event))
  | ThreadNameFormatItem => Some (m_thread_name event)
  | NameFormatItem => logger_name (m_logger event)
  | FiberIdFormatItem => Some (dec (m_fiber_id event))
  | DateTimeFormatItem m_format => datetime m_format (get_time event)
  | FilenameFormatItem => Some (m_file event)
  | LineFormatItem => Some (dec (m_line event))
  | NewLineFormatItem => Some newline
  | TabFormatItem => Some tab
  | StringFormatItem m_string => Some m_string
  end.
Fixpoint format_items (l : list FormatItem) (event : LogEvent) : option string :=
  match l with
  | [] => Some ""
  | i :: l => a ← item_format i event; b ← format_items l event; Some (a +:+ b)
  end.
End format.

(** ** The parser of patterns *)

Record LogFormatter := LogFormatter_ {
  m_pattern : string;
  m_items : list FormatItem;
  m_error : bool
}.
Definition format (strftime : string -> Z -> string) (logger_name : nat -> option string)
    (f : LogFormatter) (event : LogEvent) : option string :=
  format_items strftime logger_name (m_items f) event.

Definition isalpha (c : ascii) : bool :=
  ((65 <=? code c) && (code c <=? 90)) || ((97 <=? code c) && (code c <=? 122)).
(** [s[i]] *)
Definition at_ (s : string) (i : nat) : ascii := match String.get i s with Some c => c | None => ascii_of_nat 0 end.
(** [s.substr(pos)] *)
Definition substr_from (pos : nat) (s : string) : string := String.substring pos (String.length s - pos) s.
Definition ch (a c : ascii) : bool := bool_decide (a = c).

(** The loop over [n]: where it ends, with [fmt_status], [str] and [fmt]. *)
Fixpoint scan (fuel : nat) (p : string) (i n : nat) (fmt_status : Z) (fmt_begin : nat) (str fmt : string)
    : option (nat * Z * string * string) :=
  match fuel with
  | O => None
  | S fuel =>
    if (n <? String.length p)%nat then
      let c := at_ p n in
      if (fmt_status =? 0) && (negb (isalpha c) && negb (ch c "{") && negb (ch c "}"))
      then Some (n, fmt_status, String.substring (i + 1) (n - i - 1) p, fmt)
      else if (fmt_status =? 0) && ch c "{"
      then scan fuel p i (n + 1) 1 n (String.substring (i + 1) (n - i - 1) p) fmt
      else if negb (fmt_status =? 0) && (fmt_status =? 1) && ch c "}"
      then Some ((n + 1)%nat, 0, str, String.substring (fmt_begin + 1) (n - fmt_begin - 1) p)
      else
        let n := (n + 1)%nat in
        let str := if (n =? String.length p)%nat && bool_decide (str = "") then substr_from (i + 1) p else str in
        scan fuel p i n fmt_status fmt_begin str fmt
    else Some (n, fmt_status, str, fmt)
  end.

Definition piece : Type := string * string * Z.
(** The loop over [i], with [nstr], [vec] and [m_error]. *)
Fixpoint parse (fuel : nat) (p : string) (i : nat) (nstr : string) (vec : list piece) (err : bool)
    : option (string * list piece * bool) :=
  match fuel with
  | O => None
  | S fuel =>
    if (i <? String.length p)%nat then
      if negb (ch (at_ p i) "%") then parse fuel p (i + 1) (nstr +:+ String (at_ p i) "") vec err
      else if (i + 1 <? String.length p)%nat && ch (at_ p (i + 1)) "%"
      then parse fuel p (i + 1) (nstr +:+ "%") vec err
      else
        '(n, fmt_status, str, fmt) ← scan (S (String.length p)) p i (i + 1) 0 0 "" "";
        if fmt_status =? 0 then
          let vec := if decide (nstr = "") then vec else vec ++ [(nstr, "", 0)] in
          parse fuel p (n - 1 + 1) "" (vec ++ [(str, fmt, 1)]) err
        else if fmt_status =? 1 then
          parse fuel p (i + 1) nstr (vec ++ [("<<parse_error>>", fmt, 0)]) true
        else parse fuel p (i + 1) nstr vec err
    else Some (nstr, vec, err)
  end.
(** After the loop. *)
Definition pieces (p : string) (err : bool) : option (list piece * bool) :=
  '(nstr, vec, err) ← parse (S (String.length p)) p 0 "" [] err;
  Some (if decide (nstr = "") then vec else vec ++ [(nstr, "", 0)], err).

(** [s_format_items] *)
Definition s_format_items : list (string * (string -> FormatItem)) :=
  [("m", fun _ => MessageFormatItem); ("p", fun _ => LevelFormatItem); ("r", fun _ => ElapseFormatItem);
   ("c", fun _ => NameFormatItem); ("t", fun _ => ThreadIdFormatItem); ("n", fun _ => NewLineFormatItem);
   ("d", new_DateTimeFormatItem); ("f", fun _ => FilenameFormatItem); ("l", fun _ => LineFormatItem);
   ("T", fun _ => TabFormatItem); ("F", fun _ => FiberIdFormatItem); ("N", fun _ => ThreadNameFormatItem)].
Definition find_item (str : string) : option (string -> FormatItem) :=
  snd <$> List.find (fun e => bool_decide (e.1 = str)) s_format_items.

(** The loop over [vec]: the item and whether it is an error. *)
Definition make_item (x : piece) : FormatItem * bool :=
  let '(str, fmt, type) := x in
  if type =? 0 then (StringFormatItem str, false)
  else match find_item str with
       | None => (StringFormatItem ("<<error_format %" +:+ str +:+ ">>"), true)
       | Some mk => (mk fmt, false)
       end.
Definition init (f : LogFormatter) : option LogFormatter :=
  '(vec, err) ← pieces (m_pattern f) (m_error f);
  let made := make_item <$> vec in
  Some (LogFormatter_ (m_pattern f) (m_items f ++ made.*1) (err || existsb snd made)).
Definition new_LogFormatter (pattern : string) : option LogFormatter := init (LogFormatter_ pattern [] false).

Definition default_pattern : string := "%d{%Y-%m-%d %H:%M:%S} %t(%N):%F [%p] [%c] %f:%l %m %n".
Example default_items : m_items <$> new_LogFormatter default_pattern = Some
  [DateTimeFormatItem "%Y-%m-%d %H:%M:%S"; StringFormatItem " "; ThreadIdFormatItem; StringFormatItem "(";
   ThreadNameFormatItem; StringFormatItem "):"; FiberIdFormatItem; StringFormatItem " ["; LevelFormatItem;
   StringFormatItem "] ["; NameFormatItem; StringFormatItem "] "; FilenameFormatItem; StringFormatItem ":";
   LineFormatItem; StringFormatItem " "; MessageFormatItem; StringFormatItem " "; NewLineFormatItem].
Proof. vm_compute. reflexivity. Qed.
(** The second character of [%%] starts a directive: [%%m] is a percent sign and
    the message, and a closing [%%] is an error. *)
Example percent_message : m_items <$> new_LogFormatter "%%m" = Some [StringFormatItem "%"; MessageFormatItem].
Proof. vm_compute. reflexivity. Qed.
Example percent_end : new_LogFormatter "100%%" =
  Some (LogFormatter_ "100%%" [StringFormatItem "100%"; StringFormatItem "<<error_format %>>"] true).
Proof. vm_compute. reflexivity. Qed.
(** An open brace that is not closed: the mark of the error comes before the text
    in front of it. *)
Example unclosed_brace : new_LogFormatter "at %d{%H" =
  Some (LogFormatter_ "at %d{%H" [StringFormatItem "<<parse_error>>"; StringFormatItem "at d{";
        StringFormatItem "<<error_format %H>>"] true).
Proof. vm_compute. reflexivity. Qed.

(** ** The parser ends *)

Lemma scan_ends fuel : forall p i n st b str fmt,
  (String.length p - n < fuel)%nat -> st = 0 \/ st = 1 ->
  exists n' st' str' fmt', scan fuel p i n st b str fmt = Some (n', st', str', fmt') /\ (n <= n')%nat /\ (st' = 0 \/ st' = 1).
Proof.
  induction fuel as [|fuel IH]; intros p i n st b str fmt Hf Hst; [lia|]. cbn [scan].
  destruct (Nat.ltb_spec n (String.length p)) as [Hn|Hn]; [|by eauto 10].
  destruct ((st =? 0) && _); [by eauto 10|]. destruct ((st =? 0) && _).
  { destruct (IH p i (n + 1)%nat 1 n (String.substring (i + 1) (n - i - 1) p) fmt) as (n' & st' & s' & f' & E & Hle & Hs');
      [lia|by right|]. exists n', st', s', f'. split; [done|]. split; [lia|done]. }
  destruct (negb (st =? 0) && _ && _); [exists (n + 1)%nat; eauto 10 with lia|].
  match goal with |- context [scan fuel p i ?m st b ?s fmt] =>
    destruct (IH p i m st b s fmt) as (n' & st' & s' & f' & E & Hle & Hs'); [lia|done|] end.
  exists n', st', s', f'. split; [done|]. split; [lia|done].
Qed.
Lemma parse_ends fuel : forall p i nstr vec err, (String.length p - i < fuel)%nat ->
  exists r, parse fuel p i nstr vec err = Some r.
Proof.
  induction fuel as [|fuel IH]; intros p i nstr vec err Hf; [lia|]. cbn [parse].
  destruct (Nat.ltb_spec i (String.length p)) as [Hi|Hi]; [|by eauto].
  destruct (negb _); [apply IH; lia|]. destruct (_ && _); [apply IH; lia|].
  destruct (scan_ends (S (String.length p)) p i (i + 1) 0 0 "" "") as (n & st & str & fmt & -> & Hn & Hst);
    [lia|by left|]. cbn [mbind option_bind]. destruct (st =? 0); [apply IH; lia|]. destruct (st =? 1); apply IH; lia.
Qed.

(** ** Patterns in the grammar of the parser *)

(** Text, [%key] and [%key{format}]. *)
Inductive token :=
  | Lit (s : string)
  | Dir (k : string) (f : option string).
Definition render_token (t : token) : string :=
  match t with
  | Lit s => s
  | Dir k None => "%" +:+ k
  | Dir k (Some f) => "%" +:+ k +:+ "{" +:+ f +:+ "}"
  end.
Fixpoint render (ts : list token) : string :=
  match ts with [] => "" | t :: ts => render_token t +:+ render ts end.

(** What the parser takes into a key: letters and closing braces.  What follows [%key] is not read as a
    part of it. *)
Definition key_char (c : ascii) : Prop := isalpha c = true \/ c = "}"%char.
Definition ends_key (c : ascii) : Prop := isalpha c = false /\ c <> "{"%char /\ c <> "}"%char.
Definition stops (s : string) : Prop := match s with EmptyString => True | String c _ => ends_key c end.
Definition starts_lit (ts : list token) : Prop := match ts with Lit _ :: _ => True | _ => False end.
Fixpoint wf (ts : list token) : Prop :=
  match ts with
  | [] => True
  | Lit s :: ts => s <> "" /\ all_chars (fun c => c <> "%"%char) s /\ ~ starts_lit ts /\ wf ts
  | Dir k None :: ts => k <> "" /\ all_chars key_char k /\ stops (render ts) /\ wf ts
  | Dir k (Some f) :: ts => all_chars key_char k /\ all_chars (fun c => c <> "}"%char) f /\ wf ts
  end.
#[export] Instance wf_dec ts : Decision (wf ts).
Proof.
  induction ts as [|[s|k [f|]] ts IH]; simpl; try apply _.
  - destruct ts as [|[]]; simpl; apply _.
  - destruct (render ts); simpl; unfold ends_key; apply _.
Defined.
Definition piece_of (t : token) : piece :=
  match t with Lit s => (s, "", 0) | Dir k f => (k, default "" f, 1) end.

(** ** One directive *)

Lemma at_mid a c b : at_ (a +:+ String c b) (String.length a) = c.
Proof. unfold at_. by rewrite <- (Nat.add_0_r (String.length a)), get_app_s. Qed.
Lemma snoc_app a c b : a +:+ String c b = (a +:+ String c "") +:+ b.
Proof. by rewrite app_assoc_s. Qed.
Lemma key_not_brace c : key_char c -> ch c "{" = false /\ negb (isalpha c) && negb (ch c "{") && negb (ch c "}") = false.
Proof.
  intros Hc. assert (ch c "{" = false) as -> by (apply bool_decide_eq_false; intros ->; by destruct Hc).
  split; [done|]. destruct Hc as [->| ->]; done.
Qed.

(** The characters the loop steps over. *)
Definition passes (st : Z) (c : ascii) : Prop := st = 0 /\ key_char c \/ st = 1 /\ c <> "}"%char.
Lemma scan_pass fuel a c b i st bg str fmt : passes st c -> b <> "" ->
  scan (S fuel) (a +:+ String c b) i (String.length a) st bg str fmt =
  scan fuel (a +:+ String c b) i (String.length (a +:+ String c "")) st bg str fmt.
Proof.
  intros Hc Hb. cbn [scan]. rewrite at_mid, !length_app_s. cbn [String.length].
  assert ((String.length a <? String.length a + S (String.length b))%nat = true) as -> by (apply Nat.ltb_lt; lia).
  assert ((String.length a + 1 =? String.length a + S (String.length b))%nat = false) as ->.
  { apply Nat.eqb_neq. destruct b; [done|]. simpl. lia. }
  destruct Hc as [[-> Hc]|[-> Hc]]; simpl.
  - destruct (key_not_brace c Hc) as [E1 E2]. by rewrite E2, E1.
  - unfold ch. by rewrite bool_decide_eq_false_2.
Qed.
Lemma scan_run s : forall fuel a rest i st bg str fmt, all_chars (passes st) s -> rest <> "" ->
  scan (String.length s + fuel) (a +:+ s +:+ rest) i (String.length a) st bg str fmt =
  scan fuel (a +:+ s +:+ rest) i (String.length (a +:+ s)) st bg str fmt.
Proof.
  induction s as [|c s IH]; intros fuel a rest i st bg str fmt Hs Hr.
  { by rewrite app_empty_s. }
  destruct Hs as [Hc Hs]. change (String c s +:+ rest) with (String c (s +:+ rest)).
  cbn [String.length Nat.add]. rewrite scan_pass; [|done|by destruct s].
  rewrite (snoc_app a c (s +:+ rest)), (snoc_app a c s). by apply IH.
Qed.
Lemma letters_pass k : all_chars key_char k -> all_chars (passes 0) k.
Proof. apply all_chars_impl. intros c Hc. by left. Qed.

(** The key of the directive at the end of [pre]. *)
Lemma key_text pre k rest :
  String.substring (String.length pre + 1) (String.length (pre +:+ "%" +:+ k) - String.length pre - 1)
    (pre +:+ "%" +:+ k +:+ rest) = k.
Proof.
  rewrite !length_app_s. cbn [String.length].
  replace (String.length pre + (1 + String.length k) - String.length pre - 1)%nat with (String.length k) by lia.
  rewrite substring_skip. exact (substring_mid "%" k rest).
Qed.

Lemma scan_stop fuel pre k c rest : all_chars key_char k -> ends_key c ->
  scan (String.length k + S fuel) (pre +:+ "%" +:+ k +:+ String c rest) (String.length pre)
    (String.length pre + 1) 0 0 "" "" = Some (String.length (pre +:+ "%" +:+ k), 0, k, "").
Proof.
  intros Hk (Hc & Hc1 & Hc2). rewrite <- (app_assoc_s pre "%"), <- (app_assoc_s pre "%").
  replace (String.length pre + 1)%nat with (String.length (pre +:+ "%")) by (by rewrite length_app_s).
  rewrite scan_run; [|by apply letters_pass|done]. cbn [scan].
  rewrite <- (app_assoc_s _ k), at_mid, Hc. unfold ch. rewrite !bool_decide_eq_false_2 by done.
  rewrite (length_app_s _ (String c rest)). cbn [String.length].
  rewrite (proj2 (Nat.ltb_lt _ _)) by lia. simpl. by rewrite !(app_assoc_s pre "%"), !app_assoc_s, key_text.
Qed.
Lemma last_char k : k <> "" -> exists k' c, k = k' +:+ String c "".
Proof.
  induction k as [|c k IH]; [done|intros _]. destruct k as [|d k]; [by exists "", c|].
  destruct IH as (k' & e & ->); [done|]. by exists (String c k'), e.
Qed.
Lemma scan_end fuel pre k : all_chars key_char k -> k <> "" ->
  scan (String.length k + S fuel) (pre +:+ "%" +:+ k) (String.length pre) (String.length pre + 1) 0 0 "" "" =
  Some (String.length (pre +:+ "%" +:+ k), 0, k, "").
Proof.
  intros Hk (k' & c & E)%last_char. pose proof Hk as Hk'. rewrite E in Hk'. apply all_chars_app in Hk' as [Hk' [Hc _]].
  assert (String.length k = String.length k' + 1)%nat as El by (rewrite E; apply length_app_s).
  assert (String.length (pre +:+ "%" +:+ k) = String.length ((pre +:+ "%") +:+ k') + 1)%nat as Ep.
  { rewrite !length_app_s, El. simpl. lia. }
  replace (String.length pre + 1)%nat with (String.length (pre +:+ "%")) by (by rewrite length_app_s).
  rewrite El, <- (Nat.add_assoc _ 1). rewrite E at 1. rewrite <- (app_assoc_s pre "%" (k' +:+ _)).
  rewrite scan_run; [|by apply letters_pass|done]. cbn [scan Nat.add].
  rewrite <- (app_assoc_s (pre +:+ "%") k'), at_mid.
  destruct (key_not_brace c Hc) as [K1 K2]. rewrite K2, K1.
  rewrite (length_app_s ((pre +:+ "%") +:+ k') (String c "")). cbn [String.length].
  rewrite (proj2 (Nat.ltb_lt _ _)), Nat.eqb_refl, Nat.ltb_irrefl by lia. simpl.
  rewrite Ep. do 3 f_equal. unfold substr_from. rewrite !app_assoc_s, <- E, substring_skip.
  replace (String.length (pre +:+ "%" +:+ k) - (String.length pre + 1))%nat with (String.length k).
  { rewrite <- (app_empty_s k) at 2. exact (substring_mid "%" k ""). }
  rewrite !length_app_s. simpl. lia.
Qed.
Lemma scan_brace fuel pre k f rest : all_chars key_char k -> all_chars (fun c => c <> "}"%char) f ->
  scan (String.length k + S (String.length f + S fuel)) (pre +:+ "%" +:+ k +:+ "{" +:+ f +:+ "}" +:+ rest)
    (String.length pre) (String.length pre + 1) 0 0 "" "" =
  Some (String.length (pre +:+ "%" +:+ k +:+ "{" +:+ f +:+ "}"), 0, k, f).
Proof.
  intros Hk Hf. assert (pre +:+ "%" +:+ k +:+ "{" +:+ f +:+ "}" +:+ rest =
    (pre +:+ "%") +:+ k +:+ String "{" (f +:+ "}" +:+ rest)) as E1 by (by rewrite app_assoc_s).
  replace (String.length pre + 1)%nat with (String.length (pre +:+ "%")) by (by rewrite length_app_s).
  rewrite E1. rewrite scan_run; [|by apply letters_pass|done]. cbn [scan].
  rewrite <- (app_assoc_s (pre +:+ "%") k), at_mid.
  rewrite (length_app_s ((pre +:+ "%") +:+ k) (String "{" _)). cbn [String.length].
  rewrite (proj2 (Nat.ltb_lt _ _)) by lia. simpl Z.eqb. cbn [andb negb ch bool_decide].
  assert (ch "{" "{" = true /\ isalpha "{" = false) as [-> ->] by done. cbn [andb negb].
  set (a := (pre +:+ "%") +:+ k). rewrite (snoc_app a "{" (f +:+ _)).
  replace (String.length a + 1)%nat with (String.length (a +:+ "{")) by (by rewrite length_app_s).
  rewrite scan_run; [|eapply all_chars_impl; [|exact Hf]; intros c Hc; by right|done]. cbn [scan].
  rewrite <- (app_assoc_s (a +:+ "{") f). change ("}" +:+ rest) with (String "}" rest). rewrite at_mid.
  rewrite (length_app_s ((a +:+ "{") +:+ f) (String "}" _)). cbn [String.length].
  rewrite (proj2 (Nat.ltb_lt _ _)) by lia. simpl Z.eqb. cbn [andb negb].
  assert (ch "}" "}" = true) as -> by done. do 3 f_equal.
  - f_equal. unfold a. rewrite !length_app_s. simpl. lia.
  - unfold a. rewrite !app_assoc_s. apply (key_text pre k).
  - rewrite !length_app_s. cbn [String.length].
    replace (String.length a + 1 + String.length f - String.length a - 1)%nat with (String.length f) by lia.
    rewrite !app_assoc_s, substring_skip. exact (substring_mid "{" f _).
Qed.

(** ** The tokens of a pattern *)

Definition dir_ok (k : string) (f : option string) (post : string) : Prop :=
  all_chars key_char k /\
  match f with None => k <> "" /\ stops post | Some f => all_chars (fun c => c <> "}"%char) f end.
Lemma scan_dir pre k f post : dir_ok k f post ->
  let p := pre +:+ render_token (Dir k f) +:+ post in
  scan (S (String.length p)) p (String.length pre) (String.length pre + 1) 0 0 "" "" =
  Some (String.length (pre +:+ render_token (Dir k f)), 0, k, default "" f).
Proof.
  intros [Hk Hf] p. destruct f as [f|]; cbn [render_token] in *.
  - change (default "" (Some f)) with f. assert (p = pre +:+ "%" +:+ k +:+ "{" +:+ f +:+ "}" +:+ post) as Ep by (unfold p; by rewrite !app_assoc_s).
    rewrite Ep. rewrite <- (scan_brace (S (S (String.length pre + String.length post))) pre k f post Hk Hf). f_equal.
    rewrite !length_app_s. simpl. lia.
  - change (default "" None) with "". destruct Hf as [Hne Hp]. unfold p. rewrite app_assoc_s. destruct post as [|c post].
    + rewrite app_empty_s. rewrite <- (scan_end (S (String.length pre)) pre k Hk Hne). f_equal.
      rewrite !length_app_s. simpl. lia.
    + rewrite <- (scan_stop (S (S (String.length pre + String.length post))) pre k c post Hk Hp). f_equal.
      rewrite !length_app_s. simpl. lia.
Qed.
(** The character after the percent sign is not another one. *)
Lemma after_percent pre k f post : dir_ok k f post ->
  let p := pre +:+ render_token (Dir k f) +:+ post in
  at_ p (String.length pre) = "%"%char /\ ch (at_ p (String.length pre + 1)) "%" = false.
Proof.
  intros [Hk Hf] p.
  assert (exists c r, p = pre +:+ String "%" (String c r) /\ c <> "%"%char) as (c & r & -> & Hc).
  { unfold p. destruct f as [f|]; simpl in *.
    - destruct k as [|c k]; [by exists "{"%char, ((f +:+ "}") +:+ post)|]. destruct Hk as [Hc _].
      eexists c, _. split; [reflexivity|]. intros ->. by destruct Hc.
    - destruct k as [|c k]; [by destruct Hf|]. destruct Hk as [Hc _].
      eexists c, _. split; [reflexivity|]. intros ->. by destruct Hc. }
  split; [apply at_mid|]. rewrite snoc_app.
  replace (String.length pre + 1)%nat with (String.length (pre +:+ "%")) by (by rewrite length_app_s).
  rewrite at_mid. by apply bool_decide_eq_false_2.
Qed.

Definition flush (nstr : string) : list piece := if decide (nstr = "") then [] else [(nstr, "", 0)].
Lemma parse_dir fuel pre k f post nstr vec err : dir_ok k f post ->
  let p := pre +:+ render_token (Dir k f) +:+ post in
  parse (S fuel) p (String.length pre) nstr vec err =
  parse fuel p (String.length (pre +:+ render_token (Dir k f))) "" (vec ++ flush nstr ++ [piece_of (Dir k f)]) err.
Proof.
  intros Hd p. destruct (after_percent pre k f post Hd) as [E1 E2]. fold p in E1, E2.
  assert (String.length pre + 1 <= String.length (pre +:+ render_token (Dir k f)) <= String.length p)%nat as Hl.
  { unfold p. rewrite !length_app_s. destruct f; simpl; lia. }
  cbn [parse]. rewrite (proj2 (Nat.ltb_lt (String.length pre) _)) by lia. rewrite E1, E2, andb_false_r. simpl negb.
  pose proof (scan_dir pre k f post Hd) as Es. cbv zeta in Es. fold p in Es. rewrite Es. cbn [mbind option_bind]. simpl Z.eqb. cbn match.
  replace (String.length (pre +:+ render_token (Dir k f)) - 1 + 1)%nat
    with (String.length (pre +:+ render_token (Dir k f))) by lia. f_equal.
  unfold flush. destruct (decide (nstr = "")); [done|]. by rewrite <- (assoc_L (++)).
Qed.
Lemma parse_lit s : forall fuel pre post nstr vec err, all_chars (fun c => c <> "%"%char) s ->
  parse (String.length s + fuel) (pre +:+ s +:+ post) (String.length pre) nstr vec err =
  parse fuel (pre +:+ s +:+ post) (String.length (pre +:+ s)) (nstr +:+ s) vec err.
Proof.
  induction s as [|c s IH]; intros fuel pre post nstr vec err Hs; [by rewrite !app_empty_s|].
  destruct Hs as [Hc Hs]. change (String c s +:+ post) with (String c (s +:+ post)). cbn [parse String.length Nat.add].
  rewrite at_mid, (length_app_s pre (String c _)). cbn [String.length].
  rewrite (proj2 (Nat.ltb_lt _ _)) by lia. unfold ch at 1. rewrite bool_decide_eq_false_2 by done. simpl negb. cbn match.
  replace (String.length pre + 1)%nat with (String.length (pre +:+ String c "")) by (by rewrite length_app_s).
  rewrite (snoc_app pre c (s +:+ post)), (snoc_app pre c s), (snoc_app nstr c s). by apply IH.
Qed.

Lemma parse_tokens ts : forall fuel pre nstr vec err,
  wf ts -> (starts_lit ts -> nstr = "") -> (String.length (render ts) < fuel)%nat ->
  exists nstr' vec', parse fuel (pre +:+ render ts) (String.length pre) nstr vec err = Some (nstr', vec', err) /\
    vec' ++ flush nstr' = vec ++ flush nstr ++ (piece_of <$> ts).
Proof.
  induction ts as [|t ts IH]; intros fuel pre nstr vec err Hwf Hn Hf.
  { destruct fuel as [|fuel]; [lia|]. cbn [parse render]. rewrite app_empty_s, Nat.ltb_irrefl.
    exists nstr, vec. split; [done|]. rewrite fmap_nil. by rewrite (right_id_L [] (++)). }
  destruct t as [s|k f].
  - destruct Hwf as (Hne & Hs & Hl & Hwf). rewrite (Hn I). cbn [render render_token] in *. rewrite length_app_s in Hf.
    replace fuel with (String.length s + (fuel - String.length s))%nat by lia. rewrite parse_lit by done.
    rewrite <- app_assoc_s. destruct (IH (fuel - String.length s)%nat (pre +:+ s) ("" +:+ s) vec err Hwf) as (n' & v' & E & Ev);
      [by intros ?|lia|].
    exists n', v'. split; [exact E|]. rewrite Ev. unfold flush at 1 2. by rewrite decide_False, decide_True.
  - assert (dir_ok k f (render ts) /\ wf ts) as [Hd Hwf'] by (destruct f; simpl in Hwf; unfold dir_ok; tauto).
    destruct fuel as [|fuel]; [lia|]. cbn [render] in *. rewrite parse_dir by done. rewrite <- app_assoc_s.
    rewrite length_app_s in Hf.
    destruct (IH fuel (pre +:+ render_token (Dir k f)) "" (vec ++ flush nstr ++ [piece_of (Dir k f)]) err Hwf') as (n' & v' & E & Ev);
      [done|destruct f; simpl in Hf; lia|].
    exists n', v'. split; [exact E|]. rewrite Ev. unfold flush at 2. rewrite decide_True by done. simpl.
    by rewrite <- !(assoc_L (++)).
Qed.
Lemma pieces_tokens ts err : wf ts -> pieces (render ts) err = Some (piece_of <$> ts, err).
Proof.
  intros Hwf. destruct (parse_tokens ts (S (String.length (render ts))) "" "" [] err Hwf) as (n & v & E & Ev); [done|lia|].
  unfold pieces. change ("" +:+ render ts) with (render ts) in E. change (String.length "") with 0%nat in E.
  rewrite E. cbn [mbind option_bind]. simpl in Ev. rewrite <- Ev. unfold flush.
  destruct (decide (n = "")); [by rewrite (right_id_L [] (++))|done].
Qed.

(** ** What a pattern means *)

(** The text of [%k{f}] in the documentation of the patterns. *)
Definition directive_text (strftime : string -> Z -> string) (logger_name : nat -> option string)
    (k f : string) (e : LogEvent) : option string :=
  if decide ("m" = k) then Some (m_ss e) else
  if decide ("p" = k) then Some (level_to_string (m_level e)) else
  if decide ("r" = k) then Some (dec (m_elapse e)) else
  if decide ("c" = k) then logger_name (m_logger e) else
  if decide ("t" = k) then Some (dec (m_thread_id e)) else
  if decide ("n" = k) then Some newline else
  if decide ("d" = k) then datetime strftime (if decide (f = "") then "%Y-%m-%d %H:%M:%S" else f) (u32 (m_time e)) else
  if decide ("f" = k) then Some (m_file e) else
  if decide ("l" = k) then Some (dec (m_line e)) else
  if decide ("T" = k) then Some tab else
  if decide ("F" = k) then Some (dec (m_fiber_id e)) else
  if decide ("N" = k) then Some (m_thread_name e) else
  Some ("<<error_format %" +:+ k +:+ ">>").
Definition known_keys : list string := ["m"; "p"; "r"; "c"; "t"; "n"; "d"; "f"; "l"; "T"; "F"; "N"].
Definition token_text (strftime : string -> Z -> string) (logger_name : nat -> option string)
    (e : LogEvent) (t : token) : option string :=
  match t with Lit s => Some s | Dir k f => directive_text strftime logger_name k (default "" f) e end.
Definition unknown (t : token) : Prop := match t with Lit _ => False | Dir k _ => k ∉ known_keys end.

Lemma make_item_token strftime logger_name e t :
  item_format strftime logger_name (make_item (piece_of t)).1 e = token_text strftime logger_name e t.
Proof.
  destruct t as [s|k f]; [done|]. unfold make_item, piece_of, token_text, find_item, s_format_items, directive_text.
  simpl Z.eqb. cbn match. cbn [List.find fst snd].
  repeat match goal with |- context [if decide (?a = k) then _ else _] =>
    destruct (decide (a = k)) as [E|E]; [rewrite (bool_decide_eq_true_2 _ E); done|rewrite (bool_decide_eq_false_2 _ E); clear E] end.
  done.
Qed.
Lemma make_item_error t : (make_item (piece_of t)).2 = true <-> unknown t.
Proof.
  destruct t as [s|k f]; [done|]. unfold make_item, piece_of, unknown, find_item, s_format_items, known_keys.
  simpl Z.eqb. cbn match. cbn [List.find fst snd].
  repeat match goal with |- context [if bool_decide (?a = k) then _ else _] =>
    destruct (decide (a = k)) as [E|Hne];
      [rewrite (bool_decide_eq_true_2 _ E); subst k; split; [done|];
         intros []; apply (bool_decide_unpack _); vm_compute; exact I|rewrite (bool_decide_eq_false_2 _ Hne); revert Hne]
  end.
  intros. split; [intros _|done]. rewrite !not_elem_of_cons. split_and!; [congruence..|apply not_elem_of_nil].
Qed.

Lemma new_formatter p : exists f, new_LogFormatter p = Some f /\ m_pattern f = p.
Proof.
  unfold new_LogFormatter, init, pieces. cbn [m_pattern m_items m_error].
  destruct (parse_ends (S (String.length p)) p 0 "" [] false) as [[[nstr vec] err] ->]; [lia|]. by eexists.
Qed.
Lemma format_tokens strftime logger_name e ts :
  format_items strftime logger_name (make_item <$> (piece_of <$> ts)).*1 e =
  (foldr String.append "") <$> mapM (token_text strftime logger_name e) ts.
Proof.
  induction ts as [|t ts IH]; [done|]. rewrite !fmap_cons. cbn [format_items mapM]. rewrite make_item_token.
  destruct (token_text strftime logger_name e t) as [a|]; [|done]. cbn [mbind option_bind]. rewrite IH.
  by destruct (mapM _ ts).
Qed.
Lemma error_tokens ts : existsb snd (make_item <$> (piece_of <$> ts)) = true <-> Exists unknown ts.
Proof.
  rewrite existsb_exists, Exists_exists. split.
  - intros (x & Hx & E). apply list_elem_of_In, list_elem_of_fmap in Hx as (y & -> & Hy).
    apply list_elem_of_fmap in Hy as (t & -> & Ht). exists t. split; [done|]. by apply make_item_error.
  - intros (t & Ht & Hu). exists (make_item (piece_of t)). split; [|by apply make_item_error].
    apply list_elem_of_In. by do 2 apply list_elem_of_fmap_2.
Qed.

(** C21: the parser of patterns ends on every pattern.  Take a pattern made of texts
    without percent signs, of [%key] and of [%key{format}], where a key is made of
    letters and closing braces (the code takes a brace that follows into the key: the
    pattern "{%p}" has the key "p}", [brace_in_key]), [%key] is not empty and ends at
    the end of the pattern or at a character other than a letter or a brace, and a format
    has no closing brace.  It is parsed into the items it is written as: the formatter
    prints every event as the texts in order with each directive replaced by its field
    of the event, and reports an error exactly when some key is not one of the twelve. *)
Theorem pattern_outcome :
  (forall p, exists f, new_LogFormatter p = Some f /\ m_pattern f = p) /\
  (forall ts, wf ts ->
     exists f, new_LogFormatter (render ts) = Some f /\ length (m_items f) = length ts /\
       (m_error f = true <-> Exists unknown ts) /\
       forall strftime logger_name e,
         format strftime logger_name f e =
         (foldr String.append "") <$> mapM (token_text strftime logger_name e) ts).
Proof.
  split; [exact new_formatter|]. intros ts Hwf. unfold new_LogFormatter, init. cbn [m_pattern m_items m_error].
  rewrite pieces_tokens by done. cbn [mbind option_bind]. eexists. split; [reflexivity|]. cbn [m_items m_error].
  split; [by rewrite app_nil_l, !length_fmap|]. split; [exact (error_tokens ts)|].
  intros strftime logger_name e. exact (format_tokens strftime logger_name e ts).
Qed.
Lemma pattern_outcome_witness :
  let ts := [Lit "at "; Dir "d" (Some "%H:%M"); Dir "p" None; Lit " "; Dir "x" None] in
  wf ts /\ exists f, new_LogFormatter "at %d{%H:%M}%p %x" = Some f /\ m_error f = true.
Proof.
  intros ts. assert (wf ts) as Hwf by (apply (bool_decide_unpack (wf ts)); vm_compute; exact I).
  split; [exact Hwf|]. destruct (proj2 pattern_outcome ts Hwf) as (f & E & _ & He & _). exists f. split; [exact E|].
  apply He. do 4 apply Exists_cons_tl. apply Exists_cons_hd. apply (bool_decide_unpack _). vm_compute. exact I.
Defined.

(** A closing brace behind a key is taken into it. *)
Example brace_in_key : wf [Lit "{"; Dir "p}" None] /\ option_map m_error (new_LogFormatter "{%p}") = Some true.
Proof. split; [apply (bool_decide_unpack _)|]; by vm_compute. Qed.
End LogFormatter.
