(* ===== verification/Log.v ===== *)
(** * Loggers: src/src/log.h, src/src/log.cpp (LogAppender, Logger, LoggerManager)

    Loggers and appenders are shared objects in stores; a formatter never changes
    once it is made, and a pointer to it is the formatter or null.  Every operation
    takes the spin locks the code takes: taking a lock that the thread holds is
    undefined.  The console and the files are part of the state; whether a file can
    be opened is the parameter [can_open].  A new object gets an address that is not
    in use. *)

From stdpp Require Import prelude strings gmap.
From Stdlib Require Import ZArith Lia Ascii.
From S2P Require Import Prelude Text LogFormatter.

Module Log.
Import Text LogFormatter.
Local Open Scope string_scope.
Local Open Scope list_scope.
Local Open Scope Z_scope.

Inductive sink :=
  | StdoutLogAppender
  | FileLogAppender (m_filename : string) (is_open : bool).
#[export] Instance sink_eq_dec : EqDecision sink.
Proof. solve_decision. Defined.

Record LogAppender := LogAppender_ {
  a_sink : sink;
  a_formatter : option LogFormatter
}.
Record Logger := Logger_ {
  m_name : string;
  l_level : Z;
  m_appenders : list nat;
  l_formatter : option LogFormatter
}.
Inductive lock := LoggerMutex (p : nat) | AppenderMutex (p : nat) | ManagerMutex.
#[export] Instance lock_eq_dec : EqDecision lock.
Proof. solve_decision. Defined.

Record log_state := Log_ {
  loggers : gmap nat Logger;
  appenders : gmap nat LogAppender;
  m_loggers : gmap string nat;
  m_root : nat;
  held : list lock;
  console : string;
  files : gmap string string
}.
Abbreviation cmd := (Prelude.cmd log_state).
Definition set_loggers v s := Log_ v (appenders s) (m_loggers s) (m_root s) (held s) (console s) (files s).
Definition set_appenders v s := Log_ (loggers s) v (m_loggers s) (m_root s) (held s) (console s) (files s).
Definition set_names v s := Log_ (loggers s) (appenders s) v (m_root s) (held s) (console s) (files s).
Definition set_root v s := Log_ (loggers s) (appenders s) (m_loggers s) v (held s) (console s) (files s).
Definition set_held v s := Log_ (loggers s) (appenders s) (m_loggers s) (m_root s) v (console s) (files s).
Definition set_console v s := Log_ (loggers s) (appenders s) (m_loggers s) (m_root s) (held s) v (files s).
Definition set_files v s := Log_ (loggers s) (appenders s) (m_loggers s) (m_root s) (held s) (console s) v.

(** Addresses that are not in use. *)
Definition fresh_logger (s : log_state) : nat := fresh (dom (loggers s) : gset nat).
Definition fresh_appender (s : log_state) : nat := fresh (dom (appenders s) : gset nat).

Section log.
Context (strftime : string -> Z -> string) (can_open : string -> bool).

Definition logger (p : nat) : cmd Logger :=
  fun s => match loggers s !! p with Some x => Ok x s | None => Fail_ Undef end.
Definition put_logger (p : nat) (x : Logger) : cmd unit := modify (fun s => set_loggers (<[p := x]> (loggers s)) s).
Definition appender (p : nat) : cmd LogAppender :=
  fun s => match appenders s !! p with Some x => Ok x s | None => Fail_ Undef end.
Definition put_appender (p : nat) (x : LogAppender) : cmd unit := modify (fun s => set_appenders (<[p := x]> (appenders s)) s).
Definition pointer (p : option nat) : cmd nat := match p with Some p => ret p | None => fail Undef end.

(** [MutexType::Lock lock(m)] around the rest of its scope. *)
Definition locked {X} (l : lock) (m : cmd X) : cmd X :=
  fun s =>
    if decide (l ∈ held s) then Fail_ Undef
    else match m (set_held (l :: held s) s) with
         | Ok x s' => Ok x (set_held (filter (fun k => k <> l) (held s')) s')
         | Throw e s' => Throw e (set_held (filter (fun k => k <> l) (held s')) s')
         | Fail_ f => Fail_ f
         end.

(** ** Appenders *)

Definition appender_set_formatter (p : nat) (v : option LogFormatter) : cmd unit :=
  locked (AppenderMutex p) (let* x := appender p in put_appender p (LogAppender_ (a_sink x) v)).
Definition appender_get_formatter (p : nat) : cmd (option LogFormatter) :=
  locked (AppenderMutex p) (let* x := appender p in ret (a_formatter x)).
(** [new StdoutLogAppender] and [new FileLogAppender(filename)]: opening for
    appending creates the file. *)
Definition new_appender (k : sink) : cmd nat :=
  let* p := gets fresh_appender in put_appender p (LogAppender_ k None) ;;; ret p.
Definition new_StdoutLogAppender : cmd nat := new_appender StdoutLogAppender.
Definition new_FileLogAppender (filename : string) : cmd nat :=
  (if can_open filename
   then modify (fun s => set_files (<[filename := default "" (files s !! filename)]> (files s)) s)
   else ret tt) ;;;
  new_appender (FileLogAppender filename (can_open filename)).

Definition write (k : sink) (text : string) : cmd unit :=
  match k with
  | StdoutLogAppender => modify (fun s => set_console (console s +:+ text) s)
  | FileLogAppender name true =>
      modify (fun s => set_files (<[name := default "" (files s !! name) +:+ text]> (files s)) s)
  | FileLogAppender _ false => ret tt
  end.
Definition name_of (s : log_state) (p : nat) : option string := m_name <$> loggers s !! p.
(** [log] of both kinds of appenders. *)
Definition appender_log (p : nat) (event : LogEvent) : cmd unit :=
  locked (AppenderMutex p)
    (let* x := appender p in
     match a_formatter x with
     | None => fail Undef
     | Some f =>
       let* text := gets (fun s => format strftime (name_of s) f event) in
       match text with None => fail Undef | Some text => write (a_sink x) text end
     end).

(** ** Loggers *)

Definition formatter_of (pattern : string) : cmd LogFormatter :=
  match new_LogFormatter pattern with Some f => ret f | None => fail OutOfFuel end.
Definition new_Logger (name : string) : cmd nat :=
  let* f := formatter_of default_pattern in
  let* p := gets fresh_logger in
  put_logger p (Logger_ name DEBUG [] (Some f)) ;;; ret p.
Definition add_appender (p : nat) (ap : option nat) : cmd unit :=
  locked (LoggerMutex p)
    (let* a := pointer ap in
     let* f := appender_get_formatter a in
     (match f with
      | None => let* x := logger p in appender_set_formatter a (l_formatter x)
      | Some _ => ret tt
      end) ;;;
     let* x := logger p in
     put_logger p (Logger_ (m_name x) (l_level x) (m_appenders x ++ [a]) (l_formatter x))).
Fixpoint erase_first (a : nat) (l : list nat) : list nat :=
  match l with [] => [] | b :: l => if decide (b = a) then l else b :: erase_first a l end.
Definition del_appender (p : nat) (ap : option nat) : cmd unit :=
  locked (LoggerMutex p)
    (let* x := logger p in
     match ap with
     | None => ret tt
     | Some a => put_logger p (Logger_ (m_name x) (l_level x) (erase_first a (m_appenders x)) (l_formatter x))
     end).
Definition clear_appenders (p : nat) : cmd unit :=
  locked (LoggerMutex p)
    (let* x := logger p in put_logger p (Logger_ (m_name x) (l_level x) [] (l_formatter x))).
Definition set_level (p : nat) (level : Z) : cmd unit :=
  let* x := logger p in put_logger p (Logger_ (m_name x) level (m_appenders x) (l_formatter x)).
Definition get_formatter (p : nat) : cmd (option LogFormatter) :=
  locked (LoggerMutex p) (let* x := logger p in ret (l_formatter x)).
Definition set_formatter (p : nat) (v : option LogFormatter) : cmd unit :=
  locked (LoggerMutex p) (let* x := logger p in put_logger p (Logger_ (m_name x) (l_level x) (m_appenders x) v)).
(** [set_formatter(const std::string &)] *)
Definition set_pattern (p : nat) (v : string) : cmd unit :=
  let* f := formatter_of v in
  if m_error f then ret tt else set_formatter p (Some f).

Fixpoint each {X} (f : X -> cmd unit) (l : list X) : cmd unit :=
  match l with [] => ret tt | x :: l => f x ;;; each f l end.
(** A logger without appenders hands the event to the root logger. *)
Fixpoint log_go (fuel : nat) (p : nat) (event : LogEvent) : cmd unit :=
  match fuel with
  | O => fail OutOfFuel
  | S fuel =>
    let* x := logger p in
    if l_level x <=? LogFormatter.m_level event then
      locked (LoggerMutex p)
        (let* x := logger p in
         match m_appenders x with
         | [] => let* r := gets m_root in log_go fuel r event
         | l => each (fun a => appender_log a event) l
         end)
    else ret tt
  end.
(** Three calls are enough: the third one takes a lock that is held. *)
Definition log : nat -> LogEvent -> cmd unit := log_go 3.

(** The macro [LOG_LEVEL] with the text streamed into it, and the destructor of
    [LogEventWrap]: the place of the statement and what the thread is. *)
Record place := Place {
  p_file : string;
  p_line : Z;
  p_thread_id : Z;
  p_thread_name : string;
  p_fiber_id : Z;
  p_time : Z
}.
Definition LOG_LEVEL (p : nat) (level : Z) (here : place) (text : string) : cmd unit :=
  let* x := logger p in
  if l_level x <=? level then
    let event := new_LogEvent p level (p_file here) (p_line here) 0 (p_thread_id here) (p_thread_name here)
                   (p_fiber_id here) (p_time here) in
    log p (stream text event)
  else ret tt.

(** ** The manager *)

Definition new_LoggerManager : cmd unit :=
  let* root := new_Logger "root" in
  modify (set_root root) ;;;
  let* a := new_StdoutLogAppender in
  add_appender root (Some a) ;;;
  modify (fun s => set_names (<["root" := root]> (m_loggers s)) s).
Definition get_logger (name : string) : cmd nat :=
  locked ManagerMutex
    (let* it := gets (fun s => m_loggers s !! name) in
     match it with
     | Some p => ret p
     | None =>
       let* p := new_Logger name in
       modify (fun s => set_names (<[name := p]> (m_loggers s)) s) ;;; ret p
     end).
Definition add_logger (name : string) (p : nat) : cmd unit :=
  locked ManagerMutex (modify (fun s => set_names (<[name := p]> (m_loggers s)) s)).
Definition get_root : cmd nat := gets m_root.

(** ** Locks *)

Lemma locked_ok {X} l (m : cmd X) s x s' :
  l ∉ held s -> m (set_held (l :: held s) s) = Ok x s' -> held s' = l :: held s ->
  locked l m s = Ok x (set_held (held s) s').
Proof.
  intros Hl Em Hh. unfold locked. rewrite decide_False by done. rewrite Em, Hh. do 2 f_equal.
  rewrite filter_cons, decide_False by tauto. clear - Hl. induction (held s) as [|k h IH]; [done|].
  apply not_elem_of_cons in Hl as [Hk Hl]. by rewrite filter_cons, decide_True, IH.
Qed.
Lemma locked_held {X} l (m : cmd X) s : l ∈ held s -> locked l m s = Fail_ Undef.
Proof. intros Hl. unfold locked. by rewrite decide_True. Qed.
Lemma locked_fail {X} l (m : cmd X) s f : l ∉ held s -> m (set_held (l :: held s) s) = Fail_ f -> locked l m s = Fail_ f.
Proof. intros Hl Em. unfold locked. by rewrite decide_False, Em. Qed.

Lemma bind_logger {X} p (k : Logger -> cmd X) s x : loggers s !! p = Some x -> (let* x := logger p in k x) s = k x s.
Proof. intros Hx. unfold bind, logger. by rewrite Hx. Qed.
Lemma bind_appender {X} p (k : LogAppender -> cmd X) s x : appenders s !! p = Some x -> (let* x := appender p in k x) s = k x s.
Proof. intros Hx. unfold bind, appender. by rewrite Hx. Qed.

(** ** What the operations do *)

Lemma get_formatter_ok p x s : AppenderMutex p ∉ held s -> appenders s !! p = Some x ->
  appender_get_formatter p s = Ok (a_formatter x) s.
Proof.
  intros Hh Hx. unfold appender_get_formatter. erewrite locked_ok; [|done|by rewrite (bind_appender p _ _ x)|done].
  by destruct s.
Qed.
Lemma set_formatter_ok p x v s : AppenderMutex p ∉ held s -> appenders s !! p = Some x ->
  appender_set_formatter p v s = Ok tt (set_appenders (<[p := LogAppender_ (a_sink x) v]> (appenders s)) s).
Proof.
  intros Hh Hx. unfold appender_set_formatter. erewrite locked_ok; [|done|by rewrite (bind_appender p _ _ x)|done].
  by destruct s.
Qed.
(** The formatter an appender has once it is added to a logger with formatter [f]. *)
Definition attached (f : option LogFormatter) (y : LogAppender) : LogAppender :=
  LogAppender_ (a_sink y) (match a_formatter y with None => f | v => v end).
Lemma add_appender_ok p a x y s :
  LoggerMutex p ∉ held s -> AppenderMutex a ∉ held s -> loggers s !! p = Some x -> appenders s !! a = Some y ->
  add_appender p (Some a) s =
  Ok tt (set_loggers (<[p := Logger_ (m_name x) (l_level x) (m_appenders x ++ [a]) (l_formatter x)]> (loggers s))
         (set_appenders (<[a := attached (l_formatter x) y]> (appenders s)) s)).
Proof.
  intros Hp Ha Hx Hy. match goal with |- _ = Ok tt ?t =>
    unfold add_appender; rewrite (locked_ok _ _ s tt (set_held (LoggerMutex p :: held s) t)); [by destruct s|done| |done] end.
  unfold pointer, bind at 1, ret at 1. unfold bind at 1.
  rewrite (get_formatter_ok a y); [|simpl; rewrite not_elem_of_cons; done|done].
  unfold attached. destruct (a_formatter y) as [f|] eqn:Ef.
  - unfold bind at 1, ret at 1. rewrite (bind_logger p _ _ x) by done. unfold put_logger, modify. do 2 f_equal.
    unfold set_loggers, set_held. simpl. f_equal. rewrite <- Ef. rewrite insert_id; [done|]. rewrite Hy. by destruct y.
  - unfold bind at 1. rewrite (bind_logger p _ _ x) by done.
    rewrite (set_formatter_ok a y); [|simpl; rewrite not_elem_of_cons; done|done].
    by rewrite (bind_logger p _ _ x).
Qed.
(** An operation that takes the lock of the logger and replaces the object. *)
Lemma replace_ok p x (g : Logger -> Logger) s : LoggerMutex p ∉ held s -> loggers s !! p = Some x ->
  locked (LoggerMutex p) (let* x := logger p in put_logger p (g x)) s =
  Ok tt (set_loggers (<[p := g x]> (loggers s)) s).
Proof.
  intros Hp Hx. erewrite locked_ok; [|done|by rewrite (bind_logger p _ _ x)|done]. by destruct s.
Qed.
Lemma default_formatter : exists f, new_LogFormatter default_pattern = Some f /\ m_error f = false.
Proof. eexists. split; vm_compute; reflexivity. Qed.
Definition default_format : option LogFormatter := new_LogFormatter default_pattern.
Lemma fresh_logger_none s : loggers s !! fresh_logger s = None.
Proof. apply (not_elem_of_dom (D := gset nat)). exact (is_fresh (dom (loggers s) : gset nat)). Qed.
Lemma fresh_appender_none s : appenders s !! fresh_appender s = None.
Proof. apply (not_elem_of_dom (D := gset nat)). exact (is_fresh (dom (appenders s) : gset nat)). Qed.
Lemma new_Logger_ok name s :
  new_Logger name s = Ok (fresh_logger s) (set_loggers (<[fresh_logger s := Logger_ name DEBUG [] default_format]> (loggers s)) s).
Proof.
  unfold new_Logger, formatter_of, default_format. destruct default_formatter as (f & -> & _). done.
Qed.
Lemma fresh_logger_held h s : fresh_logger (set_held h s) = fresh_logger s.
Proof. reflexivity. Qed.
#[local] Opaque fresh_logger fresh_appender.
Lemma get_logger_ok name s : ManagerMutex ∉ held s ->
  get_logger name s =
  match m_loggers s !! name with
  | Some p => Ok p s
  | None => let p := fresh_logger s in
      Ok p (set_names (<[name := p]> (m_loggers s))
              (set_loggers (<[p := Logger_ name DEBUG [] default_format]> (loggers s)) s))
  end.
Proof.
  intros Hm. unfold get_logger. destruct (m_loggers s !! name) as [p|] eqn:Hp.
  - rewrite (locked_ok _ _ s p (set_held (ManagerMutex :: held s) s)); [by destruct s|done| |done].
    unfold bind at 1, gets. cbn [m_loggers set_held]. by rewrite Hp.
  - cbv zeta. match goal with |- _ = Ok ?p ?t =>
      rewrite (locked_ok _ _ s p (set_held (ManagerMutex :: held s) t)); [by destruct s|done| |done] end.
    unfold bind at 1, gets. cbn [m_loggers set_held]. rewrite Hp. unfold bind at 1. rewrite new_Logger_ok, fresh_logger_held. reflexivity.
Qed.

(** ** The state between operations *)

(** No lock is held; the root logger and the registered loggers exist; every logger
    has a formatter, and so has every appender of a logger. *)
Definition ready (s : log_state) (a : nat) : Prop := exists y, appenders s !! a = Some y /\ is_Some (a_formatter y).
Definition sound (s : log_state) (x : Logger) : Prop := is_Some (l_formatter x) /\ Forall (ready s) (m_appenders x).
Record log_wf (s : log_state) : Prop := {
  wf_held : held s = [];
  wf_root : is_Some (loggers s !! m_root s);
  wf_names : forall n p, m_loggers s !! n = Some p -> is_Some (loggers s !! p);
  wf_logger : forall p x, loggers s !! p = Some x -> sound s x
}.
Lemma wf_put p x s : log_wf s -> sound s x -> log_wf (set_loggers (<[p := x]> (loggers s)) s).
Proof.
  intros [Hh Hr Hn Hl] Hx. split; simpl; [done| | |].
  - apply lookup_insert_is_Some'. by right.
  - intros n q Hq. apply lookup_insert_is_Some'. right. eauto.
  - intros q y [[_ <-]|[_ Hy]]%lookup_insert_Some; [done|]. exact (Hl q y Hy).
Qed.
Lemma wf_appenders m s : log_wf s -> (forall a, ready s a -> ready (set_appenders m s) a) -> log_wf (set_appenders m s).
Proof.
  intros [Hh Hr Hn Hl] Hm. split; simpl; [done|done|done|]. intros p x Hx. destruct (Hl p x Hx) as [Hf Ha].
  split; [done|]. eapply Forall_impl; [exact Ha|done].
Qed.
Lemma wf_names_put n p s : log_wf s -> is_Some (loggers s !! p) -> log_wf (set_names (<[n := p]> (m_loggers s)) s).
Proof.
  intros [Hh Hr Hn Hl] Hp. split; simpl; [done|done| |done].
  intros m q [[_ <-]|[_ Hq]]%lookup_insert_Some; [done|eauto].
Qed.
Lemma wf_output c f s : log_wf s -> log_wf (set_files f (set_console c s)).
Proof. intros [Hh Hr Hn Hl]. by split. Qed.
Lemma ready_put a y s b : is_Some (a_formatter y) -> ready s b -> ready (set_appenders (<[a := y]> (appenders s)) s) b.
Proof.
  intros Hy (z & Hz & Hf). destruct (decide (a = b)) as [<-|Hne].
  - exists y. simpl. by rewrite lookup_insert_eq.
  - exists z. simpl. by rewrite lookup_insert_ne.
Qed.

(** ** Writing *)

(** Where the texts of an event go and what they are, in the order of the appenders. *)
Definition texts (l : list nat) (e : LogEvent) (s : log_state) : option (list (sink * string)) :=
  mapM (fun a => y ← appenders s !! a; f ← a_formatter y; t ← format strftime (name_of s) f e; Some (a_sink y, t)) l.
Definition wrote (s : log_state) (w : sink * string) : log_state :=
  match w.1 with
  | StdoutLogAppender => set_console (console s +:+ w.2) s
  | FileLogAppender name true => set_files (<[name := default "" (files s !! name) +:+ w.2]> (files s)) s
  | FileLogAppender _ false => s
  end.
Definition all_wrote (ws : list (sink * string)) (s : log_state) : log_state := foldl wrote s ws.

Lemma texts_same l e s s' : loggers s' = loggers s -> appenders s' = appenders s -> texts l e s' = texts l e s.
Proof. intros El Ea. unfold texts, name_of. by rewrite El, Ea. Qed.
Lemma wrote_same w s : loggers (wrote s w) = loggers s /\ appenders (wrote s w) = appenders s /\
  m_loggers (wrote s w) = m_loggers s /\ m_root (wrote s w) = m_root s /\ held (wrote s w) = held s.
Proof. by destruct w as [[|name []] t]. Qed.
Lemma all_wrote_same ws s : loggers (all_wrote ws s) = loggers s /\ appenders (all_wrote ws s) = appenders s /\
  m_loggers (all_wrote ws s) = m_loggers s /\ m_root (all_wrote ws s) = m_root s /\ held (all_wrote ws s) = held s.
Proof.
  revert s. induction ws as [|w ws IH]; intros s; [done|]. simpl. destruct (IH (wrote s w)) as (-> & -> & -> & -> & ->).
  apply wrote_same.
Qed.
Lemma all_wrote_held ws h s : all_wrote ws (set_held h s) = set_held h (all_wrote ws s).
Proof. revert s. induction ws as [|w ws IH]; intros s; [done|]. simpl. rewrite <- IH. by destruct w as [[|name []] t]. Qed.
Lemma all_wrote_release ws h s : set_held (held s) (all_wrote ws (set_held h s)) = all_wrote ws s.
Proof.
  rewrite all_wrote_held. destruct (all_wrote_same ws s) as (_ & _ & _ & _ & Eh). rewrite <- Eh.
  by destruct (all_wrote ws s).
Qed.

Lemma appender_log_text a e s : AppenderMutex a ∉ held s ->
  appender_log a e s =
  match y ← appenders s !! a; f ← a_formatter y; t ← format strftime (name_of s) f e; Some (a_sink y, t) with
  | Some w => Ok tt (wrote s w)
  | None => Fail_ Undef
  end.
Proof.
  intros Ha. unfold appender_log. destruct (appenders s !! a) as [y|] eqn:Hy; cbn [mbind option_bind].
  2:{ apply locked_fail; [done|]. unfold bind, appender. simpl. by rewrite Hy. }
  destruct (a_formatter y) as [f|] eqn:Hf; cbn [mbind option_bind].
  2:{ apply locked_fail; [done|]. rewrite (bind_appender a _ _ y) by done. by rewrite Hf. }
  destruct (format strftime (name_of s) f e) as [t|] eqn:Ht; cbn [mbind option_bind].
  2:{ apply locked_fail; [done|]. rewrite (bind_appender a _ _ y) by done. rewrite Hf. unfold bind, gets.
      change (name_of (set_held (AppenderMutex a :: held s) s)) with (name_of s). by rewrite Ht. }
  rewrite (locked_ok _ _ s tt (set_held (AppenderMutex a :: held s) (wrote s (a_sink y, t)))); [|done| |done].
  - f_equal. destruct (a_sink y) as [|name []]; by destruct s.
  - rewrite (bind_appender a _ _ y) by done. rewrite Hf. unfold bind, gets.
    change (name_of (set_held (AppenderMutex a :: held s) s)) with (name_of s). rewrite Ht.
    by destruct (a_sink y) as [|name []].
Qed.
Lemma each_log l e : forall s, (forall a, AppenderMutex a ∉ held s) ->
  each (fun a => appender_log a e) l s =
  match texts l e s with Some ws => Ok tt (all_wrote ws s) | None => Fail_ Undef end.
Proof.
  induction l as [|a l IH]; intros s Hh; [done|]. cbn [each]. unfold bind. rewrite appender_log_text by done.
  unfold texts. cbn [mapM]. destruct (_ ← appenders s !! a; _) as [w|]; [|done]. cbn [mbind option_bind].
  destruct (wrote_same w s) as (El & Ea & _ & _ & Ehd).
  rewrite IH by (intros b; rewrite Ehd; apply Hh). rewrite (texts_same l e s (wrote s w) El Ea). unfold texts.
  by destruct (mapM _ l).
Qed.

(** The appenders an event sent to logger [p] reaches; [None] when the root logger
    waits for itself. *)
Definition recipients (p : nat) (e : LogEvent) (s : log_state) : option (list nat) :=
  x ← loggers s !! p;
  if LogFormatter.m_level e <? l_level x then Some []
  else match m_appenders x with
       | [] =>
         r ← loggers s !! m_root s;
         if LogFormatter.m_level e <? l_level r then Some []
         else match m_appenders r with [] => None | l => Some l end
       | l => Some l
       end.

Lemma log_below fuel p e s x : loggers s !! p = Some x -> LogFormatter.m_level e < l_level x -> log_go (S fuel) p e s = Ok tt s.
Proof.
  intros Hx Hl. cbn [log_go]. rewrite (bind_logger p _ _ x) by done. by rewrite (proj2 (Z.leb_gt _ _)).
Qed.
Lemma log_again fuel p e s x : loggers s !! p = Some x -> l_level x <= LogFormatter.m_level e -> LoggerMutex p ∈ held s ->
  log_go (S fuel) p e s = Fail_ Undef.
Proof.
  intros Hx Hl Hh. cbn [log_go]. rewrite (bind_logger p _ _ x) by done. rewrite (proj2 (Z.leb_le _ _)) by done.
  by apply locked_held.
Qed.
Lemma log_direct fuel p e s x : loggers s !! p = Some x -> l_level x <= LogFormatter.m_level e ->
  (forall a, AppenderMutex a ∉ held s) -> LoggerMutex p ∉ held s -> m_appenders x <> [] ->
  log_go (S fuel) p e s =
  match texts (m_appenders x) e s with Some ws => Ok tt (all_wrote ws s) | None => Fail_ Undef end.
Proof.
  intros Hx Hl Ha Hp Hne. cbn [log_go]. rewrite (bind_logger p _ _ x) by done. rewrite (proj2 (Z.leb_le _ _)) by done.
  set (s1 := set_held (LoggerMutex p :: held s) s).
  assert ((let* x := logger p in
           match m_appenders x with [] => let* r := gets m_root in log_go fuel r e
                                  | l => each (fun a => appender_log a e) l end) s1 =
          match texts (m_appenders x) e s with Some ws => Ok tt (all_wrote ws s1) | None => Fail_ Undef end) as Em.
  { rewrite (bind_logger p _ s1 x) by done.
    transitivity (each (fun a => appender_log a e) (m_appenders x) s1); [by destruct (m_appenders x)|].
    rewrite each_log; [by rewrite (texts_same _ _ s)|]. intros a. apply not_elem_of_cons. auto. }
  destruct (texts (m_appenders x) e s) as [ws|]; [|by apply locked_fail].
  erewrite locked_ok; [|done|exact Em|by destruct (all_wrote_same ws s1) as (_ & _ & _ & _ & ->)].
  unfold s1. by rewrite all_wrote_release.
Qed.
(** The event goes on to the root logger. *)
Lemma log_root fuel p e s x : loggers s !! p = Some x -> l_level x <= LogFormatter.m_level e ->
  LoggerMutex p ∉ held s -> m_appenders x = [] ->
  log_go (S fuel) p e s = locked (LoggerMutex p) (log_go fuel (m_root s) e) s.
Proof.
  intros Hx Hl Hp Hne. cbn [log_go]. rewrite (bind_logger p _ _ x) by done. rewrite (proj2 (Z.leb_le _ _)) by done.
  unfold locked. rewrite !decide_False by done. rewrite (bind_logger p _ _ x) by done. by rewrite Hne.
Qed.

Lemma log_text p e s : (forall a, AppenderMutex a ∉ held s) -> LoggerMutex p ∉ held s -> LoggerMutex (m_root s) ∉ held s ->
  is_Some (loggers s !! p) -> is_Some (loggers s !! m_root s) ->
  log p e s =
  match recipients p e s with
  | None => Fail_ Undef
  | Some l => match texts l e s with Some ws => Ok tt (all_wrote ws s) | None => Fail_ Undef end
  end.
Proof.
  intros Ha Hp Hr [x Hx] [r Hr']. unfold recipients, log. rewrite Hx. cbn [mbind option_bind].
  destruct (Z.ltb_spec (LogFormatter.m_level e) (l_level x)) as [Hl|Hl]; [by rewrite (log_below _ p e s x)|].
  destruct (decide (m_appenders x = [])) as [E|Hne].
  2:{ rewrite (log_direct _ p e s x) by done. by destruct (m_appenders x). }
  rewrite E, (log_root _ p e s x) by done. rewrite Hr'. cbn [mbind option_bind].
  set (s1 := set_held (LoggerMutex p :: held s) s).
  assert (Hfail : forall f, log_go 2 (m_root s) e s1 = Fail_ f -> locked (LoggerMutex p) (log_go 2 (m_root s) e) s = Fail_ f)
    by (intros f; by apply locked_fail).
  assert (Hok : forall ws, log_go 2 (m_root s) e s1 = Ok tt (all_wrote ws s1) ->
    locked (LoggerMutex p) (log_go 2 (m_root s) e) s = Ok tt (all_wrote ws s)).
  { intros ws Eq. erewrite locked_ok; [|done|exact Eq|by destruct (all_wrote_same ws s1) as (_ & _ & _ & _ & ->)].
    unfold s1. by rewrite all_wrote_release. }
  destruct (Z.ltb_spec (LogFormatter.m_level e) (l_level r)) as [Hl'|Hl'].
  { apply (Hok []). exact (log_below 1 (m_root s) e s1 r Hr' Hl'). }
  destruct (decide (p = m_root s)) as [Ep|Hne].
  { assert (x = r) as <- by congruence. rewrite E. apply Hfail, (log_again 1 _ e s1 x Hr' Hl). simpl. rewrite <- Ep. by left. }
  assert (LoggerMutex (m_root s) ∉ held s1) as Hr1 by (apply not_elem_of_cons; split; [congruence|done]).
  destruct (decide (m_appenders r = [])) as [E'|Hne'].
  - rewrite E'. apply Hfail. rewrite (log_root 1 _ e s1 r) by done. apply locked_fail; [done|].
    apply (log_again 0 _ e _ r); [done|done|]. simpl. by left.
  - transitivity (match texts (m_appenders r) e s with Some ws => Ok tt (all_wrote ws s) | None => Fail_ Undef end);
      [|by destruct (m_appenders r)].
    pose proof (log_direct 1 (m_root s) e s1 r Hr' Hl') as Hd. rewrite (texts_same _ _ s s1) in Hd by done.
    specialize (Hd ltac:(intros a; apply not_elem_of_cons; auto) Hr1 Hne').
    destruct (texts (m_appenders r) e s) as [ws|]; [by apply Hok|by apply Hfail].
Qed.

(** ** Everything a program can do with the loggers *)

Inductive op :=
  | GetLogger (name : string)
  | AddLogger (name : string) (p : nat)
  | SetLevel (p : nat) (level : Z)
  | AddAppender (p a : nat)
  | DelAppender (p : nat) (a : option nat)
  | ClearAppenders (p : nat)
  | SetFormatter (p : nat) (f : LogFormatter)
  | SetPattern (p : nat) (v : string)
  | AppenderSetFormatter (a : nat) (f : LogFormatter)
  | NewStdout
  | NewFile (filename : string)
  | LogTo (p : nat) (e : LogEvent).
Definition run_op (o : op) : cmd unit :=
  match o with
  | GetLogger name => get_logger name ;;; ret tt
  | AddLogger name p => add_logger name p
  | SetLevel p level => set_level p level
  | AddAppender p a => add_appender p (Some a)
  | DelAppender p a => del_appender p a
  | ClearAppenders p => clear_appenders p
  | SetFormatter p f => set_formatter p (Some f)
  | SetPattern p v => set_pattern p v
  | AppenderSetFormatter a f => appender_set_formatter a (Some f)
  | NewStdout => new_StdoutLogAppender ;;; ret tt
  | NewFile filename => new_FileLogAppender filename ;;; ret tt
  | LogTo p e => log p e
  end.
(** The pointers a program passes point to objects. *)
Definition enabled (o : op) (s : log_state) : Prop :=
  match o with
  | AddLogger _ p | SetLevel p _ | DelAppender p _ | ClearAppenders p | SetFormatter p _ | SetPattern p _ | LogTo p _ =>
      is_Some (loggers s !! p)
  | AddAppender p a => is_Some (loggers s !! p) /\ is_Some (appenders s !! a)
  | AppenderSetFormatter a _ => is_Some (appenders s !! a)
  | GetLogger _ | NewStdout | NewFile _ => True
  end.
Definition empty (disk : gmap string string) : log_state := Log_ ∅ ∅ ∅ 0 [] "" disk.
Inductive reachable : log_state -> Prop :=
  | reach_start disk s : new_LoggerManager (empty disk) = Ok tt s -> reachable s
  | reach_step o s s' : reachable s -> enabled o s -> run_op o s = Ok tt s' -> reachable s'.

Lemma free s l : log_wf s -> l ∉ held s.
Proof. intros Hs. rewrite (wf_held s Hs). apply not_elem_of_nil. Qed.
#[local] Hint Resolve free : core.

Lemma sound_default s name : sound s (Logger_ name DEBUG [] default_format).
Proof. split; [|constructor]. simpl. unfold default_format. destruct default_formatter as (f & -> & _). by eexists. Qed.
Lemma erase_first_sub a l : forall b, b ∈ erase_first a l -> b ∈ l.
Proof.
  induction l as [|c l IH]; intros b; simpl; [done|]. case_decide; [by right|]. rewrite !elem_of_cons. intros [->|Hb]; auto.
Qed.
Lemma wf_new_appender k s : log_wf s -> exists a s', new_appender k s = Ok a s' /\ log_wf s'.
Proof.
  intros Hs. unfold new_appender, bind at 1, gets. unfold bind, put_appender, modify, ret.
  do 2 eexists. split; [reflexivity|]. apply wf_appenders; [done|]. intros a (y & Hy & Hf). exists y. simpl.
  rewrite lookup_insert_ne; [done|]. intros E. pose proof (fresh_appender_none s). congruence.
Qed.
Lemma wf_get_logger name s : log_wf s -> exists p s', get_logger name s = Ok p s' /\ log_wf s' /\
  m_loggers s' !! name = Some p /\
  match m_loggers s !! name with
  | Some q => q = p /\ s' = s
  | None => loggers s !! p = None /\ loggers s' = <[p := Logger_ name DEBUG [] default_format]> (loggers s) /\
            m_loggers s' = <[name := p]> (m_loggers s) /\ appenders s' = appenders s /\ m_root s' = m_root s
  end.
Proof.
  intros Hs. rewrite get_logger_ok by auto. destruct (m_loggers s !! name) as [p|] eqn:Hp; [by exists p, s|].
  cbv zeta. set (p := fresh_logger s). do 2 eexists. split; [reflexivity|]. split; [|split].
  - apply (wf_names_put name p (set_loggers _ s)); [by apply wf_put, sound_default|]. simpl. by rewrite lookup_insert_eq.
  - simpl. by rewrite lookup_insert_eq.
  - split; [apply fresh_logger_none|done].
Qed.
(** Operations that replace the object of a logger. *)
Lemma wf_replace p (g : Logger -> Logger) s : log_wf s -> is_Some (loggers s !! p) ->
  (forall x, sound s x -> sound s (g x)) ->
  exists s', locked (LoggerMutex p) (let* x := logger p in put_logger p (g x)) s = Ok tt s' /\ log_wf s'.
Proof.
  intros Hs [x Hx] Hg. eexists. split; [apply (replace_ok p x); auto|]. apply wf_put; [done|].
  by apply Hg, (wf_logger s Hs p).
Qed.
Lemma wf_all_wrote ws s : log_wf s -> log_wf (all_wrote ws s).
Proof.
  intros [Hh Hr Hn Hl]. destruct (all_wrote_same ws s) as (El & Ea & En & Er & Eh).
  split; rewrite ?El, ?En, ?Er, ?Eh; try done. intros p x Hx. destruct (Hl p x Hx) as [Hf Hx']. split; [done|].
  unfold ready. by rewrite Ea.
Qed.
Lemma log_wf_text p e s : log_wf s -> is_Some (loggers s !! p) ->
  log p e s =
  match recipients p e s with
  | None => Fail_ Undef
  | Some l => match texts l e s with Some ws => Ok tt (all_wrote ws s) | None => Fail_ Undef end
  end.
Proof. intros Hs Hp. apply log_text; auto. by apply wf_root. Qed.

Lemma wf_add_appender p a s : log_wf s -> is_Some (loggers s !! p) -> is_Some (appenders s !! a) ->
  exists s', add_appender p (Some a) s = Ok tt s' /\ log_wf s'.
Proof.
  intros Hs [x Hx] [y Hy]. rewrite (add_appender_ok p a x y) by auto. eexists. split; [reflexivity|].
  destruct (wf_logger s Hs p x Hx) as [Hf Ha].
  assert (is_Some (a_formatter (attached (l_formatter x) y))) as Hf' by (unfold attached; simpl; by destruct (a_formatter y)).
  apply (wf_put p _ (set_appenders _ s)); [apply wf_appenders; [done|intros b; by apply ready_put]|]. split; [done|].
  simpl. apply Forall_app. split; [eapply Forall_impl; [exact Ha|intros b; by apply ready_put]|].
  constructor; [|constructor]. eexists. simpl. by rewrite lookup_insert_eq.
Qed.
Lemma wf_del_appender p a s : log_wf s -> is_Some (loggers s !! p) -> exists s', del_appender p a s = Ok tt s' /\ log_wf s'.
Proof.
  intros Hs Hp. destruct a as [a|].
  - apply (wf_replace p (fun x => Logger_ (m_name x) (l_level x) (erase_first a (m_appenders x)) (l_formatter x))); [done|done|].
    intros x [Hf Ha]. split; [done|]. rewrite Forall_forall in *. intros b Hb. by apply Ha, (erase_first_sub a).
  - destruct Hp as [x Hx]. exists s. split; [|done]. unfold del_appender.
    erewrite locked_ok; [|by auto|by rewrite (bind_logger p _ _ x)|done]. by destruct s.
Qed.
Lemma wf_set_level p level s : log_wf s -> is_Some (loggers s !! p) -> exists s', set_level p level s = Ok tt s' /\ log_wf s'.
Proof.
  intros Hs [x Hx]. unfold set_level. rewrite (bind_logger p _ _ x) by done. eexists. split; [reflexivity|].
  apply wf_put; [done|]. destruct (wf_logger s Hs p x Hx). by split.
Qed.
Lemma wf_add_logger name p s : log_wf s -> is_Some (loggers s !! p) -> exists s', add_logger name p s = Ok tt s' /\ log_wf s'.
Proof.
  intros Hs Hp. pose proof (wf_names_put name p s Hs Hp) as Hw. unfold add_logger. eexists.
  split; [erewrite locked_ok; [|by auto|reflexivity|]; [reflexivity|done]|]. by destruct s.
Qed.
Lemma wf_set_formatter p f s : log_wf s -> is_Some (loggers s !! p) -> exists s', set_formatter p (Some f) s = Ok tt s' /\ log_wf s'.
Proof. intros Hs Hp. apply wf_replace; [done|done|]. intros x [Hf Ha]. split; [by eexists|done]. Qed.
Lemma wf_set_pattern p v s : log_wf s -> is_Some (loggers s !! p) -> exists s', set_pattern p v s = Ok tt s' /\ log_wf s'.
Proof.
  intros Hs Hp. unfold set_pattern, bind, formatter_of. destruct (new_formatter v) as (f & -> & _). cbn [ret].
  unfold ret. destruct (m_error f); [by exists s|]. by apply wf_set_formatter.
Qed.
Lemma wf_new_file filename s : log_wf s -> exists a s', new_FileLogAppender filename s = Ok a s' /\ log_wf s'.
Proof.
  intros Hs. unfold new_FileLogAppender, bind at 1. destruct (can_open filename).
  - apply wf_new_appender. exact (wf_output (console s) _ s Hs).
  - by apply wf_new_appender.
Qed.

Definition is_log (o : op) : Prop := match o with LogTo _ _ => True | _ => False end.
Lemma op_wf o s : log_wf s -> enabled o s -> ~ is_log o -> exists s', run_op o s = Ok tt s' /\ log_wf s'.
Proof.
  intros Hs He.
  destruct o as [name|name p|p level|p a|p a|p|p f|p v|a f| |filename|p e]; simpl in *; intros Hlog.
  - destruct (wf_get_logger name s Hs) as (p & s' & Ep & Hs' & _). exists s'. unfold bind. by rewrite Ep.
  - by apply wf_add_logger.
  - by apply wf_set_level.
  - destruct He. by apply wf_add_appender.
  - by apply wf_del_appender.
  - apply wf_replace; [done|done|]. intros x [Hf Ha]. by split.
  - by apply wf_set_formatter.
  - by apply wf_set_pattern.
  - destruct He as [y Hy]. rewrite (set_formatter_ok a y) by auto. eexists. split; [reflexivity|].
    apply wf_appenders; [done|]. intros b. apply ready_put. by eexists.
  - destruct (wf_new_appender StdoutLogAppender s Hs) as (a & s' & Ea & Hs'). exists s'. unfold bind, new_StdoutLogAppender.
    by rewrite Ea.
  - destruct (wf_new_file filename s Hs) as (a & s' & Ea & Hs'). exists s'. unfold bind. by rewrite Ea.
  - by destruct Hlog.
Qed.
Lemma op_wf_after o s s' : log_wf s -> enabled o s -> run_op o s = Ok tt s' -> log_wf s'.
Proof.
  intros Hs He Hr. destruct (decide (match o with LogTo _ _ => true | _ => false end = true)) as [E|E].
  - destruct o as [| | | | | | | | | | |p e]; try done. simpl in *. rewrite (log_wf_text p e s Hs He) in Hr.
    destruct (recipients p e s) as [l|]; [|done]. destruct (texts l e s) as [ws|]; [|done].
    injection Hr as <-. by apply wf_all_wrote.
  - destruct (op_wf o s Hs He) as (s1 & E1 & Hs1); [intros Hl; apply E; by destruct o|]. congruence.
Qed.

Lemma manager_wf disk : exists s, new_LoggerManager (empty disk) = Ok tt s /\ log_wf s.
Proof.
  unfold new_LoggerManager, bind at 1. rewrite new_Logger_ok. set (r := fresh_logger (empty disk)).
  set (s1 := set_root r (set_loggers (<[r := Logger_ "root" DEBUG [] default_format]> (loggers (empty disk))) (empty disk))).
  assert (log_wf s1) as Hs1.
  { split; simpl; [done| | |].
    - by rewrite lookup_insert_eq.
    - intros n p. by rewrite lookup_empty.
    - intros p x [[_ <-]|[_ Hx]]%lookup_insert_Some; [apply sound_default|by rewrite lookup_empty in Hx]. }
  unfold bind at 1, modify at 1. fold s1. unfold bind at 1, new_StdoutLogAppender.
  destruct (wf_new_appender StdoutLogAppender s1 Hs1) as (a & s2 & E2 & Hs2). rewrite E2.
  assert (loggers s2 = loggers s1 /\ is_Some (appenders s2 !! a)) as [El Ha].
  { unfold new_appender, bind, gets, put_appender, modify, ret in E2. injection E2 as <- <-. split; [done|]. simpl.
    by rewrite lookup_insert_eq. }
  assert (is_Some (loggers s2 !! r)) as Hr by (rewrite El; simpl; by rewrite lookup_insert_eq).
  destruct (wf_add_appender r a s2 Hs2 Hr Ha) as (s3 & E3 & Hs3). unfold bind. rewrite E3. eexists. split; [reflexivity|].
  apply wf_names_put; [done|]. destruct Hr as [x Hx]. destruct Ha as [y Hy].
  rewrite (add_appender_ok r a x y) in E3 by auto. injection E3 as <-. simpl. by rewrite lookup_insert_eq.
Qed.
Lemma log_reachable_wf s : reachable s -> log_wf s.
Proof.
  induction 1 as [disk s E|o s s' _ IH He E].
  - destruct (manager_wf disk) as (s' & E' & Hs'). congruence.
  - by eapply op_wf_after.
Qed.

(** C26: in every state a program reaches through the interface of the loggers, called
    with appenders and formatters that are not null, no
    spin lock is left taken, every appender of a logger has a formatter, and every
    operation but [log] returns: none waits for a lock its own thread holds, follows
    a null pointer or throws.  [get_logger] answers the logger registered under the
    name, or makes one at level DEBUG without appenders and registers it, so that
    asking again gives the same logger. *)
Theorem loggers_safe s :
  reachable s ->
  held s = [] /\
  (forall p x a, loggers s !! p = Some x -> a ∈ m_appenders x ->
     exists y f, appenders s !! a = Some y /\ a_formatter y = Some f) /\
  (forall o, enabled o s -> ~ is_log o -> exists s', run_op o s = Ok tt s' /\ held s' = []) /\
  (forall name, exists p s', get_logger name s = Ok p s' /\ get_logger name s' = Ok p s' /\
     match m_loggers s !! name with
     | Some q => q = p /\ s' = s
     | None => loggers s !! p = None /\ loggers s' !! p = Some (Logger_ name DEBUG [] default_format) /\
               is_Some default_format /\ (forall name', name' <> name -> m_loggers s' !! name' = m_loggers s !! name')
     end).
Proof.
  intros Hs%log_reachable_wf. split; [exact (wf_held s Hs)|]. split; [|split].
  - intros p x a Hx Ha. destruct (wf_logger s Hs p x Hx) as [_ Hr]. rewrite Forall_forall in Hr.
    destruct (Hr a Ha) as (y & Hy & f & Hf). by exists y, f.
  - intros o He Ho. destruct (op_wf o s Hs He Ho) as (s' & E & Hs'). exists s'. split; [done|exact (wf_held s' Hs')].
  - intros name. destruct (wf_get_logger name s Hs) as (p & s' & E & Hs' & Hp & Hm). exists p, s'. split; [done|].
    split; [rewrite get_logger_ok by auto; by rewrite Hp|]. destruct (m_loggers s !! name) as [q|]; [done|].
    destruct Hm as (Hn & El & En & _). rewrite El, En, lookup_insert_eq. split; [done|]. split; [done|]. split.
    + unfold default_format. destruct default_formatter as (f & -> & _). by eexists.
    + intros name' Hne. by rewrite lookup_insert_ne.
Qed.

(** The texts written to one sink, one after the other. *)
Definition text_to (k : sink) (ws : list (sink * string)) : string :=
  foldr (fun w r => if decide (w.1 = k) then w.2 +:+ r else r) "" ws.
Lemma all_wrote_console ws : forall s, console (all_wrote ws s) = console s +:+ text_to StdoutLogAppender ws.
Proof.
  induction ws as [|[k t] ws IH]; intros s; simpl; [by rewrite app_empty_s|]. rewrite IH.
  destruct k as [|name []]; simpl; [by rewrite app_assoc_s|done|done].
Qed.
Lemma all_wrote_file name ws : forall s,
  default "" (files (all_wrote ws s) !! name) = default "" (files s !! name) +:+ text_to (FileLogAppender name true) ws.
Proof.
  induction ws as [|[k t] ws IH]; intros s; [simpl; by rewrite app_empty_s|].
  change (all_wrote ((k, t) :: ws) s) with (all_wrote ws (wrote s (k, t))). rewrite IH. cbn [text_to foldr fst snd].
  destruct k as [|name' []]; [by rewrite decide_False| |by rewrite decide_False]. cbn [wrote files set_files fst snd].
  destruct (decide (name' = name)) as [->|Hne].
  - rewrite lookup_insert_eq, decide_True by done. simpl. by rewrite app_assoc_s.
  - rewrite lookup_insert_ne, decide_False by congruence. done.
Qed.
Lemma texts_none l e s : Forall (ready s) l -> texts l e s = None ->
  exists a y f, a ∈ l /\ appenders s !! a = Some y /\ a_formatter y = Some f /\ format strftime (name_of s) f e = None.
Proof.
  unfold texts. intros Hl E. apply mapM_None, Exists_exists in E as (a & Ha & E). rewrite Forall_forall in Hl.
  destruct (Hl a Ha) as (y & Hy & f & Hf). exists a, y, f. rewrite Hy in E. simpl in E. rewrite Hf in E. simpl in E.
  split; [done|]. split; [done|]. split; [done|]. by destruct (format _ _ f e).
Qed.
Lemma recipients_ready p e s l : log_wf s -> recipients p e s = Some l -> Forall (ready s) l.
Proof.
  intros Hs. unfold recipients. destruct (loggers s !! p) as [x|] eqn:Hx; [|done]. cbn [mbind option_bind].
  pose proof (proj2 (wf_logger s Hs p x Hx)) as Ha. destruct (_ <? _); [intros [= <-]; constructor|].
  destruct (m_appenders x) as [|a l']; [|by intros [= <-]].
  destruct (loggers s !! m_root s) as [r|] eqn:Hr; [|done]. cbn [mbind option_bind].
  pose proof (proj2 (wf_logger s Hs _ r Hr)) as Hb. destruct (_ <? _); [intros [= <-]; constructor|].
  destruct (m_appenders r); [done|]. by intros [= <-].
Qed.

(** C25: an event logged to a logger is dropped below its level; otherwise its text
    is written by every appender of the logger, or, when the logger has none, by
    every appender of the root logger if the root's level allows it: what reaches the
    console and every file is exactly the texts of its appenders in order, and
    nothing else changes.  It fails only when the event gets to a root logger without
    appenders, which waits for its own lock, or when one of the patterns cannot be
    printed (a date that does not fit into its buffer, an event whose logger is no
    object). *)
Theorem log_outcome s p e :
  reachable s -> is_Some (loggers s !! p) ->
  match recipients p e s with
  | None => log p e s = Fail_ Undef
  | Some l =>
    match texts l e s with
    | Some ws => exists s', log p e s = Ok tt s' /\ console s' = console s +:+ text_to StdoutLogAppender ws /\
        (forall name, default "" (files s' !! name) = default "" (files s !! name) +:+ text_to (FileLogAppender name true) ws) /\
        loggers s' = loggers s /\ appenders s' = appenders s /\ m_loggers s' = m_loggers s /\ held s' = []
    | None => log p e s = Fail_ Undef /\
        exists a y f, a ∈ l /\ appenders s !! a = Some y /\ a_formatter y = Some f /\ format strftime (name_of s) f e = None
    end
  end.
Proof.
  intros Hs%log_reachable_wf Hp. pose proof (log_wf_text p e s Hs Hp) as Hl. pose proof (recipients_ready p e s) as Hr.
  destruct (recipients p e s) as [l|]; [|done]. specialize (Hr l Hs eq_refl).
  pose proof (texts_none l e s Hr) as Ht. destruct (texts l e s) as [ws|]; [|split; [done|by apply Ht]].
  exists (all_wrote ws s). destruct (all_wrote_same ws s) as (El & Ea & En & _ & Eh).
  split; [done|]. split; [apply all_wrote_console|]. split; [intros name; apply all_wrote_file|].
  rewrite Eh, (wf_held s Hs). done.
Qed.
End log.

(** ** Witnesses *)

Module Example_.
Definition clock (_ : string) (_ : Z) : string := "12:00".
Definition opens (_ : string) : bool := true.
Fixpoint run_ops (l : list op) (s : log_state) : res log_state unit :=
  match l with [] => Ok tt s | o :: l => match run_op clock opens o s with Ok _ s => run_ops l s | r => r end end.
Definition is_ok (r : res log_state unit) : bool := match r with Ok _ _ => true | _ => false end.
Definition state_of (d : log_state) (r : res log_state unit) : log_state := match r with Ok _ s => s | _ => d end.
Lemma is_ok_state r d : is_ok r = true -> r = Ok tt (state_of d r).
Proof. by destruct r as [[] s| |]. Qed.
Definition started : log_state := state_of (empty ∅) (new_LoggerManager (empty ∅)).
(** A logger with a file and a console, and one without appenders. *)
Definition setup : list op :=
  [GetLogger "system"; SetPattern 1 "%p %c: %m%n"; NewFile "a.log"; NewStdout; AddAppender 1 1; AddAppender 1 2;
   GetLogger "quiet"; SetLevel 2 INFO].
Definition built : log_state := state_of started (run_ops setup started).
Ltac by_vm := match goal with |- _ = ?r => vm_cast_no_check (eq_refl r) end.

Definition enabledb (o : op) (s : log_state) : bool :=
  match o with
  | AddLogger _ p | SetLevel p _ | DelAppender p _ | ClearAppenders p | SetFormatter p _ | SetPattern p _ | LogTo p _ =>
      bool_decide (is_Some (loggers s !! p))
  | AddAppender p a => bool_decide (is_Some (loggers s !! p)) && bool_decide (is_Some (appenders s !! a))
  | AppenderSetFormatter a _ => bool_decide (is_Some (appenders s !! a))
  | GetLogger _ | NewStdout | NewFile _ => true
  end.
Fixpoint runs (l : list op) (s : log_state) : bool :=
  match l with
  | [] => true
  | o :: l => enabledb o s && match run_op clock opens o s with Ok _ s => runs l s | _ => false end
  end.
Lemma runs_reachable l s s' : reachable clock opens s -> runs l s = true -> run_ops l s = Ok tt s' -> reachable clock opens s'.
Proof.
  revert s. induction l as [|o l IH]; intros s Hs; simpl; [by intros _ [= <-]|]. intros [Ho Hl]%andb_true_iff.
  destruct (run_op clock opens o s) as [[] s1| |] eqn:Er; [|done|done]. apply IH; [|done].
  eapply reach_step; [exact Hs| |exact Er]. destruct o; simpl in *; rewrite ?andb_true_iff, ?bool_decide_eq_true in Ho; done.
Qed.
Lemma started_reachable : reachable clock opens started.
Proof. refine (reach_start _ _ ∅ _ (is_ok_state _ _ _)). by_vm. Qed.
Lemma setup_reachable : reachable clock opens built.
Proof. refine (runs_reachable setup started _ started_reachable _ (is_ok_state _ _ _)); by_vm. Qed.
Definition hello (p : nat) (level : Z) : LogEvent := stream "hello" (new_LogEvent p level "main.cpp" 7 0 3 "main" 0 0).
End Example_.
Import Example_.

Lemma loggers_safe_witness :
  reachable clock opens built /\ exists p s', get_logger "system" built = Ok p s' /\ get_logger "system" s' = Ok p s'.
Proof.
  split; [exact setup_reachable|].
  destruct (loggers_safe clock opens built setup_reachable) as (_ & _ & _ & Hg).
  destruct (Hg "system") as (p & s' & E1 & E2 & _). exists p, s'. split; [exact E1|exact E2].
Defined.
Lemma log_outcome_witness :
  exists s', log clock 1 (hello 1 ERROR) built = Ok tt s' /\
    console s' = "ERROR system: hello" +:+ newline /\ default "" (files s' !! "a.log") = "ERROR system: hello" +:+ newline.
Proof.
  assert (is_Some (loggers built !! 1%nat)) as Hp by (apply (bool_decide_unpack _); vm_compute; exact I).
  pose proof (log_outcome clock opens built 1 (hello 1 ERROR) setup_reachable Hp) as Hl.
  assert (recipients 1 (hello 1 ERROR) built = Some [1; 2]%nat) as Er by (apply (bool_decide_unpack _); vm_cast_no_check I).
  rewrite Er in Hl.
  assert (texts clock [1; 2]%nat (hello 1 ERROR) built =
    Some [(FileLogAppender "a.log" true, "ERROR system: hello" +:+ newline); (StdoutLogAppender, "ERROR system: hello" +:+ newline)])
    as Et by (apply (bool_decide_unpack _); vm_cast_no_check I). rewrite Et in Hl. destruct Hl as (s' & El & Ec & Ef & _). exists s'. split; [exact El|].
  split; [rewrite Ec; by_vm|rewrite Ef; by_vm].
Defined.
(** The root logger without appenders waits for its own lock. *)
Example root_waits :
  exists s, run_ops [ClearAppenders 0] started = Ok tt s /\ log clock 0 (hello 0 ERROR) s = Fail_ Undef.
Proof.
  exists (state_of started (run_ops [ClearAppenders 0] started)). split; [refine (is_ok_state _ _ _); by_vm|by_vm].
Qed.
End Log.
