(* ===== verification/LogConfig.v ===== *)
(** * Configuration of the loggers: src/src/log.cpp (LogDefine, LexicalCast, LogIniter)

    The definitions of loggers in a configuration, their conversions from and to
    text, and the listener that applies a new configuration to the loggers.  The
    messages the conversion prints on the console are left out. *)

From stdpp Require Import countable prelude strings gmap.
From Stdlib Require Import ZArith Lia Ascii.
From S2P Require Import Prelude Text LexicalCast Config LogFormatter Log.

Module LogConfig.
Import LexicalCast LogFormatter Log.
Local Open Scope string_scope.
Local Open Scope list_scope.
Local Open Scope Z_scope.

Record LogAppenderDefine := LogAppenderDefine_ {
  a_type : Z;                       (* 1 file, 2 stdout *)
  a_formatter : string;
  a_file : string
}.
#[export] Instance LogAppenderDefine_eq_dec : EqDecision LogAppenderDefine.
Proof. solve_decision. Defined.
Record LogDefine := LogDefine_ {
  d_name : string;
  d_level : Z;
  d_formatter : string;
  d_appenders : list LogAppenderDefine
}.
#[export] Instance LogDefine_eq_dec : EqDecision LogDefine.
Proof. solve_decision. Defined.
(** [operator<] *)
Definition by_name (x y : LogDefine) : comparison := String.compare (d_name x) (d_name y).

(** ** Conversions *)

(** yaml-cpp: the value of a key of a node, which may not be defined, and scalars. *)
Class YamlDoc `{Yaml} := {
  key : node -> string -> option node;
  IsDefined : node -> bool;
  as_string : node -> option string;
  scalar_node : string -> node
}.

Section cast.
Context `{YamlDoc}.

(** [n[k].IsDefined() ? n[k].as<std::string>() : ""] *)
Definition text_at (n : node) (k : string) : option string :=
  x ← key n k; if IsDefined x then as_string x else Some "".
(** One round of the loop over the appenders: an exception, or [continue], or an
    appender. *)
Definition read_appender (a : node) : option (option LogAppenderDefine) :=
  x ← key a "type";
  if negb (IsDefined x) then Some None
  else
    type ← as_string x;
    if decide (type = "FileLogAppender") then
      y ← key a "file";
      if negb (IsDefined y) then Some None
      else
        file ← as_string y;
        formatter ← text_at a "formatter";
        Some (Some (LogAppenderDefine_ 1 formatter file))
    else if decide (type = "StdoutLogAppender") then Some (Some (LogAppenderDefine_ 2 "" ""))
    else Some None.
(** The loop over the elements of a sequence, without those that are skipped. *)
Definition read_all {X} (read : node -> option (option X)) (n : node) : option (list X) :=
  l ← mapM (fun i => x ← index n i; read x) (seq 0 (node_size n)); Some (omap id l).
Definition read_define (n : node) : option (option LogDefine) :=
  x ← key n "name";
  if negb (IsDefined x) then Some None
  else
    name ← as_string x;
    level ← text_at n "level";
    formatter ← text_at n "formatter";
    y ← key n "appenders";
    appenders ← (if IsDefined y then read_all read_appender y else Some []);
    Some (Some (LogDefine_ name (level_from_string level) formatter appenders)).
(** [LexicalCast<std::string, std::set<LogDefine>>] *)
Definition defines_from_string (v : string) : option (list LogDefine) :=
  n ← Load v; l ← read_all read_define n; Some (foldl (fun s x => set_insert by_name x s) [] l).

(** [n[k] = s] for a string *)
Definition set_text (n : node) (k s : string) : node := set_key n k (scalar_node s).
Definition appender_node (a : LogAppenderDefine) : node :=
  let na := null_node in
  let na :=
    if a_type a =? 1 then set_text (set_text na "type" "FileLogAppender") "file" (a_file a)
    else if a_type a =? 2 then set_text na "type" "StdoutLogAppender"
    else na in
  if decide (a_formatter a = "") then na else set_text na "formatter" (a_formatter a).
(** [n[k].push_back(x)] *)
Definition push_at (k : string) (n x : node) : node :=
  let l := match key n k with Some y => if IsDefined y then y else null_node | None => null_node end in
  set_key n k (push_back l x).
Definition define_node (i : LogDefine) : node :=
  let n := set_text (set_text null_node "name" (d_name i)) "level" (level_to_string (d_level i)) in
  let n := if decide (d_formatter i = "") then n else set_text n "formatter" (d_formatter i) in
  foldl (fun n a => push_at "appenders" n (appender_node a)) n (d_appenders i).
(** [LexicalCast<std::set<LogDefine>, std::string>] *)
Definition defines_to_string (v : list LogDefine) : string := emit (seq_node (define_node <$> v)).

(** ** Round trip *)

(** The key of a map is the value stored last; other keys are not defined; scalars
    hold their text. *)
Class DocLaws `{!YamlLaws} := {
  key_in l k x : NoDup l.*1 -> (k, x) ∈ l -> key (map_node l) k = Some x;
  key_out l k : NoDup l.*1 -> k ∉ l.*1 -> exists u, key (map_node l) k = Some u /\ IsDefined u = false;
  set_key_again n k x y : set_key (set_key n k x) k y = set_key n k y;
  defined_good n : good n -> IsDefined n = true;
  good_text s : good (scalar_node s);
  as_text s : as_string (scalar_node s) = Some s;
  plain_key k : k ∈ ["name"; "level"; "formatter"; "appenders"; "type"; "file"] -> plain k
}.
Context `{!YamlLaws, !DocLaws}.

Lemma map_node_snoc l k x : map_node (l ++ [(k, x)]) = set_key (map_node l) k x.
Proof. unfold map_node. by rewrite foldl_snoc. Qed.
Lemma seq_node_snoc l x : seq_node (l ++ [x]) = push_back (seq_node l) x.
Proof. unfold seq_node. by rewrite foldl_snoc. Qed.

Definition opt_pair (k s : string) : list (string * node) := if decide (s = "") then [] else [(k, scalar_node s)].
Definition appender_pairs (a : LogAppenderDefine) : list (string * node) :=
  (if a_type a =? 1 then [("type", scalar_node "FileLogAppender"); ("file", scalar_node (a_file a))]
   else if a_type a =? 2 then [("type", scalar_node "StdoutLogAppender")]
   else []) ++ opt_pair "formatter" (a_formatter a).
Definition define_pairs (i : LogDefine) : list (string * node) :=
  [("name", scalar_node (d_name i)); ("level", scalar_node (level_to_string (d_level i)))] ++
  opt_pair "formatter" (d_formatter i).
Definition appenders_pair (l : list LogAppenderDefine) : list (string * node) :=
  match l with [] => [] | _ => [("appenders", seq_node (appender_node <$> l))] end.

Lemma appender_node_pairs a : appender_node a = map_node (appender_pairs a).
Proof.
  unfold appender_node, appender_pairs, opt_pair. destruct (decide (a_formatter a = ""));
    (destruct (a_type a =? 1); [done|]); by destruct (a_type a =? 2).
Qed.
Lemma concrete_keys (l : list string) : bool_decide (NoDup l) = true -> NoDup l.
Proof. apply bool_decide_eq_true. Qed.
Lemma appender_keys a : NoDup (appender_pairs a).*1 /\ Forall (fun p => plain p.1 /\ good p.2) (appender_pairs a).
Proof.
  unfold appender_pairs, opt_pair.
  destruct (a_type a =? 1), (a_type a =? 2), (decide (a_formatter a = ""));
    (split; [apply concrete_keys; vm_compute; reflexivity|repeat constructor; try apply good_text;
      apply plain_key, (bool_decide_unpack _); vm_compute; exact I]).
Qed.
Lemma good_appender a : good (appender_node a).
Proof. rewrite appender_node_pairs. destruct (appender_keys a). by apply good_map. Qed.

(** Pushing the appenders one by one. *)
Lemma push_all base l : NoDup base.*1 -> "appenders" ∉ base.*1 ->
  foldl (fun n a => push_at "appenders" n (appender_node a)) (map_node base) l = map_node (base ++ appenders_pair l).
Proof.
  intros Hnd Hn. induction l as [|a l IH] using rev_ind; [simpl; by rewrite (right_id_L [] (++))|].
  rewrite foldl_snoc, IH. unfold push_at. destruct l as [|b l].
  - simpl appenders_pair. rewrite (right_id_L [] (++)). destruct (key_out base "appenders" Hnd Hn) as (u & -> & ->).
    by rewrite map_node_snoc.
  - assert (forall l', appenders_pair ((b :: l) ++ l') = [("appenders", seq_node (appender_node <$> (b :: l) ++ l'))]) as Hp by done.
    rewrite <- (app_nil_r (b :: l)) at 1 2. rewrite !Hp, (app_nil_r (b :: l)).
    rewrite (key_in _ "appenders" (seq_node (appender_node <$> b :: l))).
    + rewrite defined_good by (apply good_seq, Forall_fmap, Forall_forall; intros; apply good_appender).
      rewrite !map_node_snoc, set_key_again, fmap_app. simpl fmap at 3. by rewrite seq_node_snoc.
    + rewrite fmap_app. apply NoDup_app. split; [done|]. split; [|repeat constructor; apply not_elem_of_nil].
      intros x Hx Hx'. simpl in Hx'. apply list_elem_of_singleton in Hx'. by subst x.
    + apply elem_of_app. right. by left.
Qed.

(** What is read is what was written. *)
Lemma key_text_in l k s : NoDup l.*1 -> (k, scalar_node s) ∈ l ->
  exists x, key (map_node l) k = Some x /\ IsDefined x = true /\ as_string x = Some s.
Proof.
  intros Hnd Hin. exists (scalar_node s). split; [by apply key_in|]. split; [apply defined_good, good_text|apply as_text].
Qed.
Lemma text_at_in l k s : NoDup l.*1 -> (k, scalar_node s) ∈ l -> text_at (map_node l) k = Some s.
Proof.
  intros Hnd Hin. unfold text_at. destruct (key_text_in l k s Hnd Hin) as (x & -> & Hd & Ha). simpl. by rewrite Hd.
Qed.
(** A text that is left out when it is empty. *)
Lemma text_at_opt l1 l2 k s : NoDup (l1 ++ opt_pair k s ++ l2).*1 -> k ∉ l1.*1 -> k ∉ l2.*1 ->
  text_at (map_node (l1 ++ opt_pair k s ++ l2)) k = Some s.
Proof.
  unfold opt_pair. destruct (decide (s = "")) as [->|Hs]; intros Hnd Ha Hb.
  - unfold text_at. destruct (key_out (l1 ++ l2) k) as (u & Eu & Hu);
      [done|rewrite fmap_app, not_elem_of_app; done|].
    change ([] ++ l2) with l2. rewrite Eu. simpl. by rewrite Hu.
  - apply text_at_in; [done|]. apply elem_of_app. right. by left.
Qed.

(** Definitions the texts can express: a console appender has no file and no
    formatter of its own, and the level is one of the five or unknown. *)
Definition expressible_appender (a : LogAppenderDefine) : Prop :=
  a_type a = 1 \/ a_type a = 2 /\ a_formatter a = "" /\ a_file a = "".
Definition expressible (i : LogDefine) : Prop :=
  0 <= d_level i <= 5 /\ Forall expressible_appender (d_appenders i).

Lemma read_appender_node a : expressible_appender a -> read_appender (appender_node a) = Some (Some a).
Proof.
  intros Ha. rewrite appender_node_pairs. destruct (appender_keys a) as [Hnd _]. revert Hnd. unfold appender_pairs.
  unfold expressible_appender in Ha. destruct a as [t f file]. simpl in Ha |- *. unfold read_appender. destruct Ha as [->|(-> & -> & ->)]; simpl Z.eqb; cbn match; intros Hnd.
  - destruct (key_text_in _ "type" "FileLogAppender" Hnd) as (x & Ex & Dx & Ax); [by left|].
    destruct (key_text_in _ "file" file Hnd) as (y & Ey & Dy & Ay); [by right; left|].
    rewrite Ex. cbn [mbind option_bind]. rewrite Dx, Ax. cbn [mbind option_bind negb].
    rewrite decide_True by done. rewrite Ey. cbn [mbind option_bind]. rewrite Dy, Ay. cbn [mbind option_bind negb].
    rewrite <- (app_nil_r (opt_pair "formatter" f)) in Hnd |- *. rewrite text_at_opt; [done|done| |apply not_elem_of_nil].
    apply (bool_decide_unpack _). vm_compute. exact I.
  - destruct (key_text_in _ "type" "StdoutLogAppender" Hnd) as (x & Ex & Dx & Ax); [by left|].
    rewrite Ex. cbn [mbind option_bind]. rewrite Dx, Ax. done.
Qed.

Lemma define_node_pairs i : define_node i = map_node (define_pairs i ++ appenders_pair (d_appenders i)).
Proof.
  rewrite <- push_all; [|unfold define_pairs, opt_pair..].
  - unfold define_node, define_pairs, opt_pair. by destruct (decide (d_formatter i = "")).
  - destruct (decide (d_formatter i = "")); apply concrete_keys; vm_compute; reflexivity.
  - destruct (decide (d_formatter i = "")); apply (bool_decide_unpack _); vm_compute; exact I.
Qed.
Lemma define_keys i : NoDup (define_pairs i ++ appenders_pair (d_appenders i)).*1 /\
  Forall (fun p => plain p.1 /\ good p.2) (define_pairs i ++ appenders_pair (d_appenders i)).
Proof.
  assert (forall l, good (seq_node (appender_node <$> l))) as Hg
    by (intros l; apply good_seq, Forall_fmap, Forall_forall; intros; apply good_appender).
  unfold define_pairs, opt_pair, appenders_pair. specialize (Hg (d_appenders i)).
  destruct (decide (d_formatter i = "")), (d_appenders i);
    (split; [apply concrete_keys; vm_compute; reflexivity|repeat constructor; try apply good_text; try exact Hg;
      apply plain_key, (bool_decide_unpack _); vm_compute; exact I]).
Qed.
Lemma read_all_seq {X Y} (read : node -> option (option X)) (f : Y -> node) (g : Y -> X) l :
  Forall (fun y => read (f y) = Some (Some (g y))) l -> read_all read (seq_node (f <$> l)) = Some (g <$> l).
Proof.
  intros Hl. unfold read_all. rewrite index_all.
  assert (mapM read (f <$> l) = Some ((fun y => Some (g y)) <$> l)) as ->.
  { induction Hl as [|y l Hy Hl IH]; [done|]. rewrite !fmap_cons. cbn [mapM]. rewrite Hy. cbn [mbind option_bind]. by rewrite IH. }
  simpl. f_equal. clear Hl. induction l as [|y l IH]; [done|]. rewrite !fmap_cons. simpl. f_equal. exact IH.
Qed.
Lemma level_round level : 0 <= level <= 5 -> level_from_string (level_to_string level) = level.
Proof.
  intros Hl. assert (level ∈ [0; 1; 2; 3; 4; 5]) as Hin by (rewrite !elem_of_cons; lia).
  repeat (apply elem_of_cons in Hin as [->|Hin]; [vm_compute; reflexivity|]). by apply elem_of_nil in Hin.
Qed.

Lemma read_define_node i : expressible i -> read_define (define_node i) = Some (Some i).
Proof.
  intros [Hl Ha]. rewrite define_node_pairs. destruct (define_keys i) as [Hnd _]. unfold read_define.
  set (l := define_pairs i ++ appenders_pair (d_appenders i)) in *.
  destruct (key_text_in l "name" (d_name i) Hnd) as (x & -> & Dx & Ax); [by left|]. cbn [mbind option_bind].
  rewrite Dx, Ax. cbn [mbind option_bind negb].
  rewrite (text_at_in l "level" (level_to_string (d_level i))); [|done|by right; left]. cbn [mbind option_bind].
  assert (text_at (map_node l) "formatter" = Some (d_formatter i)) as ->.
  { unfold l, define_pairs in *. rewrite <- (assoc_L (++)) in Hnd |- *. apply text_at_opt; [done| |].
    - apply (bool_decide_unpack _). vm_compute. exact I.
    - destruct (d_appenders i); apply (bool_decide_unpack _); vm_compute; exact I. }
  cbn [mbind option_bind]. rewrite (level_round _ Hl).
  assert (exists y, key (map_node l) "appenders" = Some y /\
    (if IsDefined y then read_all read_appender y else Some []) = Some (d_appenders i)) as (y & -> & Ey).
  { unfold l in *. destruct (d_appenders i) as [|a la] eqn:Ei.
    - destruct (key_out _ "appenders" Hnd) as (u & Eu & Hu);
        [unfold define_pairs, opt_pair; destruct (decide (d_formatter i = "")); apply (bool_decide_unpack _); vm_compute; exact I|].
      exists u. split; [done|]. by rewrite Hu.
    - exists (seq_node (appender_node <$> a :: la)). split; [apply key_in; [done|apply elem_of_app; right; by left]|].
      rewrite defined_good by (apply good_seq, Forall_fmap, Forall_forall; intros; apply good_appender).
      rewrite (read_all_seq read_appender appender_node id); [by rewrite list_fmap_id|].
      eapply Forall_impl; [exact Ha|]. intros b. apply read_appender_node. }
  cbn [mbind option_bind]. rewrite Ey. cbn [mbind option_bind]. by destruct i.
Qed.

(** A configuration of loggers that is printed and read comes back, if its
    levels are those of the enumeration and its console appenders have neither a file
    nor a formatter of their own. *)
Theorem defines_roundtrip l :
  increasing by_name l -> Forall expressible l ->
  defines_from_string (defines_to_string l) = Some l.
Proof.
  intros Hs Hl. unfold defines_from_string, defines_to_string. rewrite load_emit.
  2:{ apply good_seq, Forall_fmap, Forall_forall. intros i _. unfold compose. rewrite define_node_pairs.
      destruct (define_keys i). by apply good_map. }
  cbn [mbind option_bind]. rewrite (read_all_seq read_define define_node id);
    [|eapply Forall_impl; [exact Hl|]; intros i; apply read_define_node].
  cbn [mbind option_bind]. rewrite list_fmap_id. f_equal. apply insert_all; [|done].
  intros x y. apply String.compare_antisym.
Qed.
End cast.

(** ** The listener *)

Section initer.
Context (strftime : string -> Z -> string) (can_open : string -> bool).

(** The body of the loop over the appenders of a definition. *)
Definition add_defined (p : nat) (a : LogAppenderDefine) : cmd unit :=
  let* ap :=
    (if a_type a =? 1 then let* q := new_FileLogAppender can_open (a_file a) in ret (Some q)
     else if a_type a =? 2 then let* q := new_StdoutLogAppender in ret (Some q)
     else ret None) in
  (if decide (a_formatter a = "") then ret tt
   else
     let* f := formatter_of (a_formatter a) in
     let* q := pointer ap in
     appender_set_formatter q (Some f)) ;;;
  add_appender p ap.
(** [value.find(i)] *)
Definition find_define (i : LogDefine) (v : list LogDefine) : option LogDefine :=
  List.find (fun j => match by_name i j with Eq => true | _ => false end) v.
(** The body of the loop over the new definitions. *)
Definition apply_new (old_value : list LogDefine) (i : LogDefine) : cmd unit :=
  let* logger :=
    (match find_define i old_value with
     | None => let* p := get_logger (d_name i) in ret (Some p)
     | Some j => if decide (i = j) then ret None else let* p := get_logger (d_name i) in ret (Some p)
     end) in
  let* p := pointer logger in
  set_level p (d_level i) ;;;
  clear_appenders p ;;;
  (if decide (d_formatter i = "") then ret tt else set_pattern p (d_formatter i)) ;;;
  each (add_defined p) (d_appenders i).
(** The body of the loop over the old definitions. *)
Definition apply_old (new_value : list LogDefine) (i : LogDefine) : cmd unit :=
  match find_define i new_value with
  | None =>
    let* p := get_logger (d_name i) in
    set_level p 100 ;;;
    clear_appenders p
  | Some _ => ret tt
  end.
Definition on_logger_conf_changed (here : place) (old_value new_value : list LogDefine) : cmd unit :=
  let* root := get_root in
  LOG_LEVEL strftime root DEBUG here "on_logger_conf_changed" ;;;
  each (apply_new old_value) new_value ;;;
  each (apply_old new_value) old_value.

(** ** Loggers by name *)

Definition view (s : log_state) (n : string) : option Logger := p ← m_loggers s !! n; loggers s !! p.
Definition distinct (s : log_state) : Prop :=
  forall n1 n2 p, m_loggers s !! n1 = Some p -> m_loggers s !! n2 = Some p -> n1 = n2.
Definition inv (s : log_state) : Prop := log_wf s /\ distinct s.
(** Appenders stay. *)
Definition keeps (s s' : log_state) : Prop := forall a y, appenders s !! a = Some y -> appenders s' !! a = Some y.
(** Only the logger named [n] changes. *)
Definition touches (n : string) (s s' : log_state) : Prop :=
  (forall n', n' <> n -> view s' n' = view s n') /\ keeps s s'.
Lemma keeps_refl s : keeps s s.
Proof. by intros a y. Qed.
Lemma keeps_trans s1 s2 s3 : keeps s1 s2 -> keeps s2 s3 -> keeps s1 s3.
Proof. intros H1 H2 a y Hy. auto. Qed.
Lemma touches_trans n s1 s2 s3 : touches n s1 s2 -> touches n s2 s3 -> touches n s1 s3.
Proof. intros [A1 B1] [A2 B2]. split; [|by eapply keeps_trans]. intros n' Hn. by rewrite A2, A1. Qed.

(** A new object for the logger named [n]. *)
Lemma put_touches n p x s : inv s -> m_loggers s !! n = Some p -> sound s x ->
  let s' := set_loggers (<[p := x]> (loggers s)) s in
  inv s' /\ touches n s s' /\ view s' n = Some x.
Proof.
  intros [Hs Hd] Hp Hx s'. split; [split; [by apply wf_put|done]|]. split; [split; [|by intros a y]|].
  - intros n' Hn. unfold view, s'. simpl. destruct (m_loggers s !! n') as [q|] eqn:Hq; [|done]. simpl.
    rewrite lookup_insert_ne; [done|]. intros ->. by apply Hn, (Hd n' n q).
  - unfold view, s'. simpl. rewrite Hp. simpl. by rewrite lookup_insert_eq.
Qed.
Lemma get_logger_touches n s : inv s -> exists p s' x,
  get_logger n s = Ok p s' /\ inv s' /\ touches n s s' /\ m_loggers s' !! n = Some p /\ view s' n = Some x /\
  l_formatter x = match view s n with Some y => l_formatter y | None => default_format end.
Proof.
  intros [Hs Hd]. destruct (wf_get_logger n s Hs) as (p & s' & E & Hs' & Hp & Hm).
  destruct (m_loggers s !! n) as [q|] eqn:Hq.
  - destruct Hm as [-> ->]. destruct (wf_names s Hs n p Hq) as [x Hx]. exists p, s, x.
    assert (view s n = Some x) as Ev by (unfold view; rewrite Hq; done). rewrite Ev.
    split; [done|]. split; [done|]. split; [split; [done|apply keeps_refl]|done].
  - destruct Hm as (Hn & El & En & Ea & Er). exists p, s', (Logger_ n DEBUG [] default_format).
    split; [done|]. split.
    { split; [done|]. intros n1 n2 q. rewrite En, !lookup_insert_Some. 
      intros [[<- <-]|[H1 H1']] [[<- E2]|[H2 H2']]; try done.
      - destruct (wf_names s Hs n2 p H2') as [x Hx]. congruence.
      - subst q. destruct (wf_names s Hs n1 p H1') as [x Hx]. congruence.
      - by eapply Hd. }
    split; [split|].
    + intros n' Hn'. unfold view. rewrite En, lookup_insert_ne by done.
      destruct (m_loggers s !! n') as [q|] eqn:Hq'; [|done]. simpl. rewrite El, lookup_insert_ne; [done|].
      intros ->. destruct (wf_names s Hs n' q Hq') as [x Hx]. congruence.
    + intros a y. by rewrite Ea.
    + split; [done|]. unfold view. rewrite Hp, Hq. simpl. by rewrite El, lookup_insert_eq.
Qed.
(** [set_level], [clear_appenders] and the like. *)
Lemma replace_touches n p x (g : Logger -> Logger) s : inv s -> m_loggers s !! n = Some p -> view s n = Some x ->
  (sound s x -> sound s (g x)) ->
  exists s', locked (LoggerMutex p) (let* x := logger p in put_logger p (g x)) s = Ok tt s' /\
    inv s' /\ touches n s s' /\ m_loggers s' !! n = Some p /\ view s' n = Some (g x) /\ appenders s' = appenders s.
Proof.
  intros [Hs Hd] Hp Hv Hg. assert (loggers s !! p = Some x) as Hx by (unfold view in Hv; by rewrite Hp in Hv).
  eexists. split; [apply (replace_ok p x); [by apply free|done]|].
  destruct (put_touches n p (g x) s (conj Hs Hd) Hp (Hg (wf_logger s Hs p x Hx))) as (H1 & H2 & H3). done.
Qed.
Lemma set_level_touches n p x level s : inv s -> m_loggers s !! n = Some p -> view s n = Some x ->
  exists s', set_level p level s = Ok tt s' /\ inv s' /\ touches n s s' /\ m_loggers s' !! n = Some p /\
    view s' n = Some (Logger_ (m_name x) level (m_appenders x) (l_formatter x)).
Proof.
  intros [Hs Hd] Hp Hv. assert (loggers s !! p = Some x) as Hx by (unfold view in Hv; by rewrite Hp in Hv).
  unfold set_level. rewrite (bind_logger p _ _ x) by done. eexists. split; [reflexivity|].
  destruct (put_touches n p (Logger_ (m_name x) level (m_appenders x) (l_formatter x)) s (conj Hs Hd) Hp) as (H1 & H2 & H3);
    [exact (wf_logger s Hs p x Hx)|done].
Qed.

(** ** One appender of a definition *)

Definition sink_of (a : LogAppenderDefine) : sink :=
  if a_type a =? 1 then FileLogAppender (a_file a) (can_open (a_file a)) else StdoutLogAppender.
(** The pattern of the appender, or the formatter of the logger. *)
Definition own_format (a : LogAppenderDefine) (f : option LogFormatter) : option LogFormatter :=
  if decide (a_formatter a = "") then f else new_LogFormatter (a_formatter a).
Definition known_type (a : LogAppenderDefine) : Prop := a_type a = 1 \/ a_type a = 2.

(** Only the appenders and the files differ. *)
Definition same_loggers (s s' : log_state) : Prop :=
  loggers s' = loggers s /\ m_loggers s' = m_loggers s /\ m_root s' = m_root s /\ held s' = held s.
#[local] Opaque fresh_appender.
Lemma new_appender_ok k s : exists s', new_appender k s = Ok (fresh_appender s) s' /\ same_loggers s s' /\
  appenders s' = <[fresh_appender s := LogAppender_ k None]> (appenders s).
Proof. eexists. split; [reflexivity|]. by split. Qed.
Lemma make_appender a s : known_type a ->
  exists q s', (if a_type a =? 1 then let* q := new_FileLogAppender can_open (a_file a) in ret (Some q)
                else if a_type a =? 2 then let* q := new_StdoutLogAppender in ret (Some q)
                else ret None) s = Ok (Some q) s' /\ same_loggers s s' /\ appenders s !! q = None /\
    appenders s' = <[q := LogAppender_ (sink_of a) None]> (appenders s).
Proof.
  intros Ht. unfold sink_of. destruct (a_type a =? 1) eqn:E1.
  - unfold bind at 1, new_FileLogAppender, bind at 1.
    set (m := if can_open (a_file a) then _ else _). assert (exists s1, m s = Ok tt s1 /\ same_loggers s s1 /\ appenders s1 = appenders s) as (s1 & -> & Hl & Ha).
    { unfold m. destruct (can_open (a_file a)); eexists; (split; [reflexivity|]); done. }
    destruct (new_appender_ok (FileLogAppender (a_file a) (can_open (a_file a))) s1) as (s2 & -> & Hl2 & Ha2).
    exists (fresh_appender s1), s2. split; [done|]. split; [|split].
    + destruct Hl as (? & ? & ? & ?), Hl2 as (? & ? & ? & ?). split_and!; congruence.
    + rewrite <- Ha. apply fresh_appender_none.
    + by rewrite Ha2, Ha.
  - destruct Ht as [Ht|Ht]; [rewrite Ht in E1; done|]. rewrite Ht. rewrite Z.eqb_refl.
    unfold bind, new_StdoutLogAppender. destruct (new_appender_ok StdoutLogAppender s) as (s2 & -> & Hl2 & Ha2).
    exists (fresh_appender s), s2. split; [done|]. split; [done|]. split; [apply fresh_appender_none|done].
Qed.

(** A new appender gets its formatter and is added to the logger. *)
Lemma attach_new p q k f x s s' : log_wf s -> loggers s !! p = Some x -> same_loggers s s' -> appenders s !! q = None ->
  appenders s' = <[q := LogAppender_ k f]> (appenders s) ->
  exists s'', add_appender p (Some q) s' = Ok tt s'' /\
    m_loggers s'' = m_loggers s /\ m_root s'' = m_root s /\ held s'' = held s /\
    appenders s'' = <[q := LogAppender_ k (match f with None => l_formatter x | v => v end)]> (appenders s) /\
    loggers s'' = <[p := Logger_ (m_name x) (l_level x) (m_appenders x ++ [q]) (l_formatter x)]> (loggers s).
Proof.
  intros Hs Hx (El & En & Er & Eh) Hq Ea. pose proof (wf_held s Hs) as Hh.
  rewrite (add_appender_ok p q x (LogAppender_ k f)).
  - eexists. split; [reflexivity|]. simpl. rewrite El, Ea, insert_insert_eq. split_and!; [done|done|done|by destruct f|done].
  - rewrite Eh, Hh. apply not_elem_of_nil.
  - rewrite Eh, Hh. apply not_elem_of_nil.
  - by rewrite El.
  - by rewrite Ea, lookup_insert_eq.
Qed.
Lemma attached_inv n p q y x s s' : inv s -> m_loggers s !! n = Some p -> loggers s !! p = Some x -> appenders s !! q = None ->
  m_loggers s' = m_loggers s -> m_root s' = m_root s -> held s' = held s ->
  is_Some (Log.a_formatter y) -> appenders s' = <[q := y]> (appenders s) ->
  loggers s' = <[p := Logger_ (m_name x) (l_level x) (m_appenders x ++ [q]) (l_formatter x)]> (loggers s) ->
  inv s' /\ touches n s s' /\ view s' n = Some (Logger_ (m_name x) (l_level x) (m_appenders x ++ [q]) (l_formatter x)).
Proof.
  intros [Hs Hd] Hp Hx Hq En Er Eh Hf Ea El.
  assert (Hk : keeps s s'). { intros a z Hz. rewrite Ea, lookup_insert_ne; [done|]. congruence. }
  assert (Hr : forall b, ready s b -> ready s' b). { intros b (z & Hz & Hfz). exists z. split; [by apply Hk|done]. }
  destruct (wf_logger s Hs p x Hx) as [Hfx Hax].
  split; [split; [split|]|split; [split|]].
  - rewrite Eh. apply (wf_held s Hs).
  - rewrite Er, El. apply lookup_insert_is_Some'. right. apply (wf_root s Hs).
  - intros m r Hm. rewrite En in Hm. rewrite El. apply lookup_insert_is_Some'. right. by eapply (wf_names s Hs).
  - intros r z. rewrite El. intros [[_ <-]|[_ Hz]]%lookup_insert_Some.
    + split; [done|]. apply Forall_app. split; [by eapply Forall_impl|]. constructor; [|constructor].
      exists y. by rewrite Ea, lookup_insert_eq.
    + destruct (wf_logger s Hs r z Hz) as [A B]. split; [done|]. by eapply Forall_impl.
  - intros n1 n2 r. rewrite En. apply Hd.
  - intros m Hm. unfold view. rewrite En. destruct (m_loggers s !! m) as [r|] eqn:Hr'; [|done]. simpl.
    rewrite El, lookup_insert_ne; [done|]. intros ->. by apply Hm, (Hd m n r).
  - done.
  - unfold view. rewrite En, Hp. simpl. by rewrite El, lookup_insert_eq.
Qed.
Lemma add_defined_touches n p x a s : inv s -> m_loggers s !! n = Some p -> view s n = Some x -> known_type a ->
  exists q s', add_defined p a s = Ok tt s' /\ inv s' /\ touches n s s' /\ m_loggers s' !! n = Some p /\
    view s' n = Some (Logger_ (m_name x) (l_level x) (m_appenders x ++ [q]) (l_formatter x)) /\
    appenders s' !! q = Some (LogAppender_ (sink_of a) (own_format a (l_formatter x))).
Proof.
  intros [Hs Hd] Hp Hv Ht. assert (loggers s !! p = Some x) as Hx by (unfold view in Hv; by rewrite Hp in Hv).
  destruct (wf_logger s Hs p x Hx) as [[fx Hfx] _].
  destruct (make_appender a s Ht) as (q & s1 & E1 & Hl & Hq & Ea). unfold add_defined, bind at 1. rewrite E1.
  assert (exists f s2, (if decide (a_formatter a = "") then ret tt
    else let* f := formatter_of (a_formatter a) in let* q := pointer (Some q) in appender_set_formatter q (Some f)) s1 = Ok tt s2 /\
    same_loggers s s2 /\ appenders s2 = <[q := LogAppender_ (sink_of a) f]> (appenders s) /\
    match f with None => l_formatter x | v => v end = own_format a (l_formatter x)) as (f & s2 & E2 & Hl2 & Ea2 & Ef).
  { unfold own_format. destruct (decide (a_formatter a = "")) as [E|E]; [by exists None, s1|].
    unfold bind at 1, formatter_of. destruct (new_formatter (a_formatter a)) as (f & -> & _). unfold ret at 1.
    destruct Hl as (H1 & H2 & H3 & H4). unfold bind, pointer, ret.
    rewrite (set_formatter_ok q (LogAppender_ (sink_of a) None)).
    - eexists (Some f), _. split; [reflexivity|]. split; [done|]. simpl. by rewrite Ea, insert_insert_eq.
    - rewrite H4, (wf_held s Hs). apply not_elem_of_nil.
    - by rewrite Ea, lookup_insert_eq. }
  unfold bind at 1. rewrite E2.
  destruct (attach_new p q (sink_of a) f x s s2 Hs Hx Hl2 Hq Ea2) as (s3 & E3 & En & Er & Eh & Ea3 & El). rewrite Ef in Ea3.
  assert (is_Some (own_format a (l_formatter x))) as Hf.
  { unfold own_format. case_decide; [by rewrite Hfx|]. destruct (new_formatter (a_formatter a)) as (g & -> & _). by eexists. }
  destruct (attached_inv n p q (LogAppender_ (sink_of a) (own_format a (l_formatter x))) x s s3) as (H1 & H2 & H3); try done.
  exists q, s3. split; [done|]. split; [done|]. split; [done|]. split; [by rewrite En|]. split; [done|].
  by rewrite Ea3, lookup_insert_eq.
Qed.

(** ** One definition *)

Definition has_appenders (s : log_state) (f : option LogFormatter) (qs : list nat) (l : list LogAppenderDefine) : Prop :=
  Forall2 (fun q a => appenders s !! q = Some (LogAppender_ (sink_of a) (own_format a f))) qs l.
Lemma has_appenders_keeps s s' f qs l : keeps s s' -> has_appenders s f qs l -> has_appenders s' f qs l.
Proof. intros Hk Hl. eapply Forall2_impl; [exact Hl|]. intros q a. apply Hk. Qed.

Lemma each_defined n p l : forall x s, inv s -> m_loggers s !! n = Some p -> view s n = Some x -> Forall known_type l ->
  exists qs s', each (add_defined p) l s = Ok tt s' /\ inv s' /\ touches n s s' /\
    view s' n = Some (Logger_ (m_name x) (l_level x) (m_appenders x ++ qs) (l_formatter x)) /\
    has_appenders s' (l_formatter x) qs l.
Proof.
  induction l as [|a l IH]; intros x s Hs Hp Hv Hl.
  { exists [], s. rewrite (right_id_L [] (++)). split; [done|]. split; [done|]. split; [split; [done|apply keeps_refl]|].
    split; [by destruct x|constructor]. }
  apply Forall_cons in Hl as [Ha Hl].
  destruct (add_defined_touches n p x a s Hs Hp Hv Ha) as (q & s1 & E1 & Hs1 & Ht1 & Hp1 & Hv1 & Hq).
  destruct (IH _ s1 Hs1 Hp1 Hv1 Hl) as (qs & s2 & E2 & Hs2 & Ht2 & Hv2 & Hqs). simpl in Hv2.
  exists (q :: qs), s2. split; [cbn [each]; unfold bind; by rewrite E1|]. split; [done|].
  split; [by eapply touches_trans|]. split; [by rewrite Hv2, <- (assoc_L (++))|].
  constructor; [|done]. apply Ht2. by rewrite Hq.
Qed.

(** The formatter after [set_formatter(v)], unless [v] is empty. *)
Definition pattern_or (v : string) (f : option LogFormatter) : option LogFormatter :=
  if decide (v = "") then f
  else match new_LogFormatter v with Some g => if m_error g then f else Some g | None => f end.
Lemma set_pattern_touches n p x v s : inv s -> m_loggers s !! n = Some p -> view s n = Some x ->
  exists s', (if decide (v = "") then ret tt else set_pattern p v) s = Ok tt s' /\ inv s' /\ touches n s s' /\
    m_loggers s' !! n = Some p /\
    view s' n = Some (Logger_ (m_name x) (l_level x) (m_appenders x) (pattern_or v (l_formatter x))).
Proof.
  intros Hs Hp Hv. unfold pattern_or.
  assert (touches n s s /\ Some x = Some (Logger_ (m_name x) (l_level x) (m_appenders x) (l_formatter x))) as [Ht Ex]
    by (split; [split; [done|apply keeps_refl]|by destruct x]).
  destruct (decide (v = "")) as [E|E]; [exists s; by rewrite <- Ex|].
  unfold set_pattern, bind at 1, formatter_of. destruct (new_formatter v) as (g & -> & _). unfold ret at 1.
  destruct (m_error g); [exists s; by rewrite <- Ex|].
  destruct (replace_touches n p x (fun x => Logger_ (m_name x) (l_level x) (m_appenders x) (Some g)) s Hs Hp Hv)
    as (s' & E1 & H1 & H2 & H3 & H4 & _); [by intros [_ Ha]; split|]. by exists s'.
Qed.
Lemma clear_touches n p x s : inv s -> m_loggers s !! n = Some p -> view s n = Some x ->
  exists s', clear_appenders p s = Ok tt s' /\ inv s' /\ touches n s s' /\ m_loggers s' !! n = Some p /\
    view s' n = Some (Logger_ (m_name x) (l_level x) [] (l_formatter x)).
Proof.
  intros Hs Hp Hv.
  destruct (replace_touches n p x (fun x => Logger_ (m_name x) (l_level x) [] (l_formatter x)) s Hs Hp Hv)
    as (s' & E1 & H1 & H2 & H3 & H4 & _); [by intros [Hf _]; split|]. by exists s'.
Qed.

Definition base_format (v : option Logger) : option LogFormatter :=
  match v with Some y => l_formatter y | None => default_format end.
(** The logger of a definition has the level, the formatter and the appenders the
    definition gives it. *)
Definition configured (i : LogDefine) (v : option Logger) (s : log_state) : Prop :=
  exists x, view s (d_name i) = Some x /\ l_level x = d_level i /\
    l_formatter x = pattern_or (d_formatter i) (base_format v) /\
    has_appenders s (l_formatter x) (m_appenders x) (d_appenders i).
(** A logger that is not defined any more drops every event. *)
Definition removed (i : LogDefine) (s : log_state) : Prop :=
  exists x, view s (d_name i) = Some x /\ l_level x = 100 /\ m_appenders x = [].

Lemma apply_new_ok old i s : inv s -> find_define i old <> Some i -> Forall known_type (d_appenders i) ->
  exists s', apply_new old i s = Ok tt s' /\ inv s' /\ touches (d_name i) s s' /\ configured i (view s (d_name i)) s'.
Proof.
  intros Hs Hf Hl. set (n := d_name i).
  destruct (get_logger_touches n s Hs) as (p & s1 & x & E1 & Hs1 & Ht1 & Hp1 & Hv1 & Hx).
  assert ((match find_define i old with
           | None => let* p := get_logger (d_name i) in ret (Some p)
           | Some j => if decide (i = j) then ret None else let* p := get_logger (d_name i) in ret (Some p)
           end) s = Ok (Some p) s1) as E.
  { destruct (find_define i old) as [j|]; [rewrite decide_False by congruence|]; unfold bind; fold n; by rewrite E1. }
  unfold apply_new, bind at 1. rewrite E. unfold bind at 1, pointer, ret at 1.
  destruct (set_level_touches n p x (d_level i) s1 Hs1 Hp1 Hv1) as (s2 & E2 & Hs2 & Ht2 & Hp2 & Hv2).
  destruct (clear_touches n p _ s2 Hs2 Hp2 Hv2) as (s3 & E3 & Hs3 & Ht3 & Hp3 & Hv3).
  destruct (set_pattern_touches n p _ (d_formatter i) s3 Hs3 Hp3 Hv3) as (s4 & E4 & Hs4 & Ht4 & Hp4 & Hv4).
  destruct (each_defined n p (d_appenders i) _ s4 Hs4 Hp4 Hv4 Hl) as (qs & s5 & E5 & Hs5 & Ht5 & Hv5 & Hqs).
  unfold bind. rewrite E2, E3, E4, E5. exists s5. split; [done|]. split; [done|].
  split; [eauto 6 using touches_trans|]. simpl in Hv5, Hqs.
  eexists. split; [exact Hv5|]. split; [done|]. simpl. rewrite Hx in *. split; done.
Qed.
Lemma apply_old_ok new i s : inv s -> exists s', apply_old new i s = Ok tt s' /\ inv s' /\ touches (d_name i) s s' /\
  (if find_define i new then view s' (d_name i) = view s (d_name i) else removed i s').
Proof.
  intros Hs. unfold apply_old. destruct (find_define i new) as [j|].
  { exists s. split; [done|]. split; [done|]. split; [split; [done|apply keeps_refl]|done]. }
  set (n := d_name i). destruct (get_logger_touches n s Hs) as (p & s1 & x & E1 & Hs1 & Ht1 & Hp1 & Hv1 & Hx).
  destruct (set_level_touches n p x 100 s1 Hs1 Hp1 Hv1) as (s2 & E2 & Hs2 & Ht2 & Hp2 & Hv2).
  destruct (clear_touches n p _ s2 Hs2 Hp2 Hv2) as (s3 & E3 & Hs3 & Ht3 & Hp3 & Hv3).
  unfold bind. rewrite E1, E2, E3. exists s3. split; [done|]. split; [done|].
  split; [eauto using touches_trans|]. eexists. split; [exact Hv3|done].
Qed.

(** ** All definitions *)

(** A loop in which every round touches one name, each a different one. *)
Lemma each_names {X} (name : X -> string) (f : X -> cmd unit) (Q : X -> option Logger -> log_state -> Prop) l :
  (forall x s, x ∈ l -> inv s -> exists s', f x s = Ok tt s' /\ inv s' /\ touches (name x) s s' /\ Q x (view s (name x)) s') ->
  (forall x v s s', Q x v s -> view s' (name x) = view s (name x) -> keeps s s' -> Q x v s') ->
  NoDup (name <$> l) -> forall s, inv s ->
  exists s', each f l s = Ok tt s' /\ inv s' /\ keeps s s' /\ (forall n, n ∉ name <$> l -> view s' n = view s n) /\
    forall x, x ∈ l -> Q x (view s (name x)) s'.
Proof.
  intros Hf HQ. induction l as [|y l IH]; intros Hnd s Hs.
  { exists s. split; [done|]. split; [done|]. split; [apply keeps_refl|]. split; [done|]. intros x Hx. by apply elem_of_nil in Hx. }
  rewrite fmap_cons in Hnd. apply NoDup_cons in Hnd as [Hy Hnd].
  destruct (Hf y s) as (s1 & E1 & Hs1 & Ht1 & HQ1); [by left|done|].
  destruct IH with (s := s1) as (s2 & E2 & Hs2 & Hk2 & Hv2 & HQ2); [intros x s0 Hx; apply Hf; by right|done|done|].
  exists s2. split; [cbn [each]; unfold bind; by rewrite E1|]. split; [done|].
  split; [eapply keeps_trans; [apply Ht1|done]|]. split.
  - intros n. rewrite fmap_cons, not_elem_of_cons. intros [Hn Hl]. rewrite Hv2 by done. by apply Ht1.
  - intros x [->|Hx]%elem_of_cons; [apply (HQ y _ s1); auto|].
    rewrite <- (proj1 Ht1 (name x)); [auto|]. intros E. apply Hy. rewrite <- E. by apply list_elem_of_fmap_2.
Qed.

Lemma compare_same (x : string) : String.compare x x = Eq.
Proof. pose proof (String.compare_antisym x x) as H. by destruct (String.compare x x). Qed.
Lemma find_define_some i l j : find_define i l = Some j -> j ∈ l /\ d_name j = d_name i.
Proof.
  intros E. apply List.find_some in E as [Hj E]. split; [by apply list_elem_of_In|]. unfold by_name in E.
  destruct (String.compare (d_name i) (d_name j)) eqn:Ec; [|done|done]. by apply String.compare_eq_iff in Ec.
Qed.
Lemma find_define_none i l : find_define i l = None <-> d_name i ∉ d_name <$> l.
Proof.
  split.
  - intros E Hin. apply list_elem_of_fmap in Hin as (j & Ej & Hj).
    pose proof (List.find_none _ _ E j (proj1 (list_elem_of_In _ _) Hj)) as Hc. unfold by_name in Hc.
    by rewrite Ej, compare_same in Hc.
  - intros Hn. destruct (find_define i l) as [j|] eqn:E; [|done]. apply find_define_some in E as [Hj Ej].
    destruct Hn. rewrite <- Ej. by apply list_elem_of_fmap_2.
Qed.
Lemma configured_stable i v s s' : configured i v s -> view s' (d_name i) = view s (d_name i) -> keeps s s' -> configured i v s'.
Proof.
  intros (x & Hx & Hl & Hf & Ha) Hv Hk. exists x. rewrite Hv. split_and!; [done|done|done|by eapply has_appenders_keeps].
Qed.
(** The line the listener logs changes no logger. *)
Lemma log_line p level here text s s1 : inv s -> LOG_LEVEL strftime p level here text s = Ok tt s1 ->
  inv s1 /\ (forall n, view s1 n = view s n) /\ m_loggers s1 = m_loggers s.
Proof.
  intros [Hs Hd]. unfold LOG_LEVEL, bind, logger. destruct (loggers s !! p) as [x|] eqn:Hx; [|done].
  destruct (l_level x <=? level); [|by intros [= <-]].
  rewrite log_wf_text; [|done|by eexists]. destruct (recipients _ _ s) as [l|]; [|done].
  destruct (texts _ l _ s) as [ws|]; [|done]. intros [= <-].
  destruct (all_wrote_same ws s) as (El & Ea & En & Er & Eh). split; [split; [by apply wf_all_wrote|]|split; [|done]].
  - intros n1 n2 q. rewrite En. apply Hd.
  - intros n. unfold view. by rewrite El, En.
Qed.

(** When the configuration of the loggers changes, and every new definition
    differs from the old one of its name, the listener returns, and every logger that
    is defined then has exactly the level and the appenders of its definition, each with
    its own formatter or the logger's, and the formatter of its definition, or the one it
    had when the definition gives none or an invalid one; every logger that is no longer
    defined has level 100 and no appenders; and every other logger is what it was. *)
Lemma conf_changed here old new s s1 :
  reachable strftime can_open s -> distinct s ->
  LOG_LEVEL strftime (m_root s) DEBUG here "on_logger_conf_changed" s = Ok tt s1 ->
  NoDup (d_name <$> old) -> NoDup (d_name <$> new) ->
  (forall i, i ∈ new -> i ∉ old /\ Forall known_type (d_appenders i)) ->
  exists s', on_logger_conf_changed here old new s = Ok tt s' /\
    (forall i, i ∈ new -> configured i (view s (d_name i)) s') /\
    (forall i, i ∈ old -> d_name i ∉ d_name <$> new -> removed i s') /\
    (forall n, n ∉ d_name <$> new -> n ∉ d_name <$> old -> view s' n = view s n) /\
    held s' = [].
Proof.
  intros Hr%log_reachable_wf Hd Hlog Hold Hnew Hi. destruct (log_line _ _ _ _ _ _ (conj Hr Hd) Hlog) as (Hs1 & Hv1 & _).
  destruct (each_names d_name (apply_new old) configured new) with (s := s1) as (s2 & E2 & Hs2 & Hk2 & Hv2 & HQ2); try done.
  { intros i s0 Hin Hs0. destruct (Hi i Hin) as [Ho Ht]. apply apply_new_ok; [done| |done].
    intros E. by apply Ho, (find_define_some i old i). }
  { intros i v s0 s0'. apply configured_stable. }
  destruct (each_names d_name (apply_old new)
    (fun i v s => if find_define i new then view s (d_name i) = v else removed i s) old) with (s := s2)
    as (s3 & E3 & Hs3 & Hk3 & Hv3 & HQ3); try done.
  { intros i s0 _ Hs0. by apply apply_old_ok. }
  { intros i v s0 s0' HQ Hv _. destruct (find_define i new); [congruence|].
    destruct HQ as (x & Hx & Hxl & Hxa). exists x. by rewrite Hv. }
  exists s3. split; [|split; [|split; [|split]]].
  - unfold on_logger_conf_changed, bind, get_root, gets. by rewrite Hlog, E2, E3.
  - intros i Hin. rewrite <- Hv1. apply (configured_stable i _ s2); [by apply HQ2| |done].
    destruct (decide (d_name i ∈ d_name <$> old)) as [Ho|Ho]; [|by apply Hv3].
    apply list_elem_of_fmap in Ho as (j & Ej & Hj). specialize (HQ3 j Hj). rewrite Ej.
    destruct (find_define j new) as [k|] eqn:Ek; [done|]. apply find_define_none in Ek. destruct Ek.
    rewrite <- Ej. by apply list_elem_of_fmap_2.
  - intros i Hin Hn. specialize (HQ3 i Hin). by rewrite (proj2 (find_define_none i new) Hn) in HQ3.
  - intros n Hn Ho. by rewrite Hv3, Hv2.
  - apply (wf_held s3), Hs3.
Qed.

(** A definition that is the same in the old and the new configuration makes the
    listener follow a null pointer. *)
Lemma unchanged_fails here old new i s x s' : NoDup (d_name <$> old) -> i ∈ old -> i ∈ new ->
  on_logger_conf_changed here old new s <> Ok x s'.
Proof.
  intros Hnd Ho Hn E.
  assert (find_define i old = Some i) as Ef.
  { destruct (find_define i old) as [j|] eqn:Ej.
    - apply find_define_some in Ej as [Hj Ej]. f_equal. revert Hnd Ho Hj Ej. clear. intros Hnd Ho Hj Ej.
      apply list_elem_of_lookup in Ho as [a Ha]. apply list_elem_of_lookup in Hj as [b Hb].
      assert (b = a) as -> by (eapply NoDup_lookup; [exact Hnd|by rewrite list_lookup_fmap, Hb|by rewrite list_lookup_fmap, Ha; simpl; rewrite Ej]).
      congruence.
    - apply find_define_none in Ej. destruct Ej. by apply list_elem_of_fmap_2. }
  unfold on_logger_conf_changed in E. apply bind_Ok in E as (r & s0 & _ & E). apply bind_Ok in E as (u & s1 & _ & E).
  apply bind_Ok in E as (u' & s2 & E & _). clear -Ef Hn E. revert s1 E. induction new as [|j l IH]; intros s1 E.
  - by apply elem_of_nil in Hn.
  - cbn [each] in E. apply bind_Ok in E as (u1 & s3 & E1 & E). apply elem_of_cons in Hn as [<-|Hn]; [|by eapply IH].
    unfold apply_new, bind at 1 in E1. by rewrite Ef, decide_True in E1.
Qed.
End initer.

(** ** From the text of a configuration to the loggers

    The variable [logs] of the configuration holds the definitions, next to the
    variables of other types, and the listener is the one of [LogIniter]. *)
Section loading.
Context `{YamlDoc} (B : Base) (strftime : string -> Z -> string) (can_open : string -> bool) (here : place).
#[local] Instance logs_base : Base := {|
  code := option (@code B);
  base c := match c with None => list LogDefine | Some c => @base B c end;
  base_eq_dec c := match c with None => _ | Some c => @base_eq_dec B c end;
  cast_from c := match c with None => defines_from_string | Some c => @cast_from B c end;
  cast_to c := match c with None => fun v => Some (defines_to_string v) | Some c => @cast_to B c end;
  base_cmp c := match c with None => list_cmp by_name | Some c => @base_cmp B c end
|}.
Definition logs (l : list LogDefine) : val := existT (TBase None) l.
Definition logs_of (v : val) : list LogDefine :=
  match v with existT (TBase None) l => l | _ => [] end.
(** [LogIniter]'s listener, among those of a program. *)
Inductive listener := OnLogs.
Definition run_listener (f : listener) (old new : val) : Log.cmd unit :=
  match f with OnLogs => on_logger_conf_changed strftime can_open here (logs_of old) (logs_of new) end.

(** C19: when a text with new definitions of loggers is loaded into the configuration
    variable of the loggers, whose only listener is that of the loggers, no two names
    share a logger, the listener's own log line is written, and every new definition
    differs from the old one of its name, the variable holds the new definitions, and every logger that is defined then
    has exactly the level and the appenders of its definition, each with its own
    formatter or the logger's, and the formatter of its definition, or the one it had when
    the definition gives none or an invalid one; every logger that is no longer defined
    has level 100 and no appenders; and every other logger is what it was. *)
Theorem logs_applied (c : Config.config) p k x t old new s1 :
  Config.vars c !! p = Some x -> Config.m_val x = logs old -> Config.m_cbs x = [(k, Some OnLogs)] ->
  defines_from_string t = Some new -> new <> old ->
  let s := Config.world c in
  reachable strftime can_open s -> distinct s ->
  LOG_LEVEL strftime (m_root s) DEBUG here "on_logger_conf_changed" s = Ok tt s1 ->
  NoDup (d_name <$> old) -> NoDup (d_name <$> new) ->
  (forall i, i ∈ new -> i ∉ old /\ Forall known_type (d_appenders i)) ->
  exists c', Config.from_string run_listener p t c = Ok false c' /\
    Config.vars c' = <[p := Config.with_val (logs new) x]> (Config.vars c) /\
    let s' := Config.world c' in
    (forall i, i ∈ new -> configured can_open i (view s (d_name i)) s') /\
    (forall i, i ∈ old -> d_name i ∉ d_name <$> new -> removed i s') /\
    (forall n, n ∉ d_name <$> new -> n ∉ d_name <$> old -> view s' n = view s n) /\
    held s' = [].
Proof.
  intros Hx Hv Hc Ht Hne s Hr Hd Hl Ho Hn Hi. subst s.
  destruct (conf_changed strftime can_open here old new _ s1 Hr Hd Hl Ho Hn Hi) as (s' & E & H1 & H2 & H3 & H4).
  rewrite (Config.from_string_changed run_listener p x t c Hx). unfold Config.type_of. rewrite Hv.
  change (from_str (projT1 (logs old)) t) with (defines_from_string t). rewrite Ht. unfold Config.changed.
  rewrite decide_False. 2:{ rewrite Hv. intros E'. apply Hne. exact (f_equal logs_of E'). }
  rewrite Hc, Hv. simpl. rewrite E. eexists. split; [reflexivity|]. done.
Qed.
End loading.

(** ** Witnesses *)

Module Example_.
Import LexicalCast.Example_ Log.Example_.
#[export] Instance tree_doc : YamlDoc := {|
  key n k := match n : gen_tree string with
             | GenNode 2 l => Some (default (GenNode 3 []) (snd <$> List.find (fun p => bool_decide (p.1 = k)) (tree_pairs l)))
             | GenNode 0 _ | GenNode 3 _ => Some (GenNode 3 [])
             | _ => None
             end;
  IsDefined n := match n : gen_tree string with GenNode 3 _ => false | _ => true end;
  as_string n := match n : gen_tree string with GenLeaf s => Some s | _ => None end;
  scalar_node := GenLeaf : string -> node
|}.
Lemma find_pair (l : list (string * gen_tree string)) k x : NoDup l.*1 -> (k, x) ∈ l ->
  List.find (fun p => bool_decide (p.1 = k)) l = Some (k, x).
Proof.
  induction l as [|[j y] l IH]; intros Hnd Hin; [by apply elem_of_nil in Hin|]. rewrite fmap_cons in Hnd.
  apply NoDup_cons in Hnd as [Hj Hnd]. simpl. apply elem_of_cons in Hin as [[= -> ->]|Hin].
  - by rewrite bool_decide_eq_true_2.
  - rewrite bool_decide_eq_false_2; [auto|]. intros ->. apply Hj. by apply (list_elem_of_fmap_2 fst l (k, x)).
Qed.
Lemma put_key_again l k x y : put_key (put_key l k x) k y = put_key l k y.
Proof.
  unfold put_key. destruct (decide (k ∈ l.*1)) as [Hk|Hk].
  - rewrite decide_True.
    + rewrite <- list_fmap_compose. apply list_fmap_ext. intros i p _. simpl. destruct (decide (p.1 = k)); simpl;
        [by rewrite decide_True|by rewrite decide_False].
    + rewrite <- list_fmap_compose. apply list_elem_of_fmap in Hk as ([j z] & -> & Hz). apply list_elem_of_fmap.
      exists (j, z). split; [|done]. simpl. by rewrite decide_True.
  - rewrite decide_True by (rewrite fmap_app; apply elem_of_app; right; by left). rewrite fmap_app. f_equal.
    + rewrite <- (list_fmap_id l) at 2. apply list_fmap_ext. intros i p Hp. rewrite decide_False; [done|]. intros <-.
      apply Hk, list_elem_of_fmap_2. by eapply list_elem_of_lookup_2.
    + simpl. by rewrite decide_True.
Qed.
#[export] Instance tree_doc_laws : DocLaws.
Proof.
  split.
  - intros l k x Hnd Hin. rewrite map_node_tree by done. destruct l as [|p l]; [by apply elem_of_nil in Hin|].
    cbn [key tree_doc]. rewrite tree_pairs_map. by rewrite (find_pair (p :: l) k x Hnd Hin).
  - intros l k Hnd Hk. rewrite map_node_tree by done. destruct l as [|p l]; [by eexists|]. cbn [key tree_doc]. rewrite tree_pairs_map.
    destruct (List.find (fun p : string * gen_tree string => bool_decide (p.1 = k)) (p :: l)) as [[j x]|] eqn:E; [|by eexists].
    apply List.find_some in E as [Hin E%bool_decide_eq_true]. simpl in E. subst j. destruct Hk.
    apply (list_elem_of_fmap_2 fst (p :: l) (k, x)). by apply list_elem_of_In.
  - assert (forall k (x y : gen_tree string), put_key (tree_pairs (tree_map [(k, x)])) k y = [(k, y)]) as Hs.
    { intros k x y. rewrite tree_pairs_map. unfold put_key. rewrite decide_True by by left. simpl. by rewrite decide_True. }
    intros n k x y. destruct n as [s|[|[|[|i]]] l]; cbn [set_key tree_yaml]; try by rewrite Hs.
    by rewrite tree_pairs_map, put_key_again.
  - by intros [s|[|[|[|[|i]]]] l].
  - done.
  - done.
  - intros k Hk. repeat (apply elem_of_cons in Hk as [->|Hk]; [done|]). by apply elem_of_nil in Hk.
Defined.

Definition file_define (level : Z) : LogDefine := LogDefine_ "system" level "%m%n" [LogAppenderDefine_ 1 "%p %m" "b.log"].
Definition plain_define : LogDefine := LogDefine_ "web" INFO "" [LogAppenderDefine_ 2 "" ""].
Definition gone : LogDefine := LogDefine_ "quiet" INFO "" [].
Lemma distinct_list s : NoDup (map_to_list (m_loggers s)).*2 -> distinct s.
Proof.
  intros Hnd n1 n2 p E1 E2. apply elem_of_map_to_list, list_elem_of_lookup in E1 as [a Ha].
  apply elem_of_map_to_list, list_elem_of_lookup in E2 as [b Hb].
  assert (a = b) as -> by (eapply NoDup_lookup; [exact Hnd|by rewrite list_lookup_fmap, Ha|by rewrite list_lookup_fmap, Hb]).
  congruence.
Qed.
Definition here : place := Place "log.cpp" 532 1 "main" 0 0.
End Example_.
Import LexicalCast.Example_ Log.Example_ Example_.

Lemma defines_roundtrip_witness :
  defines_from_string (defines_to_string [file_define DEBUG; plain_define]) = Some [file_define DEBUG; plain_define].
Proof.
  apply defines_roundtrip.
  - repeat constructor.
  - constructor; [|constructor; [|constructor]]; (split; [vm_compute; split; discriminate|]).
    + constructor; [by left|constructor].
    + constructor; [by right|constructor].
Defined.
(** The listener is added, and a text with other definitions is loaded. *)
Definition before : @Config.config (logs_base string_base) listener log_state :=
  Config.Config_ {[1%nat := Config.ConfigVar_ "logs" "logs config" (logs string_base [gone; file_define DEBUG]) [(1, Some OnLogs)]]}
    {["logs" := 1%nat]} (fun _ => 1) built.
Definition after_text : string := defines_to_string [file_define WARN; plain_define].
Lemma logs_applied_witness :
  exists c', Config.from_string (run_listener string_base clock opens here) 1 after_text before = Ok false c' /\
    configured opens plain_define (view (Config.world before) (d_name plain_define)) (Config.world c') /\ removed gone (Config.world c').
Proof.
  destruct (LOG_LEVEL clock (m_root built) DEBUG here "on_logger_conf_changed" built) as [[] s1|e s1|f] eqn:E1.
  2,3: exfalso; assert (match LOG_LEVEL clock (m_root built) DEBUG here "on_logger_conf_changed" built with
    Ok _ _ => true | _ => false end = true) as E2 by by_vm; rewrite E1 in E2; discriminate.
  assert (distinct built) as Hd by (apply distinct_list, (bool_decide_unpack _); vm_compute; exact I).
  assert (defines_from_string after_text = Some [file_define WARN; plain_define]) as Et
    by (apply (bool_decide_unpack _); vm_cast_no_check I).
  destruct (logs_applied string_base clock opens here before 1 1 _ after_text [gone; file_define DEBUG]
    [file_define WARN; plain_define] s1 eq_refl eq_refl eq_refl Et ltac:(discriminate) setup_reachable Hd E1)
    as (c' & Es & _ & Hn & Ho & _).
  - apply (bool_decide_unpack _). vm_compute. exact I.
  - apply (bool_decide_unpack _). vm_compute. exact I.
  - intros i Hi. apply elem_of_cons in Hi as [->|Hi]; [|apply list_elem_of_singleton in Hi as ->].
    + split; [apply (bool_decide_unpack _); vm_compute; exact I|]. constructor; [by left|constructor].
    + split; [apply (bool_decide_unpack _); vm_compute; exact I|]. constructor; [by right|constructor].
  - exists c'. split; [exact Es|]. split.
    + refine (Hn plain_define _). right. left.
    + refine (Ho gone _ _); [left|]. apply (bool_decide_unpack _). vm_compute. exact I.
Defined.
(** The formatter of a console appender is written and not read. *)
Example console_formatter_lost :
  defines_from_string (defines_to_string [LogDefine_ "a" DEBUG "" [LogAppenderDefine_ 2 "%m" ""]]) =
  Some [LogDefine_ "a" DEBUG "" [LogAppenderDefine_ 2 "" ""]].
Proof. by_vm. Qed.
End LogConfig.
