(* ===== verification/Thread.v ===== *)
(** * Locks and threads: src/src/thread.h, src/src/thread.cpp

    A lock is acquired, or the thread waits, or the call is one POSIX leaves
    undefined.  The scoped locks are defined for every kind of lock, through a class.
    The guards of all threads on one lock form a transition system, and so do the
    constructor of a [Thread] and the thread it starts.  Logging is left out. *)

From stdpp Require Import prelude strings.
From Stdlib Require Import ZArith Lia.
From S2P Require Import Prelude.

Module Thread.
Local Open Scope Z_scope.

(** ** Locks *)

Inductive attempt (X : Type) :=
  | Got (x : X)
  | Wait
  | Bad.
Arguments Got {X} _.
Arguments Wait {X}.
Arguments Bad {X}.

Inductive mode := R | W.
#[export] Instance mode_eq_dec : EqDecision mode.
Proof. solve_decision. Defined.

(** [lock()], or [rdlock()] and [wrlock()], and [unlock()], called by thread [me]. *)
Class Lockable (L : Type) := {
  acquire : mode -> nat -> L -> attempt L;
  release : nat -> L -> attempt L;
  free : L
}.

(** A [pthread_mutex_t]: the thread that holds it.  Locking it twice waits for ever. *)
Record Mutex := Mutex_ { mutex_holder : option nat }.
#[export] Instance Mutex_lock : Lockable Mutex := {|
  acquire _ me l := match mutex_holder l with None => Got (Mutex_ (Some me)) | Some _ => Wait end;
  release me l := if decide (mutex_holder l = Some me) then Got (Mutex_ None) else Bad;
  free := Mutex_ None
|}.
(** A [pthread_spinlock_t]: locking it twice is undefined. *)
Record SpinLock := SpinLock_ { spin_holder : option nat }.
#[export] Instance SpinLock_lock : Lockable SpinLock := {|
  acquire _ me l :=
    match spin_holder l with
    | None => Got (SpinLock_ (Some me))
    | Some h => if decide (h = me) then Bad else Wait
    end;
  release me l := if decide (spin_holder l = Some me) then Got (SpinLock_ None) else Bad;
  free := SpinLock_ None
|}.
(** The flag of a [CASLock]: [lock] tries until the flag was clear, [unlock] clears it. *)
Record CASLock := CASLock_ { cas_flag : bool }.
#[export] Instance CASLock_lock : Lockable CASLock := {|
  acquire _ _ l := if cas_flag l then Wait else Got (CASLock_ true);
  release _ _ := Got (CASLock_ false);
  free := CASLock_ false
|}.
(** A [pthread_rwlock_t]. *)
Record RWMutex := RWMutex_ { readers : list nat; writer : option nat }.
Fixpoint remove_one (x : nat) (l : list nat) : list nat :=
  match l with [] => [] | y :: l => if decide (y = x) then l else y :: remove_one x l end.
Definition rdlock (me : nat) (l : RWMutex) : attempt RWMutex :=
  match writer l with
  | None => Got (RWMutex_ (me :: readers l) None)
  | Some h => if decide (h = me) then Bad else Wait
  end.
Definition wrlock (me : nat) (l : RWMutex) : attempt RWMutex :=
  if decide (writer l = Some me \/ me ∈ readers l) then Bad
  else match writer l, readers l with None, [] => Got (RWMutex_ [] (Some me)) | _, _ => Wait end.
Definition rwunlock (me : nat) (l : RWMutex) : attempt RWMutex :=
  if decide (writer l = Some me) then Got (RWMutex_ (readers l) None)
  else if decide (me ∈ readers l) then Got (RWMutex_ (remove_one me (readers l)) (writer l))
  else Bad.
#[export] Instance RWMutex_lock : Lockable RWMutex := {|
  acquire m me l := match m with R => rdlock me l | W => wrlock me l end;
  release := rwunlock;
  free := RWMutex_ [] None
|}.
(** [NullMutex] and [NullRWMutex] lock nothing. *)
Record NullMutex := NullMutex_ {}.
#[export] Instance NullMutex_lock : Lockable NullMutex := {|
  acquire _ _ l := Got l;
  release _ l := Got l;
  free := NullMutex_
|}.

(** ** Scoped locks *)

(** [ScopedLockImpl], [ReadScopedLockImpl] and [WriteScopedLockImpl]: a guard of a
    thread, by what its [lock] calls. *)
Record guard := Guard { g_owner : nat; g_mode : mode; m_locked : bool }.
Definition with_locked (b : bool) (g : guard) : guard := Guard (g_owner g) (g_mode g) b.

Section scoped.
Context {L : Type} `{Lockable L}.
Definition scoped_lock (g : guard) (l : L) : attempt (guard * L) :=
  if m_locked g then Got (g, l)
  else match acquire (g_mode g) (g_owner g) l with
       | Got l => Got (with_locked true g, l) | Wait => Wait | Bad => Bad
       end.
Definition scoped_unlock (g : guard) (l : L) : attempt (guard * L) :=
  if m_locked g
  then match release (g_owner g) l with
       | Got l => Got (with_locked false g, l) | Wait => Wait | Bad => Bad
       end
  else Got (g, l).
(** The constructor and the destructor. *)
Definition new_scoped (me : nat) (m : mode) (l : L) : attempt (guard * L) := scoped_lock (Guard me m false) l.
Definition del_scoped (g : guard) (l : L) : attempt L :=
  match scoped_unlock g l with Got (_, l) => Got l | Wait => Wait | Bad => Bad end.

(** The guards of all threads on one lock. *)
Inductive step : L * list guard -> L * list guard -> Prop :=
  | step_new me m l gs g l' : new_scoped me m l = Got (g, l') -> step (l, gs) (l', g :: gs)
  | step_lock l gs1 g gs2 g' l' : scoped_lock g l = Got (g', l') -> step (l, gs1 ++ g :: gs2) (l', gs1 ++ g' :: gs2)
  | step_unlock l gs1 g gs2 g' l' : scoped_unlock g l = Got (g', l') -> step (l, gs1 ++ g :: gs2) (l', gs1 ++ g' :: gs2)
  | step_del l gs1 g gs2 l' : del_scoped g l = Got l' -> step (l, gs1 ++ g :: gs2) (l', gs1 ++ gs2).
Inductive reachable : L * list guard -> Prop :=
  | reach_start : reachable (free, [])
  | reach_step s s' : reachable s -> step s s' -> reachable s'.
End scoped.

(** ** What a lock promises *)

(** Who is inside: [inside l a] relates a lock to the threads that hold it and how.
    A thread is let in exactly when nobody is inside, or, if the lock can be shared, to
    read with other readers; a thread inside can leave. *)
Definition let_in (shared : bool) (m : mode) (a : list (nat * mode)) : Prop :=
  a = [] \/ shared = true /\ m = R /\ Forall (fun x => x.2 = R) a.
Class LockLaws (L : Type) `{Lockable L} := {
  shared : bool;
  inside : L -> list (nat * mode) -> Prop;
  inside_free : inside free [];
  inside_perm l a b : a ≡ₚ b -> inside l a -> inside l b;
  inside_acquire l a m me l' : inside l a -> acquire m me l = Got l' ->
    inside l' ((me, m) :: a) /\ let_in shared m a;
  inside_enter l a m me : inside l a -> let_in shared m a -> exists l', acquire m me l = Got l';
  inside_release l a m me : inside l ((me, m) :: a) -> exists l', release me l = Got l' /\ inside l' a
}.

(** An exclusive lock with a holder. *)
Definition held_by (h : option nat) (a : list (nat * mode)) : Prop :=
  match h with None => a = [] | Some me => exists m, a = [(me, m)] end.
Lemma held_by_perm h a b : a ≡ₚ b -> held_by h a -> held_by h b.
Proof.
  intros Hp. destruct h as [me|]; simpl.
  - intros [m ->]. exists m. symmetry. by apply Permutation_singleton_l.
  - intros ->. by apply Permutation_nil_l in Hp.
Qed.
#[export] Instance Mutex_laws : LockLaws Mutex.
Proof.
  refine {| shared := false; inside l := held_by (mutex_holder l) |}; simpl.
  - done.
  - intros l. apply held_by_perm.
  - intros [[h|]] a m me l'; simpl; intros Ha; [done|]. intros [= <-]. subst a. split; [by exists m|by left].
  - intros [[h|]] a m me; simpl; intros Ha; [intros [->|[? _]]; [by destruct Ha|done]|by eexists].
  - intros [[h|]] a m me; simpl; [|done]. intros [m' [= -> <- ->]]. rewrite decide_True by done. by eexists.
Defined.
#[export] Instance SpinLock_laws : LockLaws SpinLock.
Proof.
  refine {| shared := false; inside l := held_by (spin_holder l) |}; simpl.
  - done.
  - intros l. apply held_by_perm.
  - intros [[h|]] a m me l'; simpl; intros Ha; [by case_decide|]. intros [= <-]. subst a. split; [by exists m|by left].
  - intros [[h|]] a m me; simpl; intros Ha; [intros [->|[? _]]; [by destruct Ha|done]|by eexists].
  - intros [[h|]] a m me; simpl; [|done]. intros [m' [= -> <- ->]]. rewrite decide_True by done. by eexists.
Defined.
#[export] Instance CASLock_laws : LockLaws CASLock.
Proof.
  refine {| shared := false; inside l a := length a = if cas_flag l then 1%nat else 0%nat |}; simpl.
  - done.
  - intros l a b Hp. by rewrite Hp.
  - intros [[]] a m me l'; simpl; [done|]. intros Ha%nil_length_inv [= <-]. subst a. split; [done|by left].
  - intros [[]] a m me; simpl; intros Ha; [intros [->|[? _]]; done|by eexists].
  - intros [[]] a m me; simpl; [|done]. intros [= Ha%nil_length_inv]. subst a. by eexists.
Defined.
Lemma remove_one_perm x l : x ∈ l -> l ≡ₚ x :: remove_one x l.
Proof.
  induction l as [|y l IH]; [by intros ?%elem_of_nil|]. simpl. case_decide as E; [by subst y|].
  intros [->|Hx]%elem_of_cons; [done|]. rewrite (IH Hx) at 1. constructor.
Qed.
Definition rw_inside (l : RWMutex) (a : list (nat * mode)) : Prop :=
  match writer l with
  | None => Forall (fun x => x.2 = R) a /\ a.*1 ≡ₚ readers l
  | Some h => readers l = [] /\ a = [(h, W)]
  end.
#[export] Instance RWMutex_laws : LockLaws RWMutex.
Proof.
  refine {| shared := true; inside := rw_inside |}; simpl.
  - split; [constructor|done].
  - intros [rs [h|]] a b Hp; unfold rw_inside; simpl.
    + intros [-> ->]. split; [done|]. symmetry. by apply Permutation_singleton_l.
    + intros [Ha Hr]. by rewrite <- Hp.
  - intros [rs w] a [] me l'; unfold rw_inside, rdlock, wrlock; simpl.
    + destruct w as [h|]; intros Ha; [by case_decide|]. intros [= <-]. simpl. destruct Ha as [Ha Hr].
      split; [|right; done]. split; [by constructor|]. by rewrite Hr.
    + case_decide as Hd; [done|]. destruct w as [h|]; [done|]. destruct rs as [|r rs]; [|done]. intros [Ha Hr] [= <-].
      symmetry in Hr. apply Permutation_nil_l in Hr. symmetry in Hr. apply fmap_nil_inv in Hr. subst a. split; [done|by left].
  - intros [rs w] a m me; unfold rw_inside. simpl. intros Hi [->|(_ & -> & Ha)].
    + destruct w as [h|]; [by destruct Hi|]. destruct Hi as [_ Hr]. apply Permutation_nil_l in Hr. subst rs. destruct m; simpl.
      * by eexists.
      * by eexists.
    + destruct w as [h|]; [|by eexists]. destruct Hi as [_ ->]. apply Forall_cons in Ha as [? _]. done.
  - intros [rs w] a m me; unfold rw_inside, rwunlock; simpl. destruct w as [h|].
    + intros [-> [= -> -> ->]]. rewrite decide_True by done. eexists. split; [reflexivity|]. simpl. split; [constructor|done].
    + intros [[Hm Ha]%Forall_cons Hr]. simpl in Hr.
      assert (me ∈ rs) as Hin by (rewrite <- Hr; by left). rewrite decide_False by done. rewrite decide_True by done.
      eexists. split; [reflexivity|]. simpl. split; [done|]. apply (Permutation_cons_inv (a := me)).
      rewrite Hr. by apply remove_one_perm.
Defined.

Section exclusion.
Context {L : Type} `{LockLaws L}.
(** The guards that are locked. *)
Definition holders (gs : list guard) : list (nat * mode) :=
  omap (fun g => if m_locked g then Some (g_owner g, g_mode g) else None) gs.
Definition compatible (a : list (nat * mode)) : Prop :=
  (length a <= 1)%nat \/ shared = true /\ Forall (fun x => x.2 = R) a.
Lemma compatible_perm a b : a ≡ₚ b -> compatible a -> compatible b.
Proof. intros Hp. unfold compatible. by rewrite Hp. Qed.
Lemma compatible_cons x a : compatible (x :: a) -> compatible a.
Proof. intros [Hl|[Hs Ha]]; [left; simpl in Hl; lia|right]. split; [done|]. by inversion Ha. Qed.
Definition ok (s : L * list guard) : Prop := inside s.1 (holders s.2) /\ compatible (holders s.2).
Lemma holders_middle gs1 g gs2 :
  holders (gs1 ++ g :: gs2) ≡ₚ (if m_locked g then [(g_owner g, g_mode g)] else []) ++ holders (gs1 ++ gs2).
Proof.
  unfold holders. rewrite !omap_app. simpl. destruct (m_locked g); simpl; [by rewrite Permutation_middle|done].
Qed.
Lemma ok_perm l a b : a ≡ₚ b -> inside l a /\ compatible a -> inside l b /\ compatible b.
Proof. intros Hp [H1 H2]. split; [by eapply inside_perm|by eapply compatible_perm]. Qed.

Lemma scoped_lock_ok g l a g' l' : scoped_lock g l = Got (g', l') ->
  inside l ((if m_locked g then [(g_owner g, g_mode g)] else []) ++ a) /\ compatible ((if m_locked g then [(g_owner g, g_mode g)] else []) ++ a) ->
  m_locked g' = true /\ g_owner g' = g_owner g /\ g_mode g' = g_mode g /\
  inside l' ((g_owner g, g_mode g) :: a) /\ compatible ((g_owner g, g_mode g) :: a).
Proof.
  unfold scoped_lock. destruct (m_locked g) eqn:Eg; simpl; [by intros [= <- <-]|].
  destruct (acquire (g_mode g) (g_owner g) l) as [l1| |] eqn:Ea; [|done|done]. intros [= <- <-] [Hi Hc].
  destruct (inside_acquire l a _ _ _ Hi Ea) as [Hi' Hs]. split_and!; try done.
  destruct Hs as [->|(Hs & Hm & Ha)]; [left; simpl; lia|right]. split; [done|]. by constructor.
Qed.
Lemma scoped_unlock_ok g l a :
  inside l ((if m_locked g then [(g_owner g, g_mode g)] else []) ++ a) /\ compatible ((if m_locked g then [(g_owner g, g_mode g)] else []) ++ a) ->
  exists g' l', scoped_unlock g l = Got (g', l') /\ m_locked g' = false /\ inside l' a /\ compatible a.
Proof.
  unfold scoped_unlock. destruct (m_locked g) eqn:Eg; simpl; intros [Hi Hc].
  - destruct (inside_release l a _ _ Hi) as (l' & -> & Hi'). eexists _, _. split; [reflexivity|].
    split; [done|]. split; [done|by eapply compatible_cons].
  - by exists g, l.
Qed.
Lemma step_ok s s' : ok s -> step s s' -> ok s'.
Proof.
  intros Hs Hst. destruct Hst as [me m l gs g l' E|l gs1 g gs2 g' l' E|l gs1 g gs2 g' l' E|l gs1 g gs2 l' E]; unfold ok in *; simpl in *.
  - destruct (scoped_lock_ok _ l (holders gs) g l' E Hs) as (El & Eo & Em & Hi). unfold holders. simpl.
    rewrite El, Eo, Em. exact Hi.
  - apply (ok_perm _ _ _ (holders_middle gs1 g gs2)) in Hs. destruct (scoped_lock_ok _ _ _ _ _ E Hs) as (El & Eo & Em & Hi).
    eapply ok_perm; [symmetry; apply holders_middle|]. by rewrite El, Eo, Em.
  - apply (ok_perm _ _ _ (holders_middle gs1 g gs2)) in Hs. destruct (scoped_unlock_ok _ _ _ Hs) as (g1 & l1 & E1 & El & Hi).
    rewrite E1 in E. injection E as <- <-. eapply ok_perm; [symmetry; apply holders_middle|]. by rewrite El.
  - apply (ok_perm _ _ _ (holders_middle gs1 g gs2)) in Hs. destruct (scoped_unlock_ok _ _ _ Hs) as (g1 & l1 & E1 & El & Hi).
    unfold del_scoped in E. rewrite E1 in E. by injection E as <-.
Qed.
Lemma reachable_ok s : reachable s -> ok s.
Proof.
  induction 1 as [|s s' _ IH Hst]; [|by eapply step_ok]. split; [apply inside_free|left; simpl; lia].
Qed.

Lemma two_holders gs i j g1 g2 : gs !! i = Some g1 -> gs !! j = Some g2 -> i <> j -> m_locked g1 = true -> m_locked g2 = true ->
  exists rest, holders gs ≡ₚ (g_owner g1, g_mode g1) :: (g_owner g2, g_mode g2) :: rest.
Proof.
  intros E1 E2 Hne L1 L2.
  assert (g2 ∈ delete i gs) as Hin.
  { apply list_elem_of_lookup. destruct (decide (j < i)%nat).
    - exists j. by rewrite list_lookup_delete_lt.
    - exists (j - 1)%nat. rewrite list_lookup_delete_ge by lia. by replace (S (j - 1)) with j by lia. }
  apply list_elem_of_split in Hin as (a & b & Ed). exists (holders (a ++ b)).
  rewrite <- (take_drop_middle gs i g1 E1) at 1. rewrite holders_middle, L1. simpl. constructor.
  rewrite <- delete_take_drop, Ed, holders_middle, L2. done.
Qed.

(** What taking away guard [i] leaves of the holders. *)
Lemma delete_ok l gs i g : gs !! i = Some g -> inside l (holders gs) /\ compatible (holders gs) ->
  exists g' l', scoped_unlock g l = Got (g', l') /\ del_scoped g l = Got l' /\ m_locked g' = false /\
    inside l' (holders (delete i gs)).
Proof.
  intros Hg Hs. rewrite <- (take_drop_middle gs i g Hg) in Hs.
  apply (ok_perm _ _ _ (holders_middle (take i gs) g (drop (S i) gs))) in Hs.
  destruct (scoped_unlock_ok _ _ _ Hs) as (g' & l' & E & Hm & Hi & _). exists g', l'.
  split_and!; [done|unfold del_scoped; by rewrite E|done|by rewrite delete_take_drop].
Qed.
Lemma holders_elem x gs : x ∈ holders gs -> exists g, g ∈ gs /\ m_locked g = true /\ x = (g_owner g, g_mode g).
Proof. intros (g & Hg & E)%list_elem_of_omap. exists g. destruct (m_locked g); [|done]. by injection E as <-. Qed.
Lemma lets_in_after l gs i me m : inside l (holders (delete i gs)) ->
  (forall j g, j <> i -> gs !! j = Some g -> m_locked g = true -> shared = true /\ m = R /\ g_mode g = R) ->
  exists g2 l2, new_scoped me m l = Got (g2, l2) /\ m_locked g2 = true.
Proof.
  intros Hi Ho. destruct (inside_enter l _ m me Hi) as [l2 E]; [|unfold new_scoped, scoped_lock; simpl; rewrite E; by eauto].
  assert (forall g, g ∈ delete i gs -> exists j, j <> i /\ gs !! j = Some g) as Hin.
  { intros g (j & Hj)%list_elem_of_lookup. destruct (decide (j < i)%nat).
    - rewrite list_lookup_delete_lt in Hj by done. exists j. split; [lia|done].
    - rewrite list_lookup_delete_ge in Hj by lia. exists (S j). split; [lia|done]. }
  destruct (holders (delete i gs)) as [|x a] eqn:Eh; [by left|right].
  assert (forall y, y ∈ x :: a -> shared = true /\ m = R /\ y.2 = R) as Hall.
  { rewrite <- Eh. intros y (g & Hg & Hl & ->)%holders_elem. destruct (Hin g Hg) as (j & Hj & Hgj). by apply (Ho j g). }
  destruct (Hall x ltac:(by left)) as (? & ? & _). split_and!; [done..|]. apply Forall_forall. intros y Hy. by apply Hall.
Qed.

(** C22: whatever guards the threads make, lock, unlock and destroy on a mutex, a
    spin lock, a flag lock or a read-write lock: two guards that are locked at the same
    time are both readers of a read-write lock; every guard can be unlocked and
    destroyed at any time without waiting or undefined behaviour; and this lets others
    in: right after guard [i] was unlocked or destroyed, a new guard of any thread gets
    the lock at once if no other guard is locked, and, if it wants to read, also if the
    others that are locked are readers of a read-write lock. *)
Theorem lock_exclusion l gs :
  reachable (l, gs) ->
  (forall i j g1 g2, gs !! i = Some g1 -> gs !! j = Some g2 -> i <> j -> m_locked g1 = true -> m_locked g2 = true ->
     shared = true /\ g_mode g1 = R /\ g_mode g2 = R) /\
  (forall i g, gs !! i = Some g -> exists g' l',
     scoped_unlock g l = Got (g', l') /\ m_locked g' = false /\ reachable (l', <[i := g']> gs) /\
     del_scoped g l = Got l' /\ reachable (l', delete i gs) /\
     forall me m,
       (forall j g2, j <> i -> gs !! j = Some g2 -> m_locked g2 = true -> shared = true /\ m = R /\ g_mode g2 = R) ->
       exists g2 l2, new_scoped me m l' = Got (g2, l2) /\ m_locked g2 = true).
Proof.
  intros Hr. pose proof (reachable_ok _ Hr) as [Hi Hc]. simpl in *. split.
  - intros i j g1 g2 E1 E2 Hne L1 L2. destruct (two_holders gs i j g1 g2 E1 E2 Hne L1 L2) as [rest Hp].
    destruct (compatible_perm _ _ Hp Hc) as [Hl|[Hs Ha]]; [simpl in Hl; lia|].
    apply Forall_cons in Ha as [H1' [H2' _]%Forall_cons]. done.
  - intros i g Hg. destruct (delete_ok l gs i g Hg (conj Hi Hc)) as (g' & l' & E & Ed & Hm & Hi').
    pose proof (take_drop_middle gs i g Hg) as Eg. exists g', l'. split_and!; try done.
    + eapply reach_step; [exact Hr|]. rewrite <- Eg at 1. rewrite insert_take_drop by (by eapply lookup_lt_Some).
      by apply step_unlock.
    + eapply reach_step; [exact Hr|]. rewrite <- Eg at 1. rewrite delete_take_drop. by apply step_del with (g := g).
    + intros me m. by apply lets_in_after.
Qed.
End exclusion.

Lemma lock_exclusion_witness :
  let gs := [Guard 2 R true; Guard 1 R true] in
  reachable (RWMutex_ [2; 1]%nat None, gs) /\
  exists l', del_scoped (Guard 1 R true) (RWMutex_ [2; 1]%nat None) = Got l' /\ reachable (l', [Guard 2 R true]).
Proof.
  intros gs. assert (reachable (RWMutex_ [2; 1]%nat None, gs)) as Hr.
  { eapply reach_step; [|apply (step_new 2 R (RWMutex_ [1]%nat None)); reflexivity]. eapply reach_step; [|apply (step_new 1 R (RWMutex_ [] None)); reflexivity].
    exact reach_start. }
  split; [exact Hr|]. destruct (proj2 (lock_exclusion _ gs Hr) 1%nat (Guard 1 R true) eq_refl) as (g' & l' & _ & _ & _ & E & Hr' & _).
  exists l'. exact (conj E Hr').
Defined.

(** ** Starting a thread

    [tid] is the number the kernel gives the new thread and [handle], not 0, its
    [pthread_t]. *)
Section start.
Context {CB : Type} (tid handle : Z).

Record thread := Thread_ {
  m_id : Z;
  m_thread : Z;
  m_cb : option CB;
  m_name : string
}.
(** The parent in the constructor and after it; the child in [run]. *)
Inductive parent_at := Creating | Waiting | Returned | Threw | Destroyed.
Inductive child_at :=
  | NotStarted
  | Started
  | Ready (cb : option CB)
  | Calling (cb : option CB)
  | Finished
  | Crashed.
Record start_state := Start {
  obj : option thread;              (* none before the constructor and after the destructor *)
  m_semaphore : Z;
  parent : parent_at;
  child : child_at;
  t_thread : bool;                  (* the child's thread-local pointer to the object *)
  t_thread_name : string;           (* the child's thread-local name *)
  calls : list CB
}.
Definition set_parent v s := Start (obj s) (m_semaphore s) v (child s) (t_thread s) (t_thread_name s) (calls s).
Definition set_child v s := Start (obj s) (m_semaphore s) (parent s) v (t_thread s) (t_thread_name s) (calls s).
Definition set_obj v s := Start v (m_semaphore s) (parent s) (child s) (t_thread s) (t_thread_name s) (calls s).
Definition set_sem v s := Start (obj s) v (parent s) (child s) (t_thread s) (t_thread_name s) (calls s).
Definition set_local b n s := Start (obj s) (m_semaphore s) (parent s) (child s) b n (calls s).
Definition set_calls v s := Start (obj s) (m_semaphore s) (parent s) (child s) (t_thread s) (t_thread_name s) v.

(** [m_cb(cb), m_name(name)] and the check for an empty name. *)
Definition new_thread (cb : option CB) (name : string) : start_state :=
  Start (Some (Thread_ (-1) 0 cb (if decide (name = "") then "UNKNOWN" else name)))
    0 Creating NotStarted false "UNKNOWN" [].
(** [pthread_create]: [rt] is its result. *)
Definition create (rt : Z) (s : start_state) : start_state :=
  if rt =? 0 then
    set_child Started (set_parent Waiting
      (set_obj ((fun t => Thread_ (m_id t) handle (m_cb t) (m_name t)) <$> obj s) s))
  else set_obj None (set_parent Threw s).
(** [Semaphore::wait] and [Semaphore::notify]. *)
Definition sem_wait (s : start_state) : option start_state :=
  if 0 <? m_semaphore s then Some (set_sem (m_semaphore s - 1) s) else None.
Definition notify (s : start_state) : start_state := set_sem (m_semaphore s + 1) s.
(** [run] up to [notify]. *)
Definition run_init (s : start_state) : start_state :=
  match obj s with
  | None => set_child Crashed s
  | Some t =>
    set_child (Ready (m_cb t))
      (set_obj (Some (Thread_ tid (m_thread t) None (m_name t))) (set_local true (m_name t) s))
  end.
Definition run_notify (cb : option CB) (s : start_state) : start_state :=
  match obj s with None => set_child Crashed s | Some _ => set_child (Calling cb) (notify s) end.
(** The call: an empty function throws, which ends the process. *)
Definition run_call (cb : option CB) (s : start_state) : start_state :=
  match cb with Some f => set_child Finished (set_calls (calls s ++ [f]) s) | None => set_child Crashed s end.
(** [join], when the thread has ended: [rt] is the result of [pthread_join]; whether
    it throws. *)
Definition join (rt : Z) (s : start_state) : start_state * bool :=
  match obj s with
  | Some t =>
    if m_thread t =? 0 then (s, false)
    else if negb (rt =? 0) then (s, true)
    else (set_obj (Some (Thread_ (m_id t) 0 (m_cb t) (m_name t))) s, false)
  | None => (s, false)
  end.
(** The destructor; a thread that was not joined is detached and runs on. *)
Definition destroy (s : start_state) : start_state := set_parent Destroyed (set_obj None s).

(** [GetThis], [GetName] and [SetName] in the new thread: the pointer may be to an
    object that is no more. *)
Definition GetThis (s : start_state) : bool := t_thread s.
Definition GetName (s : start_state) : string := t_thread_name s.
Definition SetName (name : string) (s : start_state) : option start_state :=
  if t_thread s then
    match obj s with
    | None => None
    | Some t => Some (set_local true name (set_obj (Some (Thread_ (m_id t) (m_thread t) (m_cb t) name)) s))
    end
  else Some (set_local false name s).
(** [GetThis()->name()] and [GetThis()->id()]. *)
Definition this_object (s : start_state) : option thread := if GetThis s then obj s else None.

(** [interrupted]: a wait may end because a signal arrives.  [uses]: the callback, while it
    runs, calls [SetName] and reads its object through [GetThis]; [s_call] is its end. *)
Section steps.
Context (interrupted uses : bool).
Inductive start_step : start_state -> start_state -> Prop :=
  | s_create rt s : parent s = Creating -> start_step s (create rt s)
  | s_wait s s' : parent s = Waiting -> sem_wait s = Some s' -> start_step s (set_parent Returned s')
  | s_interrupt s : interrupted = true -> parent s = Waiting -> start_step s (set_parent Returned s)
  | s_init s : child s = Started -> start_step s (run_init s)
  | s_notify s cb : child s = Ready cb -> start_step s (run_notify cb s)
  | s_rename s cb name : uses = true -> child s = Calling cb -> start_step s (default (set_child Crashed s) (SetName name s))
  | s_inspect s cb : uses = true -> child s = Calling cb ->
      start_step s (match this_object s with Some _ => s | None => set_child Crashed s end)
  | s_call s cb : child s = Calling cb -> start_step s (run_call cb s)
  | s_join rt s : parent s = Returned -> child s = Finished -> start_step s (join rt s).1
  | s_destroy s : parent s = Returned -> start_step s (destroy s).
Inductive started (cb : option CB) (name : string) : start_state -> Prop :=
  | started_new : started cb name (new_thread cb name)
  | started_step s s' : started cb name s -> start_step s s' -> started cb name s'.
End steps.

Definition thread_name (name : string) : string := if decide (name = "") then "UNKNOWN" else name.
(** The states of the two threads, when no wait is interrupted; [n'] is the name the callback
    has given the thread. *)
Section synced.
Context (uses : bool) (f : CB) (n : string).
Definition named (n' : string) : Prop := uses = true \/ n' = n.
Definition running (c : child_at) (l : list CB) : Prop := c = Calling (Some f) /\ l = [] \/ c = Finished /\ l = [f].
Inductive synced : start_state -> Prop :=
  | sy_creating : synced (Start (Some (Thread_ (-1) 0 (Some f) n)) 0 Creating NotStarted false "UNKNOWN" [])
  | sy_threw : synced (Start None 0 Threw NotStarted false "UNKNOWN" [])
  | sy_started : synced (Start (Some (Thread_ (-1) handle (Some f) n)) 0 Waiting Started false "UNKNOWN" [])
  | sy_ready : synced (Start (Some (Thread_ tid handle None n)) 0 Waiting (Ready (Some f)) true n [])
  | sy_notified c l n' : running c l -> named n' ->
      synced (Start (Some (Thread_ tid handle None n')) 1 Waiting c true n' l)
  | sy_returned c l h n' : running c l -> named n' ->
      synced (Start (Some (Thread_ tid h None n')) 0 Returned c true n' l)
  | sy_destroyed c l n' : running c l -> named n' -> synced (Start None 0 Destroyed c true n' l)
  | sy_crashed n' : uses = true -> synced (Start None 0 Destroyed Crashed true n' []).
Lemma running_start : running (Calling (Some f)) [].
Proof. by left. Qed.
Lemma running_end : running Finished [f].
Proof. by right. Qed.
Lemma named_same : named n.
Proof. by right. Qed.
Lemma named_other n' : uses = true -> named n'.
Proof. by left. Qed.
#[local] Hint Resolve running_start running_end named_same named_other : core.
Lemma synced_step s s' : synced s -> start_step false uses s s' -> synced s'.
Proof.
  intros Hs Hst. destruct Hst as [rt s Hp|s s' Hp Hw|s Hi|s Hc|s cb Hc|s cb name Hu Hc|s cb Hu Hc|s cb Hc|rt s Hp Hc|s Hp];
    inversion Hs; subst; simpl in *; try discriminate;
    try match goal with H : running _ _ |- _ => destruct H as [[-> ->]|[-> ->]] end; simplify_eq; auto.
  all: try injection Hw as <-; unfold create, join; simpl;
    try (destruct (rt =? 0)); try (destruct (h =? 0)); first [by apply sy_crashed|constructor; auto].
Qed.
End synced.
Lemma started_synced uses f name s : started false uses (Some f) name s -> synced uses f (thread_name name) s.
Proof. induction 1; [constructor|by eapply synced_step]. Qed.

(** C23: starting a thread, if no signal interrupts the constructor's wait: in every
    interleaving, when the constructor has returned, the object holds the kernel's
    number of the thread and its name (UNKNOWN for none, or the name the callback has
    set since), the new thread has its thread-local pointer and the same name, and its
    callback has been taken out of the object; the callback is called once; neither side is
    stuck before the constructor has returned and the callback was called; and the
    thread meets an object that is no more only when its callback uses that object
    ([SetName], [GetThis]) after another thread has destroyed it: if the callback
    does not, or if the object is kept, nothing of this happens. *)
Theorem start_outcome uses f name s :
  started false uses (Some f) name s ->
  (child s = Crashed -> uses = true /\ parent s = Destroyed) /\
  (calls s = [] \/ calls s = [f] /\ child s = Finished) /\
  (parent s = Returned -> exists h n, obj s = Some (Thread_ tid h None n) /\
     t_thread s = true /\ t_thread_name s = n /\ (uses = false -> n = thread_name name)) /\
  (parent s = Returned \/ parent s = Destroyed -> child s = Finished \/ child s = Calling (Some f) \/ child s = Crashed) /\
  (parent s = Threw \/ child s = Crashed \/ (parent s = Returned \/ parent s = Destroyed) /\ child s = Finished \/
   exists s', start_step false uses s s' /\ s' <> s).
Proof.
  intros Hs. pose proof (started_synced uses f name s Hs) as Hy.
  assert (forall n', named uses (thread_name name) n' -> uses = false -> n' = thread_name name) as Hn
    by (intros n' [?|?] ?; congruence).
  assert (forall s', start_step false uses s s' -> s' <> s -> exists s', start_step false uses s s' /\ s' <> s) as Hgo by eauto.
  destruct Hy as [| | | |c l n' Hc Hn'|c l h n' Hc Hn'|c l n' Hc Hn'|n' Hu]; simpl;
    try (destruct Hc as [[-> ->]|[-> ->]]); (split; [done|]); (split; [auto|]); (split; [try done; eauto 10|]);
    (split; [intros [|]; auto; done|]); auto 6; do 3 right.
  - by eapply Hgo; [apply (s_create _ _ 0)|].
  - by eapply Hgo; [apply s_init|].
  - by eapply Hgo; [eapply s_notify|].
  - by eapply Hgo; [eapply s_call|].
  - by eapply Hgo; [eapply s_wait|].
  - by eapply Hgo; [eapply s_call|].
  - by eapply Hgo; [eapply s_call|].
Qed.
End start.

Lemma start_outcome_witness :
  exists s : start_state, started 7 9 false true (Some "work") "worker" s /\ parent s = Returned /\
    exists h n, obj s = Some (Thread_ 7 h None n) /\ t_thread_name s = n.
Proof.
  set (s0 := new_thread (Some "work") "worker"). set (s1 := create 9 0 s0). set (s2 := run_init 7 s1).
  set (s3 := run_notify (Some "work") s2). set (s4 := set_parent Returned (set_sem 0 s3)).
  assert (started 7 9 false true (Some "work") "worker" s4) as Hs.
  { apply (started_step _ _ _ _ _ _ s3); [|by apply (s_wait _ _ _ _ s3 (set_sem 0 s3))].
    apply (started_step _ _ _ _ _ _ s2); [|by apply s_notify].
    apply (started_step _ _ _ _ _ _ s1); [|by apply s_init].
    apply (started_step _ _ _ _ _ _ s0); [apply started_new|by apply s_create]. }
  exists s4. split; [exact Hs|]. split; [reflexivity|].
  destruct (start_outcome 7 9 true "work" "worker" s4 Hs) as (_ & _ & Hr & _). destruct (Hr eq_refl) as (h & n & Ho & _ & Hn & _).
  exists h, n. exact (conj Ho Hn).
Defined.
(** A signal ends the wait: the constructor returns before the thread has its number,
    and when the object is destroyed the thread uses it all the same. *)
Example interrupted_start :
  exists s : start_state, started 7 9 true false (Some "work") "worker" s /\ parent s = Destroyed /\ child s = Crashed.
Proof.
  set (s1 := create 9 0 (new_thread (Some "work") "worker")). set (s2 := set_parent Returned s1).
  set (s3 := destroy s2). exists (run_init 7 s3). split; [|done].
  apply (started_step _ _ _ _ _ _ s3); [|by apply s_init].
  apply (started_step _ _ _ _ _ _ s2); [|by apply s_destroy].
  apply (started_step _ _ _ _ _ _ s1); [|by apply s_interrupt].
  eapply started_step; [apply started_new|by apply s_create].
Qed.
(** The thread runs on after its object was destroyed, and renames itself. *)
Example rename_dangles :
  exists s : start_state, started 7 9 false true (Some "work") "worker" s /\ parent s = Destroyed /\ child s = Crashed.
Proof.
  set (s0 := new_thread (Some "work") "worker"). set (s1 := create 9 0 s0). set (s2 := run_init 7 s1).
  set (s3 := run_notify (Some "work") s2). set (s4 := set_parent Returned (set_sem 0 s3)).
  exists (set_child Crashed (destroy s4)). split; [|done].
  apply (started_step _ _ _ _ _ _ (destroy s4)); [|by apply (s_rename _ _ _ _ (destroy s4) (Some "work") "x")].
  apply (started_step _ _ _ _ _ _ s4); [|by apply s_destroy].
  apply (started_step _ _ _ _ _ _ s3); [|by apply (s_wait _ _ _ _ s3 (set_sem 0 s3))].
  apply (started_step _ _ _ _ _ _ s2); [|by apply s_notify].
  apply (started_step _ _ _ _ _ _ s1); [|by apply s_init].
  apply (started_step _ _ _ _ _ _ s0); [apply started_new|by apply s_create].
Qed.
End Thread.
