(* ===== verification/Util.v ===== *)
(** * Utilities: src/src/util.cpp

    The clocks, and the text of a backtrace.  The calls into the C library are
    parameters: the time of day, the depth of the stack, its symbols, or none when
    there is no memory for them.  The heap is the number of blocks that were allocated
    and not freed. *)

From stdpp Require Import prelude strings.
From Stdlib Require Import ZArith Lia.
From S2P Require Import Prelude Text LogFormatter.

Module Util.
Local Open Scope string_scope.
Local Open Scope list_scope.
Local Open Scope Z_scope.

(** [gettimeofday]: seconds and microseconds. *)
Definition GetCurrentMS (tv_sec tv_usec : Z) : Z := u64 (u64 (tv_sec * 1000) + tv_usec / 1000).
Definition GetCurrentUS (tv_sec tv_usec : Z) : Z := u64 (u64 (u64 (tv_sec * 1000) * 1000) + tv_usec).

Section backtrace.
(** What [::backtrace] and [backtrace_symbols] give for an array of [size] frames. *)
Context (frames : Z -> list string) (symbols_ok : bool).

(** The new names in [bt] and the blocks on the heap. *)
Definition backtrace (size skip : Z) (heap : Z) : list string * Z :=
  let heap := heap + 1 in                                    (* malloc *)
  let strings := frames size in
  if negb symbols_ok then ([], heap)
  else
    let heap := heap + 1 in                                  (* backtrace_symbols *)
    let bt := drop (Z.to_nat (u64 skip)) strings in
    (bt, heap - 1 - 1).
Fixpoint join_lines (prefix : string) (bt : list string) : string :=
  match bt with [] => "" | x :: bt => prefix +:+ x +:+ LogFormatter.newline +:+ join_lines prefix bt end.
Definition backtrace_tostring (size skip : Z) (prefix : string) (heap : Z) : string * Z :=
  let '(bt, heap) := backtrace size skip heap in (join_lines prefix bt, heap).

(** A backtrace frees what it allocates only if the symbols can be found. *)
Lemma backtrace_heap size skip heap : (backtrace size skip heap).2 = if symbols_ok then heap else heap + 1.
Proof. unfold backtrace. destruct symbols_ok; simpl; lia. Qed.
End backtrace.

(** The clocks agree, and do not wrap for the first 278000 years. *)
Lemma clocks_agree tv_sec tv_usec : 0 <= tv_usec < 1000000 -> 0 <= tv_sec < 2 ^ 43 ->
  GetCurrentMS tv_sec tv_usec = tv_sec * 1000 + tv_usec / 1000 /\
  GetCurrentUS tv_sec tv_usec / 1000 = GetCurrentMS tv_sec tv_usec.
Proof.
  intros Hu Hs. unfold GetCurrentMS, GetCurrentUS, u64. pose proof (Z.div_pos tv_usec 1000 ltac:(lia) ltac:(lia)).
  pose proof (Z.div_lt_upper_bound tv_usec 1000 1000 ltac:(lia) ltac:(lia)).
  rewrite (Z.mod_small (tv_sec * 1000)) by lia. rewrite (Z.mod_small (tv_sec * 1000 * 1000)) by lia.
  rewrite !Z.mod_small by lia. split; [done|].
  replace (tv_sec * 1000 * 1000 + tv_usec) with (tv_usec + tv_sec * 1000 * 1000) by lia. rewrite Z.div_add by lia. lia.
Qed.
End Util.
